(* ===== verification/_CoqProject ===== *)
-Q . S2P
Prelude.v
GoStrings.v
Utf8.v
RouterGroups.v
Routes.v
Json.v
JsonText.v
JsonTextFacts.v
Wire.v
Decoded.v
EventHub.v
Store.v
Keyed.v
SqlDB.v
SqlDBFacts.v
SqlTcpFacts.v
SqlGroupFacts.v
Prune.v
Validator.v
Contract.v
Http.v
Sse.v
Handlers.v
HandlerFacts.v
GroupApi.v
Watch.v
SqlHubFacts.v
Api.v
Routing.v
ApiClient.v
Subscribe.v
StreamClient.v
EndToEnd.v
ReadBack.v
ErrorFlow.v
Metrics.v
Main.v
Process.v
Lock.v
Config.v
Connect.v
Uaa.v
Trace.v
TraceFacts.v
Migration.v
Gorm.v
Schema.v
SchemaFacts.v
SchemaRun.v
SqlRows.v
TableClient.v
Historical.v
Startup.v
Shutdown.v
Samples.v
StoreClaims.v
ModelClaims.v
ApiClaims.v
ClientClaims.v
ServerClaims.v
TableClaims.v
SchemaClaims.v
