(* ===== verification/Prelude.v ===== *)
(** A verification of the Cloud Foundry routing API (cloudfoundry/routing-api).

    * The program

    The routing API stores HTTP routes, TCP route mappings and router groups in
    a SQL database, serves them over a JSON API guarded by UAA tokens, and
    streams every change to subscribers (the routers) as server-sent events.
    Routes expire; a pruner deletes them.  Instances elect a leader, migrate the
    schema, seed the configured router groups and start the servers.  A Go
    client package talks to the API.

    A request goes from [apiHandler] (cmd/routing-api/main.go) to a handler
    (handlers/), which checks the token (uaaclient/), decodes and validates the
    body (models/, handlers/validator.go), calls the database (db/db_sql.go) and
    answers.  The database emits an event on one of two hubs for each write; the
    event streams and the metrics reporter read from the hubs.

    * The model

    Go functions are functions of the monad [Go W A] of this file: a world [W]
    is threaded through, and the outcome is a result, an error or a panic, each
    with the world it left.  [wp m w Q X] says that [m] run in [w] ends with [Q],
    or with [X] on an error ([Some e]) or a panic ([None]).  Integers are [Z]
    with [u16], [u32], [i64] where the code can wrap around.  Strings are byte
    strings.  Times and durations are nanoseconds.

    Data:
    - Prelude: errors, the monad, [wp] and its rules, machine integers.
    - GoStrings: strings.Split, Join, EqualFold, strconv.ParseUint, Itoa, Atoi.
      Utf8: runes of a byte string, and what is not UTF-8.
    - RouterGroups: models/router_groups.go (port ranges, validation, YAML).
    - Routes: models/route.go, models/tcp_route.go, models/model.go, event types.
    - Json: the JSON form of these types (struct tags, omitempty, null) and how
      encoding/json decodes it.  JsonText: the text of JSON, written and read as
      encoding/json does; JsonTextFacts: reading what was written.  Wire: the
      records of the API through their text.  Decoded: whatever is decoded fits
      its types.

    Store:
    - EventHub: code.cloudfoundry.org/eventhub, the non-blocking hub.
    - Store: the calls of db/client.go as a class [SqlClient], with the laws of
      a SQL database as a class [SqlLaws], and an in-memory instance with
      injected faults.  A TLS port of 0 may be stored as NULL ([null_tls] says in
      which rows), and is then not equal to 0 in a where clause.  Keyed: tables with unique keys as finite maps.
    - SqlDB: db/db_sql.go, one definition per method.  SqlDBFacts, SqlTcpFacts
      and SqlGroupFacts: each method refines an operation on finite maps.
      SqlHubFacts: every operation keeps the event hubs well formed.
    - Prune: FindExpiredRoutes and CleanupRoutes, one pass and the loop with its
      in-flight flags as a transition system.
    - Contract: the interface db.DB as a class [DB], what it promises as a class
      [DBContract] over an abstract [View] (three maps and the locks), and the
      proof that SqlDB keeps it.  The handlers are verified against the class.

    API:
    - Validator: handlers/validator.go.
    - Http: response writer, request, handlers/errors.go, middleware.go.
      Handlers: routes_handler.go, tcp_route_mappings_handler.go,
      router_groups_handler.go.  HandlerFacts and GroupApi: the status and the
      effect on the view of each handler, on every branch.
    - Sse: the events of go-sse, written and read.  Watch: WatchChanges,
      dispatchWatchEvents and the loop of event_stream_handler.go as a transition
      system with the hub.
    - Api: routes.go, apiHandler, admin/.  Routing: the paths of rata and the
      pattern multiplexer behind its router.

    Client:
    - ApiClient: client.go, event_source.go.  Subscribe: the subscription methods
      and the event source of go-sse with its retries.  StreamClient: from the
      text of a stream to the client's events.
    - EndToEnd: the client's writing methods run against [apiHandler] through a
      transport.  ReadBack: its reading methods and ReservePort.  ErrorFlow: its
      errors.

    Process:
    - Metrics: metrics/metrics.go, the subscription gauges.
    - Main: seeding, route registration, process order, flags.  Process: the
      ordered process group of ifrit.  Lock: the lock acquirer and releaser.
      Startup: main, the UAA client, the configuration file, the validator
      command.  Shutdown: the runners at the end, and the streams then.
    - Config: config/config.go.  Connect: opening the database.
    - Uaa: uaaclient/token_validator.go, token_fetcher.go.
    - Trace: trace/trace.go and the request log of handlers/middleware.go.
      TraceFacts: the secrets of JSON documents in its output.
    - Migration: migration/migration.go and the migrations V0 to V11.

    Tables:
    - Gorm: how gorm makes columns out of the structs of models/ and of their
      historical copies under migration/v0 to v7 (names, tags, defaults).
    - Schema: a SQL database as the migrations see it, with columns, defaults,
      rows and unique indexes; it executes the statements of migration/ and gorm's
      AutoMigrate, on MySQL and on PostgreSQL.  SchemaFacts: what a database of
      each version has, and what the steps do to its tables.  SchemaRun: each
      migration takes a database of one version to the next.
    - SqlRows: the rows that gorm's Create and Save make of records, the records it
      reads from rows, and the where clauses of db/db_sql.go as text, with what they
      select.  The class [Tabled] is what the three record types have in common.
      TableClient: Create, Save, Delete, First and Find on the rows of a table, and
      that they do to its records what [SqlLaws] says.
    - Historical: the TCP mapping of migration/v7 with its rows and what the
      migrations make of them, and the validation of ports of migration/v6.

    - Samples: concrete states.  StoreClaims, ModelClaims, ApiClaims,
      ClientClaims, ServerClaims, TableClaims and SchemaClaims: the properties C1 to
      C40, each with its evaluation.

    * What is shown

    - Store (C1 to C3, C11): saving is an upsert and deleting a removal on the
      map, with exactly one event; a failure leaves everything as it was; a TCP
      mapping whose TLS port is stored as NULL is hidden from both, so that saving
      it again adds another; a pruning pass removes the expired routes and no
      others, or leaves all of them after an error of the database that it saw.  At most one pruner
      runs per table (C34).  Two interleavings that lose or duplicate a route
      (C35).
    - Tables (C19 to C22): the where clauses of the store select the rows of
      exactly the records that the model's predicates accept, and gorm's calls
      change the records in a table as the laws of the store say; the migrations
      bring a database of any earlier version to the latest schema without losing a
      row, a failed run never goes back, and a mapping of version 7 is read as it
      was and found again; but they undo the default 0 of host_tls_port, without
      which a mapping that is new and has no TLS port is not found again.
    - API (C5 to C10): the status code and the change of the store for each
      request, on every branch; every request keeps the store's invariant; a
      refused token stops a request before it reaches the store.  Tokens are
      accepted only with the right form, algorithm, issuer and scope (C26).
    - Client against server (C4, C12, C15, C25, C36, C37): what a client wrote
      without an error is in the server's store, and what it deleted is not, but for
      the hidden mappings, and what it reads is; every
      error of the API reaches it; a route's path reaches that route's handler,
      whatever the order of registration; ReservePort takes the lowest free port,
      except that a group that holds port 65535 makes its loop run for ever; how
      many requests a subscription sends before it stops trying.
    - Data (C16 to C18, C23, C24, C33): whatever bytes arrive, what is decoded
      fits its types; records and JSON documents survive their text; validation
      accepts exactly the requests of a declarative specification (a TTL equal to
      the maximum included); port ranges round-trip, and are checked more strictly
      than in version 6; an incremented tag supersedes the old one unless it wraps.
    - Events (C13, C14, C31, C32): the bytes written to a subscriber are the
      emitted events in order, each once, without gaps as long as no write fails,
      down to the client's [Next], for routes and TCP mappings;
      disconnecting ends the subscription, but the dispatcher can stay blocked.
    - Process (C27 to C30, C38 to C40): what holds once start-up succeeds, and
      exactly when it panics; processes start and stop in order; shutting down ends
      every stream, in every run, after it has written what it had buffered; releasing the lock returns, except that a second signal can
      deadlock it; the route gauge follows the table; configurations are accepted
      exactly when they are valid; tokens and the secrets of JSON objects are not
      printed.

    * Bounds

    [itoa_fuel] gets 20 rounds; an int has at most 19 digits.  The port loops
    of [getNextAvailablePort] take fuel: [port_fuel] is 65536 rounds, more than
    a range has ports below 65535, and is proved to be enough when no group holds
    port 65535; otherwise no fuel is enough.  The JSON reader recurses over the
    nesting depth, which encoding/json limits to 10000 ([maxNestingDepth]), and
    over the length of the text for the elements of one array or object, which is
    proved to be enough.  [replace_all] gets the length of the text, [try_loop]
    the length of the pattern, [replace_words] the length of the name; all shrink
    it in each round.  The attempts of
    [establishConnection] take fuel, one round for each request; C37 says for which
    it is enough and when none is.  All other recursion is structural.

    * Parameters

    The SQL database (gorm), the clock and the UUID generator ([Env],
    [SqlClient], [MigClient]), url.Parse ([NetUrl], [UrlText]),
    time.ParseDuration, YAML, the HTTP transport ([HttpClient], [StreamEnv]), the
    UAA server and the JWT library ([UaaServer], [Jwt]), certificates ([X509]),
    and the libraries that main starts ([StartEnv], [OpenEnv]), with the laws the
    proofs use as classes; the in-memory databases and the toy instances show that
    the laws can hold.  The laws of the database say that a row is read as
    it was written, and C20 proves them of tables.  They leave open which zero TLS
    ports are stored as NULL: that is decided by the default of host_tls_port, which
    C22 is about.  How the server compares texts is a parameter of Schema; of a
    column's type it keeps only whether it is a longtext.  In [EndToEnd] the
    transport hands a request to the handler of its route (Routing shows that the
    path leads there) with the first JSON value of its body.

    * Not modelled

    Logging, dropsonde and the statsd transport, the locket lock itself, sigmon
    and the HTTP servers: they are reached only through what the program passes to
    them.  The gorm wrappers of db/client.go that only tests call.  What is left of
    the historical models under migration/v6 and v7: it is the same text as in
    models/.  The generated fakes, matchers and test helpers, which are no part of the
    program. *)
From Stdlib Require Import ZArith Lia.
From stdpp Require Import base option strings gmap list.

Local Open Scope Z_scope.

(** ** Go errors

    A Go [error] is an interface value.  The program distinguishes only a few
    dynamic types: [db.DBError] (inspected by the handlers through a type
    assertion), [routing_api.Error] (the JSON error the API returns),
    [gorm.ErrRecordNotFound] (compared by identity), and plain strings built
    by [errors.New] and [fmt.Errorf].  [ext_error] stands for an error value
    produced by code outside the repository (the SQL driver, the entropy
    source, the UAA server). *)
Record DBError := mkDBError { DBError_Type : string; DBError_Message : string }.

Record ApiError := mkApiError { ApiError_Type : string; ApiError_Message : string }.

Inductive error :=
| errors_New (msg : string)
| db_error (e : DBError)
| api_error (e : ApiError)
| gorm_ErrRecordNotFound
| ext_error (msg : string).

#[export] Instance DBError_eq_dec : EqDecision DBError.
Proof. solve_decision. Defined.

#[export] Instance ApiError_eq_dec : EqDecision ApiError.
Proof. solve_decision. Defined.

#[export] Instance error_eq_dec : EqDecision error.
Proof. solve_decision. Defined.

(** The [Error() string] method of an error value. *)
Definition Error_string (e : error) : string :=
  match e with
  | errors_New m => m
  | db_error e => DBError_Message e
  | api_error e => ApiError_Message e
  | gorm_ErrRecordNotFound => "record not found"
  | ext_error m => m
  end.

(** ** The Go monad

    A Go function that threads a world [W] and returns [(A, error)].  [Ok]
    is a return with a nil error, [Fail] a return with a non-nil error
    (after which a Go caller does [if err != nil { return err }], which is
    what [mbind] does) and [Panic] a run-time panic (nil dereference, failed
    type assertion, index out of range).  All three carry the world, because
    effects made before the return stay made. *)
Inductive outcome (W A : Type) :=
| Ok (a : A) (w : W)
| Fail (e : error) (w : W)
| Panic (msg : string) (w : W).
Arguments Ok {_ _} _ _.
Arguments Fail {_ _} _ _.
Arguments Panic {_ _} _ _.

Definition Go (W A : Type) : Type := W -> outcome W A.

#[export] Instance Go_ret W : MRet (Go W) := fun A a w => Ok a w.

#[export] Instance Go_bind W : MBind (Go W) := fun A B k m w =>
  match m w with
  | Ok a w1 => k a w1
  | Fail e w1 => Fail e w1
  | Panic s w1 => Panic s w1
  end.

#[export] Instance Go_fmap W : FMap (Go W) := fun A B f m w =>
  match m w with
  | Ok a w1 => Ok (f a) w1
  | Fail e w1 => Fail e w1
  | Panic s w1 => Panic s w1
  end.

Section GoOps.
Context {W A : Type}.

Definition fail (e : error) : Go W A := fun w => Fail e w.

Definition panic (msg : string) : Go W A := fun w => Panic msg w.

Definition get : Go W W := fun w => Ok w w.

Definition modify (f : W -> W) : Go W unit := fun w => Ok tt (f w).

(** [v, err := m()] with the error inspected by the caller instead of
    returned. *)
Definition try (m : Go W A) : Go W (error + A) := fun w =>
  match m w with
  | Ok a w1 => Ok (inr a) w1
  | Fail e w1 => Ok (inl e) w1
  | Panic s w1 => Panic s w1
  end.

(** An external operation [W -> (error + A) * W] as a Go call. *)
Definition call (f : W -> (error + A) * W) : Go W A := fun w =>
  match f w with
  | (inr a, w1) => Ok a w1
  | (inl e, w1) => Fail e w1
  end.

(** [*p] : dereferencing a nil pointer panics. *)
Definition deref (p : option A) : Go W A := fun w =>
  match p with
  | Some a => Ok a w
  | None => Panic "invalid memory address or nil pointer dereference" w
  end.

Definition of_sum (r : error + A) : Go W A := fun w =>
  match r with
  | inr a => Ok a w
  | inl e => Fail e w
  end.
End GoOps.

(** Running a computation on a component of the world. *)
Definition zoom {W V A : Type} (proj : W -> V) (upd : V -> W -> W) (m : Go V A) : Go W A :=
  fun w =>
    match m (proj w) with
    | Ok a v => Ok a (upd v w)
    | Fail e v => Fail e (upd v w)
    | Panic s v => Panic s (upd v w)
    end.

(** [for _, x := range xs { body }] with an error return from the body. *)
Fixpoint for_each {W A : Type} (xs : list A) (body : A -> Go W unit) : Go W unit :=
  match xs with
  | [] => mret tt
  | x :: xs' => body x ≫= fun _ => for_each xs' body
  end.

(** The world an outcome ends in. *)
Definition final {W A : Type} (o : outcome W A) : W :=
  match o with Ok _ w | Fail _ w | Panic _ w => w end.

Definition panics {W A : Type} (o : outcome W A) : bool :=
  match o with Panic _ _ => true | _ => false end.

Lemma bind_Ok {W A B} (m : Go W A) (k : A -> Go W B) w b w' :
  (m ≫= k) w = Ok b w' <-> exists a w1, m w = Ok a w1 /\ k a w1 = Ok b w'.
Proof.
  unfold mbind, Go_bind. destruct (m w) as [a w1|e w1|s w1]; split.
  - eauto.
  - intros (a' & w1' & [= -> ->] & ?); done.
  - done.
  - by intros (? & ? & ? & ?).
  - done.
  - by intros (? & ? & ? & ?).
Qed.

Lemma bind_final {W A B} (m : Go W A) (k : A -> Go W B) w (P : W -> Prop) :
  P (final (m w)) ->
  (forall a w1, m w = Ok a w1 -> P w1 -> P (final (k a w1))) ->
  P (final ((m ≫= k) w)).
Proof.
  unfold mbind, Go_bind. destruct (m w) as [a w1|e w1|s w1]; simpl; eauto.
Qed.

(** *** Invariants of a computation: whatever way it ends, [I] still holds. *)
Definition keeps {W A} (I : W -> Prop) (m : Go W A) : Prop :=
  forall w, I w -> I (final (m w)).

Create HintDb keepsdb.

Lemma keeps_ret {W A} I (a : A) : keeps (W:=W) I (mret a).
Proof. by intros w. Qed.

Lemma keeps_fail {W A} I e : keeps (W:=W) (A:=A) I (fail e).
Proof. by intros w. Qed.

Lemma keeps_panic {W A} I s : keeps (W:=W) (A:=A) I (panic s).
Proof. by intros w. Qed.

Lemma keeps_get {W} I : keeps (W:=W) I get.
Proof. by intros w. Qed.

Lemma keeps_deref {W A} I (p : option A) : keeps (W:=W) I (deref p).
Proof. by destruct p; intros w. Qed.

Lemma keeps_of_sum {W A} I (p : error + A) : keeps (W:=W) I (of_sum p).
Proof. by destruct p; intros w. Qed.

Lemma keeps_bind {W A B} I (m : Go W A) (k : A -> Go W B) :
  keeps I m -> (forall a, keeps I (k a)) -> keeps I (m ≫= k).
Proof. intros Hm Hk w Hw. apply bind_final; [by apply Hm|]. intros; by apply Hk. Qed.

Lemma keeps_fmap {W A B} I (f : A -> B) (m : Go W A) : keeps I m -> keeps I (f <$> m).
Proof.
  intros Hm w Hw. specialize (Hm w Hw). unfold fmap, Go_fmap. by destruct (m w).
Qed.

Lemma keeps_try {W A} I (m : Go W A) : keeps I m -> keeps I (try m).
Proof. intros Hm w Hw. specialize (Hm w Hw). unfold try. by destruct (m w). Qed.

Lemma keeps_for_each {W A} I (xs : list A) (body : A -> Go W unit) :
  (forall x, keeps I (body x)) -> keeps I (for_each xs body).
Proof.
  intros Hb. induction xs as [|x xs IH]; simpl; [apply keeps_ret|].
  apply keeps_bind; auto.
Qed.

#[export] Hint Resolve keeps_ret keeps_fail keeps_panic keeps_get keeps_deref
  keeps_of_sum keeps_bind keeps_fmap keeps_try keeps_for_each : keepsdb.

(** [keeps_step] walks a monadic body: binds, branches and pattern matches. *)
Ltac keeps_step :=
  match goal with
  | |- keeps _ (_ ≫= _) => apply keeps_bind; [|intros ?]
  | |- keeps _ (for_each _ _) => apply keeps_for_each; intros ?
  | |- keeps _ (try _) => apply keeps_try
  | |- keeps _ (if ?b then _ else _) => destruct b
  | |- keeps _ (match ?x with _ => _ end) => destruct x
  | |- keeps _ _ => solve [auto with keepsdb]
  end.
Ltac keeps_tac := repeat (keeps_step; cbn beta iota).

(** *** Symbolic execution

    [wp m w Q X]: run from [w], [m] returns a value and a world in [Q], or
    returns an error ([Some e]) or panics ([None]) in a world in [X]. *)
Definition wp {W A} (m : Go W A) (w : W) (Q : A -> W -> Prop) (X : option error -> W -> Prop) : Prop :=
  match m w with
  | Ok a w' => Q a w'
  | Fail e w' => X (Some e) w'
  | Panic _ w' => X None w'
  end.

Section Wp.
Context {W : Type}.
Implicit Types (w : W).

Lemma wp_ret {A} (a : A) w Q X : Q a w -> wp (mret a) w Q X.
Proof. done. Qed.

Lemma wp_fail {A} e w (Q : A -> W -> Prop) X : X (Some e) w -> wp (fail e) w Q X.
Proof. done. Qed.

Lemma wp_get w Q X : Q w w -> wp get w Q X.
Proof. done. Qed.

Lemma wp_modify f w Q X : Q tt (f w) -> wp (modify f) w Q X.
Proof. done. Qed.

Lemma wp_deref {A} (p : option A) w Q X :
  (forall a, p = Some a -> Q a w) -> (p = None -> X None w) -> wp (deref p) w Q X.
Proof. destruct p; unfold wp; simpl; auto. Qed.

Lemma wp_bind {A B} (m : Go W A) (k : A -> Go W B) w Q X :
  wp m w (fun a w' => wp (k a) w' Q X) X -> wp (m ≫= k) w Q X.
Proof. unfold wp, mbind, Go_bind. by destruct (m w). Qed.

Lemma wp_bind_inv {A B} (m : Go W A) (k : A -> Go W B) w Q X :
  wp (m ≫= k) w Q X -> wp m w (fun a w' => wp (k a) w' Q X) X.
Proof. unfold wp, mbind, Go_bind. by destruct (m w). Qed.

(** A call whose result is known. *)
Lemma wp_run {A B} (m : Go W A) (k : A -> Go W B) w a w' Q X :
  m w = Ok a w' -> wp (k a) w' Q X -> wp (m ≫= k) w Q X.
Proof. unfold wp, mbind, Go_bind. by intros ->. Qed.

Lemma wp_fmap {A B} (f : A -> B) (m : Go W A) w Q X :
  wp m w (fun a w' => Q (f a) w') X -> wp (f <$> m) w Q X.
Proof. unfold wp, fmap, Go_fmap. by destruct (m w). Qed.

Lemma wp_try {A} (m : Go W A) w Q X :
  wp m w (fun a w' => Q (inr a) w')
    (fun e w' => match e with Some e => Q (inl e) w' | None => X None w' end) ->
  wp (try m) w Q X.
Proof. unfold wp, try. by destruct (m w). Qed.

Lemma wp_mono {A} (m : Go W A) w (Q Q' : A -> W -> Prop) (X X' : option error -> W -> Prop) :
  wp m w Q X -> (forall a w', Q a w' -> Q' a w') -> (forall e w', X e w' -> X' e w') -> wp m w Q' X'.
Proof. unfold wp. destruct (m w); auto. Qed.

(** Reading a result off a [wp]. *)
Lemma wp_Ok {A} (m : Go W A) w a w' Q X : m w = Ok a w' -> wp m w Q X -> Q a w'.
Proof. unfold wp. by intros ->. Qed.

End Wp.

(** The computation returns without error: read off by evaluation. *)
Definition returns {W A} (m : Go W A) (w : W) : bool := match m w with Ok _ _ => true | _ => false end.

Lemma wp_returns {W A} (m : Go W A) (w : W) (Q : A -> W -> Prop) X :
  returns m w = true -> wp m w Q X -> exists a, m w = Ok a (final (m w)) /\ Q a (final (m w)).
Proof. unfold returns, wp. destruct (m w) as [a w'| |]; try done. eauto. Qed.

(** Deciding a closed proposition by evaluation. *)
Ltac by_evaluation := apply (bool_decide_unpack _); vm_compute; exact I.

(** ** Machine integers *)
Definition u16 (z : Z) : Z := z `mod` 65536.
Definition u32 (z : Z) : Z := z `mod` 4294967296.
Definition i64 (z : Z) : Z := (z + 9223372036854775808) `mod` 18446744073709551616 - 9223372036854775808.

Definition is_u16 (z : Z) : Prop := 0 <= z <= 65535.
Definition is_u32 (z : Z) : Prop := 0 <= z <= 4294967295.
Definition is_i64 (z : Z) : Prop := -9223372036854775808 <= z <= 9223372036854775807.

#[export] Instance is_u16_dec z : Decision (is_u16 z).
Proof. unfold is_u16. apply _. Defined.
#[export] Instance is_u32_dec z : Decision (is_u32 z).
Proof. unfold is_u32. apply _. Defined.
#[export] Instance is_i64_dec z : Decision (is_i64 z).
Proof. unfold is_i64. apply _. Defined.

Lemma u16_id z : is_u16 z -> u16 z = z.
Proof. unfold is_u16, u16. intros. apply Z.mod_small. lia. Qed.

Lemma u16_range z : is_u16 (u16 z).
Proof. unfold is_u16, u16. pose proof (Z.mod_pos_bound z 65536). lia. Qed.

Lemma u32_id z : is_u32 z -> u32 z = z.
Proof. unfold is_u32, u32. intros. apply Z.mod_small. lia. Qed.

Lemma u32_range z : is_u32 (u32 z).
Proof. unfold is_u32, u32. pose proof (Z.mod_pos_bound z 4294967296). lia. Qed.

Lemma i64_id z : is_i64 z -> i64 z = z.
Proof. unfold is_i64, i64. intros. rewrite Z.mod_small by lia. lia. Qed.

(** ** Lists *)
Section ListLemmas.
Context {A : Type}.
Implicit Types (l : list A).

Lemma filter_none (P : A -> Prop) `{!forall x, Decision (P x)} l :
  filter P l = [] <-> forall x, x ∈ l -> ~ P x.
Proof.
  induction l as [|x l IH]; simpl; [set_solver|].
  rewrite filter_cons. case_decide; split; try done.
  - intros Hl. exfalso. apply (Hl x); [set_solver|done].
  - rewrite IH. intros H1 y [->|Hy]%elem_of_cons; auto.
  - intros Hl. apply IH. intros y Hy. apply Hl. set_solver.
Qed.
End ListLemmas.
