(* ===== verification/GoStrings.v ===== *)
(** GoStrings: the parts of the Go packages [strings] and [strconv] that the
    repository uses, on byte strings, with their round trips.  [Split] is
    modelled for the one-byte separators the code passes (comma, dash, space). *)
From Stdlib Require Import ZArith Lia Ascii.
From stdpp Require Import base option strings gmap list.
From S2P Require Import Prelude.

Local Open Scope string_scope.
Local Open Scope Z_scope.

(** [strings.Split(s, sep)] for a one-byte separator: the empty string gives
    one empty field. *)
Fixpoint Split (sep : ascii) (s : string) : list string :=
  match s with
  | EmptyString => [""]
  | String c s' =>
      if bool_decide (c = sep) then "" :: Split sep s'
      else match Split sep s' with
           | f :: fs => String c f :: fs
           | [] => [String c ""]
           end
  end.

(** [strings.Join(xs, sep)]. *)
Fixpoint Join (sep : string) (xs : list string) : string :=
  match xs with
  | [] => ""
  | [x] => x
  | x :: xs' => x +:+ sep +:+ Join sep xs'
  end.

(** [strings.HasPrefix(s, p)]. *)
Fixpoint HasPrefix (s p : string) : bool :=
  match p, s with
  | EmptyString, _ => true
  | String _ _, EmptyString => false
  | String a p', String b s' => bool_decide (a = b) && HasPrefix s' p'
  end.

(** [s[n:]]. *)
Fixpoint drop_string (n : nat) (s : string) : string :=
  match n, s with
  | S n', String _ s' => drop_string n' s'
  | _, _ => s
  end.

Fixpoint string_mem (c : ascii) (s : string) : bool :=
  match s with
  | EmptyString => false
  | String d s' => bool_decide (c = d) || string_mem c s'
  end.

(** [strings.ContainsAny(s, chars)] for ASCII [chars]. *)
Fixpoint ContainsAny (s chars : string) : bool :=
  match s with
  | EmptyString => false
  | String c s' => string_mem c chars || ContainsAny s' chars
  end.

Definition lower (c : ascii) : ascii :=
  let n := nat_of_ascii c in
  if (65 <=? n)%nat && (n <=? 90)%nat then ascii_of_nat (n + 32) else c.

(** Case folding for comparing with ASCII text: ASCII letters, and the two other
    runes that fold to ASCII ones, U+017F to s and U+212A (the Kelvin sign) to k. *)
Fixpoint fold_case (s : string) : string :=
  match s with
  | EmptyString => EmptyString
  | String c s1 =>
      let unfolded := String (lower c) (fold_case s1) in
      match s1 with
      | EmptyString => unfolded
      | String d s2 =>
          if (nat_of_ascii c =? 197)%nat && (nat_of_ascii d =? 191)%nat then String "s" (fold_case s2)
          else
            match s2 with
            | EmptyString => unfolded
            | String e s3 =>
                if (nat_of_ascii c =? 226)%nat && (nat_of_ascii d =? 132)%nat && (nat_of_ascii e =? 170)%nat
                then String "k" (fold_case s3) else unfolded
            end
      end
  end.

(** [strings.EqualFold(s, t)], and encoding/json's comparison of member names,
    when one side is ASCII (a field name, ["bearer"]). *)
Definition EqualFold (s t : string) : bool := bool_decide (fold_case s = fold_case t).
#[global] Arguments EqualFold : simpl never.
#[global] Opaque EqualFold.

Example EqualFold_long_s : EqualFold (String (ascii_of_nat 197) (String (ascii_of_nat 191) "Ni")) "sni" = true.
Proof. vm_compute. reflexivity. Qed.

Definition digit_val (c : ascii) : option Z :=
  let n := Z.of_nat (nat_of_ascii c) in
  if (48 <=? n) && (n <=? 57) then Some (n - 48) else None.

(** The loop of [strconv.ParseUint(s, 10, bitSize)] with [max] the largest
    value of the width: a byte that is not a decimal digit is a syntax error
    and a value above [max] a range error; the callers only ask whether there
    was an error. *)
Fixpoint ParseUint_loop (max : Z) (s : string) (n : Z) : option Z :=
  match s with
  | EmptyString => Some n
  | String c s' =>
      match digit_val c with
      | None => None
      | Some d =>
          let n1 := n * 10 + d in
          if max <? n1 then None else ParseUint_loop max s' n1
      end
  end.

(** [strconv.ParseUint(s, 10, bitSize)]. *)
Definition ParseUint (s : string) (bitSize : Z) : option Z :=
  match s with
  | EmptyString => None
  | _ => ParseUint_loop (2 ^ bitSize - 1) s 0
  end.

Definition digit_char (d : Z) : ascii := ascii_of_nat (Z.to_nat (d + 48)).

(** Decimal digits of a non-negative number; [fuel] bounds the digits. *)
Fixpoint itoa_fuel (fuel : nat) (n : Z) : string :=
  match fuel with
  | O => ""
  | S f =>
      if n <? 10 then String (digit_char n) ""
      else itoa_fuel f (n / 10) +:+ String (digit_char (n `mod` 10)) ""
  end.

(** [strconv.Itoa] and the [%d] verb: an [int] has at most 19 digits. *)
Definition Itoa (z : Z) : string :=
  if z <? 0 then "-" +:+ itoa_fuel 20 (- z) else itoa_fuel 20 z.

(** [strconv.Atoi] on a digit string (the code only feeds it port numbers). *)
Definition Atoi (s : string) : option Z :=
  match s with
  | EmptyString => None
  | String "-" s' => match s' with
                     | EmptyString => None
                     | _ => Z.opp <$> ParseUint_loop 9223372036854775808 s' 0
                     end
  | String "+" s' => match s' with
                     | EmptyString => None
                     | _ => ParseUint_loop 9223372036854775807 s' 0
                     end
  | _ => ParseUint_loop 9223372036854775807 s 0
  end.

(** ** Splitting and joining *)
Lemma length_app_string (a b : string) : String.length (a +:+ b) = (String.length a + String.length b)%nat.
Proof. induction a as [|c a IH]; [done|]. exact (f_equal S IH). Qed.

Lemma Split_nonempty sep s : Split sep s <> [].
Proof. destruct s; simpl; [done|]. case_bool_decide; [done|]. by destruct (Split _ _). Qed.

Lemma Split_cons sep s : exists f fs, Split sep s = f :: fs.
Proof. pose proof (Split_nonempty sep s). destruct (Split sep s); [done|eauto]. Qed.

Lemma Split_no_sep sep s : string_mem sep s = false -> Split sep s = [s].
Proof.
  induction s as [|c s IH]; simpl; [done|].
  rewrite orb_false_iff. intros [Hc Hs]. rewrite (IH Hs).
  apply bool_decide_eq_false in Hc. case_bool_decide; congruence.
Qed.

Lemma Split_app sep a b :
  string_mem sep a = false -> Split sep (a +:+ String sep b) = a :: Split sep b.
Proof.
  induction a as [|c a IH]; simpl.
  - intros _. by rewrite bool_decide_eq_true_2.
  - rewrite orb_false_iff. intros [Hc Ha]. apply bool_decide_eq_false in Hc.
    rewrite bool_decide_eq_false_2 by congruence.
    by rewrite (IH Ha).
Qed.

Lemma Join_cons2 sep x y ys : Join sep (x :: y :: ys) = x +:+ sep +:+ Join sep (y :: ys).
Proof. reflexivity. Qed.

Lemma Split_Join sep xs :
  xs <> [] -> Forall (fun x => string_mem sep x = false) xs ->
  Split sep (Join (String sep "") xs) = xs.
Proof.
  intros Hne Hall. induction Hall as [|x xs Hx Hxs IH]; [done|].
  destruct xs as [|y ys]; [by apply Split_no_sep|].
  rewrite Join_cons2.
  change (String sep "" +:+ Join (String sep "") (y :: ys))
    with (String sep (Join (String sep "") (y :: ys))).
  rewrite Split_app by done. f_equal. by apply IH.
Qed.

Lemma string_mem_app c a b : string_mem c (a +:+ b) = string_mem c a || string_mem c b.
Proof. induction a as [|d a IH]; simpl; [done|]. rewrite IH. by rewrite orb_assoc. Qed.

Lemma string_app_assoc (a b c : string) : (a +:+ b) +:+ c = a +:+ (b +:+ c).
Proof. induction a as [|x a IH]; [done|]. exact (f_equal (String x) IH). Qed.

(** ** Printing and parsing numbers *)
Lemma digit_val_char d : 0 <= d < 10 -> digit_val (digit_char d) = Some d.
Proof.
  intros Hd. unfold digit_val, digit_char.
  rewrite nat_ascii_embedding by lia. rewrite Z2Nat.id by lia.
  rewrite (proj2 (Z.leb_le _ _)), (proj2 (Z.leb_le _ _)) by lia. simpl. f_equal. lia.
Qed.

Lemma digit_char_ne d c :
  0 <= d < 10 -> digit_val c = None -> bool_decide (c = digit_char d) = false.
Proof.
  intros Hd Hc. apply bool_decide_eq_false. intros ->. by rewrite digit_val_char in Hc.
Qed.

Lemma itoa_fuel_no_char fuel n c :
  digit_val c = None -> 0 <= n -> string_mem c (itoa_fuel fuel n) = false.
Proof.
  intros Hc. revert n. induction fuel as [|f IH]; intros n Hn; simpl; [done|].
  destruct (Z.ltb_spec n 10).
  - simpl. by rewrite digit_char_ne by (done || lia).
  - rewrite string_mem_app. rewrite IH by (apply Z.div_pos; lia). simpl.
    pose proof (Z.mod_pos_bound n 10). by rewrite digit_char_ne by (done || lia).
Qed.

Lemma Itoa_no_char n c : digit_val c = None -> 0 <= n -> string_mem c (Itoa n) = false.
Proof.
  intros Hc Hn. unfold Itoa. destruct (Z.ltb_spec n 0); [lia|]. by apply itoa_fuel_no_char.
Qed.

Lemma ParseUint_loop_app max a b n :
  ParseUint_loop max (a +:+ b) n = ParseUint_loop max a n ≫= ParseUint_loop max b.
Proof.
  revert n. induction a as [|c a IH]; intros n; simpl; [done|].
  destruct (digit_val c); simpl; [|done]. destruct (max <? _); simpl; [done|]. apply IH.
Qed.

Lemma ParseUint_loop_itoa max fuel n :
  0 <= n <= max -> n < 10 ^ Z.of_nat fuel ->
  ParseUint_loop max (itoa_fuel fuel n) 0 = Some n.
Proof.
  revert n. induction fuel as [|f IH]; intros n Hn Hf.
  { simpl in *. f_equal. lia. }
  simpl itoa_fuel. destruct (Z.ltb_spec n 10).
  - cbn [ParseUint_loop]. rewrite digit_val_char by lia.
    destruct (Z.ltb_spec max (0 * 10 + n)); [lia|]. f_equal; lia.
  - rewrite ParseUint_loop_app, IH; simpl.
    + pose proof (Z.mod_pos_bound n 10). rewrite digit_val_char by lia.
      pose proof (Z.div_mod n 10). destruct (Z.ltb_spec max (n / 10 * 10 + n `mod` 10)); [lia|].
      f_equal. lia.
    + split; [apply Z.div_pos; lia|]. etrans; [apply Z.div_le_upper_bound with (q := n); lia|]. lia.
    + apply Z.div_lt_upper_bound; [lia|].
      replace (10 * 10 ^ Z.of_nat f) with (10 ^ Z.of_nat (S f)); [done|].
      rewrite Nat2Z.inj_succ, Z.pow_succ_r by lia. lia.
Qed.

Lemma itoa_fuel_nonempty f n : itoa_fuel (S f) n <> "".
Proof. simpl. destruct (n <? 10); [done|]. by destruct (itoa_fuel f (n / 10)). Qed.

(** [strconv.ParseUint(strconv.Itoa(n), 10, 16)] gives [n] back. *)
Lemma ParseUint_Itoa n : is_u16 n -> ParseUint (Itoa n) 16 = Some n.
Proof.
  unfold is_u16. intros Hn. unfold Itoa. destruct (Z.ltb_spec n 0); [lia|].
  unfold ParseUint. pose proof (itoa_fuel_nonempty 19 n).
  destruct (itoa_fuel 20 n) eqn:E; [done|]. rewrite <- E.
  apply ParseUint_loop_itoa; simpl; lia.
Qed.

Lemma ParseUint_loop_range max s n r :
  0 <= n <= max -> ParseUint_loop max s n = Some r -> 0 <= r <= max.
Proof.
  revert n. induction s as [|c s IH]; intros n Hn; simpl; [intros [= <-]; lia|].
  unfold digit_val. destruct (_ && _) eqn:Hd; [|done].
  apply andb_true_iff in Hd as [Hd1%Z.leb_le Hd2%Z.leb_le].
  destruct (Z.ltb_spec max (n * 10 + (Z.of_nat (nat_of_ascii c) - 48))); [done|].
  apply IH. lia.
Qed.

Lemma ParseUint_range s n : ParseUint s 16 = Some n -> is_u16 n.
Proof.
  unfold ParseUint, is_u16. destruct s; [done|]. intros H.
  apply ParseUint_loop_range in H; simpl in *; lia.
Qed.

Lemma Atoi_Itoa n : is_u16 n -> Atoi (Itoa n) = Some n.
Proof.
  unfold is_u16. intros Hn. unfold Itoa. destruct (Z.ltb_spec n 0); [lia|].
  pose proof (itoa_fuel_no_char 20 n "-"%char eq_refl ltac:(lia)) as Hminus.
  pose proof (itoa_fuel_no_char 20 n "+"%char eq_refl ltac:(lia)) as Hplus.
  pose proof (ParseUint_loop_itoa 9223372036854775807 20 n ltac:(lia) ltac:(simpl; lia)) as Hp.
  pose proof (itoa_fuel_nonempty 19 n).
  unfold Atoi. destruct (itoa_fuel 20 n) as [|c s]; [done|].
  simpl in Hminus, Hplus. apply orb_false_iff in Hminus as [Hm _], Hplus as [Hp' _].
  apply bool_decide_eq_false in Hm, Hp'.
  repeat match goal with
  | |- match ?x with _ => _ end = _ => destruct x
  end; congruence.
Qed.
