(* ===== verification/Utf8.v ===== *)
(** Utf8: the package unicode/utf8 as encoding/json uses it.  A byte string is
    read as runes: ASCII bytes, multi-byte encodings, and bytes that do not
    start a valid encoding, which decode to U+FFFD of size one. *)
From Stdlib Require Import ZArith Lia Ascii.
From stdpp Require Import base option strings list.
From S2P Require Import Prelude GoStrings.

Local Open Scope string_scope.
Local Open Scope Z_scope.

Definition byte_val (c : ascii) : Z := Z.of_N (N_of_ascii c).

Definition byte (z : Z) : ascii := ascii_of_N (Z.to_N z).

Definition within (lo hi : Z) (c : ascii) : bool := (lo <=? byte_val c) && (byte_val c <=? hi).

(** [c < utf8.RuneSelf]. *)
Definition ascii_byte (c : ascii) : bool := byte_val c <? 128.

(** The second byte's range depends on the first: no overlong forms, no
    surrogates, nothing above U+10FFFF. *)
Definition second_ok (a b : ascii) : bool :=
  let n := byte_val a in
  if n =? 224 then within 160 191 b
  else if n =? 237 then within 128 159 b
  else if n =? 240 then within 144 191 b
  else if n =? 244 then within 128 143 b
  else within 128 191 b.

Definition two (a b : ascii) : bool := within 194 223 a && second_ok a b.
Definition three (a b c : ascii) : bool := within 224 239 a && second_ok a b && within 128 191 c.
Definition four (a b c d : ascii) : bool :=
  within 240 244 a && second_ok a b && within 128 191 c && within 128 191 d.

Inductive rune :=
| RByte (c : ascii)
| RMulti (enc : string)
| RBad (c : ascii).

#[export] Instance rune_eq_dec : EqDecision rune.
Proof. solve_decision. Defined.

Definition bytes2 (a b : ascii) : string := String a (String b "").
Definition bytes3 (a b c : ascii) : string := String a (bytes2 b c).
Definition bytes4 (a b c d : ascii) : string := String a (bytes3 b c d).

(** [utf8.DecodeRune] until the end of the input. *)
Fixpoint runes (s : string) : list rune :=
  match s with
  | EmptyString => []
  | String a s1 =>
      if ascii_byte a then RByte a :: runes s1
      else
        match s1 with
        | String b s2 =>
            if two a b then RMulti (bytes2 a b) :: runes s2
            else
              match s2 with
              | String c s3 =>
                  if three a b c then RMulti (bytes3 a b c) :: runes s3
                  else
                    match s3 with
                    | String d s4 =>
                        if four a b c d then RMulti (bytes4 a b c d) :: runes s4 else RBad a :: runes s1
                    | EmptyString => RBad a :: runes s1
                    end
              | EmptyString => RBad a :: runes s1
              end
        | EmptyString => [RBad a]
        end
  end.

(** The encoding of U+FFFD. *)
Definition replacement : string := bytes3 (byte 239) (byte 191) (byte 189).

Definition rune_text (r : rune) : string :=
  match r with
  | RByte c => String c ""
  | RMulti enc => enc
  | RBad _ => replacement
  end.

Fixpoint concat (ss : list string) : string :=
  match ss with
  | [] => ""
  | s :: ss' => s +:+ concat ss'
  end.

(** Every invalid byte replaced, as [strings.ToValidUTF8] and encoding/json do. *)
Definition coerce (s : string) : string := concat (rune_text <$> runes s).

Definition is_bad (r : rune) : bool := match r with RBad _ => true | _ => false end.

(** [utf8.ValidString]. *)
Definition valid_utf8 (s : string) : bool := forallb (fun r => negb (is_bad r)) (runes s).

(** [utf8.EncodeRune] of a code point below U+110000 that is no surrogate. *)
Definition EncodeRune (r : Z) : string :=
  if r <? 128 then String (byte r) ""
  else if r <? 2048 then bytes2 (byte (192 + r / 64)) (byte (128 + r `mod` 64))
  else if r <? 65536 then
    bytes3 (byte (224 + r / 4096)) (byte (128 + (r / 64) `mod` 64)) (byte (128 + r `mod` 64))
  else
    bytes4 (byte (240 + r / 262144)) (byte (128 + (r / 4096) `mod` 64))
      (byte (128 + (r / 64) `mod` 64)) (byte (128 + r `mod` 64)).

(** ** Reading back what was written *)
Definition multi_ok (s : string) : bool :=
  match s with
  | String a (String b EmptyString) => two a b
  | String a (String b (String c EmptyString)) => three a b c
  | String a (String b (String c (String d EmptyString))) => four a b c d
  | _ => false
  end.

(** A rune that stands for a code point, in its only encoding. *)
Definition rune_ok (r : rune) : bool :=
  match r with
  | RByte c => ascii_byte c
  | RMulti enc => multi_ok enc
  | RBad _ => false
  end.

Lemma within_iff lo hi c : within lo hi c = true <-> lo <= byte_val c <= hi.
Proof. unfold within. rewrite andb_true_iff, !Z.leb_le. done. Qed.

Lemma multi_first lo hi a : 128 <= lo -> within lo hi a = true -> ascii_byte a = false.
Proof. rewrite within_iff. unfold ascii_byte. intros. apply Z.ltb_ge. lia. Qed.

Lemma within_disjoint lo hi lo' hi' a : within lo hi a = true -> hi < lo' \/ hi' < lo -> within lo' hi' a = false.
Proof. rewrite within_iff. intros H H'. apply not_true_is_false. rewrite within_iff. lia. Qed.

Lemma runes_ascii c t : ascii_byte c = true -> runes (String c t) = RByte c :: runes t.
Proof. intros H. simpl. by rewrite H. Qed.

Lemma runes_two a b t : two a b = true -> runes (bytes2 a b +:+ t) = RMulti (bytes2 a b) :: runes t.
Proof.
  intros H. pose proof H as [Ha _]%andb_true_iff. simpl.
  rewrite (multi_first 194 223) by (done || lia). by rewrite H.
Qed.

Lemma runes_three a b c t : three a b c = true -> runes (bytes3 a b c +:+ t) = RMulti (bytes3 a b c) :: runes t.
Proof.
  intros H. pose proof H as [[Ha _]%andb_true_iff _]%andb_true_iff. simpl.
  rewrite (multi_first 224 239) by (done || lia).
  assert (two a b = false) as -> by (unfold two; rewrite (within_disjoint 224 239) by (done || lia); done).
  by rewrite H.
Qed.

Lemma runes_four a b c d t :
  four a b c d = true -> runes (bytes4 a b c d +:+ t) = RMulti (bytes4 a b c d) :: runes t.
Proof.
  intros H. pose proof H as [[[Ha _]%andb_true_iff _]%andb_true_iff _]%andb_true_iff. simpl.
  rewrite (multi_first 240 244) by (done || lia).
  assert (two a b = false) as -> by (unfold two; rewrite (within_disjoint 240 244) by (done || lia); done).
  assert (three a b c = false) as -> by (unfold three; rewrite (within_disjoint 240 244) by (done || lia); done).
  by rewrite H.
Qed.

(** A written rune is read back, whatever follows. *)
Lemma runes_text r t : rune_ok r = true -> runes (rune_text r +:+ t) = r :: runes t.
Proof.
  destruct r as [c|enc|c]; simpl; [apply runes_ascii| |done].
  destruct enc as [|a [|b [|c [|d [|e enc]]]]]; try done; simpl; intros H.
  - by apply runes_two.
  - by apply runes_three.
  - by apply runes_four.
Qed.

Lemma runes_concat rs t :
  forallb rune_ok rs = true -> runes (concat (rune_text <$> rs) +:+ t) = (rs ++ runes t)%list.
Proof.
  induction rs as [|r rs IH]; intros H; [done|]. apply andb_true_iff in H as [Hr Hrs].
  csimpl. rewrite string_app_assoc, runes_text by done. by rewrite IH.
Qed.

(** Induction along the runes of a string. *)
Lemma runes_ind (P : string -> Prop) :
  P "" ->
  (forall r t, rune_ok r = true -> P t -> P (rune_text r +:+ t)) ->
  (forall a t, runes (String a t) = RBad a :: runes t -> P t -> P (String a t)) ->
  forall s, P s.
Proof.
  intros H0 Hr Hb. enough (forall n s, (String.length s <= n)%nat -> P s) as H by (intros s; by apply (H (String.length s))).
  induction n as [|n IH]; intros s Hlen; [destruct s; [done|simpl in Hlen; lia]|].
  destruct s as [|a s1]; [done|]. simpl in Hlen.
  destruct (ascii_byte a) eqn:Ha; [apply (Hr (RByte a)); [done|apply IH; lia]|].
  destruct s1 as [|b s2]; [apply Hb; [simpl; by rewrite Ha|done]|]. simpl in Hlen.
  destruct (two a b) eqn:H2; [apply (Hr (RMulti (bytes2 a b))); [done|apply IH; lia]|].
  destruct s2 as [|c s3]; [apply Hb; [simpl; by rewrite Ha, H2|apply IH; simpl; lia]|]. simpl in Hlen.
  destruct (three a b c) eqn:H3; [apply (Hr (RMulti (bytes3 a b c))); [done|apply IH; lia]|].
  destruct s3 as [|d s4]; [apply Hb; [simpl; by rewrite Ha, H2, H3|apply IH; simpl; lia]|]. simpl in Hlen.
  destruct (four a b c d) eqn:H4; [apply (Hr (RMulti (bytes4 a b c d))); [done|apply IH; lia]|].
  apply Hb; [simpl; by rewrite Ha, H2, H3, H4|apply IH; simpl; lia].
Qed.

Lemma runes_ok s : Forall (fun r => rune_ok r = true \/ is_bad r = true) (runes s).
Proof.
  revert s. apply runes_ind; [constructor| |].
  - intros r t Hr Ht. rewrite runes_text by done. constructor; auto.
  - intros a t -> Ht. constructor; auto.
Qed.

(** Valid text is left as it is. *)
Lemma coerce_valid s : valid_utf8 s = true -> coerce s = s.
Proof.
  revert s. apply (runes_ind (fun s => valid_utf8 s = true -> coerce s = s)); [done| |]; unfold valid_utf8, coerce.
  - intros r t Hr IH. rewrite runes_text by done. csimpl. intros [_ H]%andb_true_iff. by rewrite IH.
  - intros a t -> IH. done.
Qed.

(** The text after coercion is valid, so coercion is idempotent. *)
Lemma coerce_is_valid s : valid_utf8 (coerce s) = true.
Proof.
  unfold valid_utf8, coerce. induction (runes_ok s) as [|r rs Hr _ IH]; [done|]. csimpl.
  destruct r as [c|enc|c]; [| |rewrite (runes_text (RMulti replacement)) by reflexivity; exact IH];
    (destruct Hr as [Hr|Hr]; [|done]); rewrite runes_text by done; exact IH.
Qed.

(** Reading splits in front of an ASCII byte. *)
Lemma runes_app_ascii s c t :
  ascii_byte c = true -> runes (s +:+ String c t) = (runes s ++ runes (String c t))%list.
Proof.
  intros Hc. assert (forall lo hi, 128 <= lo -> within lo hi c = false) as Hlow.
  { intros lo hi Hlo. unfold ascii_byte in Hc. apply Z.ltb_lt in Hc. apply not_true_is_false.
    rewrite within_iff. lia. }
  assert (forall a, second_ok a c = false) as Hsec
    by (intros a; unfold second_ok; rewrite !Hlow by lia; by repeat case_match).
  revert s. apply runes_ind; [done| |].
  - intros r u Hr IH. rewrite string_app_assoc, !runes_text by done. by rewrite IH.
  - intros a u Hu IH. rewrite Hu. change (String a u +:+ String c t) with (String a (u +:+ String c t)).
    change ((RBad a :: runes u) ++ runes (String c t))%list with (RBad a :: (runes u ++ runes (String c t)))%list.
    rewrite <- IH. revert Hu. clear IH. simpl. destruct (ascii_byte a); [done|].
    assert (two a c = false) as Htwo by (unfold two; rewrite Hsec; by rewrite andb_false_r).
    assert (forall b, three a b c = false) as Hthree by (intros; unfold three; rewrite Hlow by lia; by rewrite andb_false_r).
    assert (forall b d, four a b d c = false) as Hfour by (intros; unfold four; rewrite Hlow by lia; by rewrite andb_false_r).
    assert (forall d, three a c d = false) as Hthree' by (intros; unfold three; rewrite Hsec; by rewrite andb_false_r).
    assert (forall d e, four a c d e = false) as Hfour' by (intros; unfold four; rewrite Hsec; by rewrite andb_false_r).
    assert (forall b e, four a b c e = false) as Hfour2
      by (intros; unfold four; rewrite (Hlow 128 191) by lia; by rewrite andb_false_r).
    destruct u as [|b [|d [|e u]]]; simpl.
    + rewrite Htwo. destruct t as [|x [|y t]]; [done|by rewrite Hthree'|]. rewrite Hthree'. by rewrite Hfour'.
    + destruct (two a b); [done|]. destruct t as [|x t]; by rewrite ?Hthree, ?Hfour2.
    + destruct (two a b); [done|]. destruct (three a b d); [done|]. by rewrite Hfour.
    + destruct (two a b); [done|]. destruct (three a b d); [done|]. by destruct (four a b d e).
Qed.
