(* ===== verification/RouterGroups.v ===== *)
(** RouterGroups: models/router_groups.go and models/model.go.  Router groups,
    the reservable port syntax, port ranges and their validation, together
    with the older [Overlaps] of migration/v6. *)
From Stdlib Require Import ZArith Lia Ascii.
From stdpp Require Import base option strings gmap list.
From S2P Require Import Prelude GoStrings.

Local Open Scope string_scope.
Local Open Scope Z_scope.

(** ** Data *)

(** A [time.Time] is the number of nanoseconds since the Unix epoch; the zero
    value of the type is January 1 of year 1. *)
Definition zero_time : Z := -62135596800000000000.

Record Model := mkModel {
  Model_Guid : string;
  Model_CreatedAt : Z;
  Model_UpdatedAt : Z
}.

Definition zero_Model : Model := mkModel "" zero_time zero_time.

(** [RouterGroupType] and [ReservablePorts] are named string types. *)
Definition RouterGroup_TCP : string := "tcp".
Definition RouterGroup_HTTP : string := "http".

Record RouterGroupDB := mkRouterGroupDB {
  RGDB_Model : Model;
  RGDB_Name : string;
  RGDB_Type : string;
  RGDB_ReservablePorts : string
}.

(** [RouterGroup] embeds [Model] (whose [Guid] is shadowed) and has a [Guid]
    of its own. *)
Record RouterGroup := mkRouterGroup {
  RG_Model : Model;
  RG_Guid : string;
  RG_Name : string;
  RG_Type : string;
  RG_ReservablePorts : string
}.

Definition zero_RouterGroup : RouterGroup := mkRouterGroup zero_Model "" "" "" "".

#[export] Instance Model_eq_dec : EqDecision Model.
Proof. solve_decision. Defined.
#[export] Instance RouterGroupDB_eq_dec : EqDecision RouterGroupDB.
Proof. solve_decision. Defined.
#[export] Instance RouterGroup_eq_dec : EqDecision RouterGroup.
Proof. solve_decision. Defined.

(** The package variables [ReservedSystemComponentPorts] and
    [FailOnRouterPortConflicts], which config validation assigns. *)
Record Globals := mkGlobals {
  ReservedSystemComponentPorts : list Z;
  FailOnRouterPortConflicts : bool
}.

Definition NewRouterGroupDB (routerGroup : RouterGroup) : RouterGroupDB :=
  let model :=
    if bool_decide (Model_Guid (RG_Model routerGroup) = "")
    then mkModel (RG_Guid routerGroup) zero_time zero_time
    else RG_Model routerGroup in
  mkRouterGroupDB model (RG_Name routerGroup) (RG_Type routerGroup)
    (RG_ReservablePorts routerGroup).

Definition ToRouterGroup (rg : RouterGroupDB) : RouterGroup :=
  mkRouterGroup (RGDB_Model rg) (Model_Guid (RGDB_Model rg)) (RGDB_Name rg)
    (RGDB_Type rg) (RGDB_ReservablePorts rg).

Definition ToRouterGroups (rgs : list RouterGroupDB) : list RouterGroup :=
  ToRouterGroup <$> rgs.

(** ** Port ranges *)

Record Range := mkRange { start : Z; end_ : Z }.

#[export] Instance Range_eq_dec : EqDecision Range.
Proof. solve_decision. Defined.

Definition ErrInvalidPort : error := errors_New "port must be between 1024 and 65535".

Definition portIsInRange (port : Z) : bool := 1024 <=? port.

Definition NewRange (s e : Z) : error + Range :=
  if portIsInRange s && portIsInRange e then inr (mkRange s e) else inl ErrInvalidPort.

Definition Range_max (r other : Range) : Z :=
  if end_ other <? end_ r then end_ r else end_ other.

Definition Range_min (r other : Range) : Z :=
  if start r <? start other then start r else start other.

(** [uint64(maxUpper-minLower) <= uint64(r.end-r.start)+uint64(other.end-other.start)]:
    the subtractions are on [uint16] and wrap, the sum is on [uint64] and
    cannot. *)
Definition Overlaps (r other : Range) : bool :=
  let maxUpper := Range_max r other in
  let minLower := Range_min r other in
  u16 (maxUpper - minLower) <=? u16 (end_ r - start r) + u16 (end_ other - start other).

(** migration/v6/router_groups.go: the same expression without the widening,
    so the sum wraps at 16 bits. *)
Definition v6_Overlaps (r other : Range) : bool :=
  let maxUpper := Range_max r other in
  let minLower := Range_min r other in
  u16 (maxUpper - minLower) <=? u16 (u16 (end_ r - start r) + u16 (end_ other - start other)).

Definition Range_String (r : Range) : string :=
  if start r =? end_ r then Itoa (start r)
  else "[" +:+ Itoa (start r) +:+ "-" +:+ Itoa (end_ r) +:+ "]".

Definition Endpoints (r : Range) : Z * Z := (start r, end_ r).

Definition parseRange (r : string) : error + Range :=
  match Split "-" r with
  | [e0] =>
      match ParseUint e0 16 with
      | None => inl ErrInvalidPort
      | Some n => NewRange n n
      end
  | [e0; e1] =>
      match ParseUint e0 16 with
      | None => inl (errors_New ("range (" +:+ r +:+ ") requires a starting port"))
      | Some s =>
          match ParseUint e1 16 with
          | None => inl (errors_New ("range (" +:+ r +:+ ") requires an ending port"))
          | Some e =>
              if e <? s
              then inl (errors_New ("range (" +:+ r +:+ ") must be in ascending numeric order"))
              else NewRange s e
          end
      end
  | _ => inl (errors_New ("range (" +:+ r +:+ ") has too many '-' separators"))
  end.

(** The loop of [ReservablePorts.Parse]: the first bad field aborts. *)
Fixpoint Parse_loop (fields : list string) : error + list Range :=
  match fields with
  | [] => inr []
  | p :: ps =>
      match parseRange p with
      | inl err => inl err
      | inr r =>
          match Parse_loop ps with
          | inl err => inl err
          | inr rs => inr (r :: rs)
          end
      end
  end.

Definition Parse (p : string) : error + list Range := Parse_loop (Split "," p).

(** ** Validation *)

Definition overlap_error (r1 r2 : Range) : error :=
  errors_New ("Overlapping values: " +:+ Range_String r1 +:+ " and " +:+ Range_String r2).

(** The inner loop of the overlap check; [i] is the index of [r1], [j] that
    of the head of [rs]. *)
Fixpoint overlap_inner (i j : nat) (r1 : Range) (rs : list Range) : option error :=
  match rs with
  | [] => None
  | r2 :: rs' =>
      if bool_decide (i = j) then overlap_inner i (S j) r1 rs'
      else if Overlaps r1 r2 then Some (overlap_error r1 r2)
      else overlap_inner i (S j) r1 rs'
  end.

Fixpoint overlap_outer (i : nat) (rs all : list Range) : option error :=
  match rs with
  | [] => None
  | r1 :: rs' =>
      match overlap_inner i 0 r1 all with
      | Some err => Some err
      | None => overlap_outer (S i) rs' all
      end
  end.

Definition reserved_error (ports : list Z) : error :=
  errors_New ("Invalid ports. Reservable ports must not include the following reserved system component ports: ["
    +:+ Join " " (Itoa <$> ports) +:+ "].").

Fixpoint reserved_inner (r1 : Range) (ports all : list Z) : option error :=
  match ports with
  | [] => None
  | reservedPort :: ps =>
      if (start r1 <=? reservedPort) && (reservedPort <=? end_ r1)
      then Some (reserved_error all)
      else reserved_inner r1 ps all
  end.

Fixpoint reserved_outer (rs : list Range) (ports : list Z) : option error :=
  match rs with
  | [] => None
  | r1 :: rs' =>
      match reserved_inner r1 ports ports with
      | Some err => Some err
      | None => reserved_outer rs' ports
      end
  end.

Definition ReservablePorts_Validate (g : Globals) (p : string) : option error :=
  match Parse p with
  | inl err => Some err
  | inr portRanges =>
      match overlap_outer 0 portRanges portRanges with
      | Some err => Some err
      | None =>
          if FailOnRouterPortConflicts g
          then reserved_outer portRanges (ReservedSystemComponentPorts g)
          else None
      end
  end.

Definition RouterGroup_Validate (gl : Globals) (g : RouterGroup) : option error :=
  if bool_decide (RG_Name g = "") then Some (errors_New "missing name in router group")
  else if bool_decide (RG_Type g = "") then Some (errors_New "missing type in router group")
  else if bool_decide (RG_ReservablePorts g = "") then
    if bool_decide (RG_Type g = RouterGroup_TCP)
    then Some (errors_New ("missing reservable_ports in router group: " +:+ RG_Name g))
    else None
  else if bool_decide (RG_Type g = RouterGroup_HTTP)
  then Some (errors_New "reservable ports are not supported for router groups of type http")
  else ReservablePorts_Validate gl (RG_ReservablePorts g).

Fixpoint RouterGroups_Validate (gl : Globals) (g : list RouterGroup) : option error :=
  match g with
  | [] => None
  | r :: rs =>
      match RouterGroup_Validate gl r with
      | Some err => Some err
      | None => RouterGroups_Validate gl rs
      end
  end.

(** The dynamic types [UnmarshalYAML] distinguishes in the decoded value. *)
Inductive yaml_value :=
| YInt (z : Z)
| YString (s : string)
| YSeq (vs : list yaml_value)
| YOther.

Fixpoint yaml_ports (vs : list yaml_value) : error + list string :=
  match vs with
  | [] => inr []
  | YInt z :: vs' =>
      match yaml_ports vs' with
      | inl e => inl e
      | inr ss => inr (Itoa z :: ss)
      end
  | _ :: _ => inl (errors_New "invalid type for reservable port")
  end.

(** [unmarshal] is what the YAML library's callback returns. *)
Definition UnmarshalYAML (unmarshal : error + yaml_value) : error + string :=
  match unmarshal with
  | inl err => inl err
  | inr (YInt t) => inr (Itoa t)
  | inr (YString s) => inr s
  | inr (YSeq t) =>
      match yaml_ports t with
      | inl err => inl err
      | inr s => inr (Join "," s)
      end
  | inr YOther => inl (errors_New "reservable port unmarshal failed")
  end.

(** ** Specification of ranges *)

Definition in_range (p : Z) (r : Range) : Prop := start r <= p <= end_ r.

(** What every parsed range satisfies. *)
Definition wf_Range (r : Range) : Prop := 1024 <= start r /\ start r <= end_ r /\ end_ r <= 65535.

#[export] Instance wf_Range_dec r : Decision (wf_Range r).
Proof. unfold wf_Range. apply _. Defined.

(** No port belongs to two ranges at different positions. *)
Definition disjoint_ranges (rs : list Range) : Prop :=
  forall i j r1 r2 p, i <> j -> rs !! i = Some r1 -> rs !! j = Some r2 ->
    in_range p r1 -> ~ in_range p r2.

(** The text form of a list of ranges (the inverse of [Parse]). *)
Definition print_range (r : Range) : string :=
  if start r =? end_ r then Itoa (start r) else Itoa (start r) +:+ "-" +:+ Itoa (end_ r).

Definition print_ranges (rs : list Range) : string := Join "," (print_range <$> rs).

Lemma Overlaps_spec r1 r2 :
  wf_Range r1 -> wf_Range r2 ->
  Overlaps r1 r2 = true <-> exists p, in_range p r1 /\ in_range p r2.
Proof.
  unfold wf_Range, in_range, Overlaps, Range_max, Range_min. intros H1 H2.
  destruct (Z.ltb_spec (end_ r2) (end_ r1)), (Z.ltb_spec (start r1) (start r2));
    rewrite !u16_id by (unfold is_u16; lia); rewrite Z.leb_le; split.
  all: try (intros (p & ? & ?); lia).
  all: intros; exists (Z.max (start r1) (start r2)); lia.
Qed.

Lemma Overlaps_false r1 r2 :
  wf_Range r1 -> wf_Range r2 ->
  Overlaps r1 r2 = false <-> forall p, in_range p r1 -> ~ in_range p r2.
Proof.
  intros H1 H2. rewrite <- not_true_iff_false, Overlaps_spec by done.
  split; [intros H p ? ?; apply H; eauto | intros H (p & ? & ?); by eapply H].
Qed.

Lemma overlap_inner_None i j r1 rs :
  overlap_inner i j r1 rs = None <->
  forall k r2, rs !! k = Some r2 -> i <> (j + k)%nat -> Overlaps r1 r2 = false.
Proof.
  revert j. induction rs as [|r rs IH]; intros j; simpl; [by split|].
  assert (forall P : nat -> Range -> Prop,
    (forall k r2, (r :: rs) !! k = Some r2 -> P k r2) <->
    P 0%nat r /\ (forall k r2, rs !! k = Some r2 -> P (S k) r2)) as Hsplit.
  { intros P; split; [intros H; split; intros; by apply H|].
    intros [H0 HS] [|k] r2; simpl; [by intros [= <-]|by apply HS]. }
  rewrite (Hsplit (fun k r2 => i <> (j + k)%nat -> Overlaps r1 r2 = false)).
  case_bool_decide as Hij; [|destruct (Overlaps r1 r) eqn:HO].
  - rewrite IH. split.
    + intros H; split; [lia|]. intros k r2 Hk Hne. apply (H k r2); [done|lia].
    + intros [_ H] k r2 Hk Hne. apply (H k r2); [done|lia].
  - split; [done|]. intros [H _]. exfalso. assert (true = false); [|done]. apply H. lia.
  - rewrite IH. split.
    + intros H; split; [done|]. intros k r2 Hk Hne. apply (H k r2); [done|lia].
    + intros [_ H] k r2 Hk Hne. apply (H k r2); [done|lia].
Qed.

Lemma overlap_outer_None i rs all :
  overlap_outer i rs all = None <->
  forall k r1 j r2, rs !! k = Some r1 -> all !! j = Some r2 -> (i + k)%nat <> j ->
    Overlaps r1 r2 = false.
Proof.
  revert i. induction rs as [|r rs IH]; intros i; simpl; [by split|].
  destruct (overlap_inner i 0 r all) eqn:Hin.
  - split; [done|]. intros H. exfalso.
    enough (overlap_inner i 0 r all = None) by congruence.
    apply overlap_inner_None. intros k r2 Hk Hne. apply (H 0%nat r k r2); [done..|lia].
  - rewrite IH. rewrite overlap_inner_None in Hin. split.
    + intros H [|k] r1 j r2; simpl.
      * intros [= <-] Hj Hne. apply (Hin j r2); [done|lia].
      * intros Hk Hj Hne. apply (H k r1 j r2); [done..|lia].
    + intros H k r1 j r2 Hk Hj Hne. apply (H (S k) r1 j r2); [done..|lia].
Qed.

Lemma overlap_outer_spec rs :
  Forall wf_Range rs -> overlap_outer 0 rs rs = None <-> disjoint_ranges rs.
Proof.
  intros Hwf. rewrite overlap_outer_None. unfold disjoint_ranges.
  rewrite Forall_lookup in Hwf. split.
  - intros H i j r1 r2 p Hij Hi Hj. apply Overlaps_false; eauto.
  - intros H k r1 j r2 Hk Hj Hne. apply Overlaps_false; eauto.
Qed.

Lemma reserved_inner_None r ports all :
  reserved_inner r ports all = None <-> forall p, p ∈ ports -> ~ in_range p r.
Proof.
  unfold in_range. induction ports as [|p ports IH]; simpl; [set_solver|].
  destruct ((start r <=? p) && (p <=? end_ r)) eqn:E.
  - apply andb_true_iff in E as [E1%Z.leb_le E2%Z.leb_le].
    split; [done|]. intros H. exfalso. apply (H p); [set_solver|lia].
  - rewrite IH. apply andb_false_iff in E. rewrite !Z.leb_gt in E. split.
    + intros H q [->|Hq]%elem_of_cons; [lia|auto].
    + intros H q Hq. apply H. set_solver.
Qed.

Lemma reserved_outer_None rs ports :
  reserved_outer rs ports = None <->
  forall r p, r ∈ rs -> p ∈ ports -> ~ in_range p r.
Proof.
  induction rs as [|r rs IH]; simpl; [set_solver|].
  destruct (reserved_inner r ports ports) eqn:E.
  - split; [done|]. intros H. exfalso.
    enough (reserved_inner r ports ports = None) by congruence.
    apply reserved_inner_None. intros p Hp. apply H; set_solver.
  - rewrite IH. rewrite reserved_inner_None in E. split.
    + intros H r' p [->|Hr]%elem_of_cons Hp; eauto.
    + intros H r' p Hr Hp. apply H; set_solver.
Qed.

(** ** Parsing produces well-formed ranges *)

Lemma NewRange_inr s e r : NewRange s e = inr r <-> r = mkRange s e /\ 1024 <= s /\ 1024 <= e.
Proof.
  unfold NewRange, portIsInRange.
  destruct (Z.leb_spec 1024 s), (Z.leb_spec 1024 e); simpl;
    split; (intros [= <-] || intros (-> & ? & ?)); try done; lia.
Qed.

Lemma parseRange_wf s r : parseRange s = inr r -> wf_Range r.
Proof.
  unfold parseRange, wf_Range.
  destruct (Split "-" s) as [|e0 [|e1 [|e2 es]]]; try done.
  - destruct (ParseUint e0 16) eqn:E0; [|done]. apply ParseUint_range in E0.
    intros (-> & ? & ?)%NewRange_inr. unfold is_u16 in *. simpl. lia.
  - destruct (ParseUint e0 16) eqn:E0; [|done].
    destruct (ParseUint e1 16) eqn:E1; [|done].
    destruct (Z.ltb_spec z0 z); [done|].
    apply ParseUint_range in E0, E1. unfold is_u16 in *.
    intros (-> & ? & ?)%NewRange_inr. simpl. lia.
Qed.

Lemma Parse_loop_wf fields rs : Parse_loop fields = inr rs -> Forall wf_Range rs.
Proof.
  revert rs. induction fields as [|f fs IH]; intros rs; simpl; [intros [= <-]; constructor|].
  destruct (parseRange f) eqn:E; [done|].
  destruct (Parse_loop fs) as [|rs']; [done|]. intros [= <-].
  constructor; [by eapply parseRange_wf|by apply IH].
Qed.

Lemma Parse_wf p rs : Parse p = inr rs -> Forall wf_Range rs.
Proof. apply Parse_loop_wf. Qed.

Lemma Parse_nonempty p rs : Parse p = inr rs -> rs <> [].
Proof.
  unfold Parse. destruct (Split_cons "," p) as (f & fs & ->). simpl.
  destruct (parseRange f), (Parse_loop fs); congruence.
Qed.

(** ** Printing a range and parsing it back *)

Lemma print_range_no_comma r : wf_Range r -> string_mem "," (print_range r) = false.
Proof.
  unfold wf_Range, print_range. intros H.
  destruct (start r =? end_ r); [by apply Itoa_no_char; [|lia]|].
  rewrite !string_mem_app. by rewrite !Itoa_no_char by (done || lia).
Qed.

Lemma parseRange_print r : wf_Range r -> parseRange (print_range r) = inr r.
Proof.
  unfold wf_Range, print_range, parseRange. intros H. destruct r as [s e]; simpl in *.
  destruct (Z.eqb_spec s e) as [->|Hne].
  - rewrite Split_no_sep by (apply Itoa_no_char; [done|lia]).
    rewrite ParseUint_Itoa by (unfold is_u16; lia). apply NewRange_inr. split; [done|lia].
  - change ("-" +:+ Itoa e) with (String "-" (Itoa e)).
    rewrite Split_app by (apply Itoa_no_char; [done|lia]).
    rewrite Split_no_sep by (apply Itoa_no_char; [done|lia]).
    rewrite !ParseUint_Itoa by (unfold is_u16; lia).
    destruct (Z.ltb_spec e s); [lia|]. apply NewRange_inr. split; [done|lia].
Qed.

Lemma Parse_loop_print rs :
  Forall wf_Range rs -> Parse_loop (print_range <$> rs) = inr rs.
Proof.
  induction 1 as [|r rs Hr Hrs IH]; csimpl; [done|]. by rewrite parseRange_print, IH.
Qed.

Lemma Parse_print rs :
  rs <> [] -> Forall wf_Range rs -> Parse (print_ranges rs) = inr rs.
Proof.
  intros Hne Hwf. unfold Parse, print_ranges. rewrite Split_Join.
  - by apply Parse_loop_print.
  - by destruct rs.
  - apply Forall_fmap. eapply Forall_impl; [exact Hwf|]. intros r Hr. by apply print_range_no_comma.
Qed.

(** A valid port list: it parses, its ranges are pairwise disjoint and, when
    the operator asked for it, none contains a reserved system port. *)
Definition valid_ports (g : Globals) (p : string) : Prop :=
  exists rs, Parse p = inr rs /\ disjoint_ranges rs /\
    (FailOnRouterPortConflicts g = true ->
     forall r q, r ∈ rs -> q ∈ ReservedSystemComponentPorts g -> ~ in_range q r).

Lemma ReservablePorts_Validate_spec g p :
  ReservablePorts_Validate g p = None <-> valid_ports g p.
Proof.
  unfold ReservablePorts_Validate, valid_ports.
  destruct (Parse p) as [e|rs] eqn:HP; [by split; [|intros (? & ? & ?)]|].
  pose proof (Parse_wf _ _ HP) as Hwf.
  assert (forall P : list Range -> Prop,
    (exists rs', @inr error _ rs = inr rs' /\ P rs') <-> P rs) as Hex.
  { intros P; split; [by intros (? & [= <-] & ?)|eauto]. }
  rewrite Hex, <- (overlap_outer_spec _ Hwf).
  destruct (overlap_outer 0 rs rs); [by split; [|intros []]|].
  destruct (FailOnRouterPortConflicts g); [rewrite reserved_outer_None|]; naive_solver.
Qed.

(** A valid router group, field by field. *)
Definition valid_group (gl : Globals) (g : RouterGroup) : Prop :=
  RG_Name g <> "" /\ RG_Type g <> "" /\
  (RG_Type g = RouterGroup_HTTP -> RG_ReservablePorts g = "") /\
  (RG_Type g = RouterGroup_TCP -> RG_ReservablePorts g <> "") /\
  (RG_ReservablePorts g <> "" -> valid_ports gl (RG_ReservablePorts g)).

Lemma RouterGroup_Validate_spec gl g :
  RouterGroup_Validate gl g = None <-> valid_group gl g.
Proof.
  unfold RouterGroup_Validate, valid_group.
  repeat case_bool_decide; try rewrite ReservablePorts_Validate_spec; naive_solver.
Qed.

Lemma RouterGroups_Validate_spec gl gs :
  RouterGroups_Validate gl gs = None <-> Forall (valid_group gl) gs.
Proof.
  induction gs as [|g gs IH]; simpl; [by split|].
  rewrite Forall_cons_iff, <- RouterGroup_Validate_spec, <- IH.
  destruct (RouterGroup_Validate gl g); naive_solver.
Qed.

Lemma ToRouterGroup_NewRouterGroupDB g :
  Model_Guid (RG_Model g) = RG_Guid g -> ToRouterGroup (NewRouterGroupDB g) = g \/ RG_Guid g = "".
Proof.
  intros H. unfold ToRouterGroup, NewRouterGroupDB. case_bool_decide as Hg.
  - right. congruence.
  - left. destruct g; simpl in *. by subst.
Qed.
