(* ===== verification/Routes.v ===== *)
(** Routes: models/route.go and models/tcp_route.go (HTTP routes, TCP route
    mappings, modification tags) and db/event.go (event types). *)
From Stdlib Require Import ZArith Lia Ascii.
From stdpp Require Import base option strings gmap list.
From S2P Require Import Prelude GoStrings RouterGroups.

Local Open Scope string_scope.
Local Open Scope Z_scope.

(** ** The outside world of the process: its clock and its entropy source

    Both are parameters; a state [S] is threaded through the calls so that
    successive readings may differ and entropy may fail. *)
Class Env (S : Type) := {
  time_Now : S -> Z * S;
  uuid_NewV4 : S -> (error + string) * S
}.

Definition now {S} `{Env S} : Go S Z := fun s => let '(t, s1) := time_Now s in Ok t s1.

Definition new_uuid {S} `{Env S} : Go S string := call uuid_NewV4.

(** One second in the nanoseconds of [time.Duration]. *)
Definition Second : Z := 1000000000.

(** [time.Duration(ttl) * time.Second], on [int64]. *)
Definition ttl_duration (ttl : Z) : Z := i64 (ttl * Second).

(** ** Modification tags *)
Record ModificationTag := mkTag { Tag_Guid : string; Tag_Index : Z }.

Definition zero_Tag : ModificationTag := mkTag "" 0.

Definition NewModificationTag {S} `{Env S} : Go S ModificationTag :=
  guid ← new_uuid; mret (mkTag guid 0).

(** [t.Index++] on [uint32]. *)
Definition Increment (t : ModificationTag) : ModificationTag :=
  mkTag (Tag_Guid t) (u32 (Tag_Index t + 1)).

(** [m] may be nil; every caller passes a non-nil [other]. *)
Definition SucceededBy (m : option ModificationTag) (other : ModificationTag) : bool :=
  match m with
  | None => true
  | Some m =>
      if bool_decide (Tag_Guid m = "") || bool_decide (Tag_Guid other = "") then true
      else negb (bool_decide (Tag_Guid m = Tag_Guid other)) || (Tag_Index m <? Tag_Index other)
  end.

(** ** HTTP routes *)
Record RouteEntity := mkRouteEntity {
  RE_Route : string;
  RE_Port : Z;
  RE_IP : string;
  RE_TTL : option Z;
  RE_LogGuid : string;
  RE_RouteServiceUrl : string;
  RE_ModificationTag : ModificationTag
}.

Record Route := mkRoute {
  Route_Model : Model;
  Route_ExpiresAt : Z;
  Route_Entity : RouteEntity
}.

Definition zero_RouteEntity : RouteEntity := mkRouteEntity "" 0 "" None "" "" zero_Tag.
Definition zero_Route : Route := mkRoute zero_Model zero_time zero_RouteEntity.

#[export] Instance Tag_eq_dec : EqDecision ModificationTag.
Proof. solve_decision. Defined.
#[export] Instance RouteEntity_eq_dec : EqDecision RouteEntity.
Proof. solve_decision. Defined.
#[export] Instance Route_eq_dec : EqDecision Route.
Proof. solve_decision. Defined.

Definition NewRouteWithModel {S} `{Env S} (route : Route) : Go S Route :=
  guid ← new_uuid;
  t ← now;
  ttl ← deref (RE_TTL (Route_Entity route));
  mret (mkRoute (mkModel guid zero_time zero_time) (t + ttl_duration ttl) (Route_Entity route)).

Definition NewRoute (url : string) (port : Z) (ip logGuid routeServiceUrl : string) (ttl : Z) : Route :=
  mkRoute zero_Model zero_time
    (mkRouteEntity url port ip (Some ttl) logGuid routeServiceUrl zero_Tag).

Definition Route_GetTTL (r : Route) : Z :=
  match RE_TTL (Route_Entity r) with None => 0 | Some t => t end.

Definition entity_with_TTL (e : RouteEntity) (ttl : option Z) : RouteEntity :=
  mkRouteEntity (RE_Route e) (RE_Port e) (RE_IP e) ttl (RE_LogGuid e) (RE_RouteServiceUrl e)
    (RE_ModificationTag e).

Definition Route_SetDefaults (defaultTTL : Z) (r : Route) : Route :=
  match RE_TTL (Route_Entity r) with
  | None => mkRoute (Route_Model r) (Route_ExpiresAt r)
              (entity_with_TTL (Route_Entity r) (Some defaultTTL))
  | Some _ => r
  end.

(** ** TCP route mappings *)
Record TcpMappingEntity := mkTcpMappingEntity {
  TM_RouterGroupGuid : string;
  TM_HostPort : Z;
  TM_HostTLSPort : Z;
  TM_HostIP : string;
  TM_SniHostname : option string;
  TM_SniRewriteHostname : option string;
  TM_InstanceId : string;
  TM_ExternalPort : Z;
  TM_ModificationTag : ModificationTag;
  TM_TTL : option Z;
  TM_IsolationSegment : string;
  TM_TerminateFrontendTLS : bool;
  TM_ALPNs : string;
  TM_EnableBackendMTLS : bool
}.

Record TcpRouteMapping := mkTcpRouteMapping {
  Tcp_Model : Model;
  Tcp_ExpiresAt : Z;
  Tcp_Entity : TcpMappingEntity
}.

Definition zero_TcpMappingEntity : TcpMappingEntity :=
  mkTcpMappingEntity "" 0 0 "" None None "" 0 zero_Tag None "" false "" false.
Definition zero_Tcp : TcpRouteMapping := mkTcpRouteMapping zero_Model zero_time zero_TcpMappingEntity.

#[export] Instance TcpMappingEntity_eq_dec : EqDecision TcpMappingEntity.
Proof. solve_decision. Defined.
#[export] Instance TcpRouteMapping_eq_dec : EqDecision TcpRouteMapping.
Proof. solve_decision. Defined.

Definition NewTcpRouteMappingWithModel {S} `{Env S} (tcpMapping : TcpRouteMapping) : Go S TcpRouteMapping :=
  guid ← new_uuid;
  t ← now;
  ttl ← deref (TM_TTL (Tcp_Entity tcpMapping));
  mret (mkTcpRouteMapping (mkModel guid zero_time zero_time) (t + ttl_duration ttl)
          (Tcp_Entity tcpMapping)).

Definition NewTcpRouteMapping (routerGroupGuid : string) (externalPort : Z) (hostIP : string)
    (hostPort hostTlsPort : Z) (instanceId : string) (sniHostname sniRewriteHostname : option string)
    (ttl : Z) (modTag : ModificationTag) (terminateFrontendTLS : bool) (alpns : string)
    : TcpRouteMapping :=
  mkTcpRouteMapping zero_Model zero_time
    (mkTcpMappingEntity routerGroupGuid hostPort hostTlsPort hostIP sniHostname
       sniRewriteHostname instanceId externalPort modTag (Some ttl) "" terminateFrontendTLS
       alpns false).

Definition Tcp_String (m : TcpRouteMapping) : string :=
  let e := Tcp_Entity m in
  TM_RouterGroupGuid e +:+ ":" +:+ Itoa (TM_ExternalPort e) +:+ "<->" +:+ TM_HostIP e
    +:+ ":" +:+ Itoa (TM_HostPort e).

(** [nilP || samePointer || sameValue] on two pointers: equal pointers are
    both nil or point to equal values, so the middle disjunct adds nothing to
    the comparison of the pointed-to values. *)
Definition same_ptr_value {A} `{EqDecision A} (p q : option A) : bool :=
  match p, q with
  | None, None => true
  | Some a, Some b => bool_decide (a = b)
  | _, _ => false
  end.

Definition Matches (m other : TcpRouteMapping) : bool :=
  let a := Tcp_Entity m in
  let b := Tcp_Entity other in
  let sameRouterGroupGuid := bool_decide (TM_RouterGroupGuid a = TM_RouterGroupGuid b) in
  let sameExternalPort := TM_ExternalPort a =? TM_ExternalPort b in
  let sameHostIP := bool_decide (TM_HostIP a = TM_HostIP b) in
  let sameHostPort := TM_HostPort a =? TM_HostPort b in
  let sameInstanceId := bool_decide (TM_InstanceId a = TM_InstanceId b) in
  let sameHostTLSPort := TM_HostTLSPort a =? TM_HostTLSPort b in
  let sameTTL := same_ptr_value (TM_TTL a) (TM_TTL b) in
  let sameSniHostname := same_ptr_value (TM_SniHostname a) (TM_SniHostname b) in
  sameRouterGroupGuid && sameExternalPort && sameHostIP && sameHostPort && sameInstanceId &&
  sameTTL && sameHostTLSPort && sameSniHostname.

Definition tcp_entity_with_TTL (e : TcpMappingEntity) (ttl : option Z) : TcpMappingEntity :=
  mkTcpMappingEntity (TM_RouterGroupGuid e) (TM_HostPort e) (TM_HostTLSPort e) (TM_HostIP e)
    (TM_SniHostname e) (TM_SniRewriteHostname e) (TM_InstanceId e) (TM_ExternalPort e)
    (TM_ModificationTag e) ttl (TM_IsolationSegment e) (TM_TerminateFrontendTLS e)
    (TM_ALPNs e) (TM_EnableBackendMTLS e).

Definition Tcp_SetDefaults (maxTTL : Z) (t : TcpRouteMapping) : TcpRouteMapping :=
  match TM_TTL (Tcp_Entity t) with
  | None => mkTcpRouteMapping (Tcp_Model t) (Tcp_ExpiresAt t)
              (tcp_entity_with_TTL (Tcp_Entity t) (Some maxTTL))
  | Some _ => t
  end.

(** ** Event types (db/event.go) *)
Inductive EventType := InvalidEvent | CreateEvent | DeleteEvent | ExpireEvent | UpdateEvent.

#[export] Instance EventType_eq_dec : EqDecision EventType.
Proof. solve_decision. Defined.

Definition EventType_String (e : EventType) : string :=
  match e with
  | CreateEvent => "Upsert"
  | UpdateEvent => "Upsert"
  | DeleteEvent | ExpireEvent => "Delete"
  | InvalidEvent => "Invalid"
  end.

(** ** Keys

    The columns the database looks a record up by. *)
Definition route_key (r : Route) : string * string * Z * string :=
  let e := Route_Entity r in (RE_Route e, RE_IP e, RE_Port e, RE_RouteServiceUrl e).

Notation TcpKey := (string * string * Z * Z * Z * option string * bool)%type.

Definition tcp_key (m : TcpRouteMapping) : TcpKey :=
  let e := Tcp_Entity m in
  (TM_RouterGroupGuid e, TM_HostIP e, TM_HostPort e, TM_ExternalPort e, TM_HostTLSPort e,
   TM_SniHostname e, TM_EnableBackendMTLS e).

Definition key_tls (k : TcpKey) : Z := let '(_, tls, _, _) := k in tls.

Lemma key_tls_key m : key_tls (tcp_key m) = TM_HostTLSPort (Tcp_Entity m).
Proof. done. Qed.

Lemma same_ptr_value_eq {A} `{EqDecision A} (p q : option A) : same_ptr_value p q = true <-> p = q.
Proof.
  destruct p, q; simpl; try naive_solver.
  rewrite bool_decide_eq_true. naive_solver.
Qed.

(** What [Matches] compares. *)
Definition match_key (m : TcpRouteMapping) :=
  let e := Tcp_Entity m in
  (TM_RouterGroupGuid e, TM_ExternalPort e, TM_HostIP e, TM_HostPort e, TM_InstanceId e,
   TM_TTL e, TM_HostTLSPort e, TM_SniHostname e).

Lemma Matches_spec m o : Matches m o = true <-> match_key m = match_key o.
Proof.
  unfold Matches, match_key.
  rewrite !andb_true_iff, !bool_decide_eq_true, !Z.eqb_eq, !same_ptr_value_eq.
  naive_solver congruence.
Qed.

Lemma SucceededBy_guid m o :
  Tag_Guid m <> "" -> Tag_Guid o <> "" ->
  SucceededBy (Some m) o = true <-> (Tag_Guid m <> Tag_Guid o \/ Tag_Index m < Tag_Index o).
Proof.
  intros Hm Ho. unfold SucceededBy.
  rewrite (bool_decide_eq_false_2 (Tag_Guid m = "")), (bool_decide_eq_false_2 (Tag_Guid o = "")) by done.
  simpl. rewrite orb_true_iff, negb_true_iff, bool_decide_eq_false, Z.ltb_lt. done.
Qed.

Lemma SetDefaults_TTL d r : RE_TTL (Route_Entity (Route_SetDefaults d r)) <> None.
Proof. unfold Route_SetDefaults. destruct (RE_TTL (Route_Entity r)) eqn:E; simpl; congruence. Qed.

Lemma Tcp_SetDefaults_TTL d m : TM_TTL (Tcp_Entity (Tcp_SetDefaults d m)) <> None.
Proof. unfold Tcp_SetDefaults. destruct (TM_TTL (Tcp_Entity m)) eqn:E; simpl; congruence. Qed.
