(* ===== verification/Json.v ===== *)
(** Json: encoding/json on document trees.  The struct tags of the models and
    of the API error decide which members are written and read.  A document is a
    tree; the text layer (escapes, white space) is not modelled.  Member names
    match exactly or up to ASCII case, as in [json.Unmarshal]. *)
From Stdlib Require Import ZArith Lia Ascii.
From stdpp Require Import base option strings gmap list.
From S2P Require Import Prelude GoStrings RouterGroups Routes.

Local Open Scope string_scope.
Local Open Scope Z_scope.

Inductive json :=
| JNull
| JBool (b : bool)
| JInt (z : Z)
| JFrac (literal : string)
| JStr (s : string)
| JArr (vs : list json)
| JObj (members : list (string * json)).

(** [json.UnmarshalTypeError]; its text is not modelled. *)
Definition UnmarshalTypeError : error := ext_error "json: cannot unmarshal".

(** ** Encoding *)

Definition json_of_ptr {A} (f : A -> json) (p : option A) : json :=
  match p with None => JNull | Some a => f a end.

(** A member written unless [omit] (the [omitempty] option). *)
Definition member (omit : bool) (k : string) (v : json) : list (string * json) :=
  if omit then [] else [(k, v)].

Definition json_of_Tag (t : ModificationTag) : json :=
  JObj [("guid", JStr (Tag_Guid t)); ("index", JInt (Tag_Index t))].

Definition json_of_Route (r : Route) : json :=
  let e := Route_Entity r in
  JObj (member false "route" (JStr (RE_Route e)) ++
        member false "port" (JInt (RE_Port e)) ++
        member false "ip" (JStr (RE_IP e)) ++
        member false "ttl" (json_of_ptr JInt (RE_TTL e)) ++
        member false "log_guid" (JStr (RE_LogGuid e)) ++
        member (bool_decide (RE_RouteServiceUrl e = "")) "route_service_url" (JStr (RE_RouteServiceUrl e)) ++
        member false "modification_tag" (json_of_Tag (RE_ModificationTag e))).

Definition json_of_Tcp (m : TcpRouteMapping) : json :=
  let e := Tcp_Entity m in
  JObj (member false "router_group_guid" (JStr (TM_RouterGroupGuid e)) ++
        member false "backend_port" (JInt (TM_HostPort e)) ++
        member false "backend_tls_port" (JInt (TM_HostTLSPort e)) ++
        member false "backend_ip" (JStr (TM_HostIP e)) ++
        member (bool_decide (TM_SniHostname e = None)) "backend_sni_hostname"
          (json_of_ptr JStr (TM_SniHostname e)) ++
        member (bool_decide (TM_SniRewriteHostname e = None)) "sni_rewrite_hostname"
          (json_of_ptr JStr (TM_SniRewriteHostname e)) ++
        member false "instance_id" (JStr (TM_InstanceId e)) ++
        member false "port" (JInt (TM_ExternalPort e)) ++
        member false "modification_tag" (json_of_Tag (TM_ModificationTag e)) ++
        member (bool_decide (TM_TTL e = None)) "ttl" (json_of_ptr JInt (TM_TTL e)) ++
        member false "isolation_segment" (JStr (TM_IsolationSegment e)) ++
        member (negb (TM_TerminateFrontendTLS e)) "terminate_frontend_tls" (JBool (TM_TerminateFrontendTLS e)) ++
        member (bool_decide (TM_ALPNs e = "")) "alpns" (JStr (TM_ALPNs e)) ++
        member (negb (TM_EnableBackendMTLS e)) "enable_backend_mtls" (JBool (TM_EnableBackendMTLS e))).

Definition json_of_RouterGroup (g : RouterGroup) : json :=
  JObj [("guid", JStr (RG_Guid g)); ("name", JStr (RG_Name g)); ("type", JStr (RG_Type g));
        ("reservable_ports", JStr (RG_ReservablePorts g))].

Definition json_of_ApiError (e : ApiError) : json :=
  JObj [("name", JStr (ApiError_Type e)); ("message", JStr (ApiError_Message e))].

(** ** Decoding *)

(** Decoding a value into a field that holds [old]. *)
Definition dec_string (old : string) (v : json) : error + string :=
  match v with JStr s => inr s | JNull => inr old | _ => inl UnmarshalTypeError end.

Definition dec_bool (old : bool) (v : json) : error + bool :=
  match v with JBool b => inr b | JNull => inr old | _ => inl UnmarshalTypeError end.

Definition dec_num (ok : Z -> bool) (old : Z) (v : json) : error + Z :=
  match v with
  | JInt z => if ok z then inr z else inl UnmarshalTypeError
  | JNull => inr old
  | _ => inl UnmarshalTypeError
  end.

Definition dec_u16 := dec_num (fun z => bool_decide (is_u16 z)).
Definition dec_u32 := dec_num (fun z => bool_decide (is_u32 z)).
(** [strconv.ParseInt] takes the literal -0, [strconv.ParseUint] does not. *)
Definition dec_int (old : Z) (v : json) : error + Z :=
  match v with
  | JFrac "-0" => inr 0
  | _ => dec_num (fun z => bool_decide (is_i64 z)) old v
  end.
#[global] Arguments dec_u16 : simpl never.
#[global] Arguments dec_u32 : simpl never.
#[global] Arguments dec_int : simpl never.

(** A pointer field: [null] sets it to nil, anything else is decoded into a
    fresh variable. *)
Definition dec_ptr {A} (dec : json -> error + A) (v : json) : error + option A :=
  match v with
  | JNull => inr None
  | _ => match dec v with inl e => inl e | inr a => inr (Some a) end
  end.

(** Decoding an object: each member in turn updates the struct. *)
Fixpoint dec_members {R} (set : string -> json -> R -> error + R) (ms : list (string * json)) (r : R)
    : error + R :=
  match ms with
  | [] => inr r
  | (k, v) :: ms' =>
      match set k v r with
      | inl e => inl e
      | inr r' => dec_members set ms' r'
      end
  end.

Definition dec_struct {R} (set : string -> json -> R -> error + R) (r : R) (v : json) : error + R :=
  match v with
  | JObj ms => dec_members set ms r
  | JNull => inr r
  | _ => inl UnmarshalTypeError
  end.

Definition on_field {A R} (x : error + A) (f : A -> R) : error + R :=
  match x with inl e => inl e | inr a => inr (f a) end.

Definition set_Tag (k : string) (v : json) (t : ModificationTag) : error + ModificationTag :=
  if EqualFold k "guid" then on_field (dec_string (Tag_Guid t) v) (fun s => mkTag s (Tag_Index t))
  else if EqualFold k "index" then on_field (dec_u32 (Tag_Index t) v) (fun i => mkTag (Tag_Guid t) i)
  else inr t.

Definition set_RouteEntity (k : string) (v : json) (e : RouteEntity) : error + RouteEntity :=
  let 'mkRouteEntity rt port ip ttl lg rs tag := e in
  if EqualFold k "route" then on_field (dec_string rt v) (fun x => mkRouteEntity x port ip ttl lg rs tag)
  else if EqualFold k "port" then on_field (dec_u16 port v) (fun x => mkRouteEntity rt x ip ttl lg rs tag)
  else if EqualFold k "ip" then on_field (dec_string ip v) (fun x => mkRouteEntity rt port x ttl lg rs tag)
  else if EqualFold k "ttl" then on_field (dec_ptr (dec_int 0) v) (fun x => mkRouteEntity rt port ip x lg rs tag)
  else if EqualFold k "log_guid" then on_field (dec_string lg v) (fun x => mkRouteEntity rt port ip ttl x rs tag)
  else if EqualFold k "route_service_url" then on_field (dec_string rs v) (fun x => mkRouteEntity rt port ip ttl lg x tag)
  else if EqualFold k "modification_tag" then
    on_field (dec_struct set_Tag tag v) (fun x => mkRouteEntity rt port ip ttl lg rs x)
  else inr e.

Definition set_Route (k : string) (v : json) (r : Route) : error + Route :=
  on_field (set_RouteEntity k v (Route_Entity r)) (mkRoute (Route_Model r) (Route_ExpiresAt r)).

Definition set_TcpEntity (k : string) (v : json) (e : TcpMappingEntity) : error + TcpMappingEntity :=
  let 'mkTcpMappingEntity rg hp tp ip sni rw inst ext tag ttl iso term alpn mtls := e in
  if EqualFold k "router_group_guid" then on_field (dec_string rg v)
    (fun x => mkTcpMappingEntity x hp tp ip sni rw inst ext tag ttl iso term alpn mtls)
  else if EqualFold k "backend_port" then on_field (dec_u16 hp v)
    (fun x => mkTcpMappingEntity rg x tp ip sni rw inst ext tag ttl iso term alpn mtls)
  else if EqualFold k "backend_tls_port" then on_field (dec_int tp v)
    (fun x => mkTcpMappingEntity rg hp x ip sni rw inst ext tag ttl iso term alpn mtls)
  else if EqualFold k "backend_ip" then on_field (dec_string ip v)
    (fun x => mkTcpMappingEntity rg hp tp x sni rw inst ext tag ttl iso term alpn mtls)
  else if EqualFold k "backend_sni_hostname" then on_field (dec_ptr (dec_string "") v)
    (fun x => mkTcpMappingEntity rg hp tp ip x rw inst ext tag ttl iso term alpn mtls)
  else if EqualFold k "sni_rewrite_hostname" then on_field (dec_ptr (dec_string "") v)
    (fun x => mkTcpMappingEntity rg hp tp ip sni x inst ext tag ttl iso term alpn mtls)
  else if EqualFold k "instance_id" then on_field (dec_string inst v)
    (fun x => mkTcpMappingEntity rg hp tp ip sni rw x ext tag ttl iso term alpn mtls)
  else if EqualFold k "port" then on_field (dec_u16 ext v)
    (fun x => mkTcpMappingEntity rg hp tp ip sni rw inst x tag ttl iso term alpn mtls)
  else if EqualFold k "modification_tag" then on_field (dec_struct set_Tag tag v)
    (fun x => mkTcpMappingEntity rg hp tp ip sni rw inst ext x ttl iso term alpn mtls)
  else if EqualFold k "ttl" then on_field (dec_ptr (dec_int 0) v)
    (fun x => mkTcpMappingEntity rg hp tp ip sni rw inst ext tag x iso term alpn mtls)
  else if EqualFold k "isolation_segment" then on_field (dec_string iso v)
    (fun x => mkTcpMappingEntity rg hp tp ip sni rw inst ext tag ttl x term alpn mtls)
  else if EqualFold k "terminate_frontend_tls" then on_field (dec_bool term v)
    (fun x => mkTcpMappingEntity rg hp tp ip sni rw inst ext tag ttl iso x alpn mtls)
  else if EqualFold k "alpns" then on_field (dec_string alpn v)
    (fun x => mkTcpMappingEntity rg hp tp ip sni rw inst ext tag ttl iso term x mtls)
  else if EqualFold k "enable_backend_mtls" then on_field (dec_bool mtls v)
    (fun x => mkTcpMappingEntity rg hp tp ip sni rw inst ext tag ttl iso term alpn x)
  else inr e.

Definition set_Tcp (k : string) (v : json) (m : TcpRouteMapping) : error + TcpRouteMapping :=
  on_field (set_TcpEntity k v (Tcp_Entity m)) (mkTcpRouteMapping (Tcp_Model m) (Tcp_ExpiresAt m)).

Definition set_RouterGroup (k : string) (v : json) (g : RouterGroup) : error + RouterGroup :=
  let 'mkRouterGroup m guid name ty ports := g in
  if EqualFold k "guid" then on_field (dec_string guid v) (fun x => mkRouterGroup m x name ty ports)
  else if EqualFold k "name" then on_field (dec_string name v) (fun x => mkRouterGroup m guid x ty ports)
  else if EqualFold k "type" then on_field (dec_string ty v) (fun x => mkRouterGroup m guid name x ports)
  else if EqualFold k "reservable_ports" then on_field (dec_string ports v) (fun x => mkRouterGroup m guid name ty x)
  else inr g.

Definition set_ApiError (k : string) (v : json) (e : ApiError) : error + ApiError :=
  if EqualFold k "name" then on_field (dec_string (ApiError_Type e) v) (fun x => mkApiError x (ApiError_Message e))
  else if EqualFold k "message" then on_field (dec_string (ApiError_Message e) v) (fun x => mkApiError (ApiError_Type e) x)
  else inr e.

Definition Unmarshal_Route : json -> error + Route := dec_struct set_Route zero_Route.
Definition Unmarshal_Tcp : json -> error + TcpRouteMapping := dec_struct set_Tcp zero_Tcp.
Definition Unmarshal_RouterGroup : json -> error + RouterGroup := dec_struct set_RouterGroup zero_RouterGroup.
Definition Unmarshal_ApiError : json -> error + ApiError := dec_struct set_ApiError (mkApiError "" "").

Fixpoint dec_elems {R} (dec : json -> error + R) (vs : list json) : error + list R :=
  match vs with
  | [] => inr []
  | v :: vs' =>
      match dec v with
      | inl e => inl e
      | inr r => match dec_elems dec vs' with inl e => inl e | inr rs => inr (r :: rs) end
      end
  end.

(** Decoding into a nil slice: [null] leaves it nil. *)
Definition dec_slice {R} (dec : json -> error + R) (v : json) : error + list R :=
  match v with
  | JArr vs => dec_elems dec vs
  | JNull => inr []
  | _ => inl UnmarshalTypeError
  end.

(** ** Round trips

    The fields tagged [json:"-"] (the [Model] and [ExpiresAt]) are the only
    ones a reader of the document does not get back. *)
Definition wire_Route (r : Route) : Route := mkRoute zero_Model zero_time (Route_Entity r).
Definition wire_Tcp (m : TcpRouteMapping) : TcpRouteMapping :=
  mkTcpRouteMapping zero_Model zero_time (Tcp_Entity m).

(** Fields within the widths of their Go types. *)
Definition typed_Tag (t : ModificationTag) : Prop := is_u32 (Tag_Index t).

Definition typed_ptr (p : option Z) : Prop := match p with None => True | Some z => is_i64 z end.

Definition typed_Route (r : Route) : Prop :=
  is_u16 (RE_Port (Route_Entity r)) /\ typed_ptr (RE_TTL (Route_Entity r)) /\
  typed_Tag (RE_ModificationTag (Route_Entity r)).

Definition typed_Tcp (m : TcpRouteMapping) : Prop :=
  is_u16 (TM_HostPort (Tcp_Entity m)) /\ is_u16 (TM_ExternalPort (Tcp_Entity m)) /\
  is_i64 (TM_HostTLSPort (Tcp_Entity m)) /\ typed_ptr (TM_TTL (Tcp_Entity m)) /\
  typed_Tag (TM_ModificationTag (Tcp_Entity m)).

#[export] Instance typed_ptr_dec p : Decision (typed_ptr p).
Proof. destruct p; simpl; apply _. Defined.
#[export] Instance typed_Route_dec r : Decision (typed_Route r).
Proof. unfold typed_Route, typed_Tag. apply _. Defined.
#[export] Instance typed_Tcp_dec r : Decision (typed_Tcp r).
Proof. unfold typed_Tcp, typed_Tag. apply _. Defined.

Lemma dec_u16_ok old z : is_u16 z -> dec_u16 old (JInt z) = inr z.
Proof. intros. unfold dec_u16, dec_num. by rewrite bool_decide_eq_true_2. Qed.
Lemma dec_u32_ok old z : is_u32 z -> dec_u32 old (JInt z) = inr z.
Proof. intros. unfold dec_u32, dec_num. by rewrite bool_decide_eq_true_2. Qed.
Lemma dec_int_ok old z : is_i64 z -> dec_int old (JInt z) = inr z.
Proof. intros. unfold dec_int, dec_num. by rewrite bool_decide_eq_true_2. Qed.

Lemma dec_ptr_int_ok p : typed_ptr p -> dec_ptr (dec_int 0) (json_of_ptr JInt p) = inr p.
Proof. destruct p; simpl; [|done]. intros. by rewrite dec_int_ok. Qed.

(** One member of the document: written and read back into its field, or
    omitted because the field has the zero value already. *)
Lemma dec_members_member {R} (set : string -> json -> R -> error + R) omit k v ms r r' :
  set k v r = inr r' -> (omit = true -> r = r') ->
  dec_members set (member omit k v ++ ms) r = dec_members set ms r'.
Proof.
  intros Hset Homit. destruct omit; simpl; [by rewrite (Homit eq_refl)|]. by rewrite Hset.
Qed.

Lemma dec_ptr_str_ok p : dec_ptr (dec_string "") (json_of_ptr JStr p) = inr p.
Proof. by destruct p. Qed.

Lemma dec_Tag_ok old t : typed_Tag t -> dec_struct set_Tag old (json_of_Tag t) = inr t.
Proof.
  intros Ht. destruct t as [g i]. unfold typed_Tag in Ht. simpl in Ht.
  change (dec_members set_Tag (member false "guid" (JStr g) ++ member false "index" (JInt i) ++ []) old
    = inr (mkTag g i)).
  erewrite dec_members_member; [|reflexivity|done].
  erewrite dec_members_member; [|unfold set_Tag; simpl; rewrite dec_u32_ok by done; reflexivity|done]. done.
Qed.

(** Reads one member back: evaluates the setter on the literal member name,
    then discharges the case where the member was omitted. *)
Ltac json_field :=
  erewrite dec_members_member;
  [ | unfold set_Route, set_RouteEntity, set_Tcp, set_TcpEntity;
      cbn -[dec_struct set_Tag dec_ptr json_of_Tag json_of_ptr];
      rewrite ?dec_u16_ok, ?dec_int_ok, ?dec_ptr_int_ok, ?dec_ptr_str_ok, ?dec_Tag_ok by assumption;
      reflexivity
    | intros Homit;
      first [ discriminate Homit
            | apply bool_decide_eq_true in Homit; rewrite Homit; reflexivity
            | apply negb_true_iff in Homit; rewrite Homit; reflexivity ] ].

Lemma Unmarshal_json_of_Route r : typed_Route r -> Unmarshal_Route (json_of_Route r) = inr (wire_Route r).
Proof.
  destruct r as [m exp [rt port ip ttl lg rs tag]]. intros (Hp & Ht & Htag). simpl in Hp, Ht, Htag.
  unfold Unmarshal_Route, json_of_Route, dec_struct, wire_Route, zero_Route, zero_RouteEntity.
  cbn [Route_Entity RE_Route RE_Port RE_IP RE_TTL RE_LogGuid RE_RouteServiceUrl RE_ModificationTag].
  rewrite <- (app_nil_r (member false "modification_tag" _)).
  do 7 json_field. done.
Qed.

Lemma Unmarshal_json_of_Tcp m : typed_Tcp m -> Unmarshal_Tcp (json_of_Tcp m) = inr (wire_Tcp m).
Proof.
  destruct m as [m exp [rg hp tp ip sni rw inst ext tag ttl iso term alpn mtls]].
  intros (Hhp & Hext & Htp & Httl & Htag). simpl in Hhp, Hext, Htp, Httl, Htag.
  unfold Unmarshal_Tcp, json_of_Tcp, dec_struct, wire_Tcp, zero_Tcp, zero_TcpMappingEntity.
  cbn [Tcp_Entity TM_RouterGroupGuid TM_HostPort TM_HostTLSPort TM_HostIP TM_SniHostname
       TM_SniRewriteHostname TM_InstanceId TM_ExternalPort TM_ModificationTag TM_TTL
       TM_IsolationSegment TM_TerminateFrontendTLS TM_ALPNs TM_EnableBackendMTLS].
  rewrite <- (app_nil_r (member _ "enable_backend_mtls" _)).
  do 14 json_field. done.
Qed.

Lemma Unmarshal_json_of_RouterGroup g :
  RG_Model g = zero_Model -> Unmarshal_RouterGroup (json_of_RouterGroup g) = inr g.
Proof. destruct g; simpl. by intros ->. Qed.

Lemma Unmarshal_json_of_ApiError e : Unmarshal_ApiError (json_of_ApiError e) = inr e.
Proof. by destruct e. Qed.

Lemma dec_elems_map {A R} (enc : A -> json) (dec : json -> error + R) (f : A -> R) xs :
  Forall (fun x => dec (enc x) = inr (f x)) xs -> dec_elems dec (enc <$> xs) = inr (f <$> xs).
Proof. induction 1 as [|x xs Hx _ IH]; csimpl; [done|]. by rewrite Hx, IH. Qed.
