(* ===== verification/JsonText.v ===== *)
(** JsonText: the text of JSON documents.  [json_text] is [json.Marshal]
    (compact, HTML-safe escapes, invalid UTF-8 replaced) and [parse_value] the
    scanner and the literal decoder of encoding/json; [Decode_text] and
    [Unmarshal_text] are the first stage of [Decoder.Decode] and
    [json.Unmarshal], from text to tree.  The recursion of the parser is on the
    nesting depth, which encoding/json bounds by 10000. *)
From Stdlib Require Import ZArith Lia Ascii.
From stdpp Require Import base option strings list.
From S2P Require Import Prelude GoStrings Utf8 RouterGroups Routes Json.

Local Open Scope string_scope.
Local Open Scope Z_scope.

(** ** Writing *)
Definition hex_char (n : nat) : ascii :=
  if (n <? 10)%nat then ascii_of_nat (48 + n) else ascii_of_nat (87 + n).

Definition hex2 (n : nat) : string := String (hex_char (n / 16)) (String (hex_char (n mod 16)) "").

Definition quote_char : ascii := ascii_of_nat 34.
Definition quote : string := String quote_char "".
Definition backslash : ascii := ascii_of_nat 92.

Definition json_escape_char (c : ascii) : string :=
  let n := nat_of_ascii c in
  if bool_decide (n = 34%nat) then String backslash quote
  else if bool_decide (n = 92%nat) then String backslash (String backslash "")
  else if bool_decide (n = 8%nat) then String backslash "b"
  else if bool_decide (n = 12%nat) then String backslash "f"
  else if bool_decide (n = 10%nat) then String backslash "n"
  else if bool_decide (n = 13%nat) then String backslash "r"
  else if bool_decide (n = 9%nat) then String backslash "t"
  else if (n <? 32)%nat || bool_decide (n = 60%nat) || bool_decide (n = 62%nat) || bool_decide (n = 38%nat)
  then String backslash ("u00" +:+ hex2 n)
  else String c "".

(** U+2028 and U+2029, which JavaScript takes for line ends. *)
Definition line_separator : string := bytes3 (byte 226) (byte 128) (byte 168).
Definition paragraph_separator : string := bytes3 (byte 226) (byte 128) (byte 169).

Definition escape_rune (r : rune) : string :=
  match r with
  | RByte c => json_escape_char c
  | RBad _ => String backslash "ufffd"
  | RMulti enc =>
      if bool_decide (enc = line_separator) then String backslash "u2028"
      else if bool_decide (enc = paragraph_separator) then String backslash "u2029"
      else enc
  end.

Definition json_escape (s : string) : string := concat (escape_rune <$> runes s).

Definition json_string (s : string) : string := quote +:+ json_escape s +:+ quote.

Fixpoint json_text (v : json) : string :=
  match v with
  | JNull => "null"
  | JBool true => "true"
  | JBool false => "false"
  | JInt z => Itoa z
  | JFrac l => l
  | JStr s => json_string s
  | JArr vs =>
      "[" +:+ Join "," ((fix texts (vs : list json) : list string :=
                           match vs with [] => [] | v :: vs' => json_text v :: texts vs' end) vs) +:+ "]"
  | JObj ms =>
      "{" +:+ Join "," ((fix texts (ms : list (string * json)) : list string :=
                           match ms with
                           | [] => []
                           | (k, v) :: ms' => (json_string k +:+ ":" +:+ json_text v) :: texts ms'
                           end) ms) +:+ "}"
  end.

Definition newline : string := String (ascii_of_nat 10) "".

(** ** Reading *)

(** *** White space *)
Definition is_space (c : ascii) : bool :=
  let n := byte_val c in (n =? 32) || (n =? 9) || (n =? 13) || (n =? 10).

Fixpoint skip_ws (s : string) : string :=
  match s with
  | String c s' => if is_space c then skip_ws s' else s
  | EmptyString => ""
  end.

(** *** String literals *)
Definition hex_val (c : ascii) : option Z :=
  let n := byte_val c in
  if within 48 57 c then Some (n - 48)
  else if within 97 102 c then Some (n - 87)
  else if within 65 70 c then Some (n - 55)
  else None.

Definition is_hex (c : ascii) : bool := match hex_val c with Some _ => true | None => false end.

Definition prepend (pre : string) (r : option (string * string)) : option (string * string) :=
  match r with Some (raw, rest) => Some (pre +:+ raw, rest) | None => None end.

(** What may follow a backslash, besides [u]. *)
Definition is_escape (c : ascii) : bool := string_mem c "bfnrt/" || bool_decide (c = backslash) || bool_decide (c = quote_char).

(** The scanner, after the opening quote: the raw literal and what follows its
    closing quote. *)
Fixpoint scan_string (s : string) : option (string * string) :=
  match s with
  | EmptyString => None
  | String c s1 =>
      if bool_decide (c = quote_char) then Some ("", s1)
      else if bool_decide (c = backslash) then
        match s1 with
        | EmptyString => None
        | String d s2 =>
            if is_escape d then prepend (bytes2 c d) (scan_string s2)
            else if bool_decide (d = "u"%char) then
              match s2 with
              | String h1 (String h2 (String h3 (String h4 s3))) =>
                  if is_hex h1 && is_hex h2 && is_hex h3 && is_hex h4
                  then prepend (String c (String d (bytes4 h1 h2 h3 h4))) (scan_string s3)
                  else None
              | _ => None
              end
            else None
        end
      else if byte_val c <? 32 then None
      else prepend (String c "") (scan_string s1)
  end.

(** [getu4] on the four digits. *)
Definition getu4 (h1 h2 h3 h4 : ascii) : Z :=
  let d c := default 0 (hex_val c) in ((d h1 * 16 + d h2) * 16 + d h3) * 16 + d h4.

Definition is_surrogate (r : Z) : bool := (55296 <=? r) && (r <? 57344).

(** [utf16.DecodeRune] of a pair, if it is one. *)
Definition DecodeRune16 (r1 r2 : Z) : option Z :=
  if (55296 <=? r1) && (r1 <? 56320) && (56320 <=? r2) && (r2 <? 57344)
  then Some ((r1 - 55296) * 1024 + (r2 - 56320) + 65536) else None.

Definition unescape (c : ascii) : string :=
  String (if bool_decide (c = "b"%char) then byte 8
          else if bool_decide (c = "f"%char) then byte 12
          else if bool_decide (c = "n"%char) then byte 10
          else if bool_decide (c = "r"%char) then byte 13
          else if bool_decide (c = "t"%char) then byte 9
          else c) "".

(** [unquote] on the runes of the raw literal. *)
Fixpoint unquote (rs : list rune) : string :=
  match rs with
  | [] => ""
  | RByte c :: rs1 =>
      if bool_decide (c = backslash) then
        match rs1 with
        | RByte d :: rs2 =>
            if bool_decide (d = "u"%char) then
              match rs2 with
              | RByte h1 :: RByte h2 :: RByte h3 :: RByte h4 :: rs3 =>
                  let r := getu4 h1 h2 h3 h4 in
                  if is_surrogate r then
                    match rs3 with
                    | RByte c' :: RByte d' :: RByte g1 :: RByte g2 :: RByte g3 :: RByte g4 :: rs4 =>
                        if bool_decide (c' = backslash) && bool_decide (d' = "u"%char) then
                          match DecodeRune16 r (getu4 g1 g2 g3 g4) with
                          | Some r' => EncodeRune r' +:+ unquote rs4
                          | None => replacement +:+ unquote rs3
                          end
                        else replacement +:+ unquote rs3
                    | _ => replacement +:+ unquote rs3
                    end
                  else EncodeRune r +:+ unquote rs3
              | _ => unquote rs2
              end
            else unescape d +:+ unquote rs2
        | _ => unquote rs1
        end
      else String c "" +:+ unquote rs1
  | r :: rs1 => rune_text r +:+ unquote rs1
  end.

(** *** Numbers *)
Definition is_digit (c : ascii) : bool := within 48 57 c.

Fixpoint span_digits (s : string) : string * string :=
  match s with
  | String c s' => if is_digit c then let '(a, b) := span_digits s' in (String c a, b) else ("", s)
  | EmptyString => ("", "")
  end.

Definition strip (c : ascii) (s : string) : bool * string :=
  match s with
  | String d s' => if bool_decide (d = c) then (true, s') else (false, s)
  | EmptyString => (false, "")
  end.

(** One zero, or digits that do not start with one. *)
Definition scan_int (s : string) : option (string * string) :=
  match s with
  | String c s' =>
      if bool_decide (c = "0"%char) then Some ("0", s')
      else if is_digit c then Some (span_digits s) else None
  | EmptyString => None
  end.

(** A mark, then digits: at least one after a mark. *)
Definition scan_digits1 (s : string) : option (string * string) :=
  match span_digits s with
  | (EmptyString, _) => None
  | r => Some r
  end.

Definition scan_frac (s : string) : option (string * string) :=
  match strip "." s with
  | (true, s1) => prepend "." (scan_digits1 s1)
  | (false, _) => Some ("", s)
  end.

Definition scan_exp (s : string) : option (string * string) :=
  match s with
  | String c s1 =>
      if bool_decide (c = "e"%char) || bool_decide (c = "E"%char) then
        match s1 with
        | String d s2 =>
            if bool_decide (d = "+"%char) || bool_decide (d = "-"%char)
            then prepend (bytes2 c d) (scan_digits1 s2)
            else prepend (String c "") (scan_digits1 s1)
        | EmptyString => None
        end
      else Some ("", s)
  | EmptyString => Some ("", "")
  end.

Fixpoint dec_value (s : string) (n : Z) : Z :=
  match s with
  | EmptyString => n
  | String c s' => dec_value s' (n * 10 + (byte_val c - 48))
  end.

(** The literal -0 is kept: it is an integer for a signed field only. *)
Definition number (neg : bool) (int frac exp : string) : json :=
  if bool_decide (frac = "") && bool_decide (exp = "") && negb (neg && bool_decide (int = "0"))
  then JInt (if neg then - dec_value int 0 else dec_value int 0)
  else JFrac ((if neg then "-" else "") +:+ int +:+ frac +:+ exp).

Definition scan_number (s : string) : option (json * string) :=
  let '(neg, s0) := strip "-" s in
  match scan_int s0 with
  | None => None
  | Some (int, s1) =>
      match scan_frac s1 with
      | None => None
      | Some (frac, s2) =>
          match scan_exp s2 with
          | None => None
          | Some (exp, s3) => Some (number neg int frac exp, s3)
          end
      end
  end.

(** *** Values *)
Definition literal (word : string) (v : json) (s : string) : option (json * string) :=
  if HasPrefix s word then Some (v, drop_string (String.length word) s) else None.

(** The elements after an opening bracket; [n] bounds their number. *)
Fixpoint parse_elems (pv : string -> option (json * string)) (n : nat) (s : string)
    : option (list json * string) :=
  match n with
  | O => None
  | S n' =>
      match pv s with
      | None => None
      | Some (v, s1) =>
          match skip_ws s1 with
          | String c s2 =>
              if bool_decide (c = ","%char) then
                match parse_elems pv n' s2 with Some (vs, r) => Some (v :: vs, r) | None => None end
              else if bool_decide (c = "]"%char) then Some ([v], s2) else None
          | EmptyString => None
          end
      end
  end.

Fixpoint parse_members (pv : string -> option (json * string)) (n : nat) (s : string)
    : option (list (string * json) * string) :=
  match n with
  | O => None
  | S n' =>
      match strip quote_char (skip_ws s) with
      | (false, _) => None
      | (true, s0) =>
          match scan_string s0 with
          | None => None
          | Some (raw, s1) =>
              match strip ":" (skip_ws s1) with
              | (false, _) => None
              | (true, s2) =>
                  match pv s2 with
                  | None => None
                  | Some (v, s3) =>
                      match skip_ws s3 with
                      | String c s4 =>
                          if bool_decide (c = ","%char) then
                            match parse_members pv n' s4 with
                            | Some (ms, r) => Some ((unquote (runes raw), v) :: ms, r)
                            | None => None
                            end
                          else if bool_decide (c = "}"%char) then Some ([(unquote (runes raw), v)], s4) else None
                      | EmptyString => None
                      end
                  end
              end
          end
      end
  end.

Fixpoint parse_value (depth : nat) (s : string) : option (json * string) :=
  match skip_ws s with
  | EmptyString => None
  | String c s1 =>
      if bool_decide (c = "{"%char) then
        match depth with
        | O => None
        | S d =>
            match strip "}" (skip_ws s1) with
            | (true, s2) => Some (JObj [], s2)
            | (false, s2) =>
                match parse_members (parse_value d) (String.length s2) s2 with
                | Some (ms, r) => Some (JObj ms, r)
                | None => None
                end
            end
        end
      else if bool_decide (c = "["%char) then
        match depth with
        | O => None
        | S d =>
            match strip "]" (skip_ws s1) with
            | (true, s2) => Some (JArr [], s2)
            | (false, s2) =>
                match parse_elems (parse_value d) (String.length s2) s2 with
                | Some (vs, r) => Some (JArr vs, r)
                | None => None
                end
            end
        end
      else if bool_decide (c = quote_char) then
        match scan_string s1 with
        | Some (raw, r) => Some (JStr (unquote (runes raw)), r)
        | None => None
        end
      else if bool_decide (c = "n"%char) then literal "null" JNull (String c s1)
      else if bool_decide (c = "t"%char) then literal "true" (JBool true) (String c s1)
      else if bool_decide (c = "f"%char) then literal "false" (JBool false) (String c s1)
      else scan_number (String c s1)
  end.

Definition maxNestingDepth : nat := Z.to_nat 10000.

(** [io.EOF], and [json.SyntaxError] or [io.ErrUnexpectedEOF], whose texts are
    not modelled. *)
Definition io_EOF : error := ext_error "EOF".
Definition SyntaxError : error := ext_error "json: syntax error".

(** [Decoder.Decode] reads the first value of the stream. *)
Definition Decode_text (s : string) : error + json :=
  match parse_value maxNestingDepth s with
  | Some (v, _) => inr v
  | None => if bool_decide (skip_ws s = "") then inl io_EOF else inl SyntaxError
  end.

(** [json.Unmarshal] wants nothing but white space after the value. *)
Definition Unmarshal_text (s : string) : error + json :=
  match parse_value maxNestingDepth s with
  | Some (v, rest) => if bool_decide (skip_ws rest = "") then inr v else inl SyntaxError
  | None => inl SyntaxError
  end.

(** Conversion unfolds the readers last: their depth is a large numeral. *)
Strategy 1000 [parse_value maxNestingDepth Decode_text Unmarshal_text].
