(* ===== verification/JsonTextFacts.v ===== *)
(** JsonTextFacts: the JSON reader gives back what the writer wrote.  Strings
    come back with invalid UTF-8 replaced ([coerce]); everything else comes back
    as it was, whatever follows in the stream. *)
From Stdlib Require Import ZArith Lia Ascii.
From stdpp Require Import base option strings list.
From S2P Require Import Prelude GoStrings Utf8 RouterGroups Routes Json JsonText.

Local Open Scope string_scope.
Local Open Scope Z_scope.

Lemma string_app_nil (s : string) : s +:+ "" = s.
Proof. induction s as [|c s IH]; [done|]. exact (f_equal (String c) IH). Qed.

(** ** String literals *)
Lemma prepend_prepend a b r : prepend a (prepend b r) = prepend (a +:+ b) r.
Proof. destruct r as [[raw rest]|]; simpl; [|done]. by rewrite string_app_assoc. Qed.

Lemma scan_plain c t : ascii_byte c = false -> scan_string (String c t) = prepend (String c "") (scan_string t).
Proof.
  intros Hc. assert (forall d, ascii_byte d = true -> bool_decide (c = d) = false) as Hne.
  { intros d Hd. apply bool_decide_eq_false. intros ->. congruence. }
  cbn [scan_string]. rewrite !Hne by reflexivity.
  unfold ascii_byte in Hc. apply Z.ltb_ge in Hc. by rewrite (proj2 (Z.ltb_ge _ _)) by lia.
Qed.

(** No ASCII byte. *)
Fixpoint high (s : string) : bool :=
  match s with EmptyString => true | String c s' => negb (ascii_byte c) && high s' end.

Lemma scan_high s t : high s = true -> scan_string (s +:+ t) = prepend s (scan_string t).
Proof.
  induction s as [|c s IH]; [intros _; change ("" +:+ t) with t; by destruct (scan_string t) as [[]|]|].
  cbn [high]. intros [Hc%negb_true_iff Hs]%andb_true_iff.
  change (String c s +:+ t) with (String c (s +:+ t)).
  rewrite scan_plain, IH by done. by rewrite prepend_prepend.
Qed.

Lemma within_high lo hi c : 128 <= lo -> within lo hi c = true -> negb (ascii_byte c) = true.
Proof. intros Hlo Hw. by rewrite (multi_first lo hi). Qed.

Lemma second_high a b : second_ok a b = true -> negb (ascii_byte b) = true.
Proof. unfold second_ok. repeat case_match; apply within_high; lia. Qed.

Lemma multi_high enc : multi_ok enc = true -> high enc = true.
Proof.
  destruct enc as [|a [|b [|c [|d [|e enc]]]]]; try done; unfold multi_ok, two, three, four;
    cbn [high];
    rewrite ?andb_true_iff; intros; destruct_and?; split_and?; try done;
    first [by eapply second_high|eapply within_high; [|eassumption]; lia].
Qed.

(** Splits a goal about one byte into the 128 ASCII cases. *)
Ltac ascii_cases c :=
  destruct c as [[] [] [] [] [] [] [] []]; try discriminate; reflexivity.

Ltac ascii_all c := destruct c as [[] [] [] [] [] [] [] []]; reflexivity.

Definition scanned (r : rune) : Prop := rune_ok r = true \/ is_bad r = true.

Lemma scan_escape_rune r t : scanned r -> scan_string (escape_rune r +:+ t) = prepend (escape_rune r) (scan_string t).
Proof.
  intros [Hr|Hr]; destruct r as [c|enc|c]; simpl in Hr; try discriminate; [ascii_cases c| |reflexivity].
  unfold escape_rune. case_bool_decide; [reflexivity|]. case_bool_decide; [reflexivity|].
  by apply scan_high, multi_high.
Qed.

Lemma scan_escaped rs rest :
  Forall scanned rs ->
  scan_string (concat (escape_rune <$> rs) +:+ String quote_char rest) = Some (concat (escape_rune <$> rs), rest).
Proof.
  induction 1 as [|r rs Hr _ IH]; [done|]. csimpl. by rewrite string_app_assoc, scan_escape_rune, IH.
Qed.

Lemma scan_json_escape s rest : scan_string (json_escape s +:+ String quote_char rest) = Some (json_escape s, rest).
Proof. apply scan_escaped, runes_ok. Qed.

Lemma unquote_escape_rune r t :
  scanned r -> unquote (runes (escape_rune r +:+ t)) = rune_text r +:+ unquote (runes t).
Proof.
  intros [Hr|Hr]; destruct r as [c|enc|c]; simpl in Hr; try discriminate; [ascii_cases c| |reflexivity].
  unfold escape_rune. case_bool_decide as H1; [by rewrite H1|]. case_bool_decide as H2; [by rewrite H2|].
  by rewrite (runes_text (RMulti enc)).
Qed.

(** A string literal is read back with its invalid bytes replaced. *)
Lemma unquote_json_escape s : unquote (runes (json_escape s)) = coerce s.
Proof.
  unfold json_escape, coerce. induction (runes_ok s) as [|r rs Hr _ IH]; [done|]. csimpl.
  by rewrite unquote_escape_rune, IH.
Qed.

(** ** Numbers *)

(** What ends a number: no digit, point or exponent mark. *)
Definition ends_number (s : string) : bool :=
  match s with
  | EmptyString => true
  | String c _ => negb (is_digit c || string_mem c ".eE")
  end.

Lemma ends_number_digit c s : ends_number (String c s) = true -> is_digit c = false.
Proof. simpl. by destruct (is_digit c). Qed.

Lemma ends_number_mark c s d :
  ends_number (String c s) = true -> string_mem d ".eE" = true -> bool_decide (c = d) = false.
Proof.
  intros H Hd. apply bool_decide_eq_false. intros ->. unfold ends_number in H. by rewrite Hd, orb_true_r in H.
Qed.

Lemma span_digits_app a t :
  ends_number t = true -> span_digits (a +:+ t) = (fst (span_digits a), snd (span_digits a) +:+ t).
Proof.
  intros Ht. induction a as [|c a IH].
  - destruct t as [|c t]; [done|]. simpl. by rewrite (ends_number_digit c t).
  - simpl. destruct (is_digit c); [|done]. fold (String.app a t). change (String.app a t) with (a +:+ t).
    rewrite IH. by destruct (span_digits a).
Qed.

(** [f] reads the same from a longer text. *)
Definition extends {A} (f : string -> option (A * string)) : Prop :=
  forall s t v r, ends_number t = true -> f s = Some (v, r) -> f (s +:+ t) = Some (v, r +:+ t).

Lemma scan_digits1_extends : extends scan_digits1.
Proof.
  intros s t v r Ht. unfold scan_digits1. rewrite span_digits_app by done.
  destruct (span_digits s) as [[|c d] b]; simpl; [done|]. by intros [= <- <-].
Qed.

Lemma scan_int_extends : extends scan_int.
Proof.
  intros [|c s] t v r Ht; [done|]. change (String c s +:+ t) with (String c (s +:+ t)). unfold scan_int.
  case_bool_decide; [by intros [= <- <-]|]. destruct (is_digit c) eqn:Hc; [|done].
  change (String c (s +:+ t)) with (String c s +:+ t). rewrite span_digits_app by done.
  destruct (span_digits (String c s)). by intros [= <- <-].
Qed.

Lemma prepend_Some pre x v r : prepend pre x = Some (v, r) <-> exists w, x = Some (w, r) /\ v = pre +:+ w.
Proof. destruct x as [[w q]|]; simpl; split; [intros [= <- <-]; eauto| |done|]; naive_solver. Qed.

Lemma prepend_extends pre f : extends f -> extends (fun s => prepend pre (f s)).
Proof. intros Hf s t v r Ht (w & Hw & ->)%prepend_Some. apply prepend_Some. eauto using Hf. Qed.

Lemma scan_frac_extends : extends scan_frac.
Proof.
  intros [|c s] t v r Ht.
  - intros [= <- <-]. destruct t as [|c t]; [done|]. unfold scan_frac, strip. simpl.
    by rewrite (ends_number_mark c t) by done.
  - unfold scan_frac, strip. change (String c s +:+ t) with (String c (s +:+ t)). cbn iota.
    case_bool_decide; [|by intros [= <- <-]].
    by apply (prepend_extends "." scan_digits1 scan_digits1_extends).
Qed.

Lemma scan_exp_extends : extends scan_exp.
Proof.
  intros [|c s] t v r Ht.
  - intros [= <- <-]. destruct t as [|c t]; [done|]. unfold scan_exp. simpl.
    by rewrite !(ends_number_mark c t) by done.
  - unfold scan_exp. change (String c s +:+ t) with (String c (s +:+ t)). cbn iota.
    destruct (_ || _); [|by intros [= <- <-]]. destruct s as [|d s]; [done|].
    change (String d s +:+ t) with (String d (s +:+ t)). cbn iota. destruct (_ || _).
    + by apply (prepend_extends (bytes2 c d) scan_digits1 scan_digits1_extends).
    + by apply (prepend_extends (String c "") scan_digits1 scan_digits1_extends (String d s) t).
Qed.

Lemma scan_number_extends : extends scan_number.
Proof.
  intros s t v r Ht. unfold scan_number.
  assert (forall neg s0, match scan_int s0 with
    | None => None
    | Some (int, s1) => match scan_frac s1 with
        | None => None
        | Some (frac, s2) => match scan_exp s2 with
            | None => None
            | Some (exp, s3) => Some (number neg int frac exp, s3) end end end = Some (v, r) ->
    match scan_int (s0 +:+ t) with
    | None => None
    | Some (int, s1) => match scan_frac s1 with
        | None => None
        | Some (frac, s2) => match scan_exp s2 with
            | None => None
            | Some (exp, s3) => Some (number neg int frac exp, s3) end end end = Some (v, r +:+ t)) as Hgo.
  { intros neg s0. destruct (scan_int s0) as [[int s1]|] eqn:E1; [|done].
    destruct (scan_frac s1) as [[frac s2]|] eqn:E2; [|done].
    destruct (scan_exp s2) as [[exp s3]|] eqn:E3; [|done]. intros [= <- <-].
    by rewrite (scan_int_extends _ _ _ _ Ht E1), (scan_frac_extends _ _ _ _ Ht E2), (scan_exp_extends _ _ _ _ Ht E3). }
  destruct s as [|c s]; [done|]. unfold strip. change (String c s +:+ t) with (String c (s +:+ t)). cbn iota.
  case_bool_decide; apply Hgo.
Qed.

(** *** Decimal numbers *)
Lemma is_digit_val c : is_digit c = match digit_val c with Some _ => true | None => false end.
Proof. ascii_all c. Qed.

Fixpoint digits (s : string) : bool :=
  match s with EmptyString => true | String c s' => is_digit c && digits s' end.

Lemma span_all s : digits s = true -> span_digits s = (s, "").
Proof. induction s as [|c s IH]; simpl; [done|]. intros [-> Hs]%andb_true_iff. by rewrite IH. Qed.

Lemma digit_char_digit d : 0 <= d < 10 -> is_digit (digit_char d) = true.
Proof. intros Hd. by rewrite is_digit_val, digit_val_char. Qed.

Lemma digits_app a b : digits (a +:+ b) = digits a && digits b.
Proof. induction a as [|c a IH]; simpl; [done|]. rewrite <- andb_assoc. by f_equal. Qed.

Lemma itoa_digits fuel n : 0 <= n -> digits (itoa_fuel fuel n) = true.
Proof.
  revert n. induction fuel as [|f IH]; intros n Hn; simpl; [done|].
  destruct (Z.ltb_spec n 10); simpl; [by rewrite digit_char_digit by lia|].
  rewrite digits_app, IH by (apply Z.div_pos; lia). simpl.
  rewrite digit_char_digit; [done|]. apply Z.mod_pos_bound. lia.
Qed.

(** A positive number has no leading zero. *)
Lemma itoa_first fuel n :
  0 < n < 10 ^ Z.of_nat fuel -> exists c s, itoa_fuel fuel n = String c s /\ is_digit c = true /\ c <> "0"%char.
Proof.
  revert n. induction fuel as [|f IH]; intros n Hn; [simpl in Hn; lia|]. simpl itoa_fuel.
  destruct (Z.ltb_spec n 10).
  - exists (digit_char n), "". split; [done|]. split; [by apply digit_char_digit; lia|].
    intros Hc. pose proof (digit_val_char n ltac:(lia)) as Hv. rewrite Hc in Hv. change (Some 0 = Some n) in Hv. injection Hv as Hv. lia.
  - destruct (IH (n / 10)) as (c & s & -> & Hc).
    { split; [apply Z.div_str_pos; lia|]. apply Z.div_lt_upper_bound; [lia|].
      rewrite Nat2Z.inj_succ, Z.pow_succ_r in Hn by lia. lia. }
    by exists c, (s +:+ String (digit_char (n `mod` 10)) "").
Qed.

Lemma dec_value_ParseUint max s n r : ParseUint_loop max s n = Some r -> dec_value s n = r.
Proof.
  revert n. induction s as [|c s IH]; intros n; simpl; [congruence|].
  assert (forall d, digit_val c = Some d -> byte_val c - 48 = d) as Hd.
  { unfold digit_val, byte_val, nat_of_ascii. intros d. rewrite N_nat_Z. case_match; congruence. }
  destruct (digit_val c) as [d|]; [|done]. rewrite (Hd d) by done. case_match; [done|]. apply IH.
Qed.

Lemma scan_int_itoa n :
  0 <= n < 10 ^ 20 -> scan_int (itoa_fuel 20 n) = Some (itoa_fuel 20 n, "") /\ dec_value (itoa_fuel 20 n) 0 = n.
Proof.
  intros Hn. split.
  - destruct (decide (n = 0)) as [->|Hz]; [done|].
    destruct (itoa_first 20 n) as (c & s & E & Hc & Hc0); [change (10 ^ Z.of_nat 20) with (10 ^ 20); lia|].
    pose proof (itoa_digits 20 n ltac:(lia)) as Hd. rewrite E in *. unfold scan_int.
    rewrite bool_decide_eq_false_2 by done. rewrite Hc. by rewrite (span_all _ Hd).
  - apply (dec_value_ParseUint (10 ^ 20)), ParseUint_loop_itoa; change (10 ^ Z.of_nat 20) with (10 ^ 20); lia.
Qed.

Lemma itoa_no_minus n : 0 <= n < 10 ^ 20 -> strip "-" (itoa_fuel 20 n) = (false, itoa_fuel 20 n).
Proof.
  intros Hn. pose proof (itoa_fuel_no_char 20 n "-"%char eq_refl ltac:(lia)) as Hm.
  destruct (itoa_fuel 20 n) as [|c s]; [done|]. simpl in *. apply orb_false_iff in Hm as [Hm%bool_decide_eq_false _].
  by rewrite bool_decide_eq_false_2.
Qed.

Lemma scan_Itoa z : is_i64 z -> scan_number (Itoa z) = Some (JInt z, "").
Proof.
  intros Hz. unfold is_i64 in Hz. unfold Itoa, scan_number, number. destruct (Z.ltb_spec z 0).
  - destruct (scan_int_itoa (- z)) as [E1 E2]; [lia|].
    assert (itoa_fuel 20 (- z) <> "0") as Hne.
    { destruct (itoa_first 20 (- z)) as (c & s & E & Hc & Hc0);
        [change (10 ^ Z.of_nat 20) with (10 ^ 20); lia|]. rewrite E. congruence. }
    revert E1 E2 Hne. generalize (itoa_fuel 20 (- z)). intros s E1 E2 Hne.
    change ("-" +:+ s) with (String "-" s). unfold strip. rewrite bool_decide_eq_true_2 by done. rewrite E1.
    simpl. rewrite bool_decide_eq_false_2 by done. simpl. rewrite E2. do 3 f_equal. lia.
  - destruct (scan_int_itoa z) as [E1 E2]; [lia|]. rewrite itoa_no_minus by lia.
    revert E1 E2. generalize (itoa_fuel 20 z). intros s E1 E2. rewrite E1. simpl. by rewrite E2.
Qed.

(** ** Values *)
Lemma json_induction (P : json -> Prop) :
  P JNull -> (forall b, P (JBool b)) -> (forall z, P (JInt z)) -> (forall l, P (JFrac l)) ->
  (forall s, P (JStr s)) -> (forall vs, Forall P vs -> P (JArr vs)) ->
  (forall ms, Forall (fun m => P (snd m)) ms -> P (JObj ms)) -> forall v, P v.
Proof.
  intros Hn Hb Hi Hf Hs Ha Ho. fix IH 1. intros [|b|z|l|s|vs|ms]; [exact Hn|apply Hb|apply Hi|apply Hf|apply Hs| |].
  - apply Ha. induction vs; constructor; [apply IH|done].
  - apply Ho. induction ms; constructor; [apply IH|done].
Qed.

(** A document that can be written and read: integers of an [int], fractions
    in the form the scanner reads, nested at most [d] deep. *)
Fixpoint json_ok (d : nat) (v : json) {struct v} : bool :=
  match v with
  | JNull | JBool _ | JStr _ => true
  | JInt z => bool_decide (is_i64 z)
  | JFrac l => match scan_number l with
               | Some (JFrac l', rest) => bool_decide (l' = l) && bool_decide (rest = "")
               | _ => false
               end
  | JArr vs => match d with O => false | S d' => forallb (json_ok d') vs end
  | JObj ms => match d with O => false | S d' => forallb (fun m => json_ok d' (snd m)) ms end
  end.

(** The document with invalid UTF-8 replaced. *)
Fixpoint coerce_json (v : json) : json :=
  match v with
  | JStr s => JStr (coerce s)
  | JArr vs => JArr (map coerce_json vs)
  | JObj ms => JObj (map (fun m => (coerce (fst m), coerce_json (snd m))) ms)
  | _ => v
  end.

Definition member_text (m : string * json) : string := json_string (fst m) +:+ ":" +:+ json_text (snd m).

Lemma json_text_JArr vs : json_text (JArr vs) = "[" +:+ Join "," (json_text <$> vs) +:+ "]".
Proof. reflexivity. Qed.

Lemma json_text_JObj ms : json_text (JObj ms) = "{" +:+ Join "," (member_text <$> ms) +:+ "}".
Proof. cbn [json_text]. do 3 f_equal. induction ms as [|[k v] ms IH]; [done|]. csimpl. by f_equal. Qed.

Definition number_start (c : ascii) : bool := is_digit c || bool_decide (c = "-"%char).

Lemma parse_number d c s : number_start c = true -> parse_value d (String c s) = scan_number (String c s).
Proof. destruct d; ascii_cases c. Qed.

Lemma scan_number_start c s r : scan_number (String c s) = Some r -> number_start c = true.
Proof.
  unfold scan_number, strip, number_start. case_bool_decide; [intros _; apply orb_true_r|].
  unfold scan_int. case_bool_decide as H0; [by rewrite H0|]. by destruct (is_digit c).
Qed.

(** [v] is read back from its text, whatever follows. *)
Definition reads (pv : string -> option (json * string)) (v : json) : Prop :=
  forall rest, ends_number rest = true -> pv (json_text v +:+ rest) = Some (coerce_json v, rest).

Lemma number_reads d l v :
  json_text v = l -> coerce_json v = v -> scan_number l = Some (v, "") -> reads (parse_value d) v.
Proof.
  intros <- Hv Hs rest Hr. pose proof (scan_number_extends _ _ _ _ Hr Hs) as Hx. rewrite Hv.
  destruct (json_text v) as [|c s]; [done|]. change (String c s +:+ rest) with (String c (s +:+ rest)) in *.
  rewrite parse_number; [exact Hx|]. by eapply scan_number_start.
Qed.

Lemma string_reads d s : reads (parse_value d) (JStr s).
Proof.
  intros rest _. change (json_text (JStr s)) with (String quote_char (json_escape s +:+ quote)).
  change (String quote_char (json_escape s +:+ quote) +:+ rest)
    with (String quote_char ((json_escape s +:+ quote) +:+ rest)).
  rewrite string_app_assoc. change (quote +:+ rest) with (String quote_char rest).
  assert (forall t, parse_value d (String quote_char t) =
    match scan_string t with Some (raw, r) => Some (JStr (unquote (runes raw)), r) | None => None end) as ->
    by (by destruct d).
  by rewrite scan_json_escape, unquote_json_escape.
Qed.

(** A separator or a closing bracket comes right after a value. *)
Lemma elems_read pv vs n rest :
  Forall (reads pv) vs -> vs <> [] -> (length vs <= n)%nat ->
  parse_elems pv n (Join "," (json_text <$> vs) +:+ String "]" rest) = Some (map coerce_json vs, rest).
Proof.
  intros Hvs. revert n. induction Hvs as [|v vs Hv Hvs IH]; intros n Hne Hn; [done|].
  destruct n as [|n]; [simpl in Hn; lia|]. destruct vs as [|v' vs].
  - cbn [parse_elems fmap list_fmap Join]. by rewrite Hv.
  - change (json_text <$> v :: v' :: vs) with (json_text v :: json_text v' :: (json_text <$> vs)).
    rewrite Join_cons2, !string_app_assoc. cbn [parse_elems]. rewrite Hv by done.
    change ("," +:+ ?t) with (String "," t). cbn [skip_ws]. change (is_space ",") with false. cbn iota.
    rewrite bool_decide_eq_true_2 by done.
    change (json_text v' :: (json_text <$> vs)) with (json_text <$> v' :: vs). rewrite IH; [done|done|].
    simpl in *. lia.
Qed.

Lemma members_read pv ms n rest :
  Forall (fun m => reads pv (snd m)) ms -> ms <> [] -> (length ms <= n)%nat ->
  parse_members pv n (Join "," (member_text <$> ms) +:+ String "}" rest) =
  Some (map (fun m => (coerce (fst m), coerce_json (snd m))) ms, rest).
Proof.
  intros Hms. revert n. induction Hms as [|[k v] ms Hv Hms IH]; intros n Hne Hn; [done|]. simpl in Hv.
  destruct n as [|n]; [simpl in Hn; lia|].
  assert (forall t, member_text (k, v) +:+ t =
    String quote_char (json_escape k +:+ String quote_char (String ":" (json_text v +:+ t)))) as Htext.
  { intros t. unfold member_text, json_string. simpl. rewrite !string_app_assoc. done. }
  assert (forall t, ends_number t = true -> parse_members pv (S n) (member_text (k, v) +:+ t) =
    match skip_ws t with
    | String c s4 =>
        if bool_decide (c = ","%char) then
          match parse_members pv n s4 with Some (ms, r) => Some ((coerce k, coerce_json v) :: ms, r) | None => None end
        else if bool_decide (c = "}"%char) then Some ([(coerce k, coerce_json v)], s4) else None
    | EmptyString => None
    end) as Hone.
  { intros t Ht. rewrite Htext. cbn [parse_members skip_ws]. change (is_space quote_char) with false. cbn iota.
    unfold strip at 1. rewrite bool_decide_eq_true_2 by done. rewrite scan_json_escape.
    cbn [skip_ws]. change (is_space ":") with false. cbn iota. unfold strip. rewrite bool_decide_eq_true_2 by done.
    by rewrite Hv, unquote_json_escape. }
  destruct ms as [|m' ms].
  - cbn [fmap list_fmap Join]. by rewrite Hone.
  - change (member_text <$> (k, v) :: m' :: ms) with (member_text (k, v) :: member_text m' :: (member_text <$> ms)).
    rewrite Join_cons2, !string_app_assoc. rewrite Hone by done.
    change ("," +:+ ?t) with (String "," t). cbn [skip_ws]. change (is_space ",") with false. cbn iota.
    rewrite bool_decide_eq_true_2 by done.
    change (member_text m' :: (member_text <$> ms)) with (member_text <$> m' :: ms). rewrite IH; [done|done|].
    simpl in *. lia.
Qed.

Definition starts_value (c : ascii) : bool :=
  negb (is_space c || bool_decide (c = "]"%char) || bool_decide (c = "}"%char)).

Lemma number_starts_value c : number_start c = true -> starts_value c = true.
Proof. ascii_cases c. Qed.

Lemma text_start d v : json_ok d v = true -> exists c s, json_text v = String c s /\ starts_value c = true.
Proof.
  assert (forall l w r, scan_number l = Some (w, r) -> exists c s, l = String c s /\ starts_value c = true) as Hnum.
  { intros [|c s] w r Hs; [done|]. exists c, s. split; [done|]. by eapply number_starts_value, scan_number_start. }
  destruct v as [|[]|z|l|s|vs|ms]; intros Hok; try (eexists _, _; split; reflexivity).
  - simpl in Hok. apply bool_decide_eq_true in Hok. by eapply Hnum, scan_Itoa.
  - simpl in Hok. destruct (scan_number l) as [[[] r]|] eqn:E; try done. by eapply Hnum.
Qed.

Lemma text_starts d v rest :
  json_ok d v = true -> exists c s, json_text v +:+ rest = String c s /\ starts_value c = true.
Proof. intros (c & s & -> & Hc)%text_start. by exists c, (s +:+ rest). Qed.

Lemma length_Join (ts : list string) rest :
  (length ts <= String.length (Join "," ts +:+ rest) + 1)%nat /\
  (rest <> "" -> (length ts <= String.length (Join "," ts +:+ rest))%nat).
Proof.
  assert (length ts <= S (String.length (Join "," ts)))%nat as H.
  { induction ts as [|t [|t' ts] IH]; [simpl; lia..|]. rewrite Join_cons2, !length_app_string.
    cbn [length] in *. change (String.length ",") with 1%nat. lia. }
  rewrite length_app_string. split; [lia|]. destruct rest; [done|simpl; lia].
Qed.

Lemma arr_reads d vs : Forall (reads (parse_value d)) vs -> forallb (json_ok d) vs = true -> reads (parse_value (S d)) (JArr vs).
Proof.
  intros Hvs Hok rest _. rewrite json_text_JArr, !string_app_assoc.
  change ("[" +:+ ?t) with (String "[" t). change ("]" +:+ rest) with (String "]" rest).
  assert (forall t, parse_value (S d) (String "[" t) =
    match strip "]" (skip_ws t) with
    | (true, s2) => Some (JArr [], s2)
    | (false, s2) => match parse_elems (parse_value d) (String.length s2) s2 with
                     | Some (vs, r) => Some (JArr vs, r) | None => None end
    end) as -> by done.
  destruct vs as [|v vs]; [done|].
  assert (exists c s, Join "," (json_text <$> v :: vs) +:+ String "]" rest = String c s /\ starts_value c = true)
    as (c & s & E & Hc).
  { apply andb_true_iff in Hok as [Hv _]. destruct vs as [|v' vs].
    - change (Join "," (json_text <$> [v])) with (json_text v). by apply (text_starts d).
    - change (Join "," (json_text <$> v :: v' :: vs)) with (json_text v +:+ "," +:+ Join "," (json_text <$> v' :: vs)).
      rewrite string_app_assoc. by apply (text_starts d). }
  assert (strip "]" (skip_ws (String c s)) = (false, String c s)) as Hstrip.
  { unfold starts_value in Hc. cbn [skip_ws]. destruct (is_space c); [done|]. simpl.
    case_bool_decide; [by subst c|done]. }
  rewrite E, Hstrip, <- E. rewrite elems_read; [done|done|done|].
  etrans; [|apply length_Join; done]. by rewrite length_fmap.
Qed.

Lemma obj_reads d ms : Forall (fun m => reads (parse_value d) (snd m)) ms -> reads (parse_value (S d)) (JObj ms).
Proof.
  intros Hms rest _. rewrite json_text_JObj, !string_app_assoc.
  change ("{" +:+ ?t) with (String "{" t). change ("}" +:+ rest) with (String "}" rest).
  assert (forall t, parse_value (S d) (String "{" t) =
    match strip "}" (skip_ws t) with
    | (true, s2) => Some (JObj [], s2)
    | (false, s2) => match parse_members (parse_value d) (String.length s2) s2 with
                     | Some (ms, r) => Some (JObj ms, r) | None => None end
    end) as -> by done.
  destruct ms as [|[k v] ms]; [done|].
  assert (exists s, Join "," (member_text <$> (k, v) :: ms) +:+ String "}" rest = String quote_char s) as [s E].
  { by destruct ms; eexists. }
  assert (strip "}" (skip_ws (String quote_char s)) = (false, String quote_char s)) as Hstrip by reflexivity.
  rewrite E, Hstrip, <- E. rewrite members_read; [done|done|done|].
  etrans; [|apply length_Join; done]. by rewrite length_fmap.
Qed.

(** A document is read back from its text, whatever follows it. *)
Lemma text_reads v d : json_ok d v = true -> reads (parse_value d) v.
Proof.
  revert v d. apply (json_induction (fun v => forall d, json_ok d v = true -> reads (parse_value d) v)).
  - intros d _ rest _. by destruct d, rest.
  - intros [] d _ rest _; by destruct d, rest.
  - intros z d Hz. simpl in Hz. apply bool_decide_eq_true in Hz. by eapply number_reads; [done|done|apply scan_Itoa].
  - intros l d Hl. simpl in Hl. destruct (scan_number l) as [[[] r]|] eqn:E; try done.
    apply andb_true_iff in Hl as [->%bool_decide_eq_true ->%bool_decide_eq_true]. by eapply number_reads.
  - intros s d _. apply string_reads.
  - intros vs IH [|d] Hok; [done|]. apply arr_reads; [|done]. apply Is_true_eq_left, forallb_True in Hok.
    rewrite Forall_forall in *. intros v Hv. apply IH; [done|]. apply Is_true_eq_true. auto.
  - intros ms IH [|d] Hok; [done|]. apply obj_reads. apply Is_true_eq_left, forallb_True in Hok.
    rewrite Forall_forall in *. intros v Hv. apply IH; [done|]. apply Is_true_eq_true. auto.
Qed.

(** ** Reading a whole text *)
Lemma Decode_json_text v rest :
  json_ok maxNestingDepth v = true -> ends_number rest = true ->
  Decode_text (json_text v +:+ rest) = inr (coerce_json v).
Proof. intros Hok Hr. unfold Decode_text. by rewrite (text_reads v _ Hok rest Hr). Qed.

Lemma Unmarshal_json_text v rest :
  json_ok maxNestingDepth v = true -> ends_number rest = true -> skip_ws rest = "" ->
  Unmarshal_text (json_text v +:+ rest) = inr (coerce_json v).
Proof. intros Hok Hr Hws. unfold Unmarshal_text. rewrite (text_reads v _ Hok rest Hr). by rewrite bool_decide_eq_true_2. Qed.

(** *** Documents in valid UTF-8 come back unchanged *)
Fixpoint json_utf8 (v : json) : bool :=
  match v with
  | JStr s => valid_utf8 s
  | JArr vs => forallb json_utf8 vs
  | JObj ms => forallb (fun m => valid_utf8 (fst m) && json_utf8 (snd m)) ms
  | _ => true
  end.

Lemma coerce_json_utf8 v : json_utf8 v = true -> coerce_json v = v.
Proof.
  revert v. apply (json_induction (fun v => json_utf8 v = true -> coerce_json v = v)); try done.
  - intros s Hs. simpl. by rewrite coerce_valid.
  - intros vs IH Hok. simpl. f_equal. induction IH as [|v vs Hv _ IH]; [done|].
    apply andb_true_iff in Hok as [H1 H2]. simpl. by rewrite Hv, IH.
  - intros ms IH Hok. simpl. f_equal. induction IH as [|[k v] ms Hv _ IH]; [done|].
    apply andb_true_iff in Hok as [[H0 H1]%andb_true_iff H2]. cbn [fst snd] in *. simpl. by rewrite Hv, IH, coerce_valid.
Qed.

(** ** The bounds on the number of elements cut nothing off *)
Definition shrinks {A} (f : string -> option (A * string)) : Prop :=
  forall s v r, f s = Some (v, r) -> (String.length r < String.length s)%nat.

Lemma skip_ws_length s : (String.length (skip_ws s) <= String.length s)%nat.
Proof. induction s as [|c s IH]; simpl; [done|]. destruct (is_space c); simpl; lia. Qed.

Lemma strip_length c s s' : strip c s = (true, s') -> (String.length s' < String.length s)%nat.
Proof. destruct s as [|d s]; simpl; [done|]. case_bool_decide; [|done]. intros [= <-]. lia. Qed.

Lemma strip_false c s s' : strip c s = (false, s') -> s' = s.
Proof. destruct s as [|d s]; simpl; [by intros [= <-]|]. case_bool_decide; [done|]. by intros [= <-]. Qed.

Lemma scan_string_shrinks : shrinks scan_string.
Proof.
  intros s. remember (String.length s) as n eqn:En. assert (String.length s <= n)%nat as Hn by lia. clear En.
  enough (forall v r, scan_string s = Some (v, r) -> (String.length r < String.length s)%nat) as H.
  { intros v r Hs. specialize (H v r Hs). lia. }
  revert s Hn. induction n as [|n IH]; intros [|c s] Hn v r; simpl in *; try done; [lia|].
  case_bool_decide; [intros [= <- <-]; lia|]. case_bool_decide.
  - destruct s as [|d s]; [done|]. simpl in Hn. destruct (is_escape d).
    + intros (w & Hw & ->)%prepend_Some. apply IH in Hw; simpl; lia.
    + case_bool_decide; [|done]. destruct s as [|h1 [|h2 [|h3 [|h4 s]]]]; try done. simpl in Hn.
      destruct (_ && _); [|done]. intros (w & Hw & ->)%prepend_Some. apply IH in Hw; simpl; lia.
  - case_match; [done|]. intros (w & Hw & ->)%prepend_Some. apply IH in Hw; lia.
Qed.

Lemma span_digits_length s : (String.length (snd (span_digits s)) <= String.length s)%nat.
Proof. induction s as [|c s IH]; simpl; [done|]. destruct (is_digit c); [|done]. destruct (span_digits s). simpl in *. lia. Qed.

Lemma scan_digits1_length s v r : scan_digits1 s = Some (v, r) -> (String.length r <= String.length s)%nat.
Proof.
  unfold scan_digits1. pose proof (span_digits_length s) as H. destruct (span_digits s) as [[|c d] b]; [done|].
  by intros [= <- <-].
Qed.

Lemma scan_int_shrinks : shrinks scan_int.
Proof.
  intros [|c s] v r; simpl; [done|]. case_bool_decide; [intros [= <- <-]; lia|].
  destruct (is_digit c); [|done]. pose proof (span_digits_length s). destruct (span_digits s) as [a b].
  intros [= <- <-]. simpl in *. lia.
Qed.

Lemma scan_frac_length s v r : scan_frac s = Some (v, r) -> (String.length r <= String.length s)%nat.
Proof.
  unfold scan_frac. destruct (strip "." s) as [[] s1] eqn:E; [|by intros [= <- <-]].
  apply strip_length in E. intros (w & Hw%scan_digits1_length & _)%prepend_Some. lia.
Qed.

Lemma scan_exp_length s v r : scan_exp s = Some (v, r) -> (String.length r <= String.length s)%nat.
Proof.
  destruct s as [|c s]; simpl; [by intros [= <- <-]|]. destruct (_ || _); [|by intros [= <- <-]].
  destruct s as [|d s]; [done|].
  destruct (_ || _); intros (w & Hw%scan_digits1_length & _)%prepend_Some; simpl in *; lia.
Qed.

Lemma scan_number_shrinks : shrinks scan_number.
Proof.
  intros s v r. unfold scan_number. destruct (strip "-" s) as [neg s0] eqn:E0.
  assert (String.length s0 <= String.length s)%nat.
  { destruct neg; [apply strip_length in E0; lia|]. apply strip_false in E0. by subst. }
  destruct (scan_int s0) as [[int s1]|] eqn:E1; [|done]. apply scan_int_shrinks in E1.
  destruct (scan_frac s1) as [[frac s2]|] eqn:E2; [|done]. apply scan_frac_length in E2.
  destruct (scan_exp s2) as [[exp s3]|] eqn:E3; [|done]. apply scan_exp_length in E3.
  intros [= _ <-]. lia.
Qed.

Lemma HasPrefix_length s p :
  HasPrefix s p = true -> (String.length (drop_string (String.length p) s) + String.length p = String.length s)%nat.
Proof.
  revert s. induction p as [|c p IH]; intros [|d s]; simpl; try (done || lia).
  intros [_ H]%andb_true_iff. apply IH in H. lia.
Qed.

Lemma literal_shrinks word w : word <> "" -> shrinks (literal word w).
Proof.
  intros Hw s v r. unfold literal. destruct (HasPrefix s word) eqn:E; [|done]. intros [= _ <-].
  apply HasPrefix_length in E. destruct word; [done|]. simpl in *. lia.
Qed.

(** The loop over the elements: it shrinks the text, and any bound above its
    length gives the same result. *)
Section Loops.
Context (pv : string -> option (json * string)) (Hpv : shrinks pv).

Lemma parse_elems_shrinks n : shrinks (parse_elems pv n).
Proof.
  induction n as [|n IH]; intros s vs r; simpl; [done|]. destruct (pv s) as [[v s1]|] eqn:E; [|done].
  apply Hpv in E. pose proof (skip_ws_length s1). destruct (skip_ws s1) as [|c s2]; [done|]. simpl in *.
  case_bool_decide; [|case_bool_decide; [intros [= <- <-]; lia|done]].
  destruct (parse_elems pv n s2) as [[vs' r']|] eqn:E2; [|done]. apply IH in E2. intros [= <- <-]. lia.
Qed.

Lemma parse_elems_bound n m s :
  (String.length s <= n)%nat -> (String.length s <= m)%nat -> parse_elems pv n s = parse_elems pv m s.
Proof.
  assert (pv "" = None) as Hnil by (destruct (pv "") as [[v r]|] eqn:E; [apply Hpv in E; simpl in E; lia|done]).
  revert m s. induction n as [|n IH]; intros m s Hn Hm.
  - destruct s; [|simpl in Hn; lia]. destruct m; simpl; [done|]. by rewrite Hnil.
  - destruct m as [|m]; [destruct s; [|simpl in Hm; lia]; simpl; by rewrite Hnil|]. simpl.
    destruct (pv s) as [[v s1]|] eqn:E; [|done]. apply Hpv in E. pose proof (skip_ws_length s1).
    destruct (skip_ws s1) as [|c s2]; [done|]. simpl in *. case_bool_decide; [|done]. rewrite (IH m); [done|lia..].
Qed.

Lemma parse_members_shrinks n : shrinks (parse_members pv n).
Proof.
  induction n as [|n IH]; intros s vs r; simpl; [done|]. pose proof (skip_ws_length s).
  destruct (strip quote_char (skip_ws s)) as [[] s0] eqn:E0; [|done]. apply strip_length in E0.
  destruct (scan_string s0) as [[raw s1]|] eqn:E1; [|done]. apply scan_string_shrinks in E1.
  pose proof (skip_ws_length s1). destruct (strip ":" (skip_ws s1)) as [[] s2] eqn:E2; [|done]. apply strip_length in E2.
  destruct (pv s2) as [[v s3]|] eqn:E3; [|done]. apply Hpv in E3.
  pose proof (skip_ws_length s3). destruct (skip_ws s3) as [|c s4]; [done|]. simpl in *.
  case_bool_decide; [|case_bool_decide; [intros [= <- <-]; lia|done]].
  destruct (parse_members pv n s4) as [[ms' r']|] eqn:E4; [|done]. apply IH in E4. intros [= <- <-]. lia.
Qed.

Lemma parse_members_bound n m s :
  (String.length s <= n)%nat -> (String.length s <= m)%nat -> parse_members pv n s = parse_members pv m s.
Proof.
  revert m s. induction n as [|n IH]; intros m s Hn Hm.
  - destruct s; [|simpl in Hn; lia]. by destruct m.
  - destruct m as [|m]; [destruct s; [done|simpl in Hm; lia]|]. simpl. pose proof (skip_ws_length s).
    destruct (strip quote_char (skip_ws s)) as [[] s0] eqn:E0; [|done]. apply strip_length in E0.
    destruct (scan_string s0) as [[raw s1]|] eqn:E1; [|done]. apply scan_string_shrinks in E1.
    pose proof (skip_ws_length s1). destruct (strip ":" (skip_ws s1)) as [[] s2] eqn:E2; [|done]. apply strip_length in E2.
    destruct (pv s2) as [[v s3]|] eqn:E3; [|done]. apply Hpv in E3.
    pose proof (skip_ws_length s3). destruct (skip_ws s3) as [|c s4]; [done|]. simpl in *.
    case_bool_decide; [|done]. rewrite (IH m); [done|lia..].
Qed.
End Loops.

(** Every value read takes at least a byte, so the bounds of [parse_value] are
    those of the two lemmas above. *)
Definition scalar (c : ascii) (s1 : string) : option (json * string) :=
  if bool_decide (c = quote_char) then
    match scan_string s1 with
    | Some (raw, r) => Some (JStr (unquote (runes raw)), r)
    | None => None
    end
  else if bool_decide (c = "n"%char) then literal "null" JNull (String c s1)
  else if bool_decide (c = "t"%char) then literal "true" (JBool true) (String c s1)
  else if bool_decide (c = "f"%char) then literal "false" (JBool false) (String c s1)
  else scan_number (String c s1).

Lemma scalar_shrinks c s1 v r : scalar c s1 = Some (v, r) -> (String.length r <= String.length s1)%nat.
Proof.
  unfold scalar. case_bool_decide.
  - destruct (scan_string s1) as [[raw r']|] eqn:E; [|done]. apply scan_string_shrinks in E.
    intros [= _ <-]. lia.
  - do 3 (case_bool_decide; [intros Hl%literal_shrinks; [simpl in Hl; lia|done]|]).
    intros Hl%scan_number_shrinks. simpl in Hl. lia.
Qed.

Lemma parse_value_shrinks d : shrinks (parse_value d).
Proof.
  induction d as [|d IH]; intros s v r; cbn [parse_value]; pose proof (skip_ws_length s);
    (destruct (skip_ws s) as [|c s1]; [done|]); fold (scalar c s1); simpl String.length in *.
  - do 2 (case_bool_decide; [done|]). intros Hs%scalar_shrinks. lia.
  - pose proof (skip_ws_length s1). case_bool_decide; [|case_bool_decide; [|intros Hs%scalar_shrinks; lia]].
    + destruct (strip "}" (skip_ws s1)) as [[] s2] eqn:E; [apply strip_length in E; intros [= <- <-]; lia|].
      apply strip_false in E. destruct (parse_members _ _ s2) as [[ms r']|] eqn:E2; [|done].
      apply parse_members_shrinks in E2; [|done]. intros [= <- <-]. subst. lia.
    + destruct (strip "]" (skip_ws s1)) as [[] s2] eqn:E; [apply strip_length in E; intros [= <- <-]; lia|].
      apply strip_false in E. destruct (parse_elems _ _ s2) as [[ms r']|] eqn:E2; [|done].
      apply parse_elems_shrinks in E2; [|done]. intros [= <- <-]. subst. lia.
Qed.
