(* ===== verification/Wire.v ===== *)
(** Wire: the models as text.  Writing a value of a model and reading the text
    gives back every field but the ones tagged [json:"-"], for values that fit
    the widths of their fields and whose strings are valid UTF-8. *)
From Stdlib Require Import ZArith Lia.
From stdpp Require Import base option strings list.
From S2P Require Import Prelude GoStrings Utf8 RouterGroups Routes Json JsonText JsonTextFacts.

Local Open Scope string_scope.
Local Open Scope list_scope.
Local Open Scope Z_scope.

(** ** The documents are readable *)
Lemma json_ok_mono v d d' : (d <= d')%nat -> json_ok d v = true -> json_ok d' v = true.
Proof.
  revert v d d'. apply (json_induction (fun v => forall d d', (d <= d')%nat -> json_ok d v = true -> json_ok d' v = true));
    try done.
  - intros vs IH [|d] [|d'] Hd Hok; try (done || lia). simpl in *.
    apply Is_true_eq_true, forallb_True. apply Is_true_eq_left, forallb_True in Hok.
    rewrite Forall_forall in *. intros v Hv. apply Is_true_eq_left, (IH v Hv d); [lia|by apply Is_true_eq_true, Hok].
  - intros ms IH [|d] [|d'] Hd Hok; try (done || lia). simpl in *.
    apply Is_true_eq_true, forallb_True. apply Is_true_eq_left, forallb_True in Hok.
    rewrite Forall_forall in *. intros v Hv. apply Is_true_eq_left, (IH v Hv d); [lia|by apply Is_true_eq_true, Hok].
Qed.

Lemma depth_enough : (4 <= maxNestingDepth)%nat.
Proof. unfold maxNestingDepth. lia. Qed.

(** An integer field: its width is within that of an [int]. *)
Lemma json_ok_int d z : is_i64 z -> json_ok d (JInt z) = true.
Proof. intros. simpl. by apply bool_decide_eq_true. Qed.

Lemma json_ok_ptr d p : typed_ptr p -> json_ok d (json_of_ptr JInt p) = true.
Proof. destruct p; [|done]. apply json_ok_int. Qed.

Lemma json_ok_str_ptr d p : json_ok d (json_of_ptr JStr p) = true.
Proof. by destruct p. Qed.

Lemma u16_i64 z : is_u16 z -> is_i64 z.
Proof. unfold is_u16, is_i64. lia. Qed.

Lemma u32_i64 z : is_u32 z -> is_i64 z.
Proof. unfold is_u32, is_i64. lia. Qed.

Lemma json_ok_Tag d t : typed_Tag t -> json_ok (S d) (json_of_Tag t) = true.
Proof. intros Ht%u32_i64. simpl. by rewrite bool_decide_eq_true_2. Qed.

Lemma json_ok_member d omit k v :
  json_ok d v = true -> forallb (fun m => json_ok d (snd m)) (member omit k v) = true.
Proof. intros Hv. destruct omit; simpl; [done|]. by rewrite Hv. Qed.

Lemma json_ok_members d (ms ms' : list (string * json)) :
  forallb (fun m => json_ok d (snd m)) ms = true -> forallb (fun m => json_ok d (snd m)) ms' = true ->
  forallb (fun m => json_ok d (snd m)) (ms ++ ms') = true.
Proof. intros H H'. rewrite forallb_app. by rewrite H, H'. Qed.

Create HintDb jsonok.
#[export] Hint Resolve json_ok_members json_ok_member json_ok_int json_ok_ptr json_ok_str_ptr json_ok_Tag
  u16_i64 : jsonok.

Lemma json_ok_Route r : typed_Route r -> json_ok 2 (json_of_Route r) = true.
Proof.
  intros (Hp & Ht & Htag). change (json_ok 2 (json_of_Route r))
    with (forallb (fun m => json_ok 1 (snd m)) (match json_of_Route r with JObj ms => ms | _ => [] end)).
  unfold json_of_Route. auto 20 with jsonok.
Qed.

Lemma json_ok_Tcp m : typed_Tcp m -> json_ok 2 (json_of_Tcp m) = true.
Proof.
  intros (Hhp & Hext & Htp & Httl & Htag). change (json_ok 2 (json_of_Tcp m))
    with (forallb (fun m => json_ok 1 (snd m)) (match json_of_Tcp m with JObj ms => ms | _ => [] end)).
  unfold json_of_Tcp. auto 30 with jsonok.
Qed.

(** ** Values that cross the wire unchanged *)
Definition text_Route (r : Route) : Prop := typed_Route r /\ json_utf8 (json_of_Route r) = true.
Definition text_Tcp (m : TcpRouteMapping) : Prop := typed_Tcp m /\ json_utf8 (json_of_Tcp m) = true.
Definition text_RouterGroup (g : RouterGroup) : Prop :=
  RG_Model g = zero_Model /\ json_utf8 (json_of_RouterGroup g) = true.

#[export] Instance text_Route_dec r : Decision (text_Route r).
Proof. unfold text_Route. apply _. Defined.
#[export] Instance text_Tcp_dec m : Decision (text_Tcp m).
Proof. unfold text_Tcp. apply _. Defined.
#[export] Instance text_RouterGroup_dec g : Decision (text_RouterGroup g).
Proof. unfold text_RouterGroup. apply _. Defined.

(** [v] is read back from its text by both readers; what follows must not
    extend a number. *)
Definition readable (v : json) : Prop := json_ok maxNestingDepth v = true /\ json_utf8 v = true.

Lemma Decode_readable v rest : readable v -> ends_number rest = true -> Decode_text (json_text v +:+ rest) = inr v.
Proof. intros [Hok Hu] Hr. by rewrite Decode_json_text, coerce_json_utf8. Qed.

Lemma Unmarshal_readable v : readable v -> Unmarshal_text (json_text v) = inr v.
Proof.
  intros [Hok Hu]. rewrite <- (string_app_nil (json_text v)), Unmarshal_json_text by done. by rewrite coerce_json_utf8.
Qed.

Lemma readable_at d v : (d <= maxNestingDepth)%nat -> json_ok d v = true -> json_utf8 v = true -> readable v.
Proof. intros Hd Hok Hu. split; [by eapply json_ok_mono|done]. Qed.

Lemma readable_Route r : text_Route r -> readable (json_of_Route r).
Proof. intros [Ht Hu]. apply (readable_at 2); [pose proof depth_enough; lia|by apply json_ok_Route|done]. Qed.

Lemma readable_Tcp m : text_Tcp m -> readable (json_of_Tcp m).
Proof. intros [Ht Hu]. apply (readable_at 2); [pose proof depth_enough; lia|by apply json_ok_Tcp|done]. Qed.

Lemma readable_RouterGroup g : text_RouterGroup g -> readable (json_of_RouterGroup g).
Proof. intros [Ht Hu]. apply (readable_at 1); [pose proof depth_enough; lia|done|done]. Qed.

(** A slice of readable values. *)
Lemma readable_list {A} (enc : A -> json) (P : A -> Prop) (xs : list A) :
  (forall x, P x -> json_ok 2 (enc x) = true /\ json_utf8 (enc x) = true) -> Forall P xs ->
  readable (JArr (enc <$> xs)).
Proof.
  intros Henc Hxs. apply (readable_at 3); [pose proof depth_enough; lia|..].
  - change (forallb (json_ok 2) (enc <$> xs) = true). apply Is_true_eq_true, forallb_True, Forall_fmap.
    eapply Forall_impl; [exact Hxs|]. intros x Hx. simpl. apply Is_true_eq_left. by apply Henc.
  - change (forallb json_utf8 (enc <$> xs) = true). apply Is_true_eq_true, forallb_True, Forall_fmap.
    eapply Forall_impl; [exact Hxs|]. intros x Hx. simpl. apply Is_true_eq_left. by apply Henc.
Qed.

Lemma readable_Routes routes : Forall text_Route routes -> readable (JArr (json_of_Route <$> routes)).
Proof. apply readable_list. intros r [Ht Hu]. split; [by apply json_ok_Route|done]. Qed.

Lemma readable_Tcps ms : Forall text_Tcp ms -> readable (JArr (json_of_Tcp <$> ms)).
Proof. apply readable_list. intros r [Ht Hu]. split; [by apply json_ok_Tcp|done]. Qed.

Lemma readable_RouterGroups gs : Forall text_RouterGroup gs -> readable (JArr (json_of_RouterGroup <$> gs)).
Proof. apply readable_list. intros r [Ht Hu]. done. Qed.

(** *** From text to values *)
Definition then_decode {A} (dec : json -> error + A) (r : error + json) : error + A :=
  match r with inl e => inl e | inr v => dec v end.

Lemma text_routes_roundtrip routes rest :
  Forall text_Route routes -> ends_number rest = true ->
  then_decode (dec_slice Unmarshal_Route) (Decode_text (json_text (JArr (json_of_Route <$> routes)) +:+ rest)) =
  inr (wire_Route <$> routes).
Proof.
  intros Ht Hr. rewrite Decode_readable by (done || by apply readable_Routes). simpl. apply dec_elems_map.
  eapply Forall_impl; [exact Ht|]. intros r [Hty _]. by apply Unmarshal_json_of_Route.
Qed.

Lemma text_tcp_roundtrip ms rest :
  Forall text_Tcp ms -> ends_number rest = true ->
  then_decode (dec_slice Unmarshal_Tcp) (Decode_text (json_text (JArr (json_of_Tcp <$> ms)) +:+ rest)) =
  inr (wire_Tcp <$> ms).
Proof.
  intros Ht Hr. rewrite Decode_readable by (done || by apply readable_Tcps). simpl. apply dec_elems_map.
  eapply Forall_impl; [exact Ht|]. intros m [Hty _]. by apply Unmarshal_json_of_Tcp.
Qed.

Lemma text_groups_roundtrip gs rest :
  Forall text_RouterGroup gs -> ends_number rest = true ->
  then_decode (dec_slice Unmarshal_RouterGroup) (Decode_text (json_text (JArr (json_of_RouterGroup <$> gs)) +:+ rest)) =
  inr gs.
Proof.
  intros Ht Hr. rewrite Decode_readable by (done || by apply readable_RouterGroups). simpl.
  rewrite (dec_elems_map _ _ id), list_fmap_id; [done|].
  eapply Forall_impl; [exact Ht|]. intros g [Hm _]. by apply Unmarshal_json_of_RouterGroup.
Qed.

Lemma text_group_roundtrip g rest :
  text_RouterGroup g -> ends_number rest = true ->
  then_decode Unmarshal_RouterGroup (Decode_text (json_text (json_of_RouterGroup g) +:+ rest)) = inr g.
Proof.
  intros Ht Hr. rewrite Decode_readable by (done || by apply readable_RouterGroup).
  by apply Unmarshal_json_of_RouterGroup, Ht.
Qed.

(** An API error, whatever its text: the bytes that are not UTF-8 are replaced. *)
Definition coerce_error (e : ApiError) : ApiError := mkApiError (coerce (ApiError_Type e)) (coerce (ApiError_Message e)).

Lemma text_error_roundtrip e :
  then_decode Unmarshal_ApiError (Unmarshal_text (json_text (json_of_ApiError e))) = inr (coerce_error e).
Proof.
  rewrite <- (string_app_nil (json_text _)), Unmarshal_json_text; [by destruct e| |done|done].
  apply (json_ok_mono _ 1); [pose proof depth_enough; lia|done].
Qed.

(** What a listing of router groups shows of a stored group. *)
Definition wire_RouterGroup (g : RouterGroup) : RouterGroup :=
  mkRouterGroup zero_Model (RG_Guid g) (RG_Name g) (RG_Type g) (RG_ReservablePorts g).

Lemma listed_groups_roundtrip gs rest :
  Forall (fun g => json_utf8 (json_of_RouterGroup g) = true) gs -> ends_number rest = true ->
  then_decode (dec_slice Unmarshal_RouterGroup) (Decode_text (json_text (JArr (json_of_RouterGroup <$> gs)) +:+ rest)) =
  inr (wire_RouterGroup <$> gs).
Proof.
  intros Hu Hr. rewrite Decode_readable; [|by eapply readable_list; [|exact Hu]|done]. simpl. apply dec_elems_map.
  apply Forall_forall. intros g _. by destruct g.
Qed.
