(* ===== verification/Decoded.v ===== *)
(** Decoded: what a decoded request can contain.  Whatever bytes arrive, the
    strings of the document the reader builds are valid UTF-8, and the values
    the decoder fills in fit the Go types of their fields; so they can be written
    and read again without loss. *)
From Stdlib Require Import ZArith Lia Ascii.
From stdpp Require Import base option strings list.
From S2P Require Import Prelude GoStrings Utf8 RouterGroups Routes Json JsonText JsonTextFacts Wire.

Local Open Scope string_scope.
Local Open Scope list_scope.
Local Open Scope Z_scope.

(** ** Strings *)
Lemma valid_runes s : valid_utf8 s = true -> forallb rune_ok (runes s) = true.
Proof.
  unfold valid_utf8. induction (runes_ok s) as [|r rs Hr _ IH]; [done|]. simpl.
  intros [Hb Hrs]%andb_true_iff. apply andb_true_iff. split; [|by apply IH].
  destruct Hr as [Hr|Hr]; [done|]. by rewrite Hr in Hb.
Qed.

Lemma valid_app a b : valid_utf8 a = true -> valid_utf8 b = true -> valid_utf8 (a +:+ b) = true.
Proof.
  intros Ha Hb. pose proof (coerce_valid a Ha) as E. unfold coerce in E. rewrite <- E. unfold valid_utf8 in *.
  rewrite runes_concat by (by apply valid_runes). rewrite forallb_app. by rewrite Ha, Hb.
Qed.

Lemma valid_rune r : rune_ok r = true -> valid_utf8 (rune_text r) = true.
Proof.
  intros Hr. unfold valid_utf8. rewrite <- (string_app_nil (rune_text r)), runes_text by done.
  by destruct r.
Qed.

Lemma byte_val_byte z : 0 <= z < 256 -> byte_val (byte z) = z.
Proof. intros Hz. unfold byte_val, byte. rewrite N_ascii_embedding; lia. Qed.

(** A code point that is no surrogate has a valid encoding. *)
Lemma EncodeRune_ok r :
  0 <= r < 1114112 -> is_surrogate r = false ->
  exists u, EncodeRune r = rune_text u /\ rune_ok u = true.
Proof.
  intros Hr Hs. assert (~ (55296 <= r < 57344)) as Hsur.
  { unfold is_surrogate in Hs. apply andb_false_iff in Hs as [Hs%Z.leb_gt|Hs%Z.ltb_ge]; lia. }
  unfold EncodeRune. destruct (Z.ltb_spec r 128); [|destruct (Z.ltb_spec r 2048); [|destruct (Z.ltb_spec r 65536)]].
  - exists (RByte (byte r)). split; [done|]. simpl. unfold ascii_byte. rewrite byte_val_byte by lia. by apply Z.ltb_lt.
  - eexists (RMulti _). split; [reflexivity|]. simpl. unfold two, second_ok, within.
    rewrite !byte_val_byte by (Z.to_euclidean_division_equations; lia).
    repeat case_match; rewrite ?andb_true_iff, ?Z.leb_le, ?Z.eqb_eq, ?Z.eqb_neq in *; Z.to_euclidean_division_equations; lia.
  - eexists (RMulti _). split; [reflexivity|]. simpl. unfold three, second_ok, within.
    rewrite !byte_val_byte by (Z.to_euclidean_division_equations; lia).
    repeat case_match; rewrite ?andb_true_iff, ?Z.leb_le, ?Z.eqb_eq, ?Z.eqb_neq in *; Z.to_euclidean_division_equations; lia.
  - eexists (RMulti _). split; [reflexivity|]. simpl. unfold four, second_ok, within.
    rewrite !byte_val_byte by (Z.to_euclidean_division_equations; lia).
    repeat case_match; rewrite ?andb_true_iff, ?Z.leb_le, ?Z.eqb_eq, ?Z.eqb_neq in *; Z.to_euclidean_division_equations; lia.
Qed.

Lemma EncodeRune_valid r : 0 <= r < 1114112 -> is_surrogate r = false -> valid_utf8 (EncodeRune r) = true.
Proof. intros Hr Hs. destruct (EncodeRune_ok r Hr Hs) as (u & -> & Hu). by apply valid_rune. Qed.

Lemma hex_val_range c : 0 <= default 0 (hex_val c) < 16.
Proof.
  unfold hex_val. destruct (within 48 57 c) eqn:E1; [apply within_iff in E1; simpl; lia|].
  destruct (within 97 102 c) eqn:E2; [apply within_iff in E2; simpl; lia|].
  destruct (within 65 70 c) eqn:E3; [apply within_iff in E3; simpl; lia|]. simpl. lia.
Qed.

Lemma getu4_range h1 h2 h3 h4 : 0 <= getu4 h1 h2 h3 h4 < 65536.
Proof.
  unfold getu4. pose proof (hex_val_range h1). pose proof (hex_val_range h2). pose proof (hex_val_range h3).
  pose proof (hex_val_range h4). lia.
Qed.

Lemma DecodeRune16_valid r1 r2 r : DecodeRune16 r1 r2 = Some r -> valid_utf8 (EncodeRune r) = true.
Proof.
  unfold DecodeRune16. destruct (_ && _) eqn:E; [|done]. rewrite !andb_true_iff, !Z.leb_le, !Z.ltb_lt in E.
  intros [= <-]. apply EncodeRune_valid; [lia|]. unfold is_surrogate. apply andb_false_iff.
  right. apply Z.ltb_ge. lia.
Qed.

(** [unquote] takes a chunk off the literal and writes valid text for it. *)
Lemma unquote_step r rs :
  Forall scanned (r :: rs) ->
  exists chunk rs', unquote (r :: rs) = chunk +:+ unquote rs' /\ valid_utf8 chunk = true /\
    Forall scanned rs' /\ (length rs' <= length rs)%nat.
Proof.
  intros Hrs. pose proof (Forall_inv Hrs) as Hr. pose proof (Forall_inv_tail Hrs) as Htl.
  assert (valid_utf8 (rune_text r) = true) as Hrv.
  { destruct Hr as [Hr|Hr]; [by apply valid_rune|]. by destruct r. }
  destruct r as [c|enc|c]; [|by exists enc, rs|by exists replacement, rs]. cbn [unquote].
  case_bool_decide as Hc; [|by exists (String c ""), rs].
  destruct rs as [|[d|enc|d] rs2]; 
    [by exists "", []| |by exists "", (RMulti enc :: rs2)|by exists "", (RBad d :: rs2)].
  pose proof (Forall_inv_tail Htl) as Htl2. case_bool_decide as Hd.
  2:{ exists (unescape d), rs2. split_and!; [done| |done|simpl; lia]. destruct (Forall_inv Htl) as [Hda|Hda]; [|done].
      unfold unescape. repeat case_bool_decide; try reflexivity. by apply (valid_rune (RByte d)). }
  assert (forall l, Forall scanned l -> (length l <= length rs2)%nat ->
    exists chunk rs', unquote l = chunk +:+ unquote rs' /\ valid_utf8 chunk = true /\
      Forall scanned rs' /\ (length rs' <= length (RByte d :: rs2))%nat) as Hskip.
  { intros l Hl Hlen. exists "", l. split_and!; [done|done|done|simpl; lia]. }
  destruct rs2 as [|[h1|?|?] [|[h2|?|?] [|[h3|?|?] [|[h4|?|?] rs3]]]]; try (apply Hskip; [done|lia]).
  do 4 apply Forall_inv_tail in Htl2. clear Hskip Hrs Htl Hr Hrv. cbv zeta. pose proof (getu4_range h1 h2 h3 h4) as Hu4.
  assert (forall chunk l, valid_utf8 chunk = true -> Forall scanned l -> (length l <= length rs3)%nat ->
    exists chunk' rs', chunk +:+ unquote l = chunk' +:+ unquote rs' /\ valid_utf8 chunk' = true /\
      Forall scanned rs' /\ (length rs' <= length (RByte d :: RByte h1 :: RByte h2 :: RByte h3 :: RByte h4 :: rs3))%nat) as Hgo.
  { intros chunk l Hchunk Hl Hlen. exists chunk, l. split_and!; [done|done|done|simpl; lia]. }
  destruct (is_surrogate (getu4 h1 h2 h3 h4)) eqn:Hsur; [|apply Hgo; [by apply EncodeRune_valid; [lia|]|done|lia]].
  destruct rs3 as [|[c'|?|?] [|[d'|?|?] [|[g1|?|?] [|[g2|?|?] [|[g3|?|?] [|[g4|?|?] rs4]]]]]];
    try (apply Hgo; [done|done|lia]).
  destruct (_ && _); [|apply Hgo; [done|done|lia]].
  destruct (DecodeRune16 _ _) as [r'|] eqn:E; [|apply Hgo; [done|done|lia]].
  apply Hgo; [by eapply DecodeRune16_valid|by do 6 apply Forall_inv_tail in Htl2|simpl; lia].
Qed.

Lemma unquote_valid rs : Forall scanned rs -> valid_utf8 (unquote rs) = true.
Proof.
  remember (length rs) as n eqn:En. assert (length rs <= n)%nat as Hn by lia. clear En.
  revert rs Hn. induction n as [|n IH]; intros [|r rs] Hn Hrs; simpl in Hn; try (done || lia).
  destruct (unquote_step r rs Hrs) as (chunk & rs' & -> & Hc & Hrs' & Hlen).
  apply valid_app; [done|]. apply IH; [lia|done].
Qed.

(** ** Documents *)
Definition reads_utf8 (pv : string -> option (json * string)) : Prop :=
  forall s v r, pv s = Some (v, r) -> json_utf8 v = true.

Lemma parse_elems_utf8 pv n s vs r :
  reads_utf8 pv -> parse_elems pv n s = Some (vs, r) -> forallb json_utf8 vs = true.
Proof.
  intros Hpv. revert s vs r. induction n as [|n IH]; intros s vs r; simpl; [done|].
  destruct (pv s) as [[v s1]|] eqn:E; [|done]. apply Hpv in E. destruct (skip_ws s1) as [|c s2]; [done|].
  case_bool_decide.
  - destruct (parse_elems pv n s2) as [[vs' r']|] eqn:E2; [|done]. intros [= <- <-]. simpl. by rewrite E, (IH _ _ _ E2).
  - case_bool_decide; [|done]. intros [= <- <-]. simpl. by rewrite E.
Qed.

Lemma parse_members_utf8 pv n s ms r :
  reads_utf8 pv -> parse_members pv n s = Some (ms, r) ->
  forallb (fun m => valid_utf8 (fst m) && json_utf8 (snd m)) ms = true.
Proof.
  intros Hpv. revert s ms r. induction n as [|n IH]; intros s ms r; simpl; [done|].
  destruct (strip quote_char _) as [[] s0]; [|done]. destruct (scan_string s0) as [[raw s1]|]; [|done].
  destruct (strip ":" _) as [[] s2]; [|done]. destruct (pv s2) as [[v s3]|] eqn:E; [|done]. apply Hpv in E.
  pose proof (unquote_valid _ (runes_ok raw)) as Hk. destruct (skip_ws s3) as [|c s4]; [done|].
  case_bool_decide.
  - destruct (parse_members pv n s4) as [[ms' r']|] eqn:E2; [|done]. intros [= <- <-]. simpl. by rewrite Hk, E, (IH _ _ _ E2).
  - case_bool_decide; [|done]. intros [= <- <-]. simpl. by rewrite Hk, E.
Qed.

Lemma number_utf8 neg int frac exp : json_utf8 (number neg int frac exp) = true.
Proof. unfold number. by destruct (_ && _). Qed.

Lemma scalar_utf8 c s v r : scalar c s = Some (v, r) -> json_utf8 v = true.
Proof.
  unfold scalar, literal. repeat case_bool_decide; try (case_match; [|done]; by intros [= <- <-]).
  - destruct (scan_string s) as [[raw r']|]; [|done]. intros [= <- <-]. apply unquote_valid, runes_ok.
  - unfold scan_number. destruct (strip "-" _) as [neg s0]. destruct (scan_int s0) as [[int s1]|]; [|done].
    destruct (scan_frac s1) as [[frac s2]|]; [|done]. destruct (scan_exp s2) as [[exp s3]|]; [|done].
    intros [= <- <-]. apply number_utf8.
Qed.

(** Whatever the text, the strings of the document are valid UTF-8. *)
Lemma parse_value_utf8 d : reads_utf8 (parse_value d).
Proof.
  induction d as [|d IH]; intros s v r; cbn [parse_value]; (destruct (skip_ws s) as [|c s1]; [done|]); fold (scalar c s1).
  - do 2 (case_bool_decide; [done|]). apply scalar_utf8.
  - case_bool_decide; [|case_bool_decide; [|apply scalar_utf8]].
    + destruct (strip "}" _) as [[] s2]; [by intros [= <- <-]|].
      destruct (parse_members _ _ s2) as [[ms r']|] eqn:E2; [|done]. intros [= <- <-]. by eapply parse_members_utf8.
    + destruct (strip "]" _) as [[] s2]; [by intros [= <- <-]|].
      destruct (parse_elems _ _ s2) as [[ms r']|] eqn:E2; [|done]. intros [= <- <-]. by eapply parse_elems_utf8.
Qed.

Lemma Decode_text_utf8 s v : Decode_text s = inr v -> json_utf8 v = true.
Proof.
  unfold Decode_text. destruct (parse_value _ s) as [[w r]|] eqn:E; [|by case_bool_decide].
  intros [= <-]. by eapply parse_value_utf8.
Qed.

(** ** Values *)

(** A decoder whose results satisfy [P], on documents in valid UTF-8. *)
Definition yields {A} (dec : json -> error + A) (P : A -> Prop) : Prop :=
  forall v a, json_utf8 v = true -> dec v = inr a -> P a.

Lemma dec_string_yields old : valid_utf8 old = true -> yields (dec_string old) (fun s => valid_utf8 s = true).
Proof. intros Ho [] a Hv; simpl in *; try done; by intros [= <-]. Qed.

Lemma dec_bool_yields old : yields (dec_bool old) (fun _ => True).
Proof. done. Qed.

Lemma dec_num_yields (P : Z -> Prop) `{!forall z, Decision (P z)} old :
  P old -> yields (dec_num (fun z => bool_decide (P z)) old) P.
Proof.
  intros Ho [] a Hv; simpl; try done; [by intros [= <-]|]. case_bool_decide; [|done]. by intros [= <-].
Qed.

Lemma dec_u16_yields old : is_u16 old -> yields (dec_u16 old) is_u16.
Proof. apply (dec_num_yields is_u16). Qed.

Lemma dec_u32_yields old : is_u32 old -> yields (dec_u32 old) is_u32.
Proof. apply (dec_num_yields is_u32). Qed.

Lemma dec_int_yields old : is_i64 old -> yields (dec_int old) is_i64.
Proof.
  intros Ho v a Hv Hd. assert (a = 0 \/ dec_num (fun z => bool_decide (is_i64 z)) old v = inr a) as [->|Hd'].
  { unfold dec_int in Hd. repeat case_match; auto. left. congruence. }
  - by unfold is_i64.
  - by apply (dec_num_yields is_i64 old Ho v).
Qed.

Lemma dec_ptr_yields {A} (dec : json -> error + A) P :
  yields dec P -> yields (dec_ptr dec) (fun p => match p with Some a => P a | None => True end).
Proof.
  intros Hd v p Hv. unfold dec_ptr. destruct v; try (by intros [= <-]);
    (destruct (dec _) as [e|a] eqn:E; [done|]; intros [= <-]; by eapply Hd).
Qed.

(** A struct decoded member by member keeps what each setter keeps. *)
Definition sets {R} (set : string -> json -> R -> error + R) (P : R -> Prop) : Prop :=
  forall k v r r', P r -> json_utf8 v = true -> set k v r = inr r' -> P r'.

Lemma dec_struct_yields {R} (set : string -> json -> R -> error + R) P r :
  sets set P -> P r -> yields (dec_struct set r) P.
Proof.
  intros Hset Hr [| | | | | |ms] a Hv; simpl; try done; [by intros [= <-]|].
  simpl in Hv. revert r Hr. induction ms as [|[k v] ms IH]; intros r Hr; simpl; [by intros [= <-]|].
  apply andb_true_iff in Hv as [[_ Hv]%andb_true_iff Hms]. simpl in Hv.
  destruct (set k v r) as [e|r'] eqn:E; [done|]. apply (IH Hms). by eapply Hset.
Qed.

Lemma on_field_yields {A R} (dec : json -> error + A) (Q : A -> Prop) (f : A -> R) v (P : R -> Prop) r :
  yields dec Q -> json_utf8 v = true -> (forall a, Q a -> P (f a)) -> on_field (dec v) f = inr r -> P r.
Proof.
  intros Hd Hv Hf. unfold on_field. destruct (dec v) as [e|a] eqn:E; [done|]. intros [= <-]. by eapply Hf, Hd.
Qed.

Definition utf8_ptr (p : option string) : Prop := match p with Some s => valid_utf8 s = true | None => True end.

Definition Tag_fits (t : ModificationTag) : Prop := typed_Tag t /\ valid_utf8 (Tag_Guid t) = true.

Definition RouteEntity_fits (e : RouteEntity) : Prop :=
  is_u16 (RE_Port e) /\ typed_ptr (RE_TTL e) /\ Tag_fits (RE_ModificationTag e) /\
  valid_utf8 (RE_Route e) = true /\ valid_utf8 (RE_IP e) = true /\ valid_utf8 (RE_LogGuid e) = true /\
  valid_utf8 (RE_RouteServiceUrl e) = true.

Definition TcpEntity_fits (e : TcpMappingEntity) : Prop :=
  is_u16 (TM_HostPort e) /\ is_u16 (TM_ExternalPort e) /\ is_i64 (TM_HostTLSPort e) /\ typed_ptr (TM_TTL e) /\
  Tag_fits (TM_ModificationTag e) /\
  valid_utf8 (TM_RouterGroupGuid e) = true /\ valid_utf8 (TM_HostIP e) = true /\ utf8_ptr (TM_SniHostname e) /\
  utf8_ptr (TM_SniRewriteHostname e) /\ valid_utf8 (TM_InstanceId e) = true /\
  valid_utf8 (TM_IsolationSegment e) = true /\ valid_utf8 (TM_ALPNs e) = true.

Definition RouterGroup_fits (g : RouterGroup) : Prop :=
  RG_Model g = zero_Model /\ valid_utf8 (RG_Guid g) = true /\ valid_utf8 (RG_Name g) = true /\
  valid_utf8 (RG_Type g) = true /\ valid_utf8 (RG_ReservablePorts g) = true.

Lemma set_Tag_fits : sets set_Tag Tag_fits.
Proof.
  intros k v [g i] r' [Hi Hg] Hv. unfold set_Tag. simpl in Hi, Hg. cbn [Tag_Guid Tag_Index].
  destruct (EqualFold k "guid").
  - intros Hs. refine (on_field_yields _ _ _ _ Tag_fits _ (dec_string_yields g Hg) Hv _ Hs). done.
  - destruct (EqualFold k "index"); [|by intros [= <-]].
    intros Hs. refine (on_field_yields _ _ _ _ Tag_fits _ (dec_u32_yields i Hi) Hv _ Hs). done.
Qed.

(** One setter: decodes a field with the first rule that fits, then checks the record. *)
Ltac setter P Hv :=
  let Hs := fresh in
  let x := fresh in
  let Hx := fresh in
  intros Hs; refine (on_field_yields _ _ _ _ P _ _ Hv _ Hs);
  [ first [ by apply dec_u16_yields | by apply dec_int_yields | by apply dec_string_yields
          | apply dec_bool_yields | apply (dec_struct_yields set_Tag Tag_fits); [exact set_Tag_fits|done]
          | apply dec_ptr_yields, dec_int_yields; done | apply dec_ptr_yields, dec_string_yields; done ]
  | intros x Hx; by split_and! ].

Lemma set_Route_fits : sets set_RouteEntity RouteEntity_fits.
Proof.
  intros k v [rt port ip ttl lg rs tag] r' (H1 & H2 & H3 & H4 & H5 & H6 & H7) Hv. unfold set_RouteEntity. simpl in *.
  repeat (destruct (EqualFold k _); [setter RouteEntity_fits Hv|]). by intros [= <-].
Qed.

Lemma set_Tcp_fits : sets set_TcpEntity TcpEntity_fits.
Proof.
  intros k v [rg hp tp ip sni rw inst ext tag ttl iso term alpn mtls] r'
    (H1 & H2 & H3 & H4 & H5 & H6 & H7 & H8 & H9 & H10 & H11 & H12) Hv. unfold set_TcpEntity. simpl in *.
  repeat (destruct (EqualFold k _); [setter TcpEntity_fits Hv|]). by intros [= <-].
Qed.

Lemma set_RouterGroup_fits : sets set_RouterGroup RouterGroup_fits.
Proof.
  intros k v [m guid name ty ports] r' (H1 & H2 & H3 & H4 & H5) Hv. unfold set_RouterGroup. simpl in *.
  repeat (destruct (EqualFold k _); [setter RouterGroup_fits Hv|]). by intros [= <-].
Qed.

Lemma sets_on_field {R E} (set : string -> json -> E -> error + E) (g : R -> E) (P : E -> Prop)
    (set' : string -> json -> R -> error + R) :
  (forall k v r, exists h, set' k v r = on_field (set k v (g r)) h /\ forall e, g (h e) = e) ->
  sets set P -> sets set' (fun r => P (g r)).
Proof.
  intros Hset' Hset k v r r' Hr Hv. destruct (Hset' k v r) as (h & -> & Hh). unfold on_field.
  destruct (set k v (g r)) as [e|e] eqn:E1; [done|]. intros [= <-]. rewrite Hh. by eapply Hset.
Qed.

Lemma Unmarshal_Route_fits : yields Unmarshal_Route (fun r => RouteEntity_fits (Route_Entity r)).
Proof.
  apply dec_struct_yields; [|unfold RouteEntity_fits, Tag_fits, typed_Tag, typed_ptr, is_u16, is_u32; simpl; by split_and!].
  apply (sets_on_field set_RouteEntity); [|exact set_Route_fits].
  intros k v r. by exists (mkRoute (Route_Model r) (Route_ExpiresAt r)).
Qed.

Lemma Unmarshal_Tcp_fits : yields Unmarshal_Tcp (fun m => TcpEntity_fits (Tcp_Entity m)).
Proof.
  apply dec_struct_yields;
    [|unfold TcpEntity_fits, Tag_fits, typed_Tag, typed_ptr, is_u16, is_u32, is_i64; simpl; by split_and!].
  apply (sets_on_field set_TcpEntity); [|exact set_Tcp_fits].
  intros k v r. by exists (mkTcpRouteMapping (Tcp_Model r) (Tcp_ExpiresAt r)).
Qed.

Lemma Unmarshal_RouterGroup_fits : yields Unmarshal_RouterGroup RouterGroup_fits.
Proof. apply dec_struct_yields; [exact set_RouterGroup_fits|by split_and!]. Qed.

Lemma dec_slice_yields {A} (dec : json -> error + A) P : yields dec P -> yields (dec_slice dec) (Forall P).
Proof.
  intros Hd [| | | | |vs|] l Hv; simpl; try done; [by intros [= <-]|]. simpl in Hv. revert l Hv.
  induction vs as [|v vs IH]; intros l Hv; simpl; [by intros [= <-]|]. apply andb_true_iff in Hv as [Hv Hvs].
  destruct (dec v) as [e|a] eqn:E; [done|]. destruct (dec_elems dec vs) as [e|l'] eqn:E2; [done|].
  intros [= <-]. constructor; [by eapply Hd|by apply IH].
Qed.

(** *** What fits can be written and read without loss *)
Lemma utf8_member omit k (v : json) :
  valid_utf8 k = true -> json_utf8 v = true ->
  forallb (fun m => valid_utf8 (fst m) && json_utf8 (snd m)) (member omit k v) = true.
Proof. intros Hk Hv. destruct omit; simpl; [done|]. by rewrite Hk, Hv. Qed.

Lemma utf8_members (ms ms' : list (string * json)) :
  forallb (fun m => valid_utf8 (fst m) && json_utf8 (snd m)) ms = true ->
  forallb (fun m => valid_utf8 (fst m) && json_utf8 (snd m)) ms' = true ->
  forallb (fun m => valid_utf8 (fst m) && json_utf8 (snd m)) (ms ++ ms') = true.
Proof. intros H H'. rewrite forallb_app. by rewrite H, H'. Qed.

Lemma utf8_Tag t : Tag_fits t -> json_utf8 (json_of_Tag t) = true.
Proof. intros [_ Hg]. simpl. by rewrite Hg. Qed.

Lemma utf8_int_ptr p : json_utf8 (json_of_ptr JInt p) = true.
Proof. by destruct p. Qed.

Lemma utf8_str_ptr p : utf8_ptr p -> json_utf8 (json_of_ptr JStr p) = true.
Proof. by destruct p. Qed.

Create HintDb utf8db.
#[export] Hint Resolve utf8_member utf8_members utf8_Tag utf8_int_ptr utf8_str_ptr : utf8db.

Lemma fits_text_Route r : RouteEntity_fits (Route_Entity r) -> text_Route r.
Proof.
  intros (H1 & H2 & H3 & H4 & H5 & H6 & H7). split; [split_and!; [done|done|apply H3]|].
  change (forallb (fun m => valid_utf8 (fst m) && json_utf8 (snd m))
    (match json_of_Route r with JObj ms => ms | _ => [] end) = true).
  unfold json_of_Route. repeat apply utf8_members; apply utf8_member; first [reflexivity|done|auto with utf8db].
Qed.

Lemma fits_text_Tcp m : TcpEntity_fits (Tcp_Entity m) -> text_Tcp m.
Proof.
  intros (H1 & H2 & H3 & H4 & H5 & H6 & H7 & H8 & H9 & H10 & H11 & H12).
  split; [split_and!; [done|done|done|done|apply H5]|].
  change (forallb (fun m => valid_utf8 (fst m) && json_utf8 (snd m))
    (match json_of_Tcp m with JObj ms => ms | _ => [] end) = true).
  unfold json_of_Tcp. repeat apply utf8_members; apply utf8_member; first [reflexivity|done|auto with utf8db].
Qed.

Lemma fits_text_RouterGroup g : RouterGroup_fits g -> text_RouterGroup g.
Proof. intros (H1 & H2 & H3 & H4 & H5). split; [done|]. simpl. by rewrite H2, H3, H4, H5. Qed.

(** The three request bodies of the API. *)
Lemma decoded_routes_text s rs :
  then_decode (dec_slice Unmarshal_Route) (Decode_text s) = inr rs -> Forall text_Route rs.
Proof.
  unfold then_decode. destruct (Decode_text s) as [e|v] eqn:E; [done|]. intros Hd.
  eapply Forall_impl; [|exact fits_text_Route]. apply Decode_text_utf8 in E.
  exact (dec_slice_yields _ _ Unmarshal_Route_fits v rs E Hd).
Qed.

Lemma decoded_tcp_text s ms :
  then_decode (dec_slice Unmarshal_Tcp) (Decode_text s) = inr ms -> Forall text_Tcp ms.
Proof.
  unfold then_decode. destruct (Decode_text s) as [e|v] eqn:E; [done|]. intros Hd.
  eapply Forall_impl; [|exact fits_text_Tcp]. apply Decode_text_utf8 in E.
  exact (dec_slice_yields _ _ Unmarshal_Tcp_fits v ms E Hd).
Qed.

Lemma decoded_group_text s g :
  then_decode Unmarshal_RouterGroup (Decode_text s) = inr g -> text_RouterGroup g.
Proof.
  unfold then_decode. destruct (Decode_text s) as [e|v] eqn:E; [done|]. intros Hd. apply fits_text_RouterGroup.
  apply Decode_text_utf8 in E. exact (Unmarshal_RouterGroup_fits v g E Hd).
Qed.
