(* ===== verification/EventHub.v ===== *)
(** EventHub: code.cloudfoundry.org/eventhub (eventhub.go, eventsource.go), the
    in-process publish/subscribe hub behind the two event streams.  A source
    is shared between the hub's subscriber list and the subscriber's handle,
    so sources live in a heap and are named by their index in it. *)
From Stdlib Require Import ZArith Lia.
From stdpp Require Import base option strings gmap list.
From S2P Require Import Prelude.

Local Open Scope string_scope.
Local Open Scope list_scope.

Definition ErrReadFromClosedSource : error := ext_error "read from closed source".
Definition ErrSendToClosedSource : error := ext_error "send to closed source".
Definition ErrSourceAlreadyClosed : error := ext_error "source already closed".
Definition ErrSlowConsumer : error := ext_error "slow consumer".
Definition ErrSubscribedToClosedHub : error := ext_error "subscribed to closed hub".
Definition ErrHubAlreadyClosed : error := ext_error "hub already closed".

Section Hub.
Context {E : Type}.

(** A source is a buffered channel with its [closed] flag. *)
Record source := mkSource {
  src_events : list E;
  src_cap : nat;
  src_closed : bool
}.

Record hub := mkHub {
  hub_bufferSize : nat;
  hub_sources : list source;
  hub_subscribers : list nat;
  hub_closed : bool
}.

Definition NewNonBlocking (consumerBufferSize : nat) : hub :=
  mkHub consumerBufferSize [] [] false.

(** [close(source.events)] with the flag: [None] is success. *)
Definition source_Close (s : source) : option error * source :=
  if src_closed s then (Some ErrSourceAlreadyClosed, s)
  else (None, mkSource (src_events s) (src_cap s) true).

(** A full buffer closes the source ([ErrSlowConsumer]). *)
Definition source_send (e : E) (s : source) : option error * source :=
  if src_closed s then (Some ErrSendToClosedSource, s)
  else if (length (src_events s) <? src_cap s)%nat
  then (None, mkSource (src_events s ++ [e]) (src_cap s) false)
  else match source_Close s with
       | (Some err, s1) => (Some err, s1)
       | (None, s1) => (Some ErrSlowConsumer, s1)
       end.

(** Receiving from the channel: an event, the closed-channel error once the
    buffer is drained, or blocking. *)
Inductive next_result := NextEvent (e : E) | NextErr (err : error) | NextBlocks.

Definition source_Next (s : source) : next_result * source :=
  match src_events s with
  | e :: es => (NextEvent e, mkSource es (src_cap s) (src_closed s))
  | [] => if src_closed s then (NextErr ErrReadFromClosedSource, s) else (NextBlocks, s)
  end.

Definition hub_Subscribe (h : hub) : (error + nat) * hub :=
  if hub_closed h then (inl ErrSubscribedToClosedHub, h)
  else
    let id := length (hub_sources h) in
    (inr id,
     mkHub (hub_bufferSize h) (hub_sources h ++ [mkSource [] (hub_bufferSize h) false])
       (hub_subscribers h ++ [id]) false).

(** The loop of [Emit]: subscribers whose [send] failed are dropped. *)
Fixpoint emit_loop (e : E) (subs : list nat) (heap : list source) : list nat * list source :=
  match subs with
  | [] => ([], heap)
  | id :: subs' =>
      match heap !! id with
      | None => emit_loop e subs' heap
      | Some s =>
          let '(err, s1) := source_send e s in
          let '(remaining, heap1) := emit_loop e subs' (<[id := s1]> heap) in
          (match err with None => id :: remaining | Some _ => remaining end, heap1)
      end
  end.

Definition hub_Emit (e : E) (h : hub) : hub :=
  let '(remaining, heap) := emit_loop e (hub_subscribers h) (hub_sources h) in
  mkHub (hub_bufferSize h) heap remaining (hub_closed h).

Fixpoint closeSubscribers (subs : list nat) (heap : list source) : list source :=
  match subs with
  | [] => heap
  | id :: subs' =>
      match heap !! id with
      | None => closeSubscribers subs' heap
      | Some s => closeSubscribers subs' (<[id := snd (source_Close s)]> heap)
      end
  end.

Definition hub_Close (h : hub) : option error * hub :=
  if hub_closed h then (Some ErrHubAlreadyClosed, h)
  else (None, mkHub (hub_bufferSize h) (closeSubscribers (hub_subscribers h) (hub_sources h)) [] true).

(** The operations a subscriber performs through its handle. *)
Definition sub_Next (id : nat) (h : hub) : next_result * hub :=
  match hub_sources h !! id with
  | None => (NextBlocks, h)
  | Some s =>
      let '(r, s1) := source_Next s in
      (r, mkHub (hub_bufferSize h) (<[id := s1]> (hub_sources h)) (hub_subscribers h) (hub_closed h))
  end.

Definition sub_Close (id : nat) (h : hub) : hub :=
  match hub_sources h !! id with
  | None => h
  | Some s =>
      mkHub (hub_bufferSize h) (<[id := snd (source_Close s)]> (hub_sources h))
        (hub_subscribers h) (hub_closed h)
  end.

(** ** Well-formed hubs *)
Definition wf_hub (h : hub) : Prop :=
  NoDup (hub_subscribers h) /\
  (forall id, id ∈ hub_subscribers h -> id < length (hub_sources h))%nat /\
  (forall id s, hub_sources h !! id = Some s ->
     (length (src_events s) <= hub_bufferSize h)%nat /\ src_cap s = hub_bufferSize h) /\
  (* a source that is not closed is still subscribed *)
  (forall id s, hub_sources h !! id = Some s -> src_closed s = false -> id ∈ hub_subscribers h) /\
  (hub_closed h = true -> hub_subscribers h = []).

Lemma send_cases e s :
  (src_closed s = false /\ (length (src_events s) < src_cap s)%nat /\
   source_send e s = (None, mkSource (src_events s ++ [e]) (src_cap s) false)) \/
  (exists err, source_send e s = (Some err, mkSource (src_events s) (src_cap s) true)).
Proof.
  unfold source_send, source_Close. destruct s as [evs cap [|]]; simpl; [right; eauto|].
  destruct (Nat.ltb_spec (length evs) cap); [left; auto|right; eauto].
Qed.

Lemma emit_loop_spec e subs heap :
  NoDup subs -> (forall id, id ∈ subs -> id < length heap)%nat ->
  let '(rem, heap') := emit_loop e subs heap in
  length heap' = length heap /\
  (forall id, id ∈ rem <-> id ∈ subs /\ exists s, heap !! id = Some s /\ fst (source_send e s) = None) /\
  NoDup rem /\
  (forall id, heap' !! id = if bool_decide (id ∈ subs) then snd ∘ source_send e <$> heap !! id
                            else heap !! id).
Proof.
  revert heap. induction subs as [|i subs IH]; intros heap Hnd Hlt; simpl.
  { split; [done|]. split; [set_solver|]. split; [constructor|]. done. }
  apply NoDup_cons in Hnd as [Hni Hnd].
  destruct (lookup_lt_is_Some_2 heap i) as [s Hs]; [apply Hlt; set_solver|]. rewrite Hs.
  destruct (source_send e s) as [err s1] eqn:Hsend.
  specialize (IH (<[i := s1]> heap) Hnd).
  destruct (emit_loop e subs (<[i:=s1]> heap)) as [rem heap'].
  destruct IH as (Hlen & Hrem & Hnd' & Hheap).
  { intros id Hid. rewrite length_insert. apply Hlt. set_solver. }
  rewrite length_insert in Hlen.
  assert (forall id, id ∈ subs -> (<[i := s1]> heap) !! id = heap !! id) as Hne.
  { intros id Hid. apply list_lookup_insert_ne. set_solver. }
  assert (forall id, id ∈ rem -> id ∈ subs) as Hsub by (intros id Hid; by apply Hrem in Hid as [? _]).
  assert (forall id, id ∈ rem <-> id ∈ subs /\ exists s, heap !! id = Some s /\ fst (source_send e s) = None) as Hrem'.
  { intros id. rewrite Hrem. split; intros [Hin Hex]; (split; [done|]); [rewrite (Hne id Hin) in Hex|rewrite (Hne id Hin)]; done. }
  split; [done|]. split; [|split].
  - intros id. destruct err as [err|].
    + rewrite Hrem'. rewrite elem_of_cons. split; [intros [? ?]; auto|].
      intros [[->|?] (s' & Hs' & Hok)]; [|split; eauto]. rewrite Hs in Hs'. injection Hs' as <-.
      by rewrite Hsend in Hok.
    + rewrite !elem_of_cons, Hrem'. split.
      * intros [->|[? ?]]; split; auto. exists s. by rewrite Hsend.
      * intros [[->|?] Hex]; auto.
  - destruct err; [done|]. constructor; [|done]. intros Hin. by apply Hni, Hsub.
  - intros id. rewrite Hheap. destruct (decide (id = i)) as [->|Hid].
    + rewrite (bool_decide_eq_false_2 (i ∈ subs)) by done.
      rewrite (bool_decide_eq_true_2 (i ∈ i :: subs)) by set_solver.
      rewrite list_lookup_insert_eq by (apply lookup_lt_is_Some_1; eauto).
      rewrite Hs. simpl. by rewrite Hsend.
    + rewrite list_lookup_insert_ne by done.
      case_bool_decide; case_bool_decide; set_solver.
Qed.
End Hub.
Arguments source : clear implicits.
Arguments hub : clear implicits.
Arguments next_result : clear implicits.

(** ** The hub invariant is kept by every operation *)
Section HubInvariant.
Context {E : Type}.
Implicit Types (h : hub E).

Lemma wf_NewNonBlocking n : wf_hub (E:=E) (NewNonBlocking n).
Proof. split; [constructor|]. repeat split; simpl in *; try set_solver. Qed.

Lemma wf_Subscribe h : wf_hub h -> wf_hub (snd (hub_Subscribe h)).
Proof.
  unfold hub_Subscribe. destruct h as [n srcs subs cl]; simpl. intros Hwf.
  destruct cl; [done|]. destruct Hwf as (Hnd & Hlt & Hb & Hopen & Hcl); simpl in *.
  repeat split; simpl.
  - apply NoDup_app. split; [done|]. split; [|apply NoDup_singleton].
    intros id Hid ->%list_elem_of_singleton. specialize (Hlt _ Hid). lia.
  - intros id Hid. rewrite length_app. simpl. apply elem_of_app in Hid as [Hid|Hid].
    + specialize (Hlt id Hid). lia.
    + apply list_elem_of_singleton in Hid as ->. lia.
  - apply lookup_snoc_Some in H as [[_ H]|[_ <-]]; [by eapply Hb|simpl; lia].
  - apply lookup_snoc_Some in H as [[_ H]|[_ <-]]; [by eapply Hb|done].
  - intros id s [[_ H]|[-> <-]]%lookup_snoc_Some Hs; [|set_solver].
    apply elem_of_app. left. by eapply Hopen.
  - done.
Qed.

Lemma wf_Emit e h : wf_hub h -> wf_hub (hub_Emit e h).
Proof.
  intros (Hnd & Hlt & Hb & Hopen & Hcl). unfold hub_Emit.
  pose proof (emit_loop_spec e _ _ Hnd Hlt) as Hspec.
  destruct (emit_loop _ _ _) as [rem heap]. destruct Hspec as (Hlen & Hrem & Hnd' & Hheap).
  repeat split; simpl.
  - done.
  - intros id [Hin _]%Hrem. rewrite Hlen. by apply Hlt.
  - rewrite Hheap in H. case_bool_decide; [|by eapply Hb].
    apply fmap_Some in H as (s' & Hs' & ->). specialize (Hb _ _ Hs') as [? ?]. simpl.
    destruct (send_cases e s') as [(? & ? & ->)|(err & ->)]; simpl; [rewrite length_app; simpl|]; lia.
  - rewrite Hheap in H. case_bool_decide; [|by eapply Hb].
    apply fmap_Some in H as (s' & Hs' & ->). specialize (Hb _ _ Hs') as [? ?]. simpl.
    by destruct (send_cases e s') as [(? & ? & ->)|(err & ->)].
  - intros id s H Hs. rewrite Hheap in H. apply Hrem. case_bool_decide as Hin.
    + apply fmap_Some in H as (s' & Hs' & ->). split; [done|]. exists s'. split; [done|].
      simpl in Hs. by destruct (send_cases e s') as [(? & ? & Heq)|(err & Heq)]; rewrite Heq in *.
    + exfalso. apply Hin. by eapply Hopen.
  - intros H. assert (hub_subscribers h = []) as Hnil by auto.
    destruct rem as [|r rem]; [done|]. assert (r ∈ r :: rem) as Hr by set_solver.
    apply Hrem in Hr as [Hr _]. rewrite Hnil in Hr. set_solver.
Qed.

(** Replacing one source by one that holds no more and is not reopened. *)
Lemma wf_update h id s s' :
  wf_hub h -> hub_sources h !! id = Some s ->
  (length (src_events s') <= length (src_events s))%nat -> src_cap s' = src_cap s ->
  (src_closed s' = false -> src_closed s = false) ->
  wf_hub (mkHub (hub_bufferSize h) (<[id := s']> (hub_sources h)) (hub_subscribers h) (hub_closed h)).
Proof.
  intros (Hnd & Hlt & Hb & Hopen & Hcl) Hs Hev Hcap Hclosed.
  pose proof (Hb _ _ Hs) as [Hb1 Hb2].
  assert (forall i t, <[id:=s']> (hub_sources h) !! i = Some t ->
    (i = id /\ t = s') \/ hub_sources h !! i = Some t) as Hcase.
  { intros i t H. apply list_lookup_insert_Some in H as [(-> & -> & _)|[_ H]]; auto. }
  repeat split; simpl; [done| | | | |done].
  - intros i Hi. rewrite length_insert. auto.
  - destruct (Hcase _ _ H) as [[-> ->]|H']; [lia|]. by eapply Hb.
  - destruct (Hcase _ _ H) as [[-> ->]|H']; [congruence|]. by eapply Hb.
  - intros i t H Ht. destruct (Hcase _ _ H) as [[-> ->]|H']; eauto.
Qed.

Lemma wf_sub_Next id h : wf_hub h -> wf_hub (snd (sub_Next id h)).
Proof.
  intros Hwf. unfold sub_Next. destruct (hub_sources h !! id) as [s|] eqn:Hs; [|done].
  unfold source_Next. destruct s as [[|e evs] cap cl]; simpl; [destruct cl|]; simpl;
    eapply wf_update; eauto; simpl; lia.
Qed.

Lemma source_Close_fields (s : source E) :
  src_events (snd (source_Close s)) = src_events s /\ src_cap (snd (source_Close s)) = src_cap s /\
  src_closed (snd (source_Close s)) = true.
Proof. unfold source_Close. by destruct s as [? ? []]. Qed.

Lemma wf_sub_Close id h : wf_hub h -> wf_hub (sub_Close id h).
Proof.
  intros Hwf. unfold sub_Close. destruct (hub_sources h !! id) as [s|] eqn:Hs; [|done].
  pose proof (source_Close_fields s) as (H1 & H2 & H3).
  eapply wf_update; eauto; [by rewrite H1|congruence].
Qed.

Lemma closeSubscribers_spec subs (heap : list (source E)) id :
  exists f : source E -> source E,
    closeSubscribers subs heap !! id = f <$> heap !! id /\
    (forall s, src_events (f s) = src_events s /\ src_cap (f s) = src_cap s) /\
    (forall s, (f = fun s => s) \/ src_closed (f s) = true) /\
    (id ∈ subs -> forall s, src_closed (f s) = true).
Proof.
  revert heap. induction subs as [|i subs IH]; intros heap; simpl.
  { exists (fun s => s). rewrite option_fmap_id. repeat split; [by left|set_solver]. }
  destruct (heap !! i) as [t|] eqn:Hi.
  - destruct (IH (<[i := snd (source_Close t)]> heap)) as (f & Hf & Hev & Hc & Hin).
    destruct (decide (i = id)) as [->|Hne].
    + rewrite list_lookup_insert_eq in Hf by (by eapply lookup_lt_Some).
      pose proof (source_Close_fields t) as (H1 & H2 & H3).
      exists (fun s => mkSource (src_events s) (src_cap s) true).
      rewrite Hf, Hi. simpl. split; [|by repeat split; auto].
      f_equal. destruct (f (snd (source_Close t))) as [a b c] eqn:Hft.
      destruct (Hev (snd (source_Close t))) as [Ha Hb]. rewrite Hft in Ha, Hb. simpl in *.
      destruct (Hc (snd (source_Close t))) as [->|Hcl].
      * cbn beta in Hft. rewrite Hft in *. simpl in *. congruence.
      * rewrite Hft in Hcl. simpl in Hcl. congruence.
    + rewrite list_lookup_insert_ne in Hf by done. exists f. repeat split; try apply Hev; [done|done|].
      intros Hin'. apply Hin. set_solver.
  - destruct (IH heap) as (f & Hf & Hev & Hc & Hin).
    destruct (decide (i = id)) as [->|Hne].
    + exists (fun s => mkSource (src_events s) (src_cap s) true). rewrite Hf, Hi. by repeat split; auto.
    + exists f. repeat split; try apply Hev; [done|done|]. intros Hin'. apply Hin. set_solver.
Qed.

Lemma wf_hub_Close h : wf_hub h -> wf_hub (snd (hub_Close h)).
Proof.
  intros Hwf. unfold hub_Close. destruct (hub_closed h) eqn:Hcl'; [done|].
  destruct Hwf as (Hnd & Hlt & Hb & Hopen & Hcl).
  split; [by apply NoDup_nil_2|]. split; [set_solver|]. simpl.
  assert (forall id s, closeSubscribers (hub_subscribers h) (hub_sources h) !! id = Some s ->
    exists t, hub_sources h !! id = Some t /\ src_events s = src_events t /\ src_cap s = src_cap t /\
      src_closed s = true) as Hall.
  { intros id s H.
    destruct (closeSubscribers_spec (hub_subscribers h) (hub_sources h) id) as (f & Hf & Hev & Hc & Hin).
    rewrite Hf in H. apply fmap_Some in H as (t & Ht & ->).
    exists t. repeat split; try apply Hev; [done|].
    destruct (Hc t) as [->|?]; [|done]. destruct (src_closed t) eqn:Hct; [done|].
    rewrite <- Hct. apply (Hin (Hopen _ _ Ht Hct) t). }
  split; [|split; [|done]].
  - intros id s (t & Ht & -> & -> & _)%Hall. by eapply Hb.
  - intros id s (t & _ & _ & _ & ?)%Hall. congruence.
Qed.
End HubInvariant.

(** ** Delivery

    The history of one subscriber [k]: what was emitted since it subscribed,
    and what its handle has read. *)
Section Delivery.
Context {E : Type}.

Inductive hub_op := OpEmit (e : E) | OpNext (id : nat) | OpSubClose (id : nat) | OpSubscribe | OpHubClose.

Record obs := mkObs { o_hub : hub E; o_emitted : list E; o_received : list E }.

Definition obs_step (k : nat) (o : obs) (op : hub_op) : obs :=
  let h := o_hub o in
  match op with
  | OpEmit e => mkObs (hub_Emit e h) (o_emitted o ++ [e]) (o_received o)
  | OpNext id =>
      let '(r, h1) := sub_Next id h in
      mkObs h1 (o_emitted o)
        (match r with
         | NextEvent e => if bool_decide (id = k) then o_received o ++ [e] else o_received o
         | _ => o_received o
         end)
  | OpSubClose id => mkObs (sub_Close id h) (o_emitted o) (o_received o)
  | OpSubscribe => mkObs (snd (hub_Subscribe h)) (o_emitted o) (o_received o)
  | OpHubClose => mkObs (snd (hub_Close h)) (o_emitted o) (o_received o)
  end.

Definition obs_run (k : nat) (o : obs) (ops : list hub_op) : obs := foldl (obs_step k) o ops.

(** What [k] has read and still has buffered is a prefix of what was
    emitted, and all of it while the source is open. *)
Definition delivered (k : nat) (o : obs) : Prop :=
  exists s, hub_sources (o_hub o) !! k = Some s /\
    o_received o ++ src_events s `prefix_of` o_emitted o /\
    (src_closed s = false -> o_received o ++ src_events s = o_emitted o).

Lemma delivered_Emit k o e :
  wf_hub (o_hub o) -> delivered k o -> delivered k (obs_step k o (OpEmit e)).
Proof.
  intros (Hnd & Hlt & Hb & Hopen & Hcl) (s & Hs & Hpre & Heq). simpl.
  unfold delivered, hub_Emit; simpl.
  pose proof (emit_loop_spec e _ _ Hnd Hlt) as Hspec.
  destruct (emit_loop _ _ _) as [rem heap]. destruct Hspec as (_ & _ & _ & Hheap). simpl.
  rewrite Hheap, Hs. simpl. case_bool_decide as Hin.
  - destruct (send_cases e s) as [(Hc & _ & Hsend)|(err & Hsend)]; simpl; rewrite Hsend;
      eexists; (split; [reflexivity|]); simpl.
    + rewrite (assoc_L (++)), Heq by done. done.
    + split; [by apply prefix_app_r|done].
  - exists s. split; [done|]. split; [by apply prefix_app_r|].
    intros Hc. exfalso. apply Hin. by eapply Hopen.
Qed.

Lemma delivered_step k o op :
  wf_hub (o_hub o) -> delivered k o ->
  wf_hub (o_hub (obs_step k o op)) /\ delivered k (obs_step k o op).
Proof.
  intros Hwf Hd. destruct op as [e|id|id| |].
  - split; [by apply wf_Emit|by apply delivered_Emit].
  - pose proof (wf_sub_Next id _ Hwf) as Hwf'. simpl. unfold sub_Next in *.
    destruct (hub_sources (o_hub o) !! id) as [s|] eqn:Hs; [|done].
    unfold source_Next in *. destruct Hd as (t & Ht & Hpre & Heq).
    destruct (decide (id = k)) as [->|Hne].
    + rewrite Ht in Hs. injection Hs as <-.
      destruct t as [[|e evs] cap cl]; simpl in *;
        [destruct cl|]; (split; [done|]); unfold delivered; simpl;
        rewrite list_lookup_insert_eq by (by eapply lookup_lt_Some);
        (eexists; split; [reflexivity|]); simpl; try done.
      rewrite bool_decide_eq_true_2 by done. rewrite <- (assoc_L (++)). done.
    + destruct s as [[|e evs] cap cl]; simpl in *;
        [destruct cl|]; (split; [done|]); unfold delivered; simpl;
        rewrite list_lookup_insert_ne by done; eauto.
      rewrite bool_decide_eq_false_2 by done. eauto.
  - split; [by apply wf_sub_Close|]. simpl. unfold sub_Close, delivered; simpl.
    destruct Hd as (t & Ht & Hpre & Heq).
    destruct (hub_sources (o_hub o) !! id) as [s|] eqn:Hs; simpl; [|eauto].
    destruct (decide (id = k)) as [->|Hne].
    + rewrite list_lookup_insert_eq by (by eapply lookup_lt_Some).
      rewrite Ht in Hs. injection Hs as <-.
      destruct (source_Close_fields t) as (H1 & H2 & H3).
      eexists; split; [reflexivity|]. rewrite H1, H3. done.
    + rewrite list_lookup_insert_ne by done. eauto.
  - split; [by apply wf_Subscribe|]. destruct Hd as (t & Ht & Hd). simpl.
    unfold delivered, hub_Subscribe; simpl. destruct (hub_closed (o_hub o)); simpl; [eauto|].
    exists t. split; [by apply lookup_app_l_Some|done].
  - split; [by apply wf_hub_Close|]. destruct Hd as (t & Ht & Hpre & Heq). simpl.
    unfold delivered, hub_Close; simpl. destruct (hub_closed (o_hub o)); simpl; [eauto|].
    destruct (closeSubscribers_spec (hub_subscribers (o_hub o)) (hub_sources (o_hub o)) k)
      as (f & Hf & Hev & Hc & _).
    rewrite Hf, Ht. simpl. eexists; split; [reflexivity|]. rewrite (proj1 (Hev t)).
    split; [done|]. destruct (Hc t) as [Hid|Hct]; [by rewrite Hid|by rewrite Hct].
Qed.

Lemma delivered_run k o ops :
  wf_hub (o_hub o) -> delivered k o -> delivered k (obs_run k o ops).
Proof.
  unfold obs_run. revert o. induction ops as [|op ops IH]; intros o Hwf Hd; simpl; [done|].
  destruct (delivered_step k o op Hwf Hd). by apply IH.
Qed.

Lemma delivered_Subscribe h k h' :
  hub_Subscribe h = (inr k, h') -> delivered k (mkObs h' [] []).
Proof.
  unfold hub_Subscribe. destruct (hub_closed h); [done|]. intros [= <- <-].
  unfold delivered; simpl. eexists. rewrite list_lookup_middle by done. by split.
Qed.
End Delivery.
Arguments hub_op : clear implicits.
Arguments obs : clear implicits.
