(* ===== verification/Store.v ===== *)
(** Store: the contract of the SQL database as db/client.go uses it (through
    gorm), stated as a class of operations with laws, and an in-memory database that
    satisfies it.  The database and the gorm code behind the [Client]
    interface are parameters of the development: everything proved about [SqlDB] is proved
    from the laws alone. *)
From Stdlib Require Import ZArith Lia.
From stdpp Require Import base option strings gmap list.
From S2P Require Import Prelude GoStrings RouterGroups Routes.

Local Open Scope string_scope.
Local Open Scope list_scope.
Local Open Scope Z_scope.

(** The contents of the three tables. *)
Record Tables := mkTables {
  tb_routes : list Route;
  tb_tcp : list TcpRouteMapping;
  tb_groups : list RouterGroupDB
}.

(** A model type with its table.  [reads_back st r r'] says that a row written
    as [r] is read as [r'] when the timestamp column stores [t] as [st t];
    gorm fills [CreatedAt] and [UpdatedAt] itself, so they are not compared.
    [stored st r] is one such row.  [row_null null r] says that the row of [r] has
    a NULL column that is read as a zero, when [null] says so for its guid. *)
Class Row (R : Type) := {
  row_guid : R -> string;
  tb_get : Tables -> list R;
  tb_set : list R -> Tables -> Tables;
  reads_back : (Z -> Z) -> R -> R -> Prop;
  stored : (Z -> Z) -> R -> R;
  row_null : (string -> bool) -> R -> bool;
  reads_back_guid : forall st r r', reads_back st r r' -> row_guid r' = row_guid r;
  reads_back_stored : forall st r, reads_back st r (stored st r);
  tb_get_set : forall l t, tb_get (tb_set l t) = l
}.

#[export] Program Instance Route_Row : Row Route := {|
  row_guid r := Model_Guid (Route_Model r);
  tb_get := tb_routes;
  tb_set l t := mkTables l (tb_tcp t) (tb_groups t);
  reads_back st r r' :=
    Model_Guid (Route_Model r') = Model_Guid (Route_Model r) /\
    Route_ExpiresAt r' = st (Route_ExpiresAt r) /\ Route_Entity r' = Route_Entity r;
  stored st r := mkRoute (Route_Model r) (st (Route_ExpiresAt r)) (Route_Entity r);
  row_null _ _ := false
|}.
Solve Obligations with (simpl; intros; naive_solver).

(** A TLS port of zero may be NULL in the column host_tls_port. *)
Definition tls_null (null : string -> bool) (m : TcpRouteMapping) : bool :=
  (TM_HostTLSPort (Tcp_Entity m) =? 0) && null (Model_Guid (Tcp_Model m)).

#[export] Program Instance Tcp_Row : Row TcpRouteMapping := {|
  row_guid r := Model_Guid (Tcp_Model r);
  tb_get := tb_tcp;
  tb_set l t := mkTables (tb_routes t) l (tb_groups t);
  reads_back st r r' :=
    Model_Guid (Tcp_Model r') = Model_Guid (Tcp_Model r) /\
    Tcp_ExpiresAt r' = st (Tcp_ExpiresAt r) /\ Tcp_Entity r' = Tcp_Entity r;
  stored st r := mkTcpRouteMapping (Tcp_Model r) (st (Tcp_ExpiresAt r)) (Tcp_Entity r);
  row_null := tls_null
|}.
Solve Obligations with (simpl; intros; naive_solver).

#[export] Program Instance RouterGroupDB_Row : Row RouterGroupDB := {|
  row_guid r := Model_Guid (RGDB_Model r);
  tb_get := tb_groups;
  tb_set l t := mkTables (tb_routes t) (tb_tcp t) l;
  reads_back st r r' :=
    Model_Guid (RGDB_Model r') = Model_Guid (RGDB_Model r) /\
    RGDB_Name r' = RGDB_Name r /\ RGDB_Type r' = RGDB_Type r /\
    RGDB_ReservablePorts r' = RGDB_ReservablePorts r;
  stored st r := r;
  row_null _ _ := false
|}.
Solve Obligations with (simpl; intros; naive_solver).

(** The rows a WHERE clause selects. *)
Definition rows_where {R} (p : R -> bool) (l : list R) : list R := filter (fun r => p r = true) l.

(** An error value that gorm or the driver can produce: never one of the
    [db.DBError] values this repository defines. *)
Definition foreign_error (e : error) : Prop := forall d, e <> db_error d.

(** The methods of [db.Client] the program calls on the three tables; a
    WHERE clause is the predicate it denotes.  [Create], [Save] and [Delete]
    return the affected-row count.

    [null_tls] tells, by their guids, the rows of tcp_routes that are created while
    the default of host_tls_port is NULL, as it is after the migrations: gorm leaves
    a zero TLS port to the default, so these rows have NULL in the column if their
    TLS port is zero.  A row keeps what it got, as the program updates only rows
    that it has found by a TLS port. *)
Class SqlClient (S : Type) := {
  null_tls : string -> bool;
  client_Find : forall {R : Type}, Row R -> (R -> bool) -> S -> (error + list R) * S;
  client_First : forall {R : Type}, Row R -> (R -> bool) -> S -> (error + R) * S;
  client_Create : forall {R : Type}, Row R -> R -> S -> (error + Z) * S;
  client_Save : forall {R : Type}, Row R -> R -> S -> (error + Z) * S;
  client_Delete : forall {R : Type}, Row R -> (R -> bool) -> S -> (error + Z) * S
}.

(** What the code relies on.  A failing call changes nothing; a result set
    comes back in any order; [Create] inserts a row under a new primary key
    or fails; [Save] of a row with a primary key replaces the row with that
    key or inserts it (it would also write a zero over a NULL, so nothing is said of
    rows that have one); [Delete] removes the selected rows; a timestamp is
    stored with less than one second of error.  A row is read as it was written, NULL
    as zero; a clause that must tell the two apart is given [null_tls].  TableClaims
    has the calls on tables, SchemaClaims the default of the column. *)
Class SqlLaws (S : Type) `{Env S, SqlClient S} := {
  tables : S -> Tables;
  store_time : Z -> Z;
  store_time_close : forall t, t - Second < store_time t < t + Second;
  now_tables : forall s t s', time_Now s = (t, s') -> tables s' = tables s;
  uuid_tables : forall s r s', uuid_NewV4 s = (r, s') -> tables s' = tables s;
  uuid_nonempty : forall s g s', uuid_NewV4 s = (inr g, s') -> g <> "";
  Find_err : forall R (row : Row R) p s s' e,
    client_Find row p s = (inl e, s') ->
    tables s' = tables s /\ foreign_error e;
  First_err : forall R (row : Row R) p s s' e,
    client_First row p s = (inl e, s') ->
    tables s' = tables s /\ foreign_error e;
  Create_err : forall R (row : Row R) r s s' e,
    client_Create row r s = (inl e, s') ->
    tables s' = tables s /\ foreign_error e;
  Save_err : forall R (row : Row R) r s s' e,
    client_Save row r s = (inl e, s') ->
    tables s' = tables s /\ foreign_error e;
  Delete_err : forall R (row : Row R) p s s' e,
    client_Delete row p s = (inl e, s') ->
    tables s' = tables s /\ foreign_error e;
  Find_ok : forall R (row : Row R) p s s' l,
    client_Find row p s = (inr l, s') ->
    tables s' = tables s /\ l ≡ₚ rows_where p (tb_get (tables s));
  First_ok : forall R (row : Row R) p s s' r,
    client_First row p s = (inr r, s') ->
    tables s' = tables s /\ r ∈ rows_where p (tb_get (tables s));
  First_not_found : forall R (row : Row R) p s s',
    client_First row p s = (inl gorm_ErrRecordNotFound, s') ->
    rows_where p (tb_get (tables s)) = [];
  Create_ok : forall R (row : Row R) r s s' n,
    client_Create row r s = (inr n, s') ->
    row_guid r ∉ (row_guid <$> tb_get (tables s)) /\
    exists r' l, reads_back store_time r r' /\ l ≡ₚ r' :: tb_get (tables s) /\
      tables s' = tb_set l (tables s);
  Save_ok : forall R (row : Row R) r s s' n,
    row_guid r <> "" -> row_null null_tls r = false -> client_Save row r s = (inr n, s') ->
    exists r' l, reads_back store_time r r' /\
      l ≡ₚ r' :: rows_where (fun x => negb (bool_decide (row_guid x = row_guid r))) (tb_get (tables s)) /\
      tables s' = tb_set l (tables s);
  Delete_ok : forall R (row : Row R) p s s' n,
    client_Delete row p s = (inr n, s') ->
    exists l, l ≡ₚ rows_where (fun x => negb (p x)) (tb_get (tables s)) /\
      tables s' = tb_set l (tables s)
}.

(** ** The client calls as Go calls *)
Section ClientCalls.
Context {S : Type} `{!SqlClient S} {R : Type} `{!Row R}.

Definition Find (p : R -> bool) : Go S (list R) := call (client_Find _ p).
Definition First (p : R -> bool) : Go S R := call (client_First _ p).
Definition Create (r : R) : Go S Z := call (client_Create _ r).
Definition Save (r : R) : Go S Z := call (client_Save _ r).
Definition DeleteWhere (p : R -> bool) : Go S Z := call (client_Delete _ p).

(** [Client.Delete(&r)]: by primary key; gorm refuses an empty one. *)
Definition DeleteRow (r : R) : Go S Z :=
  if bool_decide (row_guid r = "") then fail (ext_error "WHERE conditions required")
  else DeleteWhere (fun x => bool_decide (row_guid x = row_guid r)).
End ClientCalls.

(** ** An in-memory database *)

Record Mem := mkMem {
  mem_tables : Tables;
  mem_clock : Z;
  mem_uuids : list (error + string);
  mem_faults : list bool
}.

Definition mem_with (s : Mem) (t : Tables) (faults : list bool) : Mem :=
  mkMem t (mem_clock s) (mem_uuids s) faults.

(** The next scheduled fault, if any: [true] makes the call fail. *)
Definition next_fault (s : Mem) : bool * list bool :=
  match mem_faults s with [] => (false, []) | b :: bs => (b, bs) end.

Definition driver_error : error := ext_error "driver: bad connection".

Definition trunc_second (t : Z) : Z := t / Second * Second.

(** Every read of the clock advances it by a millisecond. *)
#[export] Instance Mem_Env : Env Mem := {|
  time_Now s := (mem_clock s, mkMem (mem_tables s) (mem_clock s + 1000000) (mem_uuids s) (mem_faults s));
  uuid_NewV4 s :=
    match mem_uuids s with
    | inl e :: us => (inl e, mkMem (mem_tables s) (mem_clock s) us (mem_faults s))
    | inr g :: us =>
        ((if bool_decide (g = "") then inl (ext_error "no entropy") else inr g),
         mkMem (mem_tables s) (mem_clock s) us (mem_faults s))
    | [] => (inl (ext_error "no entropy"), s)
    end
|}.

Definition mem_op {A} (s : Mem) (f : Tables -> (error + A) * Tables) : (error + A) * Mem :=
  let '(fault, faults) := next_fault s in
  if fault then (inl driver_error, mem_with s (mem_tables s) faults)
  else match f (mem_tables s) with
       | (inl e, _) => (inl e, mem_with s (mem_tables s) faults)
       | (inr a, t) => (inr a, mem_with s t faults)
       end.

(** Rows are created with the default NULL, but for those that were there before
    the default was changed. *)
Definition mem_null (guid : string) : bool := negb (String.prefix "old-" guid).

#[export] Instance Mem_SqlClient : SqlClient Mem := {|
  null_tls := mem_null;
  client_Find R row p s := mem_op s (fun t => (inr (rows_where p (tb_get t)), t));
  client_First R row p s := mem_op s (fun t =>
    match rows_where p (tb_get t) with
    | [] => (inl gorm_ErrRecordNotFound, t)
    | r :: _ => (inr r, t)
    end);
  client_Create R row r s := mem_op s (fun t =>
    if bool_decide (row_guid r ∈ (row_guid <$> tb_get t)) then (inl (ext_error "duplicate key"), t)
    else (inr 1, tb_set (tb_get t ++ [stored trunc_second r]) t));
  client_Save R row r s := mem_op s (fun t =>
    let others := rows_where (fun x => negb (bool_decide (row_guid x = row_guid r))) (tb_get t) in
    (inr 1, tb_set (others ++ [stored trunc_second r]) t));
  client_Delete R row p s := mem_op s (fun t =>
    (inr (Z.of_nat (length (rows_where p (tb_get t)))),
     tb_set (rows_where (fun x => negb (p x)) (tb_get t)) t))
|}.

Lemma trunc_second_close t : t - Second < trunc_second t < t + Second.
Proof.
  unfold trunc_second, Second. pose proof (Z.div_mod t 1000000000 ltac:(lia)).
  pose proof (Z.mod_pos_bound t 1000000000 ltac:(lia)). lia.
Qed.

Lemma mem_op_err {A} s (f : Tables -> (error + A) * Tables) e s' :
  (forall e t, f (mem_tables s) = (inl e, t) -> foreign_error e) ->
  mem_op s f = (inl e, s') -> mem_tables s' = mem_tables s /\ foreign_error e.
Proof.
  intros Hf. unfold mem_op. destruct (next_fault s) as [[|] fs]; [by intros [= <- <-]|].
  destruct (f (mem_tables s)) as [[e'|] t] eqn:E; [|done]. intros [= <- <-]. split; [done|by eapply Hf].
Qed.

Lemma mem_op_ok {A} s (f : Tables -> (error + A) * Tables) a s' :
  mem_op s f = (inr a, s') -> f (mem_tables s) = (inr a, mem_tables s').
Proof.
  unfold mem_op. destruct (next_fault s) as [[|] fs]; [done|].
  destruct (f (mem_tables s)) as [[|] t]; [done|]. by intros [= <- <-].
Qed.

Ltac mem_err_tac :=
  intros E;
  repeat match type of E with
  | context [match ?x with _ => _ end] => destruct x
  end; try discriminate E; injection E as <- _; by intros d.

#[export] Program Instance Mem_SqlLaws : SqlLaws Mem := {|
  tables := mem_tables;
  store_time := trunc_second;
  store_time_close := trunc_second_close
|}.
Next Obligation. by intros s t s' [= _ <-]. Qed.
Next Obligation. intros s r s'. simpl. by destruct (mem_uuids s) as [|[] ?]; intros [= _ <-]. Qed.
Next Obligation.
  intros s g s'. simpl. destruct (mem_uuids s) as [|[] ?]; try done.
  case_bool_decide; [done|]. by intros [= <- _].
Qed.
Next Obligation. intros R row p s s' e H. refine (mem_op_err _ _ _ _ _ H). intros e' t. mem_err_tac. Qed.
Next Obligation. intros R row p s s' e H. refine (mem_op_err _ _ _ _ _ H). intros e' t. mem_err_tac. Qed.
Next Obligation. intros R row r s s' e H. refine (mem_op_err _ _ _ _ _ H). intros e' t. mem_err_tac. Qed.
Next Obligation. intros R row r s s' e H. refine (mem_op_err _ _ _ _ _ H). intros e' t. mem_err_tac. Qed.
Next Obligation. intros R row p s s' e H. refine (mem_op_err _ _ _ _ _ H). intros e' t. mem_err_tac. Qed.
Next Obligation. intros R row p s s' l [= -> ->]%mem_op_ok. done. Qed.
Next Obligation.
  intros R row p s s' r H%mem_op_ok. simpl in H.
  destruct (rows_where p (tb_get (mem_tables s))); [done|]. injection H as -> ->. set_solver.
Qed.
Next Obligation.
  intros R row p s s'. simpl. unfold mem_op. destruct (next_fault s) as [[|] fs]; [done|].
  by destruct (rows_where p (tb_get (mem_tables s))).
Qed.
Next Obligation.
  intros R row r s s' n H%mem_op_ok. simpl in H. case_bool_decide; [done|].
  injection H as <- Ht. split; [done|]. eexists _, _. split; [apply reads_back_stored|].
  split; [|symmetry; exact Ht]. by rewrite (comm (++)).
Qed.
Next Obligation.
  intros R row r s s' n _ _ H%mem_op_ok. simpl in H. injection H as <- Ht.
  eexists _, _. split; [apply reads_back_stored|]. split; [|symmetry; exact Ht]. by rewrite (comm (++)).
Qed.
Next Obligation.
  intros R row p s s' n H%mem_op_ok. simpl in H. injection H as <- Ht.
  eexists. split; [|symmetry; exact Ht]. done.
Qed.
