(* ===== verification/Keyed.v ===== *)
(** Keyed: tables read as finite maps.  A table whose rows have distinct keys
    and distinct non-empty primary keys is a finite map from keys to values;
    inserting, replacing and deleting rows are the map operations. *)
From Stdlib Require Import ZArith Lia.
From stdpp Require Import base option strings gmap list.
From S2P Require Import Prelude RouterGroups Routes Store.

Local Open Scope string_scope.
Local Open Scope list_scope.

Lemma rows_where_all {R} (l : list R) : rows_where (fun _ => true) l = l.
Proof. unfold rows_where. induction l as [|x l IH]; [done|]. rewrite filter_cons_True by done. by rewrite IH. Qed.

Lemma rows_where_ext {R} (p q : R -> bool) (l : list R) :
  (forall r, r ∈ l -> p r = q r) -> rows_where p l = rows_where q l.
Proof.
  unfold rows_where. induction l as [|x l IH]; intros Heq; [done|].
  rewrite !filter_cons, (Heq x) by set_solver. rewrite IH by set_solver. done.
Qed.

Lemma length_rows_where {R} (p : R -> bool) (l : list R) :
  (length (rows_where p l) + length (rows_where (fun r => negb (p r)) l) = length l)%nat.
Proof.
  unfold rows_where. induction l as [|x l IH]; [done|].
  rewrite !filter_cons. destruct (p x); simpl in *; lia.
Qed.

Section Keyed.
Context {R K V : Type} `{!Row R} `{Countable K} (key : R -> K) (val : R -> V).
Implicit Types (rows l : list R) (r : R).

Definition keyed_inv rows : Prop :=
  NoDup (key <$> rows) /\ NoDup (row_guid <$> rows) /\ Forall (fun r => row_guid r <> "") rows.

Definition table_map rows : gmap K V := list_to_map ((fun r => (key r, val r)) <$> rows).

Lemma fst_pairs rows : ((fun r => (key r, val r)) <$> rows).*1 = key <$> rows.
Proof. rewrite <- list_fmap_compose. by apply list_fmap_ext. Qed.

Lemma table_map_Some rows k v :
  NoDup (key <$> rows) ->
  table_map rows !! k = Some v <-> exists r, r ∈ rows /\ key r = k /\ val r = v.
Proof.
  intros Hnd. unfold table_map.
  rewrite <- elem_of_list_to_map by (rewrite fst_pairs; done).
  rewrite list_elem_of_fmap. naive_solver.
Qed.

Lemma table_map_None rows k : table_map rows !! k = None <-> forall r, r ∈ rows -> key r <> k.
Proof.
  unfold table_map. rewrite <- not_elem_of_list_to_map, fst_pairs, list_elem_of_fmap. naive_solver.
Qed.

Lemma table_map_perm rows l :
  NoDup (key <$> rows) -> l ≡ₚ rows -> table_map l = table_map rows.
Proof.
  intros Hnd Hl. unfold table_map. apply list_to_map_proper.
  - rewrite fst_pairs. by rewrite Hl.
  - by rewrite Hl.
Qed.

Lemma size_table_map rows : keyed_inv rows -> size (table_map rows) = length rows.
Proof.
  intros (Hnd & _). unfold table_map. rewrite map_size_list_to_map by (rewrite fst_pairs; done).
  apply length_fmap.
Qed.

Lemma keyed_inv_perm rows l : l ≡ₚ rows -> keyed_inv rows -> keyed_inv l.
Proof. unfold keyed_inv. intros ->. done. Qed.

Lemma rows_where_elem p rows r : r ∈ rows_where p rows <-> p r = true /\ r ∈ rows.
Proof. apply (list_elem_of_filter (fun x => p x = true)). Qed.

Lemma keyed_inv_filter p rows : keyed_inv rows -> keyed_inv (rows_where p rows).
Proof.
  assert (rows_where p rows `sublist_of` rows) as Hs by apply sublist_filter.
  intros (H1 & H2 & H3). split; [|split].
  - eapply sublist_NoDup; [exact H1|]. by apply fmap_sublist.
  - eapply sublist_NoDup; [exact H2|]. by apply fmap_sublist.
  - apply Forall_forall. intros r [_ Hr]%rows_where_elem. by eapply Forall_forall in H3.
Qed.

(** *** Looking a key up *)
Lemma key_unique rows r1 r2 :
  keyed_inv rows -> r1 ∈ rows -> r2 ∈ rows -> key r1 = key r2 -> r1 = r2.
Proof.
  intros (Hnd & _) H1 H2 Hk.
  apply list_elem_of_lookup_1 in H1 as [i Hi], H2 as [j Hj].
  enough (i = j) by congruence.
  eapply NoDup_lookup; [exact Hnd|rewrite list_lookup_fmap, Hi; reflexivity|].
  rewrite list_lookup_fmap, Hj. simpl. by rewrite Hk.
Qed.

Lemma guid_unique rows r1 r2 :
  keyed_inv rows -> r1 ∈ rows -> r2 ∈ rows -> row_guid r1 = row_guid r2 -> r1 = r2.
Proof.
  intros (_ & Hnd & _) H1 H2 Hk.
  apply list_elem_of_lookup_1 in H1 as [i Hi], H2 as [j Hj].
  enough (i = j) by congruence.
  eapply NoDup_lookup; [exact Hnd|rewrite list_lookup_fmap, Hi; reflexivity|].
  rewrite list_lookup_fmap, Hj. simpl. by rewrite Hk.
Qed.

(** A lookup by key finds nothing or exactly the row with that key. *)
Lemma lookup_key rows p k :
  keyed_inv rows -> (forall r, p r = true <-> key r = k) ->
  (rows_where p rows = [] /\ table_map rows !! k = None) \/
  (exists r, rows_where p rows = [r] /\ r ∈ rows /\ key r = k /\ table_map rows !! k = Some (val r)).
Proof.
  intros Hinv Hp. pose proof Hinv as (Hnd & _).
  destruct (rows_where p rows) as [|r [|r2 l]] eqn:E.
  - left. split; [done|]. apply table_map_None. intros r Hr Hk.
    assert (r ∈ rows_where p rows) as Hin by (apply rows_where_elem; split; [by apply Hp|done]).
    rewrite E in Hin. set_solver.
  - right. exists r. assert (r ∈ rows_where p rows) as [Hpr Hr]%rows_where_elem by (rewrite E; set_solver).
    apply Hp in Hpr. repeat split; [done|done|]. apply table_map_Some; [done|]. eauto.
  - exfalso. assert (NoDup (key <$> rows_where p rows)) as Hnd'
      by (by apply (keyed_inv_filter p) in Hinv as (? & _)).
    assert (r ∈ rows_where p rows) as [H1 _]%rows_where_elem by (rewrite E; set_solver).
    assert (r2 ∈ rows_where p rows) as [H2 _]%rows_where_elem by (rewrite E; set_solver).
    rewrite E in Hnd'. csimpl in Hnd'. apply NoDup_cons in Hnd' as [Hni _].
    apply Hni. apply Hp in H1, H2. rewrite H1, <- H2. set_solver.
Qed.

(** *** Changing a table *)
Lemma keyed_insert rows l r :
  keyed_inv rows -> l ≡ₚ r :: rows -> table_map rows !! key r = None ->
  row_guid r ∉ (row_guid <$> rows) -> row_guid r <> "" ->
  keyed_inv l /\ table_map l = <[key r := val r]> (table_map rows).
Proof.
  intros Hinv Hl Hk Hg Hne.
  assert (keyed_inv (r :: rows)) as Hinv'.
  { destruct Hinv as (H1 & H2 & H3). split; [|split]; csimpl.
    - apply NoDup_cons. split; [|done]. rewrite table_map_None in Hk.
      intros (r' & Heq & Hr')%list_elem_of_fmap. by apply (Hk r').
    - by apply NoDup_cons.
    - by constructor. }
  split; [by apply (keyed_inv_perm (r :: rows))|].
  rewrite (table_map_perm (r :: rows) l); [done|by destruct Hinv'|done].
Qed.

Definition others (g : string) rows : list R :=
  rows_where (fun x => negb (bool_decide (row_guid x = g))) rows.

Lemma others_elem g rows r : r ∈ others g rows <-> row_guid r <> g /\ r ∈ rows.
Proof. unfold others. rewrite rows_where_elem, negb_true_iff, bool_decide_eq_false. done. Qed.

Lemma keyed_delete rows l old :
  keyed_inv rows -> old ∈ rows -> l ≡ₚ others (row_guid old) rows ->
  keyed_inv l /\ table_map l = delete (key old) (table_map rows).
Proof.
  intros Hinv Hold Hl.
  assert (keyed_inv (others (row_guid old) rows)) as Hinv' by (by apply keyed_inv_filter).
  split; [by eapply keyed_inv_perm|].
  rewrite (table_map_perm _ _ (proj1 Hinv') Hl). apply map_eq. intros k.
  destruct (decide (k = key old)) as [->|Hne].
  - rewrite lookup_delete_eq. apply table_map_None. intros r [Hg Hr]%others_elem Hk.
    apply Hg. by rewrite (key_unique rows r old).
  - rewrite lookup_delete_ne by done. apply option_eq. intros v.
    rewrite !table_map_Some by (apply Hinv || apply Hinv').
    split; intros (r & Hr & Hk & Hv); exists r.
    + by apply others_elem in Hr as [_ Hr].
    + rewrite others_elem. repeat split; try done. intros Hg. apply Hne. rewrite <- Hk.
      by rewrite (guid_unique rows r old).
Qed.

Lemma keyed_replace rows l old r :
  keyed_inv rows -> old ∈ rows -> key r = key old -> row_guid r = row_guid old ->
  l ≡ₚ r :: others (row_guid old) rows ->
  keyed_inv l /\ table_map l = <[key r := val r]> (table_map rows).
Proof.
  intros Hinv Hold Hk Hg Hl.
  destruct (keyed_delete rows (others (row_guid old) rows) old Hinv Hold) as [Hinv1 Hmap1]; [done|].
  assert (row_guid old <> "") as Hne.
  { destruct Hinv as (_ & _ & H3). by eapply Forall_forall in H3. }
  destruct (keyed_insert (others (row_guid old) rows) l r) as [Hinv2 Hmap2]; try done.
  - rewrite Hmap1, Hk. apply lookup_delete_eq.
  - rewrite Hg. intros (x & Hx & [Hx2 _]%others_elem)%list_elem_of_fmap. congruence.
  - congruence.
  - split; [done|]. rewrite Hmap2, Hmap1, Hk. by rewrite insert_delete_eq.
Qed.
End Keyed.
