(* ===== verification/SqlDB.v ===== *)
(** SqlDB: db/db_sql.go, db/event.go and db/errors.go.  The persistence layer:
    router groups behind the backup locks, HTTP routes and TCP route mappings
    with their modification tags and expiry, and the events each change
    emits. *)
From Stdlib Require Import ZArith Lia.
From stdpp Require Import base option strings gmap list.
From S2P Require Import Prelude GoStrings RouterGroups Routes Json EventHub Store Keyed.

Local Open Scope string_scope.
Local Open Scope list_scope.
Local Open Scope Z_scope.

(** ** Errors *)
Definition KeyNotFound : string := "KeyNotFound".
Definition NonUpdatableField : string := "NonUpdatableField".
Definition UniqueField : string := "UniqueField".

Definition DeleteRouteError : error :=
  db_error (mkDBError KeyNotFound "Delete Fails: Route does not exist").
Definition DeleteRouterGroupError : error :=
  db_error (mkDBError KeyNotFound "Delete Fails: Router Group does not exist").
Definition backupError : error := errors_New "database unavailable due to backup or restore".

(** ** Locks

    The two flags are read and written with atomic loads and stores. *)
Record rwLocker := mkLocker { readLock : Z; writeLock : Z }.

Definition isReadLocked (l : rwLocker) : bool := negb (readLock l =? 0).
Definition isWriteLocked (l : rwLocker) : bool := negb (writeLock l =? 0).
Definition lockReads (l : rwLocker) : rwLocker := mkLocker 1 (writeLock l).
Definition lockWrites (l : rwLocker) : rwLocker := mkLocker (readLock l) 1.
Definition unlockReads (l : rwLocker) : rwLocker := mkLocker 0 (writeLock l).
Definition unlockWrites (l : rwLocker) : rwLocker := mkLocker (readLock l) 0.

(** ** Events *)
Record Event := mkEvent { Event_Type : EventType; Event_Value : json }.

(** The dynamic type of the object an event is made from. *)
Inductive event_obj :=
| ObjRoute (r : Route)
| ObjTcp (m : TcpRouteMapping)
| ObjOther (v : json).

Definition Marshal_obj (o : event_obj) : json :=
  match o with ObjRoute r => json_of_Route r | ObjTcp m => json_of_Tcp m | ObjOther v => v end.

(** [json.Marshal] cannot fail on these types. *)
Definition NewEventFromInterface (eventType : EventType) (obj : event_obj) : Event :=
  mkEvent eventType (Marshal_obj obj).

(** ** The state of [SqlDB]

    [Client] is the database (with the clock and the entropy source). *)
Record SqlDB (S : Type) := mkSqlDB {
  Client : S;
  tcpEventHub : hub Event;
  httpEventHub : hub Event;
  locker : rwLocker
}.
Arguments mkSqlDB {_} _ _ _ _.
Arguments Client {_} _.
Arguments tcpEventHub {_} _.
Arguments httpEventHub {_} _.
Arguments locker {_} _.

Section Ops.
Context {S : Type} `{!Env S, !SqlClient S}.

Definition with_Client (c : S) (s : SqlDB S) : SqlDB S :=
  mkSqlDB c (tcpEventHub s) (httpEventHub s) (locker s).
Definition with_tcpHub (h : hub Event) (s : SqlDB S) : SqlDB S :=
  mkSqlDB (Client s) h (httpEventHub s) (locker s).
Definition with_httpHub (h : hub Event) (s : SqlDB S) : SqlDB S :=
  mkSqlDB (Client s) (tcpEventHub s) h (locker s).
Definition with_locker (l : rwLocker) (s : SqlDB S) : SqlDB S :=
  mkSqlDB (Client s) (tcpEventHub s) (httpEventHub s) l.

(** A call on [s.Client], the clock or the entropy source. *)
Definition client {A} (m : Go S A) : Go (SqlDB S) A := zoom Client with_Client m.

Definition emitEvent (eventType : EventType) (obj : event_obj) : Go (SqlDB S) unit :=
  let event := NewEventFromInterface eventType obj in
  match obj with
  | ObjRoute _ => modify (fun s => with_httpHub (hub_Emit event (httpEventHub s)) s)
  | ObjTcp _ => modify (fun s => with_tcpHub (hub_Emit event (tcpEventHub s)) s)
  | ObjOther _ => fail (errors_New "unknown event type")
  end.

(** *** Router groups *)

Definition LockRouterGroupReads : Go (SqlDB S) unit := modify (fun s => with_locker (lockReads (locker s)) s).
Definition LockRouterGroupWrites : Go (SqlDB S) unit := modify (fun s => with_locker (lockWrites (locker s)) s).
Definition UnlockRouterGroupReads : Go (SqlDB S) unit := modify (fun s => with_locker (unlockReads (locker s)) s).
Definition UnlockRouterGroupWrites : Go (SqlDB S) unit := modify (fun s => with_locker (unlockWrites (locker s)) s).

Definition recordNotFound (err : error) : bool := bool_decide (err = gorm_ErrRecordNotFound).

Definition ReadRouterGroups : Go (SqlDB S) (list RouterGroup) :=
  s ← get;
  if isReadLocked (locker s) then fail backupError
  else ToRouterGroups <$> client (Find (fun _ => true)).

(** The common body of [ReadRouterGroup] and [ReadRouterGroupByName]: a
    missing record is the zero group with a nil error. *)
Definition read_group_where (p : RouterGroupDB -> bool) : Go (SqlDB S) RouterGroup :=
  s ← get;
  if isReadLocked (locker s) then fail backupError
  else
    r ← try (client (First p));
    match r with
    | inr routerGroupDB => mret (ToRouterGroup routerGroupDB)
    | inl err => if recordNotFound err then mret zero_RouterGroup else fail err
    end.

Definition ReadRouterGroup (guid : string) : Go (SqlDB S) RouterGroup :=
  read_group_where (fun r => bool_decide (Model_Guid (RGDB_Model r) = guid)).

Definition ReadRouterGroupByName (name : string) : Go (SqlDB S) RouterGroup :=
  read_group_where (fun r => bool_decide (RGDB_Name r = name)).

(** The fields of [existing] that the update overwrites. *)
Definition updateRouterGroup (existing current : RouterGroup) : RouterGroup :=
  mkRouterGroup (RG_Model existing) (RG_Guid existing)
    (if bool_decide (RG_Name current <> "") then RG_Name current else RG_Name existing)
    (if bool_decide (RG_Type current <> "") then RG_Type current else RG_Type existing)
    (RG_ReservablePorts current).

(** gorm's [Save] of a struct whose primary key is empty is a [Create]. *)
Definition SaveOrCreate {R} `{!Row R} (r : R) : Go S Z :=
  if bool_decide (row_guid r = "") then Create r else Save r.

Definition SaveRouterGroup (routerGroup : RouterGroup) : Go (SqlDB S) unit :=
  s ← get;
  if isWriteLocked (locker s) then fail backupError
  else
    existingRouterGroup ← ReadRouterGroup (RG_Guid routerGroup);
    if bool_decide (RG_Guid existingRouterGroup = RG_Guid routerGroup) then
      let routerGroupDB := NewRouterGroupDB (updateRouterGroup existingRouterGroup routerGroup) in
      _ ← client (SaveOrCreate routerGroupDB); mret tt
    else
      _ ← client (Create (NewRouterGroupDB routerGroup)); mret tt.

Definition DeleteRouterGroup (guid : string) : Go (SqlDB S) unit :=
  s ← get;
  if isWriteLocked (locker s) then fail backupError
  else
    routerGroup ← ReadRouterGroup guid;
    if bool_decide (routerGroup = zero_RouterGroup) then fail DeleteRouterGroupError
    else
      _ ← client (DeleteWhere (fun r : RouterGroupDB => bool_decide (Model_Guid (RGDB_Model r) = guid)));
      mret tt.

(** *** HTTP routes *)

Definition updateRoute (existingRoute currentRoute : Route) : Go (SqlDB S) Route :=
  let e := Route_Entity existingRoute in
  let c := Route_Entity currentRoute in
  let tag := Increment (RE_ModificationTag e) in
  let ttl := match RE_TTL c with Some _ => RE_TTL c | None => RE_TTL e end in
  let logGuid := if bool_decide (RE_LogGuid c <> "") then RE_LogGuid c else RE_LogGuid e in
  t ← client now;
  d ← deref ttl;
  mret (mkRoute (Route_Model existingRoute) (t + ttl_duration d)
          (mkRouteEntity (RE_Route e) (RE_Port e) (RE_IP e) ttl logGuid (RE_RouteServiceUrl e) tag)).

Definition ReadRoutes : Go (SqlDB S) (list Route) :=
  t ← client now;
  client (Find (fun r => t <? Route_ExpiresAt r)).

Definition route_matches (route r : Route) : bool :=
  let e := Route_Entity route in
  let f := Route_Entity r in
  bool_decide (RE_Route f = RE_Route e) && bool_decide (RE_IP f = RE_IP e) &&
  (RE_Port f =? RE_Port e) && bool_decide (RE_RouteServiceUrl f = RE_RouteServiceUrl e).

Definition readRoute (route : Route) : Go (SqlDB S) Route :=
  routes ← client (Find (route_matches route));
  match routes with
  | [] => mret zero_Route
  | [r] => mret r
  | _ => fail (errors_New "have duplicate routes")
  end.

Definition route_with_tag (r : Route) (tag : ModificationTag) : Route :=
  let e := Route_Entity r in
  mkRoute (Route_Model r) (Route_ExpiresAt r)
    (mkRouteEntity (RE_Route e) (RE_Port e) (RE_IP e) (RE_TTL e) (RE_LogGuid e) (RE_RouteServiceUrl e) tag).

(** [SaveRoute] after its lookup returned [existingRoute]. *)
Definition saveRoute_found (route existingRoute : Route) : Go (SqlDB S) unit :=
  if bool_decide (existingRoute <> zero_Route) then
    newRoute ← updateRoute existingRoute route;
    _ ← client (SaveOrCreate newRoute);
    emitEvent UpdateEvent (ObjRoute newRoute)
  else
    newRoute ← client (NewRouteWithModel route);
    tag ← client NewModificationTag;
    let newRoute := route_with_tag newRoute tag in
    _ ← client (Create newRoute);
    emitEvent CreateEvent (ObjRoute newRoute).

Definition SaveRoute (route : Route) : Go (SqlDB S) unit :=
  existingRoute ← readRoute route;
  saveRoute_found route existingRoute.

Definition DeleteRoute (route : Route) : Go (SqlDB S) unit :=
  route ← readRoute route;
  if bool_decide (route = zero_Route) then fail DeleteRouteError
  else
    _ ← client (DeleteRow route);
    emitEvent DeleteEvent (ObjRoute route).

(** *** TCP route mappings *)

Definition updateTcpRouteMapping (existing current : TcpRouteMapping) : Go (SqlDB S) TcpRouteMapping :=
  let e := Tcp_Entity existing in
  let c := Tcp_Entity current in
  let ttl := match TM_TTL c with Some _ => TM_TTL c | None => TM_TTL e end in
  t ← client now;
  d ← deref ttl;
  mret (mkTcpRouteMapping (Tcp_Model existing) (t + ttl_duration d)
          (mkTcpMappingEntity (TM_RouterGroupGuid e) (TM_HostPort e) (TM_HostTLSPort e) (TM_HostIP e)
             (TM_SniHostname e) (TM_SniRewriteHostname c) (TM_InstanceId e) (TM_ExternalPort e)
             (Increment (TM_ModificationTag e)) ttl (TM_IsolationSegment c)
             (TM_TerminateFrontendTLS e) (TM_ALPNs e) (TM_EnableBackendMTLS e))).

Definition ReadTcpRouteMappings : Go (SqlDB S) (list TcpRouteMapping) :=
  t ← client now;
  client (Find (fun r => t <? Tcp_ExpiresAt r)).

(** [column] is the column that [columnName] names. *)
Definition ReadFilteredTcpRouteMappings (column : TcpRouteMapping -> string) (values : list string)
    : Go (SqlDB S) (list TcpRouteMapping) :=
  t ← client now;
  client (Find (fun r => bool_decide (column r ∈ values) && (t <? Tcp_ExpiresAt r))).

(** [sni_hostname = ?] in SQL: not true of a NULL column. *)
Definition sql_eq (column : option string) (v : string) : bool :=
  match column with None => false | Some c => bool_decide (c = v) end.

Definition FindSimilarTcpRouteMappings (sniHostname : string) (externalPort : Z)
    : Go (SqlDB S) (list TcpRouteMapping) :=
  t ← client now;
  client (Find (fun r => sql_eq (TM_SniHostname (Tcp_Entity r)) sniHostname &&
                         (TM_ExternalPort (Tcp_Entity r) =? externalPort) && (t <? Tcp_ExpiresAt r))).

(** The WHERE clause of [FindExistingTcpRouteMapping], with [IS NULL] for a
    nil host name; [host_tls_port = ?] is not true of a NULL, which [null] tells. *)
Definition tcp_matches (null : string -> bool) (m r : TcpRouteMapping) : bool :=
  let e := Tcp_Entity m in
  let f := Tcp_Entity r in
  bool_decide (TM_RouterGroupGuid f = TM_RouterGroupGuid e) && bool_decide (TM_HostIP f = TM_HostIP e) &&
  (TM_HostPort f =? TM_HostPort e) && (TM_ExternalPort f =? TM_ExternalPort e) &&
  (negb (tls_null null r) && (TM_HostTLSPort f =? TM_HostTLSPort e)) &&
  (match TM_SniHostname e with
   | None => bool_decide (TM_SniHostname f = None)
   | Some h => sql_eq (TM_SniHostname f) h
   end) &&
  Bool.eqb (TM_EnableBackendMTLS f) (TM_EnableBackendMTLS e).

Definition FindExistingTcpRouteMapping (tcpMapping : TcpRouteMapping) : Go (SqlDB S) TcpRouteMapping :=
  routes ← client (Find (tcp_matches (null_tls (S:=S)) tcpMapping));
  match routes with
  | [] => mret zero_Tcp
  | [r] => mret r
  | _ => fail (errors_New "have duplicate tcp route mappings")
  end.

Definition tcp_with_tag (m : TcpRouteMapping) (tag : ModificationTag) : TcpRouteMapping :=
  let e := Tcp_Entity m in
  mkTcpRouteMapping (Tcp_Model m) (Tcp_ExpiresAt m)
    (mkTcpMappingEntity (TM_RouterGroupGuid e) (TM_HostPort e) (TM_HostTLSPort e) (TM_HostIP e)
       (TM_SniHostname e) (TM_SniRewriteHostname e) (TM_InstanceId e) (TM_ExternalPort e) tag (TM_TTL e)
       (TM_IsolationSegment e) (TM_TerminateFrontendTLS e) (TM_ALPNs e) (TM_EnableBackendMTLS e)).

Definition SaveTcpRouteMapping (tcpRouteMapping : TcpRouteMapping) : Go (SqlDB S) unit :=
  existing ← FindExistingTcpRouteMapping tcpRouteMapping;
  if bool_decide (existing <> zero_Tcp) then
    newTcpRouteMapping ← updateTcpRouteMapping existing tcpRouteMapping;
    _ ← client (SaveOrCreate newTcpRouteMapping);
    emitEvent UpdateEvent (ObjTcp newTcpRouteMapping)
  else
    tcpMapping ← client (NewTcpRouteMappingWithModel tcpRouteMapping);
    tag ← client NewModificationTag;
    let tcpMapping := tcp_with_tag tcpMapping tag in
    _ ← client (Create tcpMapping);
    emitEvent CreateEvent (ObjTcp tcpMapping).

Definition DeleteTcpRouteMapping (tcpMapping : TcpRouteMapping) : Go (SqlDB S) unit :=
  tcpMapping ← FindExistingTcpRouteMapping tcpMapping;
  if bool_decide (tcpMapping = zero_Tcp) then fail DeleteRouteError
  else
    _ ← client (DeleteRow tcpMapping);
    emitEvent DeleteEvent (ObjTcp tcpMapping).

Definition CancelWatches : Go (SqlDB S) unit :=
  modify (fun s => with_httpHub (snd (hub_Close (httpEventHub s)))
                     (with_tcpHub (snd (hub_Close (tcpEventHub s))) s)).
End Ops.
