(* ===== verification/SqlDBFacts.v ===== *)
(** SqlDBFacts: what the operations of [SqlDB] do to the tables and to the
    event hubs, derived from the laws of the database. *)
From Stdlib Require Import ZArith Lia.
From stdpp Require Import base option strings gmap list.
From S2P Require Import Prelude GoStrings RouterGroups Routes Json EventHub Store Keyed SqlDB.

Local Open Scope string_scope.
Local Open Scope list_scope.
Local Open Scope Z_scope.

(** Chains the steps that changed nothing. *)
Ltac chain := intros; solve [eassumption | etrans; [eassumption|]; chain | reflexivity].

(** The same for an outcome that also says when there was a panic. *)
Ltac chain_X := intros; split; [chain|done].

Section Facts.
Context {S : Type} `{!Env S, !SqlClient S, !SqlLaws S}.
Implicit Types (s : SqlDB S).

Definition tabs s : Tables := tables (Client s).

(** Only the database part of the state may differ. *)
Definition frame s s' : Prop :=
  tcpEventHub s' = tcpEventHub s /\ httpEventHub s' = httpEventHub s /\ locker s' = locker s.

(** Nothing visible changed. *)
Definition unchanged s s' : Prop := frame s s' /\ tabs s' = tabs s.

#[export] Instance frame_preorder : PreOrder frame.
Proof. split; unfold frame; [naive_solver|intros ???; naive_solver congruence]. Qed.

#[export] Instance unchanged_preorder : PreOrder unchanged.
Proof.
  split; [intros s; by split|]. intros s1 s2 s3 [F1 T1] [F2 T2]. split; [by etrans|congruence].
Qed.

Lemma frame_with_Client c s : frame s (with_Client c s).
Proof. by repeat split. Qed.

(** A reading of the clock. *)
Definition clock_reading (t : Z) : Prop := exists c, fst (time_Now (S:=S) c) = t.

(** *** The client calls *)
Lemma wp_client_call {A} (f : S -> (error + A) * S) s (Q : A -> SqlDB S -> Prop) X :
  (forall a c, f (Client s) = (inr a, c) -> Q a (with_Client c s)) ->
  (forall e c, f (Client s) = (inl e, c) -> X (Some e) (with_Client c s)) ->
  wp (client (call f)) s Q X.
Proof.
  intros HQ HX. unfold wp, client, zoom, call.
  destruct (f (Client s)) as [[e|a] c]; auto.
Qed.

Lemma wp_now s Q X :
  (forall t s', clock_reading t -> unchanged s s' -> Q t s') -> wp (client now) s Q X.
Proof.
  intros HQ. unfold wp, client, zoom, now. destruct (time_Now (Client s)) as [t c] eqn:E. simpl.
  apply HQ; [exists (Client s); by rewrite E|]. split; [apply frame_with_Client|].
  by eapply now_tables.
Qed.

Lemma wp_uuid s Q (X : option error -> SqlDB S -> Prop) :
  (forall g s', g <> "" -> unchanged s s' -> Q g s') ->
  (forall e s', unchanged s s' -> X (Some e) s') -> wp (client new_uuid) s Q X.
Proof.
  intros HQ HX. apply wp_client_call; intros a c E.
  - apply HQ; [by eapply uuid_nonempty|]. split; [apply frame_with_Client|]. by eapply uuid_tables.
  - apply HX. split; [apply frame_with_Client|]. by eapply uuid_tables.
Qed.

Section Calls.
Context {R : Type} `{!Row R}.

Lemma wp_Find (p : R -> bool) s Q (X : option error -> SqlDB S -> Prop) :
  (forall l s', unchanged s s' -> l ≡ₚ rows_where p (tb_get (tabs s)) -> Q l s') ->
  (forall e s', unchanged s s' -> foreign_error e -> X (Some e) s') -> wp (client (Find p)) s Q X.
Proof.
  intros HQ HX. apply wp_client_call; intros a c E.
  - apply Find_ok in E as [Ht Hl]. apply HQ; [|done]. by split; [apply frame_with_Client|].
  - apply Find_err in E as [Ht He]. apply HX; [|done]. by split; [apply frame_with_Client|].
Qed.

Lemma wp_First (p : R -> bool) s Q (X : option error -> SqlDB S -> Prop) :
  (forall r s', unchanged s s' -> r ∈ tb_get (tabs s) -> p r = true -> Q r s') ->
  (forall e s', unchanged s s' -> foreign_error e ->
     (e = gorm_ErrRecordNotFound -> rows_where p (tb_get (tabs s)) = []) -> X (Some e) s') ->
  wp (client (First p)) s Q X.
Proof.
  intros HQ HX. apply wp_client_call; intros a c E.
  - apply First_ok in E as [Ht [Hp Hr]%rows_where_elem]. apply HQ; [|done..].
    by split; [apply frame_with_Client|].
  - pose proof (First_err _ _ _ _ _ _ E) as [Ht He]. apply HX; [|done|].
    + by split; [apply frame_with_Client|].
    + intros ->. by eapply First_not_found.
Qed.

(** A successful insertion or replacement: the tables become [t']. *)
Definition wrote (r : R) (old l : list R) s s' : Prop :=
  exists r', reads_back store_time r r' /\ l ≡ₚ r' :: old /\ tabs s' = tb_set l (tabs s) /\ frame s s'.

Lemma wp_Create (r : R) s Q (X : option error -> SqlDB S -> Prop) :
  (forall n l s', row_guid r ∉ (row_guid <$> tb_get (tabs s)) ->
     wrote r (tb_get (tabs s)) l s s' -> Q n s') ->
  (forall e s', unchanged s s' -> foreign_error e -> X (Some e) s') -> wp (client (Create r)) s Q X.
Proof.
  intros HQ HX. apply wp_client_call; intros a c E.
  - apply Create_ok in E as (Hg & r' & l & Hrb & Hl & Ht). eapply HQ; [done|].
    exists r'. by repeat split.
  - apply Create_err in E as [Ht He]. apply HX; [|done]. by split; [apply frame_with_Client|].
Qed.

Lemma wp_SaveOrCreate (r : R) s Q (X : option error -> SqlDB S -> Prop) :
  row_guid r <> "" -> row_null (null_tls (S:=S)) r = false ->
  (forall n l s', wrote r (others (row_guid r) (tb_get (tabs s))) l s s' -> Q n s') ->
  (forall e s', unchanged s s' -> foreign_error e -> X (Some e) s') -> wp (client (SaveOrCreate r)) s Q X.
Proof.
  intros Hne Hnull HQ HX. unfold SaveOrCreate. rewrite bool_decide_eq_false_2 by done.
  apply wp_client_call; intros a c E.
  - apply Save_ok in E as (r' & l & Hrb & Hl & Ht); [|done..]. eapply HQ.
    exists r'. by repeat split.
  - apply Save_err in E as [Ht He]. apply HX; [|done]. by split; [apply frame_with_Client|].
Qed.

Lemma wp_DeleteWhere (p : R -> bool) s Q (X : option error -> SqlDB S -> Prop) :
  (forall n l s', l ≡ₚ rows_where (fun x => negb (p x)) (tb_get (tabs s)) ->
     tabs s' = tb_set l (tabs s) -> frame s s' -> Q n s') ->
  (forall e s', unchanged s s' -> foreign_error e -> X (Some e) s') -> wp (client (DeleteWhere p)) s Q X.
Proof.
  intros HQ HX. apply wp_client_call; intros a c E.
  - apply Delete_ok in E as (l & Hl & Ht). eapply HQ; [done..|]. apply frame_with_Client.
  - apply Delete_err in E as [Ht He]. apply HX; [|done]. by split; [apply frame_with_Client|].
Qed.

Lemma wp_DeleteRow (r : R) s Q (X : option error -> SqlDB S -> Prop) :
  (forall n l s', l ≡ₚ others (row_guid r) (tb_get (tabs s)) ->
     tabs s' = tb_set l (tabs s) -> frame s s' -> Q n s') ->
  (forall e s', unchanged s s' -> foreign_error e -> X (Some e) s') -> wp (client (DeleteRow r)) s Q X.
Proof.
  intros HQ HX. unfold DeleteRow. case_bool_decide.
  - apply HX; [by split; [apply frame_with_Client|]|by intros d].
  - by apply wp_DeleteWhere.
Qed.

Lemma wrote_from r old l s s1 s' : unchanged s s1 -> wrote r old l s1 s' -> wrote r old l s s'.
Proof.
  intros [F T] (r' & Hrb & Hl & Ht & Hf). exists r'. rewrite <- T. repeat split; try done.
  - by rewrite (proj1 Hf), (proj1 F).
  - by rewrite (proj1 (proj2 Hf)), (proj1 (proj2 F)).
  - by rewrite (proj2 (proj2 Hf)), (proj2 (proj2 F)).
Qed.
End Calls.

(** *** HTTP routes *)

Definition route_val (r : Route) : RouteEntity * Z := (Route_Entity r, Route_ExpiresAt r).

Definition route_inv s : Prop := keyed_inv route_key (tb_routes (tabs s)).

(** The routes table as a map from the lookup key to the route and its
    stored expiry. *)
Definition route_map s : gmap (string * string * Z * string) (RouteEntity * Z) :=
  table_map route_key route_val (tb_routes (tabs s)).

Lemma route_matches_key route r : route_matches route r = true <-> route_key r = route_key route.
Proof.
  unfold route_matches, route_key. rewrite !andb_true_iff, !bool_decide_eq_true, Z.eqb_eq.
  naive_solver congruence.
Qed.

(** [readRoute] looks the key up in the map. *)
Lemma wp_readRoute route s Q (X : option error -> SqlDB S -> Prop) :
  route_inv s ->
  (forall s', unchanged s s' -> route_map s !! route_key route = None -> Q zero_Route s') ->
  (forall r s', unchanged s s' -> r ∈ tb_routes (tabs s) -> route_key r = route_key route ->
     row_guid r <> "" -> route_map s !! route_key route = Some (route_val r) -> Q r s') ->
  (forall e s', unchanged s s' -> foreign_error e -> X (Some e) s') ->
  wp (readRoute route) s Q X.
Proof.
  intros Hinv HN HS HX. unfold readRoute. apply wp_bind, wp_Find; [|auto].
  intros l s1 Hu Hl.
  destruct (lookup_key route_key route_val _ (route_matches route) (route_key route) Hinv (route_matches_key route))
    as [[E Hm]|(r & E & Hr & Hk & Hm)]; change (tb_get (tabs s)) with (tb_routes (tabs s)) in Hl; rewrite E in Hl.
  - apply Permutation_nil_r in Hl as ->. by apply wp_ret, HN.
  - apply Permutation_singleton_r in Hl as ->. apply wp_ret, HS; try done.
    destruct Hinv as (_ & _ & H3). by eapply Forall_forall in H3.
Qed.

(** The entity an upsert stores: a new route gets the request's fields and
    a fresh tag; an existing one keeps its key, takes the request's TTL and
    log guid when present, and its tag is incremented. *)
Definition upsert_entity (old : option RouteEntity) (cur : RouteEntity) (tag : ModificationTag) : RouteEntity :=
  match old with
  | None => mkRouteEntity (RE_Route cur) (RE_Port cur) (RE_IP cur) (RE_TTL cur) (RE_LogGuid cur)
              (RE_RouteServiceUrl cur) tag
  | Some o =>
      mkRouteEntity (RE_Route o) (RE_Port o) (RE_IP o)
        (match RE_TTL cur with Some _ => RE_TTL cur | None => RE_TTL o end)
        (if bool_decide (RE_LogGuid cur <> "") then RE_LogGuid cur else RE_LogGuid o)
        (RE_RouteServiceUrl o) (Increment (RE_ModificationTag o))
  end.

Definition route_event (ty : EventType) (e : RouteEntity) : Event :=
  mkEvent ty (json_of_Route (mkRoute zero_Model zero_time e)).

Lemma route_event_obj ty r :
  NewEventFromInterface ty (ObjRoute r) = route_event ty (Route_Entity r).
Proof. done. Qed.

Definition saved_route route s s' : Prop :=
  exists new t ttl g,
    let old : option RouteEntity := fst <$> route_map s !! route_key route in
    clock_reading t /\ g <> "" /\
    new = upsert_entity old (Route_Entity route) (mkTag g 0) /\ RE_TTL new = Some ttl /\
    route_inv s' /\
    route_map s' = <[route_key route := (new, store_time (t + ttl_duration ttl))]> (route_map s) /\
    tb_tcp (tabs s') = tb_tcp (tabs s) /\ tb_groups (tabs s') = tb_groups (tabs s) /\
    httpEventHub s' =
      hub_Emit (route_event (if old then UpdateEvent else CreateEvent) new) (httpEventHub s) /\
    tcpEventHub s' = tcpEventHub s /\ locker s' = locker s.

Lemma zero_guid (r : Route) : row_guid r <> "" -> r <> zero_Route.
Proof. by intros Hg ->. Qed.

Lemma wp_updateRoute existing cur s Q (X : option error -> SqlDB S -> Prop) :
  (forall t ttl s', clock_reading t -> unchanged s s' ->
     let new := upsert_entity (Some (Route_Entity existing)) (Route_Entity cur) zero_Tag in
     RE_TTL new = Some ttl ->
     Q (mkRoute (Route_Model existing) (t + ttl_duration ttl) new) s') ->
  (forall s', unchanged s s' -> RE_TTL (Route_Entity cur) = None -> X None s') ->
  wp (updateRoute existing cur) s Q X.
Proof.
  intros HQ HX. unfold updateRoute. apply wp_bind, wp_now. intros t s1 Ht Hu.
  apply wp_bind, wp_deref.
  - intros ttl Httl. apply wp_ret. by apply HQ.
  - intros Hn. apply HX; [done|]. by destruct (RE_TTL (Route_Entity cur)).
Qed.

Lemma saved_route_update route r t ttl l s s' :
  let new := upsert_entity (Some (Route_Entity r)) (Route_Entity route) zero_Tag in
  route_inv s -> r ∈ tb_routes (tabs s) -> route_key r = route_key route ->
  route_map s !! route_key route = Some (route_val r) ->
  clock_reading t -> RE_TTL new = Some ttl ->
  wrote (mkRoute (Route_Model r) (t + ttl_duration ttl) new)
    (others (row_guid r) (tb_routes (tabs s))) l s s' ->
  saved_route route s
    (with_httpHub (hub_Emit (route_event UpdateEvent new) (httpEventHub s')) s').
Proof.
  intros new Hinv Hr Hk Hm Ht Httl (r' & (Hg & Hexp & Hent) & Hl & Htabs & F1 & F2 & F3).
  simpl in Hg, Hexp, Hent.
  assert (route_key r' = route_key r) as Hk' by (unfold route_key; rewrite Hent; done).
  destruct (keyed_replace route_key route_val _ l r r' Hinv Hr Hk' Hg Hl) as [Hinv' Hmap'].
  exists new, t, ttl, "g". rewrite Hm. simpl. split; [done|]. split; [done|].
  split; [done|]. split; [done|].
  unfold route_inv, route_map, tabs in *; simpl. rewrite Htabs. simpl.
  split; [done|]. split; [|repeat split; congruence].
  rewrite Hmap', Hk', Hk. unfold route_val. by rewrite Hexp, Hent.
Qed.

Lemma saved_route_create route t ttl g gtag l s s' :
  let new := upsert_entity None (Route_Entity route) (mkTag gtag 0) in
  route_inv s -> route_map s !! route_key route = None ->
  clock_reading t -> g <> "" -> gtag <> "" -> RE_TTL new = Some ttl ->
  let row := mkRoute (mkModel g zero_time zero_time) (t + ttl_duration ttl) new in
  row_guid row ∉ (row_guid <$> tb_routes (tabs s)) ->
  wrote row (tb_routes (tabs s)) l s s' ->
  saved_route route s
    (with_httpHub (hub_Emit (route_event CreateEvent new) (httpEventHub s')) s').
Proof.
  intros new Hinv Hm Ht Hg Hgt Httl row Hfresh (r' & (Hgr & Hexp & Hent) & Hl & Htabs & F1 & F2 & F3).
  simpl in Hgr, Hexp, Hent.
  assert (route_key r' = route_key route) as Hk' by (unfold route_key; rewrite Hent; done).
  destruct (keyed_insert route_key route_val (tb_routes (tabs s)) l r' Hinv Hl) as [Hinv' Hmap'];
    [by rewrite Hk'|simpl in *; by rewrite Hgr|simpl; congruence|].
  exists new, t, ttl, gtag. rewrite Hm. simpl. split; [done|]. split; [done|].
  split; [done|]. split; [done|].
  unfold route_inv, route_map, tabs in *; simpl. rewrite Htabs. simpl.
  split; [done|]. split; [|repeat split; congruence].
  rewrite Hmap', Hk'. unfold route_val. by rewrite Hexp, Hent.
Qed.

Lemma wp_NewRouteWithModel route s Q (X : option error -> SqlDB S -> Prop) :
  (forall g t ttl s', g <> "" -> clock_reading t -> unchanged s s' ->
     RE_TTL (Route_Entity route) = Some ttl ->
     Q (mkRoute (mkModel g zero_time zero_time) (t + ttl_duration ttl) (Route_Entity route)) s') ->
  (forall e s', unchanged s s' -> (e = None -> RE_TTL (Route_Entity route) = None) -> X e s') ->
  wp (client (NewRouteWithModel route)) s Q X.
Proof.
  intros HQ HX. unfold NewRouteWithModel.
  pose proof (wp_uuid s) as Huuid. unfold wp, client, zoom, new_uuid, call in *.
  unfold mbind, Go_bind. destruct (uuid_NewV4 (Client s)) as [[e|g] c] eqn:Eu.
  - apply HX; [|done]. split; [apply frame_with_Client|]. by eapply uuid_tables.
  - unfold now. destruct (time_Now c) as [t c1] eqn:Et.
    assert (unchanged s (with_Client c1 s)) as Hun.
    { split; [apply frame_with_Client|]. unfold tabs. simpl.
      rewrite (now_tables _ _ _ Et). by eapply uuid_tables. }
    destruct (RE_TTL (Route_Entity route)) as [ttl|] eqn:Ettl; simpl.
    + apply HQ; try done; [by eapply uuid_nonempty|exists c; by rewrite Et].
    + by apply HX.
Qed.

Lemma wp_NewModificationTag s Q (X : option error -> SqlDB S -> Prop) :
  (forall g s', g <> "" -> unchanged s s' -> Q (mkTag g 0) s') ->
  (forall e s', unchanged s s' -> X (Some e) s') ->
  wp (client NewModificationTag) s Q X.
Proof.
  intros HQ HX. unfold NewModificationTag, wp, client, zoom, new_uuid, call, mbind, Go_bind.
  destruct (uuid_NewV4 (Client s)) as [[e|g] c] eqn:Eu; simpl.
  - apply HX. split; [apply frame_with_Client|]. by eapply uuid_tables.
  - apply HQ; [by eapply uuid_nonempty|]. split; [apply frame_with_Client|]. by eapply uuid_tables.
Qed.

(** [SaveRoute] either stores the upserted route and emits one event, or
    fails (or panics, on a missing TTL only) and leaves everything as it was. *)
Lemma SaveRoute_wp route s :
  route_inv s ->
  wp (SaveRoute route) s (fun _ s' => saved_route route s s')
    (fun e s' => unchanged s s' /\ (e = None -> RE_TTL (Route_Entity route) = None)).
Proof.
  intros Hinv. unfold SaveRoute, saveRoute_found. apply wp_bind, wp_readRoute; [done| | |chain_X].
  - intros s1 Hu1 Hm. rewrite bool_decide_eq_false_2 by naive_solver.
    apply wp_bind, wp_NewRouteWithModel; [|chain_X].
    intros g t ttl s2 Hg Ht Hu2 Httl. apply wp_bind, wp_NewModificationTag; [|chain_X].
    intros gt s3 Hgt Hu3. assert (unchanged s s3) as Hu by chain.
    apply wp_bind, wp_Create; [|chain_X].
    intros n l s4 Hfresh Hw. rewrite (proj2 Hu) in Hfresh, Hw. apply (wrote_from _ _ _ _ _ _ Hu) in Hw.
    unfold emitEvent. apply wp_modify.
    exact (saved_route_create route t ttl g gt l s s4 Hinv Hm Ht Hg Hgt Httl Hfresh Hw).
  - intros r s1 Hu1 Hr Hk Hg Hm.
    rewrite bool_decide_eq_true_2 by (by apply zero_guid).
    apply wp_bind, wp_updateRoute; [|chain_X].
    intros t ttl s2 Ht Hu2 new Httl. assert (unchanged s s2) as Hu by chain.
    apply wp_bind, wp_SaveOrCreate; [done|done| |chain_X].
    intros n l s3 Hw. rewrite (proj2 Hu) in Hw. apply (wrote_from _ _ _ _ _ _ Hu) in Hw.
    unfold emitEvent. apply wp_modify.
    exact (saved_route_update route r t ttl l s s3 Hinv Hr Hk Hm Ht Httl Hw).
Qed.

Definition deleted_route route s s' : Prop :=
  exists e exp, route_map s !! route_key route = Some (e, exp) /\
    route_inv s' /\ route_map s' = delete (route_key route) (route_map s) /\
    tb_tcp (tabs s') = tb_tcp (tabs s) /\ tb_groups (tabs s') = tb_groups (tabs s) /\
    httpEventHub s' = hub_Emit (route_event DeleteEvent e) (httpEventHub s) /\
    tcpEventHub s' = tcpEventHub s /\ locker s' = locker s.

(** [DeleteRoute] removes the route with the request's key and emits one
    event; without such a route it returns [DeleteRouteError]. *)
Lemma DeleteRoute_wp route s :
  route_inv s ->
  wp (DeleteRoute route) s (fun _ s' => deleted_route route s s')
    (fun e s' => unchanged s s' /\ e <> None /\
       (forall d, e = Some (db_error d) ->
          db_error d = DeleteRouteError /\ route_map s !! route_key route = None)).
Proof.
  intros Hinv. unfold DeleteRoute. apply wp_bind, wp_readRoute; [done| | |].
  - intros s1 Hu1 Hm. rewrite bool_decide_eq_true_2 by done. apply wp_fail.
    split_and!; [done|done|]. intros d [= <-]. done.
  - intros r s1 Hu1 Hr Hk Hg Hm. rewrite bool_decide_eq_false_2 by (by apply zero_guid).
    apply wp_bind, wp_DeleteRow.
    + intros n l s2 Hl Ht (F1 & F2 & F3). rewrite (proj2 Hu1) in Hl, Ht.
      destruct Hu1 as [(G1 & G2 & G3) T].
      destruct (keyed_delete route_key route_val _ l r Hinv Hr Hl) as [Hinv' Hmap'].
      unfold emitEvent. apply wp_modify. rewrite route_event_obj.
      exists (Route_Entity r), (Route_ExpiresAt r).
      split; [done|]. unfold route_inv, route_map, tabs in *; simpl. rewrite Ht. simpl.
      split; [done|]. split; [by rewrite Hmap', Hk|]. repeat split; congruence.
    + intros e s2 Hu2 He. split_and!; [chain|done|]. intros d [= ->]. by destruct (He d).
  - intros e s1 Hu He. split_and!; [done|done|]. intros d [= ->]. by destruct (He d).
Qed.

(** [ReadRoutes] lists the routes that have not expired. *)
Lemma ReadRoutes_wp s :
  wp ReadRoutes s
    (fun l s' => unchanged s s' /\ exists t, clock_reading t /\
       l ≡ₚ rows_where (fun r => t <? Route_ExpiresAt r) (tb_routes (tabs s)))
    (fun e s' => unchanged s s' /\ e <> None).
Proof.
  unfold ReadRoutes. apply wp_bind, wp_now. intros t s1 Ht Hu1.
  apply wp_Find.
  - intros l s2 Hu2 Hl. split; [by etrans|]. exists t. split; [done|].
    by rewrite (proj2 Hu1) in Hl.
  - chain_X.
Qed.
End Facts.
