(* ===== verification/SqlTcpFacts.v ===== *)
(** SqlTcpFacts: the TCP route mapping operations of [SqlDB] as operations on
    a finite map, with the events they emit. *)
From Stdlib Require Import ZArith Lia.
From stdpp Require Import base option strings gmap list.
From S2P Require Import Prelude GoStrings RouterGroups Routes Json EventHub Store Keyed SqlDB SqlDBFacts.

Local Open Scope string_scope.
Local Open Scope list_scope.
Local Open Scope Z_scope.

Section TcpFacts.
Context {S : Type} `{!Env S, !SqlClient S, !SqlLaws S}.
Implicit Types (s : SqlDB S) (m : TcpRouteMapping).

Definition tcp_val m : TcpMappingEntity * Z := (Tcp_Entity m, Tcp_ExpiresAt m).

Notation hidden := (tls_null (null_tls (S:=S))).

(** The key of a row: a row whose TLS port is NULL is found under no TLS port, and
    has a key of its own. *)
Definition row_key m : TcpKey * option string :=
  (tcp_key m, if hidden m then Some (row_guid m) else None).

Definition tcp_inv s : Prop := keyed_inv row_key (tb_tcp (tabs s)).

Definition tcp_map s : gmap (TcpKey * option string) (TcpMappingEntity * Z) :=
  table_map row_key tcp_val (tb_tcp (tabs s)).

Lemma row_key_None r k : row_key r = (k, None) <-> tcp_key r = k /\ hidden r = false.
Proof. unfold row_key. destruct (hidden r); naive_solver. Qed.

Lemma hidden_no_tls r : hidden r = true -> TM_HostTLSPort (Tcp_Entity r) = 0.
Proof. unfold tls_null. rewrite andb_true_iff, Z.eqb_eq. tauto. Qed.

(** A row with a key of its own has no TLS port. *)
Lemma tcp_map_hidden s k g : tcp_inv s -> is_Some (tcp_map s !! (k, Some g)) ->
  key_tls k = 0 /\ null_tls (S:=S) g = true.
Proof.
  intros (Hnd & _) [v (r & _ & Hk & _)%table_map_Some]; [|done]. unfold row_key in Hk.
  destruct (hidden r) eqn:E; [|done]. assert (tcp_key r = k) as <- by congruence.
  assert (row_guid r = g) as <- by congruence. rewrite key_tls_key. split; [by apply hidden_no_tls|].
  unfold tls_null in E. by apply andb_true_iff in E as [_ ?].
Qed.

(** The WHERE clause of [FindExistingTcpRouteMapping] is equality of keys. *)
Lemma tcp_matches_key m r : tcp_matches (null_tls (S:=S)) m r = true <-> row_key r = (tcp_key m, None).
Proof.
  rewrite row_key_None. unfold tcp_matches, tcp_key.
  rewrite !andb_true_iff, negb_true_iff, !bool_decide_eq_true, !Z.eqb_eq, eqb_true_iff.
  destruct (TM_SniHostname (Tcp_Entity m)) as [h|]; rewrite ?bool_decide_eq_true; [|naive_solver congruence].
  unfold sql_eq. destruct (TM_SniHostname (Tcp_Entity r)); rewrite ?bool_decide_eq_true; naive_solver congruence.
Qed.

Lemma wp_FindExisting m s Q (X : option error -> SqlDB S -> Prop) :
  tcp_inv s ->
  (forall s', unchanged s s' -> tcp_map s !! (tcp_key m, None) = None -> Q zero_Tcp s') ->
  (forall r s', unchanged s s' -> r ∈ tb_tcp (tabs s) -> row_key r = (tcp_key m, None) ->
     row_guid r <> "" -> tcp_map s !! (tcp_key m, None) = Some (tcp_val r) -> Q r s') ->
  (forall e s', unchanged s s' -> foreign_error e -> X (Some e) s') ->
  wp (FindExistingTcpRouteMapping m) s Q X.
Proof.
  intros Hinv HN HS HX. unfold FindExistingTcpRouteMapping. apply wp_bind, wp_Find; [|auto].
  intros l s1 Hu Hl.
  destruct (lookup_key row_key tcp_val _ (tcp_matches (null_tls (S:=S)) m) (tcp_key m, None) Hinv (tcp_matches_key m))
    as [[E Hm]|(r & E & Hr & Hk & Hm)];
    change (tb_get (tabs s)) with (tb_tcp (tabs s)) in Hl; rewrite E in Hl.
  - apply Permutation_nil_r in Hl as ->. by apply wp_ret, HN.
  - apply Permutation_singleton_r in Hl as ->. apply wp_ret, HS; try done.
    destruct Hinv as (_ & _ & H3). by eapply Forall_forall in H3.
Qed.

(** What an upsert stores: a new mapping gets the request's fields and a
    fresh tag; of an existing one only the TTL (when given), the isolation
    segment, the SNI rewrite host name and the tag change. *)
Definition upsert_tcp (old : option TcpMappingEntity) (cur : TcpMappingEntity) (tag : ModificationTag)
    : TcpMappingEntity :=
  let 'o := match old with None => cur | Some o => o end in
  mkTcpMappingEntity (TM_RouterGroupGuid o) (TM_HostPort o) (TM_HostTLSPort o) (TM_HostIP o)
    (TM_SniHostname o) (TM_SniRewriteHostname cur) (TM_InstanceId o) (TM_ExternalPort o)
    (match old with None => tag | Some o => Increment (TM_ModificationTag o) end)
    (match TM_TTL cur with Some _ => TM_TTL cur | None => TM_TTL o end)
    (TM_IsolationSegment cur) (TM_TerminateFrontendTLS o) (TM_ALPNs o) (TM_EnableBackendMTLS o).

Definition tcp_event (ty : EventType) (e : TcpMappingEntity) : Event :=
  mkEvent ty (json_of_Tcp (mkTcpRouteMapping zero_Model zero_time e)).

Lemma tcp_event_obj ty m : NewEventFromInterface ty (ObjTcp m) = tcp_event ty (Tcp_Entity m).
Proof. done. Qed.

(** Where an upsert goes: to the key of the request; but a new mapping without a TLS
    port may become a row that is not found again, next to any that are there. *)
Definition stored_under (m : TcpRouteMapping) (tcp : gmap (TcpKey * option string) (TcpMappingEntity * Z))
    (k : TcpKey * option string) : Prop :=
  k = (tcp_key m, None) \/
  (TM_HostTLSPort (Tcp_Entity m) = 0 /\ tcp !! (tcp_key m, None) = None /\ tcp !! k = None /\
   exists g, k = (tcp_key m, Some g)).

Definition saved_tcp m s s' : Prop :=
  exists new t ttl g k,
    let old : option TcpMappingEntity := fst <$> tcp_map s !! (tcp_key m, None) in
    clock_reading (S:=S) t /\ g <> "" /\
    new = upsert_tcp old (Tcp_Entity m) (mkTag g 0) /\ TM_TTL new = Some ttl /\
    tcp_inv s' /\
    (stored_under m (tcp_map s) k /\ (forall guid, snd k = Some guid -> null_tls (S:=S) guid = true)) /\
    tcp_map s' = <[k := (new, store_time (t + ttl_duration ttl))]> (tcp_map s) /\
    tb_routes (tabs s') = tb_routes (tabs s) /\ tb_groups (tabs s') = tb_groups (tabs s) /\
    tcpEventHub s' = hub_Emit (tcp_event (if old then UpdateEvent else CreateEvent) new) (tcpEventHub s) /\
    httpEventHub s' = httpEventHub s /\ locker s' = locker s.

Lemma zero_tcp_guid m : row_guid m <> "" -> m <> zero_Tcp.
Proof. by intros Hg ->. Qed.

Lemma wp_updateTcp existing cur s Q (X : option error -> SqlDB S -> Prop) :
  (forall t ttl s', clock_reading (S:=S) t -> unchanged s s' ->
     let new := upsert_tcp (Some (Tcp_Entity existing)) (Tcp_Entity cur) zero_Tag in
     TM_TTL new = Some ttl ->
     Q (mkTcpRouteMapping (Tcp_Model existing) (t + ttl_duration ttl) new) s') ->
  (forall s', unchanged s s' -> TM_TTL (Tcp_Entity cur) = None -> X None s') ->
  wp (updateTcpRouteMapping existing cur) s Q X.
Proof.
  intros HQ HX. unfold updateTcpRouteMapping. apply wp_bind, wp_now. intros t s1 Ht Hu.
  apply wp_bind, wp_deref.
  - intros ttl Httl. apply wp_ret. by apply HQ.
  - intros Hn. apply HX; [done|]. by destruct (TM_TTL (Tcp_Entity cur)).
Qed.

Lemma wp_NewTcpWithModel m s Q (X : option error -> SqlDB S -> Prop) :
  (forall g t ttl s', g <> "" -> clock_reading (S:=S) t -> unchanged s s' ->
     TM_TTL (Tcp_Entity m) = Some ttl ->
     Q (mkTcpRouteMapping (mkModel g zero_time zero_time) (t + ttl_duration ttl) (Tcp_Entity m)) s') ->
  (forall e s', unchanged s s' -> (e = None -> TM_TTL (Tcp_Entity m) = None) -> X e s') ->
  wp (client (NewTcpRouteMappingWithModel m)) s Q X.
Proof.
  intros HQ HX. unfold NewTcpRouteMappingWithModel.
  unfold wp, client, zoom, new_uuid, call, mbind, Go_bind.
  destruct (uuid_NewV4 (Client s)) as [[e|g] c] eqn:Eu.
  - apply HX; [|done]. split; [apply frame_with_Client|]. by eapply uuid_tables.
  - unfold now. destruct (time_Now c) as [t c1] eqn:Et.
    assert (unchanged s (with_Client c1 s)) as Hun.
    { split; [apply frame_with_Client|]. unfold tabs. simpl.
      rewrite (now_tables _ _ _ Et). by eapply uuid_tables. }
    destruct (TM_TTL (Tcp_Entity m)) as [ttl|] eqn:Ettl; simpl.
    + apply HQ; try done; [by eapply uuid_nonempty|exists c; by rewrite Et].
    + by apply HX.
Qed.

Lemma saved_tcp_update m r t ttl l s s' :
  let new := upsert_tcp (Some (Tcp_Entity r)) (Tcp_Entity m) zero_Tag in
  tcp_inv s -> r ∈ tb_tcp (tabs s) -> row_key r = (tcp_key m, None) ->
  tcp_map s !! (tcp_key m, None) = Some (tcp_val r) ->
  clock_reading (S:=S) t -> TM_TTL new = Some ttl ->
  wrote (mkTcpRouteMapping (Tcp_Model r) (t + ttl_duration ttl) new)
    (others (row_guid r) (tb_tcp (tabs s))) l s s' ->
  saved_tcp m s (with_tcpHub (hub_Emit (tcp_event UpdateEvent new) (tcpEventHub s')) s').
Proof.
  intros new Hinv Hr Hk Hm Ht Httl (r' & (Hg & Hexp & Hent) & Hl & Htabs & F1 & F2 & F3).
  simpl in Hg, Hexp, Hent.
  assert (row_key r' = row_key r) as Hk'
    by (unfold row_key, tcp_key, tls_null; simpl; rewrite Hent, Hg; done).
  destruct (keyed_replace row_key tcp_val _ l r r' Hinv Hr Hk' Hg Hl) as [Hinv' Hmap'].
  exists new, t, ttl, "g", (tcp_key m, None). rewrite Hm. simpl. do 4 (split; [done|]).
  unfold tcp_inv, tcp_map, tabs in *; simpl. rewrite Htabs. simpl.
  split; [done|]. split; [split; [by left|done]|]. split; [|repeat split; congruence].
  rewrite Hmap', Hk', Hk. unfold tcp_val. by rewrite Hexp, Hent.
Qed.

Lemma stored_under_old m tcp k : stored_under m tcp k -> tcp !! k = tcp !! (tcp_key m, None).
Proof. intros [->|(_ & H1 & H2 & _)]; congruence. Qed.

Lemma stored_under_new m tcp k : tcp !! (tcp_key m, None) = None -> stored_under m tcp k -> tcp !! k = None.
Proof. intros Hn Hk. by rewrite (stored_under_old _ _ _ Hk). Qed.

(** A row that is new has a key of its own or the one of the request. *)
Lemma new_row_key m r s :
  tcp_inv s -> tcp_map s !! (tcp_key m, None) = None -> tcp_key r = tcp_key m -> row_guid r ∉ (row_guid <$> tb_tcp (tabs s)) ->
  stored_under m (tcp_map s) (row_key r) /\ forall guid, snd (row_key r) = Some guid -> null_tls (S:=S) guid = true.
Proof.
  intros Hinv Hm Hk Hg. unfold row_key. rewrite Hk. destruct (hidden r) eqn:Eh; [|by split; [left|]]. split.
  - right. split_and!; [by apply hidden_no_tls in Eh; rewrite <- (key_tls_key r), Hk in Eh|done| |by eexists].
    apply table_map_None. intros x Hx Hkx. unfold row_key in Hkx. destruct (hidden x); [|done].
    apply Hg. replace (row_guid r) with (row_guid x) by congruence. by apply list_elem_of_fmap_2.
  - intros guid [= <-]. unfold tls_null in Eh. by apply andb_true_iff in Eh as [_ ?].
Qed.

Lemma saved_tcp_create m t ttl g gtag l s s' :
  let new := tcp_with_tag (mkTcpRouteMapping (mkModel g zero_time zero_time) (t + ttl_duration ttl) (Tcp_Entity m)) (mkTag gtag 0) in
  tcp_inv s -> tcp_map s !! (tcp_key m, None) = None ->
  clock_reading (S:=S) t -> g <> "" -> gtag <> "" -> TM_TTL (Tcp_Entity m) = Some ttl ->
  row_guid new ∉ (row_guid <$> tb_tcp (tabs s)) ->
  wrote new (tb_tcp (tabs s)) l s s' ->
  saved_tcp m s (with_tcpHub (hub_Emit (tcp_event CreateEvent (Tcp_Entity new)) (tcpEventHub s')) s').
Proof.
  intros new Hinv Hm Ht Hg Hgt Httl Hfresh (r' & (Hgr & Hexp & Hent) & Hl & Htabs & F1 & F2 & F3).
  simpl in Hgr, Hexp, Hent.
  assert (stored_under m (tcp_map s) (row_key r') /\ forall guid, snd (row_key r') = Some guid -> null_tls (S:=S) guid = true)
    as [Hk' Hn'].
  { apply new_row_key; [done|done|by unfold tcp_key; rewrite Hent|by simpl in *; rewrite Hgr]. }
  destruct (keyed_insert row_key tcp_val (tb_tcp (tabs s)) l r' Hinv Hl) as [Hinv' Hmap'];
    [exact (stored_under_new _ _ _ Hm Hk')|simpl in *; by rewrite Hgr|simpl; congruence|].
  exists (Tcp_Entity new), t, ttl, gtag, (row_key r'). rewrite Hm. simpl. split; [done|]. split; [done|].
  split; [unfold upsert_tcp; by rewrite Httl|]. split; [done|].
  unfold tcp_inv, tcp_map, tabs in *; simpl. rewrite Htabs. simpl.
  split; [done|]. split; [done|]. split; [|repeat split; congruence].
  rewrite Hmap'. unfold tcp_val. by rewrite Hexp, Hent.
Qed.

(** [SaveTcpRouteMapping] either stores the upserted mapping and emits one
    event, or leaves everything as it was. *)
Lemma SaveTcpRouteMapping_wp m s :
  tcp_inv s ->
  wp (SaveTcpRouteMapping m) s (fun _ s' => saved_tcp m s s')
    (fun e s' => unchanged s s' /\ (e = None -> TM_TTL (Tcp_Entity m) = None)).
Proof.
  intros Hinv. unfold SaveTcpRouteMapping. apply wp_bind, wp_FindExisting; [done| | |chain_X].
  - intros s1 Hu1 Hm. rewrite bool_decide_eq_false_2 by naive_solver.
    apply wp_bind, wp_NewTcpWithModel; [|chain_X].
    intros g t ttl s2 Hg Ht Hu2 Httl. apply wp_bind, wp_NewModificationTag; [|chain_X].
    intros gt s3 Hgt Hu3. assert (unchanged s s3) as Hu by chain.
    apply wp_bind, wp_Create; [|chain_X].
    intros n l s4 Hfresh Hw. rewrite (proj2 Hu) in Hfresh, Hw. apply (wrote_from _ _ _ _ _ _ Hu) in Hw.
    unfold emitEvent. apply wp_modify. rewrite tcp_event_obj.
    exact (saved_tcp_create m t ttl g gt l s s4 Hinv Hm Ht Hg Hgt Httl Hfresh Hw).
  - intros r s1 Hu1 Hr Hk Hg Hm.
    rewrite bool_decide_eq_true_2 by (by apply zero_tcp_guid).
    apply wp_bind, wp_updateTcp; [|chain_X].
    intros t ttl s2 Ht Hu2 new Httl. assert (unchanged s s2) as Hu by chain.
    apply wp_bind, wp_SaveOrCreate; [done|exact (proj2 (proj1 (row_key_None _ _) Hk))| |chain_X].
    intros n l s3 Hw. rewrite (proj2 Hu) in Hw. apply (wrote_from _ _ _ _ _ _ Hu) in Hw.
    unfold emitEvent. apply wp_modify. rewrite tcp_event_obj.
    exact (saved_tcp_update m r t ttl l s s3 Hinv Hr Hk Hm Ht Httl Hw).
Qed.

Definition deleted_tcp m s s' : Prop :=
  exists e exp, tcp_map s !! (tcp_key m, None) = Some (e, exp) /\
    tcp_inv s' /\ tcp_map s' = delete (tcp_key m, None) (tcp_map s) /\
    tb_routes (tabs s') = tb_routes (tabs s) /\ tb_groups (tabs s') = tb_groups (tabs s) /\
    tcpEventHub s' = hub_Emit (tcp_event DeleteEvent e) (tcpEventHub s) /\
    httpEventHub s' = httpEventHub s /\ locker s' = locker s.

Lemma DeleteTcpRouteMapping_wp m s :
  tcp_inv s ->
  wp (DeleteTcpRouteMapping m) s (fun _ s' => deleted_tcp m s s')
    (fun e s' => unchanged s s' /\ e <> None /\
       (forall d, e = Some (db_error d) -> db_error d = DeleteRouteError /\ tcp_map s !! (tcp_key m, None) = None)).
Proof.
  intros Hinv. unfold DeleteTcpRouteMapping. apply wp_bind, wp_FindExisting; [done| | |].
  - intros s1 Hu1 Hm. rewrite bool_decide_eq_true_2 by done. apply wp_fail.
    split_and!; [done|done|]. intros d [= <-]. done.
  - intros r s1 Hu1 Hr Hk Hg Hm. rewrite bool_decide_eq_false_2 by (by apply zero_tcp_guid).
    apply wp_bind, wp_DeleteRow.
    + intros n l s2 Hl Ht (F1 & F2 & F3). rewrite (proj2 Hu1) in Hl, Ht.
      destruct Hu1 as [(G1 & G2 & G3) T].
      destruct (keyed_delete row_key tcp_val _ l r Hinv Hr Hl) as [Hinv' Hmap'].
      unfold emitEvent. apply wp_modify. rewrite tcp_event_obj. exists (Tcp_Entity r), (Tcp_ExpiresAt r).
      split; [done|]. unfold tcp_inv, tcp_map, tabs in *; simpl. rewrite Ht. simpl.
      split; [done|]. split; [by rewrite Hmap', Hk|]. repeat split; congruence.
    + intros e s2 Hu2 He. split_and!; [chain|done|]. intros d [= ->]. by destruct (He d).
  - intros e s1 Hu He. split_and!; [done|done|]. intros d [= ->]. by destruct (He d).
Qed.

(** The three list operations: unexpired rows with the extra condition. *)
Lemma wp_read_tcp (p : TcpRouteMapping -> Z -> bool) s :
  wp (t ← client now; client (Find (fun r => p r t))) s
    (fun l s' => unchanged s s' /\ exists t, clock_reading (S:=S) t /\
       l ≡ₚ rows_where (fun r => p r t) (tb_tcp (tabs s)))
    (fun e s' => unchanged s s' /\ e <> None).
Proof.
  apply wp_bind, wp_now. intros t s1 Ht Hu1. apply wp_Find; [|chain_X].
  intros l s2 Hu2 Hl. split; [chain|]. exists t. split; [done|]. by rewrite (proj2 Hu1) in Hl.
Qed.
End TcpFacts.
