(* ===== verification/SqlGroupFacts.v ===== *)
(** SqlGroupFacts: the router group operations of [SqlDB]: a finite map from
    guid to group, behind the backup/restore locks. *)
From Stdlib Require Import ZArith Lia.
From stdpp Require Import base option strings gmap list.
From S2P Require Import Prelude GoStrings RouterGroups Routes Json EventHub Store Keyed SqlDB SqlDBFacts.

Local Open Scope string_scope.
Local Open Scope list_scope.
Local Open Scope Z_scope.

Section GroupFacts.
Context {S : Type} `{!Env S, !SqlClient S, !SqlLaws S}.
Implicit Types (s : SqlDB S) (g : RouterGroup).

(** What a group holds besides its guid. *)
Definition group_val (r : RouterGroupDB) : string * string * string :=
  (RGDB_Name r, RGDB_Type r, RGDB_ReservablePorts r).

Definition group_inv s : Prop := keyed_inv (row_guid (R:=RouterGroupDB)) (tb_groups (tabs s)).

Definition group_map s : gmap string (string * string * string) :=
  table_map (row_guid (R:=RouterGroupDB)) group_val (tb_groups (tabs s)).

(** A group as read from the database: both guids agree. *)
Definition group_of (guid : string) (v : string * string * string) g : Prop :=
  RG_Guid g = guid /\ Model_Guid (RG_Model g) = guid /\
  (RG_Name g, RG_Type g, RG_ReservablePorts g) = v.

Lemma group_of_row r : group_of (row_guid r) (group_val r) (ToRouterGroup r).
Proof. by repeat split. Qed.

Lemma wp_ReadRouterGroup guid s Q (X : option error -> SqlDB S -> Prop) :
  group_inv s ->
  (isReadLocked (locker s) = true -> X (Some backupError) s) ->
  (forall s', isReadLocked (locker s) = false -> unchanged s s' -> group_map s !! guid = None ->
     Q zero_RouterGroup s') ->
  (forall r s', isReadLocked (locker s) = false -> unchanged s s' -> r ∈ tb_groups (tabs s) ->
     row_guid r = guid -> guid <> "" -> group_map s !! guid = Some (group_val r) ->
     Q (ToRouterGroup r) s') ->
  (forall e s', isReadLocked (locker s) = false -> unchanged s s' -> foreign_error e -> X (Some e) s') ->
  wp (ReadRouterGroup guid) s Q X.
Proof.
  intros Hinv HL HN HS HX. unfold ReadRouterGroup, read_group_where. apply wp_bind, wp_get.
  destruct (isReadLocked (locker s)) eqn:Hlock; [by apply wp_fail, HL|].
  apply wp_bind, wp_try, wp_First.
  - intros r s1 Hu Hr Hp. apply bool_decide_eq_true in Hp. apply wp_ret, HS; try done.
    + subst guid. pose proof Hinv as (_ & _ & H3).
      exact (proj1 (Forall_forall _ _) H3 r Hr).
    + unfold group_map. apply table_map_Some; [by destruct Hinv|]. by exists r.
  - intros e s1 Hu He Hnf. unfold recordNotFound. case_bool_decide as Heq.
    + apply wp_ret, HN; [done|done|]. apply table_map_None. intros r Hr Hk.
      specialize (Hnf Heq). assert (r ∈ @nil RouterGroupDB) as Hin; [|set_solver].
      rewrite <- Hnf. apply rows_where_elem. split; [by apply bool_decide_eq_true|done].
    + by apply wp_fail, HX.
Qed.

Lemma wp_ReadRouterGroupByName name s Q (X : option error -> SqlDB S -> Prop) :
  group_inv s ->
  (isReadLocked (locker s) = true -> X (Some backupError) s) ->
  (forall s', unchanged s s' -> (forall r, r ∈ tb_groups (tabs s) -> RGDB_Name r <> name) ->
     Q zero_RouterGroup s') ->
  (forall r s', unchanged s s' -> r ∈ tb_groups (tabs s) -> RGDB_Name r = name -> row_guid r <> "" ->
     Q (ToRouterGroup r) s') ->
  (forall e s', unchanged s s' -> foreign_error e -> X (Some e) s') ->
  wp (ReadRouterGroupByName name) s Q X.
Proof.
  intros Hinv HL HN HS HX. unfold ReadRouterGroupByName, read_group_where. apply wp_bind, wp_get.
  destruct (isReadLocked (locker s)) eqn:Hlock; [by apply wp_fail, HL|].
  apply wp_bind, wp_try, wp_First.
  - intros r s1 Hu Hr Hp. apply bool_decide_eq_true in Hp. apply wp_ret, HS; try done.
    pose proof Hinv as (_ & _ & H3). exact (proj1 (Forall_forall _ _) H3 r Hr).
  - intros e s1 Hu He Hnf. unfold recordNotFound. case_bool_decide as Heq; [|by apply wp_fail, HX].
    apply wp_ret, HN; [done|]. intros r Hr Hk. specialize (Hnf Heq).
    assert (r ∈ @nil RouterGroupDB) as Hin; [|set_solver].
    rewrite <- Hnf. apply rows_where_elem. split; [by apply bool_decide_eq_true|done].
Qed.

(** What a save stores: an existing group keeps its name and type when the
    request leaves them empty. *)
Definition upsert_group (old : option (string * string * string)) g : string * string * string :=
  match old with
  | None => (RG_Name g, RG_Type g, RG_ReservablePorts g)
  | Some (n, t, _) =>
      (if bool_decide (RG_Name g <> "") then RG_Name g else n,
       if bool_decide (RG_Type g <> "") then RG_Type g else t,
       RG_ReservablePorts g)
  end.

Definition groups_become (gm : gmap string (string * string * string)) s s' : Prop :=
  group_inv s' /\ group_map s' = gm /\ tb_routes (tabs s') = tb_routes (tabs s) /\
  tb_tcp (tabs s') = tb_tcp (tabs s) /\ frame s s'.

Lemma frame_trans s1 s2 s3 : frame s1 s2 -> frame s2 s3 -> frame s1 s3.
Proof. intros. by etrans. Qed.

Lemma SaveRouterGroup_wp g s :
  group_inv s -> RG_Guid g <> "" ->
  Model_Guid (RG_Model g) = "" \/ Model_Guid (RG_Model g) = RG_Guid g ->
  wp (SaveRouterGroup g) s
    (fun _ s' => isReadLocked (locker s) = false /\ isWriteLocked (locker s) = false /\
       groups_become (<[RG_Guid g := upsert_group (group_map s !! RG_Guid g) g]> (group_map s)) s s')
    (fun e s' => unchanged s s' /\ e <> None).
Proof.
  intros Hinv Hne Hmodel. unfold SaveRouterGroup. apply wp_bind, wp_get.
  destruct (isWriteLocked (locker s)) eqn:Hwl; [by apply wp_fail; chain_X|].
  apply wp_bind, wp_ReadRouterGroup; [done|chain_X| | |chain_X].
  - intros s1 Hrl Hu Hm. rewrite bool_decide_eq_false_2 by done.
    apply wp_bind, wp_Create; [|chain_X].
    intros n l s2 Hfresh (r' & Hrb & Hl & Ht & Hf). rewrite (proj2 Hu) in Hfresh, Hl, Ht.
    destruct Hrb as (Hg & Hn & Hty & Hp).
    assert (row_guid r' = RG_Guid g) as Hguid.
    { cbn. rewrite Hg. unfold NewRouterGroupDB. case_bool_decide; [done|]. by destruct Hmodel. }
    destruct (keyed_insert row_guid group_val (tb_groups (tabs s)) l r' Hinv Hl) as [Hinv' Hmap'].
    { by rewrite Hguid. }
    { replace (row_guid r') with (row_guid (NewRouterGroupDB g)) by (symmetry; exact Hg). exact Hfresh. }
    { by rewrite Hguid. }
    apply wp_ret. rewrite Hm. unfold groups_become, group_inv, group_map. rewrite Ht. cbn [tb_set RouterGroupDB_Row tb_groups tb_routes tb_tcp].
    rewrite Hmap', Hguid. repeat split; try done; try apply (frame_trans _ _ _ (proj1 Hu) Hf); try apply Hinv'.
    unfold group_val. by rewrite Hn, Hty, Hp.
  - intros r s1 Hrl Hu Hr Hk _ Hm.
    rewrite bool_decide_eq_true_2 by done.
    assert (row_guid (NewRouterGroupDB (updateRouterGroup (ToRouterGroup r) g)) = row_guid r) as Hguid.
    { unfold NewRouterGroupDB. simpl. case_bool_decide; done. }
    apply wp_bind, wp_SaveOrCreate; [rewrite Hguid; congruence|done| |chain_X].
    intros n l s2 (r' & Hrb & Hl & Ht & Hf). rewrite (proj2 Hu) in Hl, Ht.
    pose proof (reads_back_guid _ _ _ Hrb) as Hg'. rewrite Hguid in Hg'.
    destruct Hrb as (Hg & Hn & Hty & Hp).
    destruct (keyed_replace row_guid group_val (tb_groups (tabs s)) l r r' Hinv Hr) as [Hinv' Hmap'].
    { done. }
    { done. }
    { by rewrite Hl, Hguid. }
    apply wp_ret. rewrite Hm. unfold groups_become, group_inv, group_map. rewrite Ht. cbn [tb_set RouterGroupDB_Row tb_groups tb_routes tb_tcp].
    rewrite Hmap'. repeat split; try done; try apply (frame_trans _ _ _ (proj1 Hu) Hf); try apply Hinv'.
    rewrite Hg', Hk.
    unfold group_val. by rewrite Hn, Hty, Hp.
Qed.

Lemma DeleteRouterGroup_wp guid s :
  group_inv s ->
  wp (DeleteRouterGroup guid) s
    (fun _ s' => isReadLocked (locker s) = false /\ isWriteLocked (locker s) = false /\
       is_Some (group_map s !! guid) /\ groups_become (delete guid (group_map s)) s s')
    (fun e s' => unchanged s s' /\ e <> None /\
       (forall d, e = Some (db_error d) -> db_error d = DeleteRouterGroupError /\ group_map s !! guid = None)).
Proof.
  intros Hinv. unfold DeleteRouterGroup. apply wp_bind, wp_get.
  destruct (isWriteLocked (locker s)) eqn:Hwl; [by apply wp_fail|].
  apply wp_bind, wp_ReadRouterGroup; [done|done| | |].
  - intros s1 Hrl Hu Hm. rewrite bool_decide_eq_true_2 by done. apply wp_fail.
    split_and!; [done|done|]. by intros d [= <-].
  - intros r s1 Hrl Hu Hr Hk Hne Hm. rewrite bool_decide_eq_false_2.
    2:{ intros Hz. apply (f_equal RG_Guid) in Hz. simpl in Hz. by apply Hne; rewrite <- Hk. }
    apply wp_bind, wp_DeleteWhere.
    + intros n l s2 Hl Ht Hf. rewrite (proj2 Hu) in Hl, Ht. subst guid.
      destruct (keyed_delete row_guid group_val (tb_groups (tabs s)) l r Hinv Hr Hl) as [Hinv' Hmap'].
      apply wp_ret. unfold groups_become, group_inv, group_map.
      rewrite Ht. cbn [tb_set RouterGroupDB_Row tb_groups tb_routes tb_tcp].
      repeat split; try done; try apply (frame_trans _ _ _ (proj1 Hu) Hf); try apply Hinv'.
    + intros e s2 Hu2 He. split_and!; [chain|done|]. intros d [= ->]. by destruct (He d).
  - intros e s1 Hrl Hu He. split_and!; [done|done|]. intros d [= ->]. by destruct (He d).
Qed.

(** Listing: every group, or the backup error while reads are locked. *)
Lemma ReadRouterGroups_wp s :
  wp ReadRouterGroups s
    (fun l s' => unchanged s s' /\ isReadLocked (locker s) = false /\
                 l ≡ₚ ToRouterGroup <$> tb_groups (tabs s))
    (fun e s' => unchanged s s' /\ e <> None /\ (isReadLocked (locker s) = true -> e = Some backupError)).
Proof.
  unfold ReadRouterGroups. apply wp_bind, wp_get.
  destruct (isReadLocked (locker s)) eqn:Hrl; [by apply wp_fail|].
  apply wp_fmap, wp_Find.
  - intros l s1 Hu Hl. split; [done|]. split; [done|]. unfold ToRouterGroups. by rewrite Hl, rows_where_all.
  - intros e s1 Hu He. by split_and!.
Qed.
End GroupFacts.
