(* ===== verification/Prune.v ===== *)
(** Prune: the route pruner of db/db_sql.go ([FindExpiredRoutes],
    [CleanupRoutes]).  One pruning pass as a sequential program, and the
    cleanup loop with its in-flight flags as a transition system in which API
    requests interleave with the steps of a pass. *)
From Stdlib Require Import ZArith Lia.
From stdpp Require Import base option strings gmap list relations.
From S2P Require Import Prelude GoStrings RouterGroups Routes Json EventHub Store Keyed SqlDB SqlDBFacts.
From S2P Require Import SqlTcpFacts.

Local Open Scope string_scope.
Local Open Scope list_scope.
Local Open Scope Z_scope.

(** The [expires_at] column of the two route tables, and the object an event
    about a row carries. *)
Class Expires (R : Type) := {
  expires_at : R -> Z;
  to_obj : R -> event_obj
}.

#[export] Instance Route_Expires : Expires Route := {| expires_at := Route_ExpiresAt; to_obj := ObjRoute |}.
#[export] Instance Tcp_Expires : Expires TcpRouteMapping := {| expires_at := Tcp_ExpiresAt; to_obj := ObjTcp |}.

Section Pass.
Context {S : Type} `{!Env S, !SqlClient S} {R : Type} `{!Row R, !Expires R}.

(** [expires_at < now - 1s]: a second of slack for columns of second
    precision. *)
Definition FindExpiredRoutes : Go (SqlDB S) (list R) :=
  t ← client now;
  client (Find (fun r => expires_at r <? t + -1 * Second)).

(** [guids := make([]string, len(routes))] followed by [append]: the slice
    starts with one empty string per route. *)
Definition prune_guids (routes : list R) : list string :=
  replicate (length routes) "" ++ (row_guid <$> routes).

Definition delete_expired (routes : list R) : Go (SqlDB S) Z :=
  client (DeleteWhere (fun r : R => bool_decide (row_guid r ∈ prune_guids routes))).

(** Errors of the emit are only logged. *)
Definition emit_expired (routes : list R) : Go (SqlDB S) unit :=
  for_each routes (fun route => _ ← try (emitEvent ExpireEvent (to_obj route)); mret tt).

(** The goroutine of [CleanupRoutes]; failures are logged and end the pass. *)
Definition prune_pass : Go (SqlDB S) unit :=
  r ← try FindExpiredRoutes;
  match r with
  | inl _ => mret tt
  | inr routes =>
      d ← try (delete_expired routes);
      match d with
      | inl _ => mret tt
      | inr _ => emit_expired routes
      end
  end.
End Pass.

Definition prune_tcp_routes {S} `{!Env S, !SqlClient S} : Go (SqlDB S) unit := prune_pass (R:=TcpRouteMapping).
Definition prune_http_routes {S} `{!Env S, !SqlClient S} : Go (SqlDB S) unit := prune_pass (R:=Route).

Section PassFacts.
Context {S : Type} `{!Env S, !SqlClient S, !SqlLaws S}.
Implicit Types (s : SqlDB S).

Definition expired_at {R} `{!Expires R} (t : Z) (r : R) : bool := expires_at r <? t + -1 * Second.

Lemma wp_FindExpired {R} `{!Row R, !Expires R} s Q (X : option error -> SqlDB S -> Prop) :
  (forall t l s', clock_reading (S:=S) t -> unchanged s s' ->
     l ≡ₚ rows_where (expired_at t) (tb_get (tabs s)) -> Q l s') ->
  (forall e s', unchanged s s' -> X (Some e) s') ->
  wp (FindExpiredRoutes (R:=R)) s Q X.
Proof.
  intros HQ HX. apply wp_bind, wp_now. intros t s1 Ht Hu1. apply wp_Find.
  - intros l s2 Hu2 Hl. rewrite (proj2 Hu1) in Hl. eapply HQ; [exact Ht|chain|exact Hl].
  - intros. apply HX. chain.
Qed.

(** Selecting by the guids of the expired rows selects the expired rows:
    no row has an empty guid and guids are unique. *)
Lemma prune_guids_spec {R K} `{!Row R, !Expires R} `{Countable K} (key : R -> K) t rows (l : list R) :
  keyed_inv key rows -> l ≡ₚ rows_where (expired_at t) rows ->
  rows_where (fun r => negb (bool_decide (row_guid r ∈ prune_guids l))) rows =
  rows_where (fun r => negb (expired_at t r)) rows.
Proof.
  intros Hinv Hl. apply rows_where_ext. intros r Hr. f_equal. apply eq_true_iff_eq.
  rewrite bool_decide_eq_true. unfold prune_guids. rewrite elem_of_app, list_elem_of_fmap. split.
  - intros [Hrep|(r2 & Hg & Hr2)].
    + apply elem_of_replicate in Hrep as [Hg _]. destruct Hinv as (_ & _ & H3).
      by destruct (proj1 (Forall_forall _ _) H3 r Hr).
    + rewrite Hl in Hr2. apply rows_where_elem in Hr2 as [He Hr2].
      by rewrite (guid_unique key rows r r2 Hinv Hr Hr2 Hg).
  - intros He. right. exists r. split; [done|]. rewrite Hl. by apply rows_where_elem.
Qed.

(** Emitting a list of events, in order. *)
Definition emit_all (ty : EventType) (objs : list event_obj) s : SqlDB S :=
  foldl (fun s o => final (emitEvent ty o s)) s objs.

Lemma emit_expired_all {R} `{!Row R, !Expires R} (routes : list R) s :
  emit_expired routes s = Ok tt (emit_all ExpireEvent (to_obj <$> routes) s).
Proof.
  unfold emit_expired, emit_all. revert s. induction routes as [|r rs IH]; intros s; [done|].
  csimpl. unfold mbind, Go_bind, try, emitEvent in *.
  destruct (to_obj r); apply IH.
Qed.

Lemma emit_all_tabs ty objs s : tabs (emit_all ty objs s) = tabs s /\ locker (emit_all ty objs s) = locker s.
Proof.
  revert s. induction objs as [|o objs IH]; intros s; simpl; [done|].
  destruct (IH (final (emitEvent ty o s))) as [H1 H2]. rewrite H1, H2. by destruct o.
Qed.

(** One pass: either nothing happened, or exactly the rows that had expired
    at one reading of the clock are gone and each got one expire event. *)
Definition pruned {R} `{!Row R, !Expires R} s s' : Prop :=
  exists t expired l s1,
    clock_reading (S:=S) t /\
    expired ≡ₚ rows_where (expired_at (R:=R) t) (tb_get (tabs s)) /\
    l ≡ₚ rows_where (fun r => negb (expired_at t r)) (tb_get (tabs s)) /\
    frame s s1 /\ tabs s1 = tb_set l (tabs s) /\
    s' = emit_all ExpireEvent (to_obj <$> expired) s1.

(** A call of the pass to the database that fails, at the clock's reading. *)
Definition prune_failed {R} `{!Row R, !Expires R} s : Prop :=
  let '(t, c) := time_Now (Client s) in
  match client_Find _ (expired_at (R:=R) t) c with
  | (inl _, _) => True
  | (inr l, c') => exists e c'', client_Delete _ (fun r : R => bool_decide (row_guid r ∈ prune_guids l)) c' = (inl e, c'')
  end.

(** The statements of a pass. *)
Lemma prune_pass_run {R} `{!Row R, !Expires R} s :
  prune_pass (R:=R) s =
    let '(t, c) := time_Now (Client s) in
    match client_Find _ (expired_at (R:=R) t) c with
    | (inl _, c1) => Ok tt (with_Client c1 (with_Client c s))
    | (inr l, c1) =>
        match client_Delete _ (fun r : R => bool_decide (row_guid r ∈ prune_guids l)) c1 with
        | (inl _, c2) => Ok tt (with_Client c2 (with_Client c1 (with_Client c s)))
        | (inr _, c2) => emit_expired l (with_Client c2 (with_Client c1 (with_Client c s)))
        end
    end.
Proof.
  unfold prune_pass, FindExpiredRoutes, delete_expired, mbind, Go_bind, try, client, zoom, now, Find, DeleteWhere, call.
  destruct (time_Now (Client s)) as [t c]. cbn [Client with_Client].
  change (fun r => expires_at r <? t + -1 * Second) with (expired_at (R:=R) t).
  destruct (client_Find _ (expired_at (R:=R) t) c) as [[e|l] c1]; [done|]. cbn [Client with_Client].
  by destruct (client_Delete _ _ c1) as [[e|n] c2].
Qed.

Lemma prune_pass_wp {R K} `{!Row R, !Expires R} `{Countable K} (key : R -> K) s :
  keyed_inv key (tb_get (tabs s)) ->
  wp (prune_pass (R:=R)) s
    (fun _ s' => (unchanged s s' /\ prune_failed (R:=R) s) \/ (pruned (R:=R) s s' /\ ~ prune_failed (R:=R) s))
    (fun _ _ => False).
Proof.
  intros Hinv. unfold wp, prune_failed. rewrite prune_pass_run. destruct (time_Now (Client s)) as [t c] eqn:Et.
  assert (clock_reading (S:=S) t) as Ht by (exists (Client s); by rewrite Et). apply now_tables in Et.
  destruct (client_Find _ (expired_at (R:=R) t) c) as [[e|l] c1] eqn:Ef.
  { apply Find_err in Ef as [Ef _]. left. split; [|done]. split; [by repeat split|]. unfold tabs in *. simpl. congruence. }
  apply Find_ok in Ef as [Ef Hl].
  destruct (client_Delete _ (fun r : R => bool_decide (row_guid r ∈ prune_guids l)) c1) as [[e|n] c2] eqn:Ed.
  { pose proof (Delete_err _ _ _ _ _ _ Ed) as [Ed' _]. left. split; [|by eexists _, _]. split; [by repeat split|]. unfold tabs in *. simpl. congruence. }
  apply Delete_ok in Ed as (l' & Hl' & Ed). rewrite emit_expired_all. right. split; [|by intros (? & ? & ?)].
  rewrite Et in Hl. rewrite Ef, Et in Hl', Ed.
  change (tables (Client s)) with (tabs s) in *. rewrite (prune_guids_spec key t _ l Hinv Hl) in Hl'.
  by exists t, l, l', (with_Client c2 (with_Client c1 (with_Client c s))).
Qed.

(** The second of slack makes pruning safe on columns of second precision:
    a row written with expiry [e] and found expired at [t] really had
    [e < t]. *)
Lemma expired_really {R} `{!Row R, !Expires R} t (r : R) e :
  expires_at r = store_time e -> expired_at t r = true -> e < t.
Proof.
  unfold expired_at. rewrite Z.ltb_lt. intros -> H. pose proof (store_time_close e). lia.
Qed.
End PassFacts.

(** ** The cleanup loop

    [CleanupRoutes] starts at most one goroutine per table at a time, guarded
    by a compare-and-swap on the in-flight flag; a goroutine's three database
    or hub steps interleave with the requests of the API ([other]). *)
Section Loop.
Context {S : Type} `{!Env S, !SqlClient S} (other : SqlDB S -> SqlDB S -> Prop).

Inductive phase (R : Type) :=
| PhFind
| PhDelete (routes : list R)
| PhEmit (routes : list R).
Arguments PhFind {_}.
Arguments PhDelete {_} _.
Arguments PhEmit {_} _.

Record Cleaner := mkCleaner {
  cl_db : SqlDB S;
  tcpInFlight : Z;
  httpInFlight : Z;
  tcp_go : list (phase TcpRouteMapping);
  http_go : list (phase Route)
}.

(** One step of a goroutine: its next phase, or [None] when it returns. *)
Definition phase_step {R} `{!Row R, !Expires R} (ph : phase R) (s : SqlDB S) : option (phase R) * SqlDB S :=
  match ph with
  | PhFind =>
      match FindExpiredRoutes s with
      | Ok routes s1 => (Some (PhDelete routes), s1)
      | Fail _ s1 | Panic _ s1 => (None, s1)
      end
  | PhDelete routes =>
      match delete_expired routes s with
      | Ok _ s1 => (Some (PhEmit routes), s1)
      | Fail _ s1 | Panic _ s1 => (None, s1)
      end
  | PhEmit routes => (None, final (emit_expired routes s))
  end.

(** [atomic.CompareAndSwapInt32(&inFlight, 0, 1)] and the [go] statement. *)
Definition try_start {R} (flag : Z) (gos : list (phase R)) : Z * list (phase R) :=
  if flag =? 0 then (1, gos ++ [PhFind]) else (flag, gos).

Inductive cl_step : Cleaner -> Cleaner -> Prop :=
| cl_tick s ft fh gt gh ft' gt' fh' gh' :
    try_start ft gt = (ft', gt') -> try_start fh gh = (fh', gh') ->
    cl_step (mkCleaner s ft fh gt gh) (mkCleaner s ft' fh' gt' gh')
| cl_tcp_go s ft fh l1 ph ph' l2 gh s' :
    phase_step ph s = (Some ph', s') ->
    cl_step (mkCleaner s ft fh (l1 ++ ph :: l2) gh) (mkCleaner s' ft fh (l1 ++ ph' :: l2) gh)
| cl_tcp_done s ft fh l1 ph l2 gh s' :
    (* the deferred [atomic.StoreInt32(&tcpInFlight, 0)] *)
    phase_step ph s = (None, s') ->
    cl_step (mkCleaner s ft fh (l1 ++ ph :: l2) gh) (mkCleaner s' 0 fh (l1 ++ l2) gh)
| cl_http_go s ft fh gt l1 ph ph' l2 s' :
    phase_step ph s = (Some ph', s') ->
    cl_step (mkCleaner s ft fh gt (l1 ++ ph :: l2)) (mkCleaner s' ft fh gt (l1 ++ ph' :: l2))
| cl_http_done s ft fh gt l1 ph l2 s' :
    phase_step ph s = (None, s') ->
    cl_step (mkCleaner s ft fh gt (l1 ++ ph :: l2)) (mkCleaner s' ft 0 gt (l1 ++ l2))
| cl_api s s' ft fh gt gh :
    other s s' -> cl_step (mkCleaner s ft fh gt gh) (mkCleaner s' ft fh gt gh).

Definition cl_init (s : SqlDB S) : Cleaner := mkCleaner s 0 0 [] [].

(** The flag counts the goroutines. *)
Definition flag_inv {R} (flag : Z) (gos : list (phase R)) : Prop :=
  (flag = 0 /\ gos = []) \/ (flag = 1 /\ length gos = 1%nat).

Definition cl_inv (c : Cleaner) : Prop :=
  flag_inv (tcpInFlight c) (tcp_go c) /\ flag_inv (httpInFlight c) (http_go c).

Lemma try_start_inv {R} flag (gos : list (phase R)) flag' gos' :
  flag_inv flag gos -> try_start flag gos = (flag', gos') -> flag_inv flag' gos'.
Proof.
  unfold flag_inv, try_start. intros [[-> ->]|[-> Hl]]; simpl; intros [= <- <-]; auto.
Qed.

Lemma flag_inv_done {R} flag (l1 : list (phase R)) ph l2 :
  flag_inv flag (l1 ++ ph :: l2) -> flag_inv 0 (l1 ++ l2).
Proof.
  unfold flag_inv. rewrite length_app. simpl. intros [[_ H]|[_ H]]; [by destruct l1|].
  left. split; [done|]. destruct l1, l2; simpl in *; try done; lia.
Qed.

Lemma flag_inv_go {R} flag (l1 : list (phase R)) ph ph' l2 :
  flag_inv flag (l1 ++ ph :: l2) -> flag_inv flag (l1 ++ ph' :: l2).
Proof.
  unfold flag_inv. rewrite !length_app. simpl. intros [[_ H]|H]; [by destruct l1|by right].
Qed.

Lemma cl_inv_step c c' : cl_inv c -> cl_step c c' -> cl_inv c'.
Proof.
  intros [Ht Hh] Hstep. unfold cl_inv in *.
  destruct Hstep; simpl in *; split; eauto using try_start_inv, flag_inv_done, flag_inv_go.
Qed.

Lemma cl_inv_reach s c : rtc cl_step (cl_init s) c -> cl_inv c.
Proof.
  intros Hr. assert (cl_inv (cl_init s)) as Hi by (split; by left).
  induction Hr; eauto using cl_inv_step.
Qed.
End Loop.
