(* ===== verification/Validator.v ===== *)
(** Validator: handlers/validator.go and errors.go.  Request validation for
    HTTP routes and TCP route mappings, and the API error type. *)
From Stdlib Require Import ZArith Lia Ascii.
From stdpp Require Import base option strings gmap list.
From S2P Require Import Prelude GoStrings RouterGroups Routes.

Local Open Scope string_scope.
Local Open Scope Z_scope.

(** ** Error types (errors.go) *)
Definition ResponseError := "ResponseError".
Definition ResourceNotFoundError := "ResourceNotFoundError".
Definition ProcessRequestError := "ProcessRequestError".
Definition RouteInvalidError := "RouteInvalidError".
Definition RouteServiceUrlInvalidError := "RouteServiceUrlInvalidError".
Definition DBCommunicationError := "DBCommunicationError".
Definition GuidGenerationError := "GuidGenerationError".
Definition UnauthorizedError := "UnauthorizedError".
Definition TcpRouteMappingInvalidError := "TcpRouteMappingInvalidError".
Definition DBConflictError := "DBConflictError".
Definition PortRangeExhaustedError := "PortRangeExhaustedError".

Definition NewError (errType message : string) : ApiError := mkApiError errType message.

(** [url.Parse] followed by [String()]: the canonical text of a URL, or the
    parse error.  The grammar of URLs (package net/url) is a parameter. *)
Class NetUrl := url_Parse_String : string -> error + string.

Section Validate.
Context `{!NetUrl} {W : Type}.

Definition validateUrl (urlToValidate : string) : option error :=
  if ContainsAny urlToValidate "?#" then Some (errors_New "url cannot contain any of [?, #]")
  else match url_Parse_String urlToValidate with
       | inl err => Some err
       | inr u =>
           if bool_decide (u <> urlToValidate)
           then Some (errors_New "url cannot contain invalid characters")
           else None
       end.

Definition validateRouteUrl (route : string) : option ApiError :=
  match validateUrl route with
  | Some err => Some (NewError RouteInvalidError (Error_string err))
  | None => None
  end.

Definition validateRouteServiceUrl (routeService : string) : option ApiError :=
  if bool_decide (routeService = "") then None
  else if negb (HasPrefix routeService "https://")
  then Some (NewError RouteServiceUrlInvalidError "Route service url must use HTTPS.")
  else match validateUrl routeService with
       | Some err => Some (NewError RouteServiceUrlInvalidError (Error_string err))
       | None => None
       end.

Definition requiredValidation (route : Route) : option ApiError :=
  let e := Route_Entity route in
  match validateRouteUrl (RE_Route e) with
  | Some err => Some err
  | None =>
      match validateRouteServiceUrl (RE_RouteServiceUrl e) with
      | Some err => Some err
      | None =>
          if RE_Port e <=? 0
          then Some (NewError RouteInvalidError "Each route request requires a port greater than 0")
          else if bool_decide (RE_Route e = "")
          then Some (NewError RouteInvalidError "Each route request requires a valid route")
          else if bool_decide (RE_IP e = "")
          then Some (NewError RouteInvalidError "Each route request requires an IP")
          else None
      end
  end.

(** A nil [TTL] would panic; the handlers set it before validating. *)
Fixpoint ValidateCreate (routes : list Route) (maxTTL : Z) : Go W (option ApiError) :=
  match routes with
  | [] => mret None
  | route :: routes' =>
      match requiredValidation route with
      | Some err => mret (Some err)
      | None =>
          ttl ← deref (RE_TTL (Route_Entity route));
          if maxTTL <? ttl
          then mret (Some (NewError RouteInvalidError ("Max ttl is " +:+ Itoa maxTTL)))
          else if ttl <=? 0
          then mret (Some (NewError RouteInvalidError "Request requires a ttl greater than 0"))
          else ValidateCreate routes' maxTTL
      end
  end.

Fixpoint ValidateDelete (routes : list Route) : option ApiError :=
  match routes with
  | [] => None
  | route :: routes' =>
      match requiredValidation route with
      | Some err => Some err
      | None => ValidateDelete routes'
      end
  end.

Definition tcp_invalid (msg : string) (m : TcpRouteMapping) : ApiError :=
  NewError TcpRouteMappingInvalidError (msg +:+ " RouteMapping=[" +:+ Tcp_String m +:+ "]").

(** [if checkTTL && *ttl ...]: the pointer is only read when [checkTTL]. *)
Definition validateTcpRouteMapping (m : TcpRouteMapping) (checkTTL : bool) (maxTTL : Z)
    : Go W (option ApiError) :=
  let e := Tcp_Entity m in
  if bool_decide (TM_RouterGroupGuid e = "")
  then mret (Some (tcp_invalid "Each tcp mapping requires a non empty router group guid." m))
  else if TM_ExternalPort e <=? 0
  then mret (Some (tcp_invalid "Each tcp mapping requires a positive external port." m))
  else if bool_decide (TM_HostIP e = "")
  then mret (Some (tcp_invalid "Each tcp mapping requires a non empty backend ip." m))
  else if (TM_HostPort e <=? 0) && (TM_HostTLSPort e <=? 0)
  then mret (Some (tcp_invalid "Each tcp mapping requires a positive backend port." m))
  else if 65535 <? TM_HostTLSPort e
  then mret (Some (tcp_invalid
    "Each tcp mapping with a backend TLS port requires that port to be less than or equal to 65535." m))
  else
    ttl ← (if checkTTL then deref (TM_TTL e) else mret 1);
    if checkTTL && (maxTTL <? ttl)
    then mret (Some (tcp_invalid
      ("Each tcp mapping requires TTL to be less than or equal to " +:+ Itoa maxTTL +:+ ".") m))
    else if checkTTL && (ttl <=? 0)
    then mret (Some (NewError TcpRouteMappingInvalidError
      "Each tcp route mapping requires a ttl greater than 0"))
    else if bool_decide (TM_ALPNs e <> "") && negb (TM_TerminateFrontendTLS e)
    then mret (Some (tcp_invalid
      "Each tcp mapping can define ALPNs only when TerminateFrontendTLS is enabled." m))
    else mret None.

(** The loop over the mappings with the same SNI host name and port. *)
Fixpoint check_similar (enabled : bool) (similar : list TcpRouteMapping) : option ApiError :=
  match similar with
  | [] => None
  | m :: ms =>
      if Bool.eqb enabled (TM_TerminateFrontendTLS (Tcp_Entity m)) then check_similar enabled ms
      else Some (NewError TcpRouteMappingInvalidError
        ("terminate_frontend_tls: " +:+ (if enabled then "true" else "false") +:+ " not allowed"))
  end.

Definition ValidateCreateTcpRouteMapping (m : TcpRouteMapping) (similar : list TcpRouteMapping)
    (routerGroups : list RouterGroup) (maxTTL : Z) : Go W (option ApiError) :=
  err ← validateTcpRouteMapping m true maxTTL;
  match err with
  | Some e => mret (Some e)
  | None =>
      let validGuid := existsb (fun g => bool_decide (TM_RouterGroupGuid (Tcp_Entity m) = RG_Guid g)) routerGroups in
      if negb validGuid
      then mret (Some (NewError TcpRouteMappingInvalidError
        ("router_group_guid: " +:+ TM_RouterGroupGuid (Tcp_Entity m) +:+ " not found")))
      else mret (check_similar (TM_TerminateFrontendTLS (Tcp_Entity m)) similar)
  end.

Fixpoint ValidateCreateTcpRouteMappings (ms : list TcpRouteMapping) (routerGroups : list RouterGroup)
    (maxTTL : Z) : Go W (option ApiError) :=
  match ms with
  | [] => mret None
  | m :: ms' =>
      err ← ValidateCreateTcpRouteMapping m [] routerGroups maxTTL;
      match err with
      | Some e => mret (Some e)
      | None => ValidateCreateTcpRouteMappings ms' routerGroups maxTTL
      end
  end.

Fixpoint ValidateDeleteTcpRouteMapping (ms : list TcpRouteMapping) : Go W (option ApiError) :=
  match ms with
  | [] => mret None
  | m :: ms' =>
      err ← validateTcpRouteMapping m false 0;
      match err with
      | Some e => mret (Some e)
      | None => ValidateDeleteTcpRouteMapping ms'
      end
  end.
End Validate.

(** ** What validation accepts *)
Section ValidateSpec.
Context `{!NetUrl} {W : Type}.

Definition clean_url (u : string) : Prop :=
  ContainsAny u "?#" = false /\ url_Parse_String u = inr u.

Definition valid_route_request (r : Route) : Prop :=
  let e := Route_Entity r in
  clean_url (RE_Route e) /\ RE_Route e <> "" /\ 0 < RE_Port e /\ RE_IP e <> "" /\
  (RE_RouteServiceUrl e <> "" ->
   HasPrefix (RE_RouteServiceUrl e) "https://" = true /\ clean_url (RE_RouteServiceUrl e)).

Definition valid_ttl (maxTTL : Z) (ttl : option Z) : Prop :=
  exists t, ttl = Some t /\ 0 < t <= maxTTL.

Lemma validateUrl_None u : validateUrl u = None <-> clean_url u.
Proof.
  unfold validateUrl, clean_url. destruct (ContainsAny u "?#"); [naive_solver|].
  destruct (url_Parse_String u) as [e|v]; [naive_solver|]. case_bool_decide; naive_solver.
Qed.

Lemma validateRouteUrl_None u : validateRouteUrl u = None <-> clean_url u.
Proof. unfold validateRouteUrl. rewrite <- validateUrl_None. destruct (validateUrl u); naive_solver. Qed.

Lemma validateRouteServiceUrl_None u :
  validateRouteServiceUrl u = None <-> (u <> "" -> HasPrefix u "https://" = true /\ clean_url u).
Proof.
  unfold validateRouteServiceUrl. rewrite <- validateUrl_None.
  case_bool_decide; [naive_solver|]. destruct (HasPrefix u "https://"), (validateUrl u); naive_solver.
Qed.

Lemma requiredValidation_None r : requiredValidation r = None <-> valid_route_request r.
Proof.
  unfold requiredValidation, valid_route_request.
  rewrite <- validateRouteUrl_None, <- validateRouteServiceUrl_None.
  destruct (validateRouteUrl _); [naive_solver|].
  destruct (validateRouteServiceUrl _); [naive_solver|].
  destruct (Z.leb_spec (RE_Port (Route_Entity r)) 0); [split; [done|intros; lia]|].
  repeat case_bool_decide; naive_solver.
Qed.

(** [ValidateCreate] accepts exactly the well-formed requests, for lists
    whose TTLs are present, and never touches the state. *)
Lemma ValidateCreate_spec routes maxTTL (w : W) :
  Forall (fun r => RE_TTL (Route_Entity r) <> None) routes ->
  exists res, ValidateCreate routes maxTTL w = Ok res w /\
    (res = None <-> Forall (fun r => valid_route_request r /\ valid_ttl maxTTL (RE_TTL (Route_Entity r))) routes).
Proof.
  induction 1 as [|r rs Hr Hrs IH]; simpl; [by exists None|].
  setoid_rewrite Forall_cons_iff. pose proof (requiredValidation_None r) as Hreq.
  destruct (requiredValidation r) as [e|]; [exists (Some e); naive_solver|].
  unfold mbind, Go_bind, deref, valid_ttl. destruct (RE_TTL (Route_Entity r)) as [t|]; [|done].
  destruct (Z.ltb_spec maxTTL t); [eexists; split; [done|]; naive_solver lia|].
  destruct (Z.leb_spec t 0); [eexists; split; [done|]; naive_solver lia|].
  destruct IH as (res & -> & Hres). exists res. split; [done|]. rewrite Hres. naive_solver lia.
Qed.

Lemma ValidateDelete_None routes : ValidateDelete routes = None <-> Forall valid_route_request routes.
Proof.
  induction routes as [|r rs IH]; simpl; [naive_solver|].
  rewrite Forall_cons_iff. pose proof (requiredValidation_None r).
  destruct (requiredValidation r); naive_solver.
Qed.

Definition valid_tcp_request (m : TcpRouteMapping) : Prop :=
  let e := Tcp_Entity m in
  TM_RouterGroupGuid e <> "" /\ 0 < TM_ExternalPort e /\ TM_HostIP e <> "" /\
  (0 < TM_HostPort e \/ 0 < TM_HostTLSPort e) /\ TM_HostTLSPort e <= 65535 /\
  (TM_ALPNs e <> "" -> TM_TerminateFrontendTLS e = true).

Lemma validateTcp_spec m checkTTL maxTTL (w : W) :
  (checkTTL = true -> TM_TTL (Tcp_Entity m) <> None) ->
  exists res, validateTcpRouteMapping m checkTTL maxTTL w = Ok res w /\
    (res = None <-> valid_tcp_request m /\ (checkTTL = true -> valid_ttl maxTTL (TM_TTL (Tcp_Entity m)))).
Proof.
  unfold validateTcpRouteMapping, valid_tcp_request, valid_ttl. intros Httl.
  destruct (Tcp_Entity m) as [rg hp tp ip sni rw inst ext tag ttl iso term alpn mtls]; simpl in *.
  case_bool_decide; [eexists; split; [done|]; naive_solver|].
  destruct (Z.leb_spec ext 0); [eexists; split; [done|]; naive_solver lia|].
  case_bool_decide; [eexists; split; [done|]; naive_solver|].
  destruct (Z.leb_spec hp 0), (Z.leb_spec tp 0); simpl; try (eexists; split; [done|]; naive_solver lia).
  all: destruct (Z.ltb_spec 65535 tp); [eexists; split; [done|]; naive_solver lia|].
  all: destruct checkTTL; [destruct ttl as [t|]; [|naive_solver]|]; simpl; unfold mbind, Go_bind; simpl.
  all: try (destruct (Z.ltb_spec maxTTL t); [eexists; split; [done|]; naive_solver lia|]).
  all: try (destruct (Z.leb_spec t 0); [eexists; split; [done|]; naive_solver lia|]).
  all: case_bool_decide; destruct term; simpl; eexists; (split; [done|]); naive_solver lia.
Qed.

Lemma check_similar_None b ms :
  check_similar b ms = None <-> Forall (fun m => TM_TerminateFrontendTLS (Tcp_Entity m) = b) ms.
Proof.
  induction ms as [|m ms IH]; simpl; [naive_solver|]. rewrite Forall_cons_iff, <- IH.
  destruct (Bool.eqb b (TM_TerminateFrontendTLS (Tcp_Entity m))) eqn:E.
  - apply Bool.eqb_prop in E. naive_solver.
  - apply Bool.eqb_false_iff in E. naive_solver.
Qed.

Lemma ValidateCreateTcp_spec m similar groups maxTTL (w : W) :
  TM_TTL (Tcp_Entity m) <> None ->
  exists res, ValidateCreateTcpRouteMapping m similar groups maxTTL w = Ok res w /\
    (res = None <->
     valid_tcp_request m /\ valid_ttl maxTTL (TM_TTL (Tcp_Entity m)) /\
     (exists g, g ∈ groups /\ RG_Guid g = TM_RouterGroupGuid (Tcp_Entity m)) /\
     Forall (fun o => TM_TerminateFrontendTLS (Tcp_Entity o) = TM_TerminateFrontendTLS (Tcp_Entity m)) similar).
Proof.
  intros Httl. unfold ValidateCreateTcpRouteMapping.
  destruct (validateTcp_spec m true maxTTL w) as (res & Hres & Hiff); [done|].
  unfold mbind, Go_bind. rewrite Hres. destruct res as [e|]; [eexists; split; [done|]; naive_solver|].
  destruct (existsb _ groups) eqn:Hex; simpl.
  - eexists; split; [done|]. rewrite check_similar_None.
    apply existsb_exists in Hex as (g & Hg & Heq). apply bool_decide_eq_true in Heq.
    apply list_elem_of_In in Hg. destruct Hiff as [Hiff _]. destruct (Hiff eq_refl) as [Hv Ht].
    split; [|tauto]. intros Hs. repeat split; try apply Hv; auto. by exists g.
  - eexists; split; [done|]. split; [done|]. intros (_ & _ & (g & Hg & Heq) & _).
    apply not_true_iff_false in Hex. exfalso. apply Hex, existsb_exists. exists g.
    split; [by apply list_elem_of_In|]. by apply bool_decide_eq_true.
Qed.

Lemma ValidateDeleteTcp_spec ms (w : W) :
  exists res, ValidateDeleteTcpRouteMapping ms w = Ok res w /\
    (res = None <-> Forall valid_tcp_request ms).
Proof.
  induction ms as [|m ms IH]; simpl; [by exists None|].
  destruct (validateTcp_spec m false 0 w) as (res & Hres & Hiff); [done|].
  unfold mbind, Go_bind. rewrite Hres. setoid_rewrite Forall_cons_iff.
  destruct res as [e|].
  - exists (Some e). split; [done|]. split; [done|]. intros [Hm _]. apply Hiff. by split.
  - destruct IH as (res & -> & IH). exists res. split; [done|]. rewrite IH.
    destruct (proj1 Hiff eq_refl) as [Hm _]. tauto.
Qed.
End ValidateSpec.
