(* ===== verification/Contract.v ===== *)
(** Contract: the [db.DB] interface (db/db_sql.go) that the handlers are
    written against, the abstract store it promises, and the proof that
    [SqlDB] keeps the promise. *)
From Stdlib Require Import ZArith Lia.
From stdpp Require Import base option strings gmap list.
From S2P Require Import Prelude GoStrings RouterGroups Routes Json EventHub Store Keyed SqlDB SqlDBFacts.
From S2P Require Import SqlTcpFacts SqlGroupFacts.

Local Open Scope string_scope.
Local Open Scope list_scope.
Local Open Scope Z_scope.

(** ** The interface

    [WatchChanges] is in the file Watch. *)
Class DB (D : Type) := {
  db_ReadRoutes : Go D (list Route);
  db_SaveRoute : Route -> Go D unit;
  db_DeleteRoute : Route -> Go D unit;
  db_ReadTcpRouteMappings : Go D (list TcpRouteMapping);
  db_ReadFilteredTcpRouteMappings : string -> list string -> Go D (list TcpRouteMapping);
  db_FindSimilarTcpRouteMappings : string -> Z -> Go D (list TcpRouteMapping);
  db_SaveTcpRouteMapping : TcpRouteMapping -> Go D unit;
  db_DeleteTcpRouteMapping : TcpRouteMapping -> Go D unit;
  db_ReadRouterGroups : Go D (list RouterGroup);
  db_ReadRouterGroup : string -> Go D RouterGroup;
  db_DeleteRouterGroup : string -> Go D unit;
  db_ReadRouterGroupByName : string -> Go D RouterGroup;
  db_SaveRouterGroup : RouterGroup -> Go D unit;
  db_CancelWatches : Go D unit;
  db_LockRouterGroupReads : Go D unit;
  db_LockRouterGroupWrites : Go D unit;
  db_UnlockRouterGroupReads : Go D unit;
  db_UnlockRouterGroupWrites : Go D unit
}.

(** ** The abstract store: three finite maps and the two locks.

    A TCP mapping that requests can find is stored under its key, [(key, None)].  One
    whose TLS port is NULL in the database is listed, but no request finds it: it is
    stored under [(key, Some guid)]. *)
Record View := mkView {
  v_routes : gmap (string * string * Z * string) (RouteEntity * Z);
  v_tcp : gmap (TcpKey * option string) (TcpMappingEntity * Z);
  v_groups : gmap string (string * string * string);
  v_locks : rwLocker
}.

Definition set_routes m (v : View) := mkView m (v_tcp v) (v_groups v) (v_locks v).
Definition set_tcp m (v : View) := mkView (v_routes v) m (v_groups v) (v_locks v).
Definition set_groups m (v : View) := mkView (v_routes v) (v_tcp v) m (v_locks v).

(** One upsert: the entity under the request's key becomes the merge of the
    stored and the requested one. *)
Definition route_stored (r : Route) (v v' : View) : Prop :=
  exists tag exp,
    let new := upsert_entity (fst <$> v_routes v !! route_key r) (Route_Entity r) tag in
    v' = set_routes (<[route_key r := (new, exp)]> (v_routes v)) v.

Definition tcp_stored (m : TcpRouteMapping) (v v' : View) : Prop :=
  exists tag exp k,
    let new := upsert_tcp (fst <$> v_tcp v !! (tcp_key m, None)) (Tcp_Entity m) tag in
    stored_under m (v_tcp v) k /\ v' = set_tcp (<[k := (new, exp)]> (v_tcp v)) v.

(** A mapping as a listing shows it. *)
Definition tcp_listed (m : TcpRouteMapping) (v : View) : Prop :=
  exists hidden, v_tcp v !! (tcp_key m, hidden) = Some (Tcp_Entity m, Tcp_ExpiresAt m).

(** The groups a listing shows: one per guid, with the stored fields. *)
Definition lists_groups (l : list RouterGroup) (v : View) : Prop :=
  NoDup (RG_Guid <$> l) /\ (forall g, g ∈ l -> Model_Guid (RG_Model g) = RG_Guid g) /\
  forall guid x, v_groups v !! guid = Some x <-> exists g, g ∈ l /\ group_of guid x g.

(** ** The contract *)
Class DBContract (D : Type) `{!DB D, !Env D} := {
  db_inv : D -> Prop;
  view : D -> View;
  c_hidden d k guid : db_inv d -> is_Some (v_tcp (view d) !! (k, Some guid)) -> key_tls k = 0;
  c_uuid d g d' : db_inv d -> uuid_NewV4 d = (g, d') ->
    db_inv d' /\ view d' = view d /\ g <> inr "";
  c_ReadRoutes d : db_inv d ->
    wp db_ReadRoutes d
      (fun l d' => db_inv d' /\ view d' = view d /\
         forall r, r ∈ l -> v_routes (view d) !! route_key r = Some (Route_Entity r, Route_ExpiresAt r))
      (fun e d' => db_inv d' /\ view d' = view d /\ e <> None);
  c_SaveRoute r d : db_inv d ->
    wp (db_SaveRoute r) d (fun _ d' => db_inv d' /\ route_stored r (view d) (view d'))
      (fun e d' => db_inv d' /\ view d' = view d /\ (e = None -> RE_TTL (Route_Entity r) = None));
  c_DeleteRoute r d : db_inv d ->
    wp (db_DeleteRoute r) d
      (fun _ d' => db_inv d' /\ is_Some (v_routes (view d) !! route_key r) /\
         view d' = set_routes (delete (route_key r) (v_routes (view d))) (view d))
      (fun e d' => db_inv d' /\ view d' = view d /\ e <> None /\
         forall x, e = Some (db_error x) -> v_routes (view d) !! route_key r = None);
  c_FindSimilar sni port d : db_inv d ->
    wp (db_FindSimilarTcpRouteMappings sni port) d
      (fun l d' => db_inv d' /\ view d' = view d /\
         forall m, m ∈ l -> tcp_listed m (view d) /\
           TM_SniHostname (Tcp_Entity m) = Some sni /\ TM_ExternalPort (Tcp_Entity m) = port)
      (fun e d' => db_inv d' /\ view d' = view d /\ e <> None);
  c_ReadTcp d : db_inv d ->
    wp db_ReadTcpRouteMappings d
      (fun l d' => db_inv d' /\ view d' = view d /\
         forall m, m ∈ l -> tcp_listed m (view d))
      (fun e d' => db_inv d' /\ view d' = view d /\ e <> None);
  c_ReadFiltered values d : db_inv d ->
    wp (db_ReadFilteredTcpRouteMappings "isolation_segment" values) d
      (fun l d' => db_inv d' /\ view d' = view d /\
         forall m, m ∈ l -> tcp_listed m (view d) /\
           TM_IsolationSegment (Tcp_Entity m) ∈ values)
      (fun e d' => db_inv d' /\ view d' = view d /\ e <> None);
  c_SaveTcp m d : db_inv d ->
    wp (db_SaveTcpRouteMapping m) d (fun _ d' => db_inv d' /\ tcp_stored m (view d) (view d'))
      (fun e d' => db_inv d' /\ view d' = view d /\ (e = None -> TM_TTL (Tcp_Entity m) = None));
  c_DeleteTcp m d : db_inv d ->
    wp (db_DeleteTcpRouteMapping m) d
      (fun _ d' => db_inv d' /\ is_Some (v_tcp (view d) !! (tcp_key m, None)) /\
         view d' = set_tcp (delete (tcp_key m, None) (v_tcp (view d))) (view d))
      (fun e d' => db_inv d' /\ view d' = view d /\ e <> None /\
         forall x, e = Some (db_error x) -> v_tcp (view d) !! (tcp_key m, None) = None);
  c_ReadRouterGroups d : db_inv d ->
    wp db_ReadRouterGroups d
      (fun l d' => db_inv d' /\ view d' = view d /\ isReadLocked (v_locks (view d)) = false /\
         lists_groups l (view d))
      (fun e d' => db_inv d' /\ view d' = view d /\ e <> None);
  c_ReadRouterGroup guid d : db_inv d ->
    wp (db_ReadRouterGroup guid) d
      (fun g d' => db_inv d' /\ view d' = view d /\
         ((g = zero_RouterGroup /\ v_groups (view d) !! guid = None) \/
          (guid <> "" /\ exists x, v_groups (view d) !! guid = Some x /\ group_of guid x g)))
      (fun e d' => db_inv d' /\ view d' = view d /\ e <> None);
  c_ReadRouterGroupByName name d : db_inv d ->
    wp (db_ReadRouterGroupByName name) d
      (fun g d' => db_inv d' /\ view d' = view d /\
         ((g = zero_RouterGroup /\ forall guid t p, v_groups (view d) !! guid <> Some (name, t, p)) \/
          (RG_Name g = name /\ RG_Guid g <> "" /\ v_groups (view d) !! RG_Guid g = Some (name, RG_Type g, RG_ReservablePorts g))))
      (fun e d' => db_inv d' /\ view d' = view d /\ e <> None);
  c_SaveRouterGroup g d : db_inv d -> RG_Guid g <> "" ->
    Model_Guid (RG_Model g) = "" \/ Model_Guid (RG_Model g) = RG_Guid g ->
    wp (db_SaveRouterGroup g) d
      (fun _ d' => db_inv d' /\ isWriteLocked (v_locks (view d)) = false /\
         view d' = set_groups (<[RG_Guid g := upsert_group (v_groups (view d) !! RG_Guid g) g]>
                                 (v_groups (view d))) (view d))
      (fun e d' => db_inv d' /\ view d' = view d /\ e <> None);
  c_DeleteRouterGroup guid d : db_inv d ->
    wp (db_DeleteRouterGroup guid) d
      (fun _ d' => db_inv d' /\ isWriteLocked (v_locks (view d)) = false /\
         is_Some (v_groups (view d) !! guid) /\
         view d' = set_groups (delete guid (v_groups (view d))) (view d))
      (fun e d' => db_inv d' /\ view d' = view d /\ e <> None /\
         forall x, e = Some (db_error x) -> v_groups (view d) !! guid = None)
}.

(** ** [SqlDB] implements the interface *)

(** The text columns of the table [tcp_routes]. *)
Definition tcp_column (name : string) : option (TcpRouteMapping -> string) :=
  if bool_decide (name = "isolation_segment") then Some (fun m => TM_IsolationSegment (Tcp_Entity m))
  else if bool_decide (name = "router_group_guid") then Some (fun m => TM_RouterGroupGuid (Tcp_Entity m))
  else if bool_decide (name = "host_ip") then Some (fun m => TM_HostIP (Tcp_Entity m))
  else if bool_decide (name = "instance_id") then Some (fun m => TM_InstanceId (Tcp_Entity m))
  else None.

#[export] Instance SqlDB_Env {S} `{!Env S} : Env (SqlDB S) := {|
  time_Now s := let '(t, c) := time_Now (Client s) in (t, with_Client c s);
  uuid_NewV4 s := let '(g, c) := uuid_NewV4 (Client s) in (g, with_Client c s)
|}.

#[export] Instance SqlDB_DB {S} `{!Env S, !SqlClient S} : DB (SqlDB S) := {|
  db_ReadRoutes := ReadRoutes;
  db_SaveRoute := SaveRoute;
  db_DeleteRoute := DeleteRoute;
  db_ReadTcpRouteMappings := ReadTcpRouteMappings;
  db_ReadFilteredTcpRouteMappings name values :=
    match tcp_column name with
    | Some column => ReadFilteredTcpRouteMappings column values
    | None => fail (ext_error "unknown column")
    end;
  db_FindSimilarTcpRouteMappings := FindSimilarTcpRouteMappings;
  db_SaveTcpRouteMapping := SaveTcpRouteMapping;
  db_DeleteTcpRouteMapping := DeleteTcpRouteMapping;
  db_ReadRouterGroups := ReadRouterGroups;
  db_ReadRouterGroup := ReadRouterGroup;
  db_DeleteRouterGroup := DeleteRouterGroup;
  db_ReadRouterGroupByName := ReadRouterGroupByName;
  db_SaveRouterGroup := SaveRouterGroup;
  db_CancelWatches := CancelWatches;
  db_LockRouterGroupReads := LockRouterGroupReads;
  db_LockRouterGroupWrites := LockRouterGroupWrites;
  db_UnlockRouterGroupReads := UnlockRouterGroupReads;
  db_UnlockRouterGroupWrites := UnlockRouterGroupWrites
|}.

Section Implements.
Context {S : Type} `{!Env S, !SqlClient S, !SqlLaws S}.
Implicit Types (s : SqlDB S).

Definition sql_inv s : Prop := route_inv s /\ tcp_inv s /\ group_inv s.
Definition sql_view s : View := mkView (route_map s) (tcp_map s) (group_map s) (locker s).

Lemma sql_inv_tabs s s' : tabs s' = tabs s -> sql_inv s -> sql_inv s'.
Proof. unfold sql_inv, route_inv, tcp_inv, group_inv. by intros ->. Qed.

Lemma unchanged_view s s' : unchanged s s' -> sql_inv s -> sql_inv s' /\ sql_view s' = sql_view s.
Proof.
  intros [(_ & _ & F) T] Hi. split; [by eapply sql_inv_tabs|].
  unfold sql_view, route_map, tcp_map, group_map. by rewrite T, F.
Qed.

(** A failing call of [SqlDB] left the view alone. *)
Ltac sql_err Hi :=
  intros e s'; intros (Hu & Hn); destruct (unchanged_view _ _ Hu Hi);
  split_and!; [done|done|try tauto].

(** A step that leaves two tables alone keeps their part of the view. *)
Lemma tcp_part s s' : tb_tcp (tabs s') = tb_tcp (tabs s) ->
  (tcp_inv s -> tcp_inv s') /\ tcp_map s' = tcp_map s.
Proof. unfold tcp_inv, tcp_map. by intros ->. Qed.

Lemma route_part s s' : tb_routes (tabs s') = tb_routes (tabs s) ->
  (route_inv s -> route_inv s') /\ route_map s' = route_map s.
Proof. unfold route_inv, route_map. by intros ->. Qed.

Lemma group_part s s' : tb_groups (tabs s') = tb_groups (tabs s) ->
  (group_inv s -> group_inv s') /\ group_map s' = group_map s.
Proof. unfold group_inv, group_map. by intros ->. Qed.

Lemma route_step s s' m : sql_inv s ->
  route_inv s' -> route_map s' = m -> tb_tcp (tabs s') = tb_tcp (tabs s) ->
  tb_groups (tabs s') = tb_groups (tabs s) -> locker s' = locker s ->
  sql_inv s' /\ sql_view s' = set_routes m (sql_view s).
Proof.
  intros (H1 & H2 & H3) Hi Hm [Ti Tm]%tcp_part [Gi Gm]%group_part Hl.
  split; [split; [|split]; auto|]. unfold sql_view, set_routes. by f_equal.
Qed.

Lemma tcp_step s s' m : sql_inv s ->
  tcp_inv s' -> tcp_map s' = m -> tb_routes (tabs s') = tb_routes (tabs s) ->
  tb_groups (tabs s') = tb_groups (tabs s) -> locker s' = locker s ->
  sql_inv s' /\ sql_view s' = set_tcp m (sql_view s).
Proof.
  intros (H1 & H2 & H3) Hi Hm [Ti Tm]%route_part [Gi Gm]%group_part Hl.
  split; [split; [|split]; auto|]. unfold sql_view, set_tcp. by f_equal.
Qed.

Lemma group_step s s' m : sql_inv s -> groups_become m s s' ->
  sql_inv s' /\ sql_view s' = set_groups m (sql_view s).
Proof.
  intros (H1 & H2 & H3) (Hi & Hm & [Ri Rm]%route_part & [Ti Tm]%tcp_part & (_ & _ & Hl)).
  split; [split; [|split]; auto|]. unfold sql_view, set_groups. by f_equal.
Qed.

Lemma group_map_lists s l : group_inv s ->
  l ≡ₚ ToRouterGroup <$> tb_groups (tabs s) -> lists_groups l (sql_view s).
Proof.
  intros Hinv Hl. pose proof Hinv as (Hk & _ & _). split; [|split].
  - rewrite Hl, <- list_fmap_compose. exact Hk.
  - intros g Hg. rewrite Hl in Hg. by apply list_elem_of_fmap in Hg as (r & -> & _).
  - intros guid x. simpl. unfold group_map. rewrite table_map_Some by done. split.
    + intros (r & Hr & Hg & Hv). exists (ToRouterGroup r). split.
      * rewrite Hl. apply list_elem_of_fmap. by exists r.
      * rewrite <- Hg, <- Hv. apply group_of_row.
    + intros (g & Hg & G1 & G2 & G3). rewrite Hl in Hg.
      apply list_elem_of_fmap in Hg as (r & -> & Hr). by exists r.
Qed.

Lemma live_tcp s (p : TcpRouteMapping -> bool) l m : tcp_inv s ->
  l ≡ₚ rows_where p (tb_tcp (tabs s)) -> m ∈ l ->
  p m = true /\ tcp_listed m (sql_view s).
Proof.
  intros Hinv Hl Hm. rewrite Hl in Hm. apply rows_where_elem in Hm as [Hp Hm].
  split; [done|]. eexists. apply table_map_Some; [by destruct Hinv|]. by exists m.
Qed.

#[export] Program Instance SqlDB_Contract : DBContract (SqlDB S) :=
  {| db_inv := sql_inv; view := sql_view |}.
Next Obligation. intros s k guid (_ & Hi & _) Hs. by apply (tcp_map_hidden s k guid). Qed.
Next Obligation.
  intros s g s' Hi. simpl. destruct (uuid_NewV4 (Client s)) as [r c] eqn:E. intros [= <- <-].
  assert (unchanged s (with_Client c s)) as Hu.
  { split; [apply frame_with_Client|]. by eapply uuid_tables. }
  destruct (unchanged_view _ _ Hu Hi) as [??]. split; [done|]. split; [done|].
  intros ->. by apply uuid_nonempty in E.
Qed.
Next Obligation.
  intros s Hi. eapply wp_mono; [apply ReadRoutes_wp| |by sql_err Hi].
  intros l s' (Hu & t & _ & Hl). destruct (unchanged_view _ _ Hu Hi). split_and!; [done..|].
  intros r Hr. rewrite Hl in Hr. apply rows_where_elem in Hr as [_ Hr].
  apply table_map_Some; [by destruct Hi as ((? & _) & _)|]. by exists r.
Qed.
Next Obligation.
  intros r s Hi. eapply wp_mono; [apply SaveRoute_wp, Hi| |by sql_err Hi].
  intros _ s' (new & t & ttl & g & _ & _ & -> & _ & Hinv & Hm & Ht & Hg & _ & _ & Hl).
  destruct (route_step s s' _ Hi Hinv Hm Ht Hg Hl). split; [done|]. by eexists _, _.
Qed.
Next Obligation.
  intros r s Hi. eapply wp_mono; [apply DeleteRoute_wp, Hi| |].
  - intros _ s' (e & exp & Hs & Hinv & Hm & Ht & Hg & _ & _ & Hl).
    destruct (route_step s s' _ Hi Hinv Hm Ht Hg Hl). split_and!; [done| |done]. by eexists.
  - intros e s' (Hu & Hn & Hd). destruct (unchanged_view _ _ Hu Hi). split_and!; [done..|].
    intros x Hx. by destruct (Hd x Hx).
Qed.
Next Obligation.
  intros sni port s Hi. unfold db_FindSimilarTcpRouteMappings. simpl. unfold FindSimilarTcpRouteMappings.
  eapply wp_mono; [apply (wp_read_tcp (fun r t => sql_eq (TM_SniHostname (Tcp_Entity r)) sni &&
    (TM_ExternalPort (Tcp_Entity r) =? port) && (t <? Tcp_ExpiresAt r)))| |by sql_err Hi].
  intros l s' (Hu & t & _ & Hl). destruct (unchanged_view _ _ Hu Hi). split_and!; [done..|].
  intros m Hm. destruct (live_tcp s _ l m (proj1 (proj2 Hi)) Hl Hm) as [Hp ?]. split; [done|].
  rewrite !andb_true_iff, Z.eqb_eq in Hp. destruct Hp as [[Hp ?] _]. split; [|done].
  unfold sql_eq in Hp. destruct (TM_SniHostname _); [|done]. apply bool_decide_eq_true in Hp. by subst.
Qed.
Next Obligation.
  intros s Hi. eapply wp_mono;
    [apply (wp_read_tcp (fun r t => t <? Tcp_ExpiresAt r))| |by sql_err Hi].
  intros l s' (Hu & t & _ & Hl). destruct (unchanged_view _ _ Hu Hi). split_and!; [done..|].
  intros m Hm. by destruct (live_tcp s _ l m (proj1 (proj2 Hi)) Hl Hm).
Qed.
Next Obligation.
  intros values s Hi. eapply wp_mono; [apply (wp_read_tcp (fun r t =>
    bool_decide (TM_IsolationSegment (Tcp_Entity r) ∈ values) && (t <? Tcp_ExpiresAt r)))| |by sql_err Hi].
  intros l s' (Hu & t & _ & Hl). destruct (unchanged_view _ _ Hu Hi). split_and!; [done..|].
  intros m Hm. destruct (live_tcp s _ l m (proj1 (proj2 Hi)) Hl Hm) as [Hp ?]. split; [done|].
  rewrite andb_true_iff, bool_decide_eq_true in Hp. by destruct Hp.
Qed.
Next Obligation.
  intros r s Hi. eapply wp_mono; [apply SaveTcpRouteMapping_wp, Hi| |by sql_err Hi].
  intros _ s' (new & t & ttl & g & k & _ & _ & -> & _ & Hinv & [Hk _] & Hm & Ht & Hg & _ & _ & Hl).
  destruct (tcp_step s s' _ Hi Hinv Hm Ht Hg Hl). split; [done|]. eexists _, _, k. by split.
Qed.
Next Obligation.
  intros r s Hi. eapply wp_mono; [apply DeleteTcpRouteMapping_wp, Hi| |].
  - intros _ s' (e & exp & Hs & Hinv & Hm & Ht & Hg & _ & _ & Hl).
    destruct (tcp_step s s' _ Hi Hinv Hm Ht Hg Hl). split_and!; [done| |done]. by eexists.
  - intros e s' (Hu & Hn & Hd). destruct (unchanged_view _ _ Hu Hi). split_and!; [done..|].
    intros x Hx. by destruct (Hd x Hx).
Qed.
Next Obligation.
  intros s Hi. eapply wp_mono; [apply ReadRouterGroups_wp| |by sql_err Hi].
  intros l s' (Hu & Hrl & Hl). destruct (unchanged_view _ _ Hu Hi). split_and!; [done..|].
  apply group_map_lists; [apply Hi|done].
Qed.
Next Obligation.
  intros guid s Hi. apply wp_ReadRouterGroup; [apply Hi|by intros; split_and!| | |].
  - intros s' _ Hu Hm. destruct (unchanged_view _ _ Hu Hi). split_and!; [done..|]. by left.
  - intros r s' _ Hu Hr Hk Hne Hm. destruct (unchanged_view _ _ Hu Hi). split_and!; [done..|].
    right. split; [done|]. eexists. split; [exact Hm|]. subst guid. apply group_of_row.
  - intros e s' _ Hu _. destruct (unchanged_view _ _ Hu Hi). by split_and!.
Qed.
Next Obligation.
  intros name s Hi. apply wp_ReadRouterGroupByName; [apply Hi|by intros; split_and!| | |].
  - intros s' Hu Hm. destruct (unchanged_view _ _ Hu Hi). split_and!; [done..|]. left. split; [done|].
    intros guid t p Hg. apply table_map_Some in Hg as (r & Hr & _ & Hv); [|apply Hi].
    apply (Hm r Hr). by injection Hv.
  - intros r s' Hu Hr Hn Hne. destruct (unchanged_view _ _ Hu Hi). split_and!; [done..|].
    right. split_and!; [done|done|]. apply table_map_Some; [apply Hi|]. exists r. split_and!; [done|done|].
    unfold group_val. simpl. by rewrite <- Hn.
  - intros e s' Hu _. destruct (unchanged_view _ _ Hu Hi). by split_and!.
Qed.
Next Obligation.
  intros g s Hi Hne Hmodel. eapply wp_mono; [apply SaveRouterGroup_wp; [apply Hi|done|done]| |].
  - intros _ s' (_ & Hwl & Hb). destruct (group_step _ _ _ Hi Hb). by split_and!.
  - by sql_err Hi.
Qed.
Next Obligation.
  intros guid s Hi. eapply wp_mono; [apply DeleteRouterGroup_wp, Hi| |].
  - intros _ s' (_ & Hwl & Hs & Hb). destruct (group_step _ _ _ Hi Hb). by split_and!.
  - intros e s' (Hu & Hn & Hd). destruct (unchanged_view _ _ Hu Hi). split_and!; [done..|].
    intros x Hx. by destruct (Hd x Hx).
Qed.
End Implements.
