(* ===== verification/Http.v ===== *)
(** Http: the parts of net/http and encoding/json the handlers write through
    (response writer, headers, the text of a JSON document), the error responses
    of handlers/errors.go, and the header filter of handlers/middleware.go. *)
From Stdlib Require Import ZArith Lia Ascii.
From stdpp Require Import base option strings gmap list.
From S2P Require Import Prelude GoStrings Utf8 RouterGroups Routes Json JsonText JsonTextFacts Validator.

Local Open Scope string_scope.
Local Open Scope Z_scope.

(** ** Searching in text *)

(** The text before and after the first ([cut]) or the last ([cut_last])
    occurrence of [sub]. *)
Definition cut_here (sub s : string) : option (string * string) :=
  if HasPrefix s sub then Some ("", drop_string (String.length sub) s) else None.

Fixpoint cut (sub s : string) : option (string * string) :=
  match cut_here sub s with
  | Some r => Some r
  | None =>
      match s with
      | EmptyString => None
      | String c s' => match cut sub s' with Some (a, b) => Some (String c a, b) | None => None end
      end
  end.

Fixpoint cut_last (sub s : string) : option (string * string) :=
  match s with
  | EmptyString => cut_here sub ""
  | String c s' =>
      match cut_last sub s' with
      | Some (a, b) => Some (String c a, b)
      | None => cut_here sub s
      end
  end.

Definition Contains (s sub : string) : bool := match cut sub s with Some _ => true | None => false end.

(** [regexp.MustCompile(pre + ".*" + suf).ReplaceAll(s, repl)] on text without
    line breaks: the match starts at the first [pre] and, being greedy, ends
    at the last [suf] after it; nothing after that can match again. *)
Definition replace_span (pre suf repl s : string) : string :=
  match cut pre s with
  | None => s
  | Some (before, rest) =>
      match cut_last suf rest with
      | None => s
      | Some (_, after) => before +:+ repl +:+ after
      end
  end.

(** ** Headers and the response writer *)
Definition Header := gmap string (list string).

Definition Header_Set (k v : string) (h : Header) : Header := <[k := [v]]> h.
Definition Header_Add (k v : string) (h : Header) : Header := <[k := (default [] (h !! k) ++ [v])%list]> h.
Definition Header_Del (k : string) (h : Header) : Header := delete k h.

(** handlers/middleware.go: the headers that [LogWrap] logs ([filter]). *)
Definition header_filter (header : Header) : Header := Header_Del "Authorization" header.

(** [rw_sent] holds the status and the snapshot of the headers, taken by the
    first [WriteHeader]; later header changes and statuses are not sent. *)
Record ResponseWriter := mkRW {
  rw_header : Header;
  rw_sent : option (Z * Header);
  rw_body : list string
}.

Definition new_ResponseWriter : ResponseWriter := mkRW ∅ None [].

Definition rw_WriteHeader (code : Z) (w : ResponseWriter) : ResponseWriter :=
  match rw_sent w with
  | Some _ => w
  | None => mkRW (rw_header w) (Some (code, rw_header w)) (rw_body w)
  end.

Definition StatusOK : Z := 200.
Definition StatusCreated : Z := 201.
Definition StatusNoContent : Z := 204.
Definition StatusBadRequest : Z := 400.
Definition StatusUnauthorized : Z := 401.
Definition StatusNotFound : Z := 404.
Definition StatusInternalServerError : Z := 500.
Definition StatusServiceUnavailable : Z := 503.

(** [Write] sends a 200 status first when none was sent. *)
Definition rw_Write (bytes : string) (w : ResponseWriter) : ResponseWriter :=
  let w := rw_WriteHeader StatusOK w in
  mkRW (rw_header w) (rw_sent w) (rw_body w ++ [bytes])%list.

Definition rw_status (w : ResponseWriter) : option Z := fst <$> rw_sent w.

Definition rw_update_header (f : Header -> Header) (w : ResponseWriter) : ResponseWriter :=
  mkRW (f (rw_header w)) (rw_sent w) (rw_body w).

(** [url.QueryEscape]. *)
Definition unreserved (n : nat) : bool :=
  ((48 <=? n) && (n <=? 57) || (65 <=? n) && (n <=? 90) || (97 <=? n) && (n <=? 122) ||
   (n =? 45) || (n =? 46) || (n =? 95) || (n =? 126))%nat.

Definition upper_hex (n : nat) : ascii :=
  if (n <? 10)%nat then ascii_of_nat (48 + n) else ascii_of_nat (55 + n).

Fixpoint QueryEscape (s : string) : string :=
  match s with
  | EmptyString => ""
  | String c s' =>
      let n := nat_of_ascii c in
      (if bool_decide (n = 32%nat) then "+"
       else if unreserved n then String c ""
       else String "%" (String (upper_hex (n / 16)) (String (upper_hex (n mod 16)) ""))) +:+ QueryEscape s'
  end.

(** ** Requests *)
Record Request := mkRequest {
  req_Header : Header;
  req_Body : error + json;  (* the first JSON value of the body, or the read error *)
  req_Query : gmap string (list string);
  req_Param : gmap string string  (* the path parameters of rata *)
}.

Definition Header_Get (h : gmap string (list string)) (k : string) : string :=
  match h !! k with Some (v :: _) => v | _ => "" end.

(** ** The server

    [U] is the token validator's state; [totalTokenErrors] is the counter of
    the package metrics. *)
Record Server (D U : Type) := mkServer {
  sv_db : D;
  sv_uaa : U;
  totalTokenErrors : Z;
  sv_w : ResponseWriter
}.
Arguments mkServer {_ _} _ _ _ _.
Arguments sv_db {_ _} _.
Arguments sv_uaa {_ _} _.
Arguments totalTokenErrors {_ _} _.
Arguments sv_w {_ _} _.

(** [uaaclient.TokenValidator]. *)
Class TokenValidator (U : Type) := {
  uaa_ValidateToken : string -> list string -> Go U unit
}.

Section Server.
Context {D U : Type}.
Notation M := (Go (Server D U)).

Definition with_db (d : D) (s : Server D U) : Server D U :=
  mkServer d (sv_uaa s) (totalTokenErrors s) (sv_w s).

(** A call on the handler's [db]. *)
Definition on_db {A} (m : Go D A) : M A := zoom sv_db with_db m.

Definition on_w (f : ResponseWriter -> ResponseWriter) : M unit :=
  modify (fun s => mkServer (sv_db s) (sv_uaa s) (totalTokenErrors s) (f (sv_w s))).

Definition WriteHeader (code : Z) : M unit := on_w (rw_WriteHeader code).
Definition Write (bytes : string) : M unit := on_w (rw_Write bytes).
Definition SetHeader (k v : string) : M unit := on_w (rw_update_header (Header_Set k v)).

(** [json.NewEncoder(w).Encode(v)]. *)
Definition Encode (v : json) : M unit := Write (json_text v +:+ newline).

(** [atomic.AddInt64(&totalTokenErrors, 1)]. *)
Definition IncrementTokenError : M unit :=
  modify (fun s => mkServer (sv_db s) (sv_uaa s) (i64 (totalTokenErrors s + 1)) (sv_w s)).

(** *** handlers/errors.go *)
Definition marshalRoutingApiError (err : ApiError) : string := json_text (json_of_ApiError err).

Definition error_response (code : Z) (err : ApiError) : M unit :=
  let retErr := marshalRoutingApiError err in
  _ ← WriteHeader code; Write retErr.

Definition handleProcessRequestError (procErr : error) : M unit :=
  error_response StatusBadRequest
    (NewError ProcessRequestError ("Cannot process request: " +:+ Error_string procErr)).

Definition handleNotFoundError (err : error) : M unit :=
  error_response StatusNotFound (NewError ResourceNotFoundError (Error_string err)).

Definition handleApiError (apiErr : ApiError) : M unit :=
  error_response StatusBadRequest apiErr.

Definition handleDBCommunicationError (err : error) : M unit :=
  error_response StatusServiceUnavailable (NewError DBCommunicationError (Error_string err)).

Definition handleGuidGenerationError (err : error) : M unit :=
  error_response StatusInternalServerError (NewError GuidGenerationError (Error_string err)).

(** The body of a 401: the scopes the token lacks are not told. *)
Definition unauthorized_body (err : error) : string :=
  let retErr := marshalRoutingApiError (NewError UnauthorizedError (Error_string err)) in
  if Contains retErr "Token does not have "
  then replace_span "Token does not have " " scope"
         "You are not authorized to perform the requested action" retErr
  else retErr.

Definition handleUnauthorizedError (err : error) : M unit :=
  _ ← IncrementTokenError;
  _ ← WriteHeader StatusUnauthorized;
  Write (unauthorized_body err).

(** *** The token check that opens every handler *)
Context `{!TokenValidator U}.

Definition ValidateToken (req : Request) (scope : string) : M (option error) := fun s =>
  let with_u u := mkServer (sv_db s) u (totalTokenErrors s) (sv_w s) in
  match uaa_ValidateToken (Header_Get (req_Header req) "Authorization") [scope] (sv_uaa s) with
  | Ok _ u => Ok None (with_u u)
  | Fail err u => Ok (Some err) (with_u u)
  | Panic m u => Panic m (with_u u)
  end.

Definition authorized (req : Request) (scope : string) (body : M unit) : M unit :=
  err ← ValidateToken req scope;
  match err with
  | Some err => handleUnauthorizedError err
  | None => body
  end.
End Server.

(** ** What a token error tells *)

Lemma cut_last_app_tail sub tail a b c :
  cut_last sub tail = Some (a, b) -> cut_last sub (c +:+ tail) = Some (c +:+ a, b).
Proof.
  intros H. induction c as [|x c IH]; [done|].
  change (String x c +:+ tail) with (String x (c +:+ tail)). simpl. by rewrite IH.
Qed.

Lemma concat_app (xs ys : list string) : concat (xs ++ ys) = concat xs +:+ concat ys.
Proof. induction xs as [|x xs IH]; [done|]. simpl. rewrite IH. by rewrite string_app_assoc. Qed.

(** Escaping splits in front of an ASCII byte. *)
Lemma json_escape_app a c b :
  ascii_byte c = true -> json_escape (a +:+ String c b) = json_escape a +:+ json_escape (String c b).
Proof. intros Hc. unfold json_escape. by rewrite runes_app_ascii, fmap_app, concat_app. Qed.

(** Whatever scopes were asked for, the body is the same. *)
Lemma unauthorized_body_hides p :
  unauthorized_body (errors_New ("Token does not have '" +:+ p +:+ "' scope")) =
  marshalRoutingApiError (NewError UnauthorizedError "You are not authorized to perform the requested action").
Proof.
  unfold unauthorized_body, marshalRoutingApiError. cbn [Error_string].
  set (head := "{" +:+ json_string "name" +:+ ":" +:+ json_string UnauthorizedError +:+ "," +:+
               json_string "message" +:+ ":" +:+ quote).
  set (rest := "'" +:+ json_escape p +:+ "' scope" +:+ quote +:+ "}").
  assert (forall m, json_text (json_of_ApiError (NewError UnauthorizedError m)) =
    head +:+ json_escape m +:+ quote +:+ "}") as Htext.
  { intros m. subst head. unfold json_of_ApiError. rewrite json_text_JObj. cbn [fmap list_fmap Join].
    unfold member_text. cbn [fst snd json_text]. unfold json_string. by rewrite !string_app_assoc. }
  rewrite !Htext.
  assert (json_escape ("Token does not have '" +:+ p +:+ "' scope") = "Token does not have '" +:+ json_escape p +:+ "' scope")
    as ->.
  { change (json_escape ("Token does not have '" +:+ p +:+ "' scope"))
      with ("Token does not have '" +:+ json_escape (p +:+ String "'" " scope")).
    by rewrite json_escape_app. }
  assert (head +:+ ("Token does not have '" +:+ json_escape p +:+ "' scope") +:+ quote +:+ "}" =
    head +:+ "Token does not have " +:+ rest) as ->.
  { subst rest. by rewrite !string_app_assoc. }
  assert (cut "Token does not have " (head +:+ "Token does not have " +:+ rest) = Some (head, rest)) as Hcut.
  { generalize rest. intros [|c r]; reflexivity. }
  unfold Contains, replace_span. rewrite Hcut.
  assert (cut_last " scope" rest = Some ("'" +:+ json_escape p +:+ "'", quote +:+ "}")) as ->; [|done].
  subst rest.
  replace ("'" +:+ json_escape p +:+ "' scope" +:+ quote +:+ "}")
    with (("'" +:+ json_escape p +:+ "'") +:+ " scope" +:+ quote +:+ "}") by (by rewrite !string_app_assoc).
  rewrite (cut_last_app_tail _ _ "" (quote +:+ "}")) by reflexivity.
  do 2 f_equal. rewrite !string_app_assoc. done.
Qed.
