(* ===== verification/Sse.v ===== *)
(** Sse: server-sent events, github.com/vito/go-sse/sse: [Event.Write] and
    [ReadCloser] (event.go, read_closer.go), with the round trip from the events
    a stream wrote to the events a reader of its text gets. *)
From Stdlib Require Import ZArith Lia Ascii.
From stdpp Require Import base option strings list.
From S2P Require Import Prelude GoStrings Utf8 RouterGroups Routes Json JsonText JsonTextFacts.

Local Open Scope string_scope.
Local Open Scope list_scope.
Local Open Scope Z_scope.

(** [sse.Event]; [Retry] is a duration in nanoseconds. *)
Record sse_event := mkSse { sse_ID : string; sse_Name : string; sse_Data : string; sse_Retry : Z }.

#[export] Instance sse_event_eq_dec : EqDecision sse_event.
Proof. solve_decision. Defined.

Definition LF : ascii := ascii_of_nat 10.
Definition CR : ascii := ascii_of_nat 13.

(** ** Writing *)
Definition data_line (line : string) : string := if bool_decide (line = "") then "data" else "data: " +:+ line.

(** The lines of the encoded event; the last one is empty. *)
Definition sse_lines (event : sse_event) : list string :=
  ["id: " +:+ sse_ID event; "event: " +:+ sse_Name event] ++
  (if sse_Retry event =? 0 then [] else ["retry: " +:+ Itoa (Z.quot (Z.quot (sse_Retry event) 1000) 1000)]) ++
  (data_line <$> Split LF (sse_Data event)) ++ [""].

Definition unlines (ls : list string) : string := concat ((fun l => l +:+ newline) <$> ls).

Definition sse_Write (event : sse_event) : string := unlines (sse_lines event).

(** ** Reading *)
Fixpoint trim_CR (s : string) : string :=
  match s with
  | EmptyString => ""
  | String c EmptyString => if bool_decide (c = CR) then "" else s
  | String c s' => String c (trim_CR s')
  end.

(** The complete lines of the text received, and what follows the last one. *)
Fixpoint complete_lines (text : string) : list string * string :=
  match text with
  | EmptyString => ([], "")
  | String c text' =>
      let '(ls, partial) := complete_lines text' in
      if bool_decide (c = LF) then ("" :: ls, partial)
      else match ls with
           | [] => ([], String c partial)
           | l :: ls' => (String c l :: ls', partial)
           end
  end.

(** [bytes.SplitN(line, ":", 2)], then one leading space of the value trimmed. *)
Fixpoint split_field (line : string) : string * string :=
  match line with
  | EmptyString => ("", "")
  | String c line' =>
      if bool_decide (c = ":"%char) then ("", line')
      else let '(field, value) := split_field line' in (String c field, value)
  end.

Definition trim_space (value : string) : string :=
  match value with
  | String c value' => if bool_decide (c = " "%char) then value' else value
  | EmptyString => ""
  end.

Definition Millisecond : Z := 1000000.

(** One field of the event; [true] when it is the id. *)
Definition set_field (field value : string) (event : sse_event) (idPresent : bool) : sse_event * bool :=
  let 'mkSse id name data retry := event in
  if bool_decide (field = "id") then (mkSse value name data retry, true)
  else if bool_decide (field = "event") then (mkSse id value data retry, idPresent)
  else if bool_decide (field = "data") then (mkSse id name (data +:+ value +:+ newline) retry, idPresent)
  else if bool_decide (field = "retry") then
    (mkSse id name data (match Atoi value with Some ms => i64 (ms * Millisecond) | None => retry end), idPresent)
  else (event, idPresent).

Fixpoint drop_last (s : string) : string :=
  match s with
  | EmptyString => ""
  | String _ EmptyString => ""
  | String c s' => String c (drop_last s')
  end.

(** The loop of [Next] over the lines read so far: the event, the last ID and
    the lines left, or [None] when the lines run out first. *)
Fixpoint next_loop (lines : list string) (event : sse_event) (idPresent : bool) (lastID : string)
    : option (sse_event * string * list string) :=
  match lines with
  | [] => None
  | raw :: lines' =>
      let line := trim_CR raw in
      match line with
      | EmptyString =>
          if bool_decide (sse_Data event = "") then next_loop lines' event idPresent lastID
          else Some (mkSse (sse_ID event) (sse_Name event) (drop_last (sse_Data event)) (sse_Retry event),
                     if idPresent then sse_ID event else lastID, lines')
      | String c _ =>
          if bool_decide (c = ":"%char) then next_loop lines' event idPresent lastID
          else
            let '(field, value) := split_field line in
            let '(event', idPresent') := set_field field (trim_space value) event idPresent in
            next_loop lines' event' idPresent' lastID
      end
  end.

(** [ReadCloser]: the complete lines that have arrived and are unread, and how
    the body ended ([None]: it is open).  An unterminated line at the end cannot
    complete an event. *)
Record ReadCloser := mkReadCloser {
  rc_lastID : string;
  rc_lines : list string;
  rc_end : option error;
  rc_closed : bool
}.

Definition NewReadCloser (text : string) (e : option error) : ReadCloser :=
  mkReadCloser "" (fst (complete_lines text)) e false.

Inductive sse_next := SseEvent (event : sse_event) | SseErr (err : error) | SseBlocks.

(** [ReadCloser.Next]. *)
Definition rc_Next (rc : ReadCloser) : sse_next * ReadCloser :=
  match next_loop (rc_lines rc) (mkSse (rc_lastID rc) "" "" 0) false (rc_lastID rc) with
  | Some (event, lastID, rest) => (SseEvent event, mkReadCloser lastID rest (rc_end rc) (rc_closed rc))
  | None =>
      match rc_end rc with
      | Some err => (SseErr err, mkReadCloser (rc_lastID rc) [] (rc_end rc) (rc_closed rc))
      | None => (SseBlocks, rc)
      end
  end.

Definition alreadyClosedError : error := errors_New "ReadCloser already closed".

(** [ReadCloser.Close]; closing the response body succeeds. *)
Definition rc_Close (rc : ReadCloser) : option error * ReadCloser :=
  if rc_closed rc then (Some alreadyClosedError, rc)
  else (None, mkReadCloser (rc_lastID rc) (rc_lines rc) (rc_end rc) true).

(** ** Round trip *)

(** No line end inside, so the text is one line. *)
Definition one_line (s : string) : bool := negb (string_mem LF s || string_mem CR s).

(** An event that survives the trip: identifier and name on one line, no
    carriage return in the data, a retry of whole milliseconds. *)
Definition sse_ok (e : sse_event) : Prop :=
  one_line (sse_ID e) = true /\ one_line (sse_Name e) = true /\ string_mem CR (sse_Data e) = false /\
  exists ms, is_u16 ms /\ sse_Retry e = ms * Millisecond.

Lemma one_line_iff s : one_line s = true <-> string_mem LF s = false /\ string_mem CR s = false.
Proof. unfold one_line. rewrite negb_true_iff, orb_false_iff. done. Qed.

Lemma complete_lines_line l text :
  string_mem LF l = false -> complete_lines (l +:+ String LF text) = (l :: fst (complete_lines text), snd (complete_lines text)).
Proof.
  induction l as [|c l IH]; intros Hl.
  - change ("" +:+ ?t) with t. cbn [complete_lines]. destruct (complete_lines text). by rewrite bool_decide_eq_true_2.
  - simpl in Hl. apply orb_false_iff in Hl as [Hc%bool_decide_eq_false Hl].
    change (String c l +:+ String LF text) with (String c (l +:+ String LF text)). cbn [complete_lines].
    rewrite (IH Hl). by rewrite bool_decide_eq_false_2.
Qed.

Lemma complete_unlines ls text :
  Forall (fun l => string_mem LF l = false) ls ->
  complete_lines (unlines ls +:+ text) = (ls ++ fst (complete_lines text), snd (complete_lines text)).
Proof.
  induction 1 as [|l ls Hl _ IH]; [change (unlines [] +:+ text) with text; by destruct (complete_lines text)|]. unfold unlines in *. csimpl.
  rewrite !string_app_assoc. change (newline +:+ ?t) with (String LF t). rewrite complete_lines_line by done. by rewrite IH.
Qed.

Lemma trim_CR_none s : string_mem CR s = false -> trim_CR s = s.
Proof.
  induction s as [|c s IH]; [done|]. intros H. simpl in H. apply orb_false_iff in H as [Hc%bool_decide_eq_false Hs].
  cbn [trim_CR]. rewrite IH by done. destruct s; [|done]. by rewrite bool_decide_eq_false_2.
Qed.

Lemma string_mem_Split c sep s l : l ∈ Split sep s -> string_mem c s = false -> string_mem c l = false.
Proof.
  revert l. induction s as [|d s IH]; intros l Hl Hs; simpl in *; [apply list_elem_of_singleton in Hl as ->; done|].
  apply orb_false_iff in Hs as [Hd%bool_decide_eq_false Hs]. case_bool_decide.
  - apply elem_of_cons in Hl as [->|Hl]; [done|]. by apply IH.
  - destruct (Split_cons sep s) as (f & fs & E). rewrite E in *.
    apply elem_of_cons in Hl as [->|Hl]; [simpl; rewrite bool_decide_eq_false_2 by done; apply IH; [left|done]|apply IH; [by right|done]].
Qed.

Lemma sep_Split sep s l : l ∈ Split sep s -> string_mem sep l = false.
Proof.
  revert l. induction s as [|d s IH]; intros l Hl; simpl in *; [apply list_elem_of_singleton in Hl as ->; done|].
  case_bool_decide as Hd.
  - apply elem_of_cons in Hl as [->|Hl]; [done|]. by apply IH.
  - destruct (Split_cons sep s) as (f & fs & E). rewrite E in *.
    apply elem_of_cons in Hl as [->|Hl]; [|apply IH; by right].
    simpl. rewrite bool_decide_eq_false_2 by congruence. apply IH. left.
Qed.

(** The lines of the data, each with its end, less the last end. *)
Lemma Split_concat sep s : Join (String sep "") (Split sep s) = s.
Proof.
  induction s as [|c s IH]; [done|]. simpl. destruct (Split_cons sep s) as (f & fs & E). rewrite E in *.
  case_bool_decide as Hc.
  - subst c. rewrite Join_cons2, IH. done.
  - destruct fs as [|f' fs]; [simpl in *; by rewrite IH|]. rewrite Join_cons2 in *.
    change (String c f +:+ ?t) with (String c (f +:+ t)). by rewrite IH.
Qed.

Lemma drop_last_snoc s c : drop_last (s +:+ String c "") = s.
Proof.
  induction s as [|d s IH]; [done|]. change (String d s +:+ ?t) with (String d (s +:+ t)). cbn [drop_last].
  rewrite IH. by destruct s.
Qed.

Lemma unlines_Join ls : ls <> [] -> unlines ls = Join newline ls +:+ newline.
Proof.
  induction ls as [|l [|l' ls] IH]; intros H; [done|unfold unlines; csimpl; by rewrite string_app_nil|].
  rewrite Join_cons2. unfold unlines in *. rewrite fmap_cons. cbn [concat]. rewrite IH by done. by rewrite !string_app_assoc.
Qed.

(** *** One event *)
Lemma split_field_app field value :
  string_mem ":" field = false -> split_field (field +:+ String ":" value) = (field, value).
Proof.
  induction field as [|c field IH]; intros H; [done|]. simpl in H. apply orb_false_iff in H as [Hc%bool_decide_eq_false H].
  change (String c field +:+ ?t) with (String c (field +:+ t)). cbn [split_field].
  rewrite bool_decide_eq_false_2 by congruence. by rewrite IH.
Qed.

(** A line [field: value] sets the field. *)
Lemma next_field (c : ascii) field value lines event p lastID :
  string_mem ":" (String c field) = false -> string_mem CR (String c field) = false -> string_mem CR value = false ->
  next_loop ((String c field +:+ ": " +:+ value) :: lines) event p lastID =
  next_loop lines (fst (set_field (String c field) value event p)) (snd (set_field (String c field) value event p)) lastID.
Proof.
  intros Hcol Hf Hv. cbn [next_loop].
  rewrite trim_CR_none by (rewrite !string_mem_app, Hf, Hv; done).
  change (String c field +:+ ": " +:+ value) with (String c (field +:+ ": " +:+ value)) at 1.
  pose proof Hcol as Hc. simpl in Hc. apply orb_false_iff in Hc as [Hc%bool_decide_eq_false _].
  cbn iota. rewrite bool_decide_eq_false_2 by congruence.
  change (": " +:+ value) with (String ":" (" " +:+ value)). rewrite split_field_app by done.
  change (trim_space (" " +:+ value)) with value. by destruct (set_field _ _ _ _).
Qed.

Lemma next_data ls lines id name data retry p lastID :
  Forall (fun l => string_mem CR l = false) ls ->
  next_loop ((data_line <$> ls) ++ lines) (mkSse id name data retry) p lastID =
  next_loop lines (mkSse id name (data +:+ unlines ls) retry) p lastID.
Proof.
  intros Hls. revert data. induction Hls as [|l ls Hl _ IH]; intros data.
  { change (unlines []) with "". by rewrite string_app_nil. }
  rewrite fmap_cons. cbn [app]. unfold data_line at 1. transitivity
    (next_loop ((data_line <$> ls) ++ lines) (mkSse id name (data +:+ l +:+ newline) retry) p lastID).
  - case_bool_decide as H; [by rewrite H|]. by rewrite (next_field "d" "ata" l).
  - rewrite IH. unfold unlines. rewrite fmap_cons. cbn [concat]. by rewrite !string_app_assoc.
Qed.

Lemma next_event e lines lastID :
  sse_ok e ->
  next_loop (sse_lines e ++ lines) (mkSse lastID "" "" 0) false lastID = Some (e, sse_ID e, lines).
Proof.
  destruct e as [id name data retry]. intros (Hid & Hname & Hdata & ms & Hms & Hretry).
  cbn [sse_ID sse_Name sse_Data sse_Retry] in *.
  apply one_line_iff in Hid as [_ Hid], Hname as [_ Hname]. unfold sse_lines. cbn [sse_ID sse_Name sse_Data sse_Retry].
  rewrite <- !(assoc_L (++)). cbn [app].
  change ("id: " +:+ id) with ("id" +:+ ": " +:+ id). change ("event: " +:+ name) with ("event" +:+ ": " +:+ name).
    rewrite (next_field "i" "d" id) by done. rewrite (next_field "e" "vent" name) by done.
  simpl set_field. cbn [fst snd].
  transitivity (next_loop ((data_line <$> Split LF data) ++ "" :: lines) (mkSse id name "" retry) true lastID).
  - destruct (Z.eqb_spec retry 0) as [->|Hne]; [done|]. cbn [app].
    assert (Itoa (Z.quot (Z.quot retry 1000) 1000) = Itoa ms) as ->.
    { f_equal. rewrite Hretry. unfold Millisecond. rewrite Z.quot_quot by lia. apply Z.quot_mul. lia. }
    change ("retry: " +:+ Itoa ms) with ("retry" +:+ ": " +:+ Itoa ms).
    rewrite (next_field "r" "etry" (Itoa ms)); [|done|done|apply Itoa_no_char; [done|unfold is_u16 in Hms; lia]].
    cbn. rewrite Atoi_Itoa by done. rewrite i64_id; [by rewrite Hretry|].
    unfold is_u16, is_i64, Millisecond in *. lia.
  - rewrite next_data; [|apply Forall_forall; intros l Hl; by eapply string_mem_Split].
    change ("" +:+ unlines (Split LF data)) with (unlines (Split LF data)).
    rewrite unlines_Join by apply Split_nonempty. change newline with (String LF ""). rewrite Split_concat.
    cbn [next_loop trim_CR sse_Data]. rewrite bool_decide_eq_false_2 by (by destruct data).
    rewrite drop_last_snoc. done.
Qed.

Lemma data_line_LF l : string_mem LF l = false -> string_mem LF (data_line l) = false.
Proof. intros Hl. unfold data_line. case_bool_decide; [done|]. rewrite string_mem_app. by rewrite Hl. Qed.

Lemma sse_lines_LF e : sse_ok e -> Forall (fun l => string_mem LF l = false) (sse_lines e).
Proof.
  intros (Hid & Hname & _ & ms & Hms & Hretry). apply one_line_iff in Hid as [Hid _], Hname as [Hname _].
  unfold sse_lines. rewrite !Forall_app, !Forall_cons, !string_mem_app, Hid, Hname. split_and!; try done.
  - destruct (Z.eqb_spec (sse_Retry e) 0); [constructor|]. apply Forall_singleton. rewrite string_mem_app.
    rewrite Itoa_no_char; [done|done|]. rewrite Hretry. unfold is_u16, Millisecond in *.
    rewrite Z.quot_quot by lia. rewrite Z.quot_mul by lia. lia.
  - apply Forall_fmap, Forall_forall. intros l Hl. simpl. eapply data_line_LF, sep_Split, Hl.
Qed.

(** Reading the text of events [es], followed by anything, [length es] times:
    the events come back, in order. *)
Fixpoint rc_NextN (n : nat) (rc : ReadCloser) : list sse_next * ReadCloser :=
  match n with
  | O => ([], rc)
  | S n' =>
      let '(r, rc1) := rc_Next rc in
      let '(rs, rc2) := rc_NextN n' rc1 in (r :: rs, rc2)
  end.

Lemma rc_Next_lines e rest lastID en cl :
  sse_ok e ->
  rc_Next (mkReadCloser lastID (sse_lines e ++ rest) en cl) = (SseEvent e, mkReadCloser (sse_ID e) rest en cl).
Proof. intros He. unfold rc_Next. cbn [rc_lines rc_lastID rc_end rc_closed]. by rewrite next_event. Qed.

Definition last_ID (lastID : string) (es : list sse_event) : string := default lastID (sse_ID <$> last es).

Lemma rc_NextN_lines es rest lastID en cl :
  Forall sse_ok es ->
  rc_NextN (length es) (mkReadCloser lastID (mjoin (sse_lines <$> es) ++ rest) en cl) =
  (SseEvent <$> es, mkReadCloser (last_ID lastID es) rest en cl).
Proof.
  intros Hes. revert lastID. induction Hes as [|e es He _ IH]; intros lastID; [done|].
  rewrite fmap_cons. cbn [mjoin list_join length rc_NextN]. rewrite <- (assoc_L (++)), rc_Next_lines by done.
  rewrite IH. unfold last_ID. rewrite last_cons. by destruct (last es).
Qed.

Lemma complete_lines_events es text :
  Forall sse_ok es ->
  fst (complete_lines (concat (sse_Write <$> es) +:+ text)) = mjoin (sse_lines <$> es) ++ fst (complete_lines text).
Proof.
  induction 1 as [|e es He _ IH]; [done|]. rewrite !fmap_cons. cbn [concat mjoin list_join].
  rewrite string_app_assoc. unfold sse_Write at 1. rewrite complete_unlines by (by apply sse_lines_LF). simpl.
  rewrite IH. by rewrite (assoc_L (++)).
Qed.

(** What a stream wrote is what its reader gets, in order; then the reader waits
    for more, or gets the error that ended the body. *)
Lemma sse_roundtrip es en :
  Forall sse_ok es ->
  exists rc, rc_NextN (length es) (NewReadCloser (concat (sse_Write <$> es)) en) = (SseEvent <$> es, rc) /\
    fst (rc_Next rc) = match en with Some err => SseErr err | None => SseBlocks end.
Proof.
  intros Hes. unfold NewReadCloser. rewrite <- (string_app_nil (concat _)), complete_lines_events by done.
  rewrite rc_NextN_lines by done. eexists. split; [reflexivity|]. unfold rc_Next. simpl. by destruct en.
Qed.
