(* ===== verification/Handlers.v ===== *)
(** Handlers: the HTTP API of handlers/routes_handler.go,
    handlers/tcp_route_mappings_handler.go and
    handlers/router_groups_handler.go, against the [db.DB] interface. *)
From Stdlib Require Import ZArith Lia.
From stdpp Require Import base option strings gmap list.
From S2P Require Import JsonText.
From S2P Require Import Prelude GoStrings RouterGroups Routes Json SqlDB Contract Validator Http.

Local Open Scope string_scope.
Local Open Scope Z_scope.

(** handlers/scopes.go *)
Definition RouterGroupsReadScope := "routing.router_groups.read".
Definition RouterGroupsWriteScope := "routing.router_groups.write".
Definition RoutingRoutesReadScope := "routing.routes.read".
Definition RoutingRoutesWriteScope := "routing.routes.write".

Definition portWarning : string :=
  "Warning: if routes are registered for ports that are not " +:+
  "in the new range, modifying your load balancer to remove these ports will " +:+
  "result in backends for those routes becoming inaccessible.".

(** [decoder.Decode(&v)] on the request body. *)
Definition Decode {A} (dec : json -> error + A) (req : Request) : error + A :=
  match req_Body req with
  | inl err => inl err
  | inr v => dec v
  end.

(** [dberr, ok := err.(db.DBError); !ok || dberr.Type != db.KeyNotFound]. *)
Definition not_key_not_found (err : error) : bool :=
  match err with
  | db_error dberr => bool_decide (DBError_Type dberr <> KeyNotFound)
  | _ => true
  end.

Section Handlers.
Context {D U : Type} `{!DB D, !Env D, !TokenValidator U, !NetUrl}.
Context (gl : Globals) (maxTTL : Z).
Notation M := (Go (Server D U)).

(** *** HTTP routes *)

Definition Routes_List (req : Request) : M unit :=
  authorized req RoutingRoutesReadScope (
    r ← try (on_db db_ReadRoutes);
    match r with
    | inl err => handleDBCommunicationError err
    | inr routes => Encode (JArr (json_of_Route <$> routes))
    end).

Fixpoint save_routes (routes : list Route) : M unit :=
  match routes with
  | [] => WriteHeader StatusCreated
  | route :: routes' =>
      r ← try (on_db (db_SaveRoute route));
      match r with
      | inl err => handleDBCommunicationError err
      | inr _ => save_routes routes'
      end
  end.

Definition Routes_Upsert (req : Request) : M unit :=
  authorized req RoutingRoutesWriteScope (
    match Decode (dec_slice Unmarshal_Route) req with
    | inl err => handleProcessRequestError err
    | inr routes =>
        let routes := Route_SetDefaults maxTTL <$> routes in
        apiErr ← ValidateCreate routes maxTTL;
        match apiErr with
        | Some apiErr => handleApiError apiErr
        | None => save_routes routes
        end
    end).

Fixpoint delete_routes (routes : list Route) : M unit :=
  match routes with
  | [] => WriteHeader StatusNoContent
  | route :: routes' =>
      r ← try (on_db (db_DeleteRoute route));
      match r with
      | inl err =>
          if not_key_not_found err then handleDBCommunicationError err else delete_routes routes'
      | inr _ => delete_routes routes'
      end
  end.

Definition Routes_Delete (req : Request) : M unit :=
  authorized req RoutingRoutesWriteScope (
    match Decode (dec_slice Unmarshal_Route) req with
    | inl err => handleProcessRequestError err
    | inr routes =>
        match ValidateDelete routes with
        | Some apiErr => handleApiError apiErr
        | None => delete_routes routes
        end
    end).

(** *** TCP route mappings *)

Definition Tcp_List (req : Request) : M unit :=
  authorized req RoutingRoutesReadScope (
    let segments := default [] (req_Query req !! "isolation_segment") in
    r ← try (on_db (match segments with
                    | [] => db_ReadTcpRouteMappings
                    | _ => db_ReadFilteredTcpRouteMappings "isolation_segment" segments
                    end));
    match r with
    | inl err => handleDBCommunicationError err
    | inr routes => Encode (JArr (json_of_Tcp <$> routes))
    end).

Fixpoint save_tcp (ms : list TcpRouteMapping) : M unit :=
  match ms with
  | [] => WriteHeader StatusCreated
  | m :: ms' =>
      r ← try (on_db (db_SaveTcpRouteMapping m));
      match r with
      | inl err => handleDBCommunicationError err
      | inr _ => save_tcp ms'
      end
  end.

(** The validation loop, then [k]. *)
Fixpoint validate_tcp (routerGroups : list RouterGroup) (ms : list TcpRouteMapping) (k : M unit) : M unit :=
  match ms with
  | [] => k
  | m :: ms' =>
      let sniHostName := default "" (TM_SniHostname (Tcp_Entity m)) in
      r ← try (on_db (db_FindSimilarTcpRouteMappings sniHostName (TM_ExternalPort (Tcp_Entity m))));
      match r with
      | inl err => handleDBCommunicationError err
      | inr similar =>
          apiErr ← ValidateCreateTcpRouteMapping m similar routerGroups maxTTL;
          match apiErr with
          | Some apiErr => handleProcessRequestError (api_error apiErr)
          | None => validate_tcp routerGroups ms' k
          end
      end
  end.

Definition Tcp_Upsert (req : Request) : M unit :=
  authorized req RoutingRoutesWriteScope (
    match Decode (dec_slice Unmarshal_Tcp) req with
    | inl err => handleProcessRequestError err
    | inr tcpMappings =>
        let tcpMappings := Tcp_SetDefaults maxTTL <$> tcpMappings in
        r ← try (on_db db_ReadRouterGroups);
        match r with
        | inl err => handleDBCommunicationError err
        | inr routerGroups => validate_tcp routerGroups tcpMappings (save_tcp tcpMappings)
        end
    end).

Fixpoint delete_tcp (ms : list TcpRouteMapping) : M unit :=
  match ms with
  | [] => WriteHeader StatusNoContent
  | m :: ms' =>
      r ← try (on_db (db_DeleteTcpRouteMapping m));
      match r with
      | inl err =>
          if not_key_not_found err then handleDBCommunicationError err else delete_tcp ms'
      | inr _ => delete_tcp ms'
      end
  end.

Definition Tcp_Delete (req : Request) : M unit :=
  authorized req RoutingRoutesWriteScope (
    match Decode (dec_slice Unmarshal_Tcp) req with
    | inl err => handleProcessRequestError err
    | inr tcpMappings =>
        apiErr ← ValidateDeleteTcpRouteMapping tcpMappings;
        match apiErr with
        | Some apiErr => handleProcessRequestError (api_error apiErr)
        | None => delete_tcp tcpMappings
        end
    end).

(** *** Router groups *)

Definition write_json (v : json) : M unit :=
  let jsonBytes := json_text v in
  _ ← SetHeader "Content-Type" "application/json";
  _ ← WriteHeader StatusOK;
  _ ← Write jsonBytes;
  SetHeader "Content-Length" (Itoa (Z.of_nat (String.length jsonBytes))).

(** With a name, the group is compared with the zero group before the error
    is looked at; [ReadRouterGroupByName] returns the zero group with every
    error. *)
Definition ListRouterGroups (req : Request) : M unit :=
  authorized req RouterGroupsReadScope (
    let routerGroupName := Header_Get (req_Query req) "name" in
    if bool_decide (routerGroupName <> "") then
      r ← try (on_db (db_ReadRouterGroupByName routerGroupName));
      let rg := match r with inr rg => rg | inl _ => zero_RouterGroup end in
      if bool_decide (rg = zero_RouterGroup)
      then handleNotFoundError (errors_New ("router group '" +:+ routerGroupName +:+ "' not found"))
      else match r with
           | inl err => handleDBCommunicationError err
           | inr _ => write_json (JArr [json_of_RouterGroup rg])
           end
    else
      r ← try (on_db db_ReadRouterGroups);
      match r with
      | inl err => handleDBCommunicationError err
      | inr routerGroups => write_json (JArr (json_of_RouterGroup <$> routerGroups))
      end).

Definition addWarningsHeader : M unit := SetHeader "X-Cf-Warnings" (QueryEscape portWarning).

Definition with_ports (rg : RouterGroup) (ports : string) : RouterGroup :=
  mkRouterGroup (RG_Model rg) (RG_Guid rg) (RG_Name rg) (RG_Type rg) ports.

Definition UpdateRouterGroup (req : Request) : M unit :=
  authorized req RouterGroupsWriteScope (
    match Decode Unmarshal_RouterGroup req with
    | inl err => handleProcessRequestError err
    | inr updatedGroup =>
        let guid := default "" (req_Param req !! "guid") in
        r ← try (on_db (db_ReadRouterGroup guid));
        match r with
        | inl err => handleDBCommunicationError err
        | inr rg =>
            if bool_decide (rg = zero_RouterGroup)
            then handleNotFoundError (errors_New ("router group '" +:+ guid +:+ "' does not exist"))
            else if bool_decide (RG_ReservablePorts rg <> RG_ReservablePorts updatedGroup) then
              let rg := with_ports rg (RG_ReservablePorts updatedGroup) in
              match RouterGroup_Validate gl rg with
              | Some err => handleProcessRequestError err
              | None =>
                  r ← try (on_db (db_SaveRouterGroup rg));
                  match r with
                  | inl err => handleDBCommunicationError err
                  | inr _ => _ ← addWarningsHeader; write_json (json_of_RouterGroup rg)
                  end
              end
            else (_ ← addWarningsHeader; write_json (json_of_RouterGroup rg))
        end
    end).

Definition DeleteRouterGroup_handler (req : Request) : M unit :=
  authorized req RouterGroupsWriteScope (
    let guid := default "" (req_Param req !! "guid") in
    r ← try (on_db (db_DeleteRouterGroup guid));
    match r with
    | inl err =>
        if not_key_not_found err then handleDBCommunicationError err
        else (_ ← WriteHeader StatusNotFound; SetHeader "Content-Length" "0")
    | inr _ => _ ← WriteHeader StatusNoContent; SetHeader "Content-Length" "0"
    end).

Definition writeRouterGroupResponse (rg : RouterGroup) : M unit :=
  let jsonBytes := json_text (json_of_RouterGroup rg) in
  _ ← SetHeader "Content-Type" "application/json";
  _ ← Write jsonBytes;
  SetHeader "Content-Length" (Itoa (Z.of_nat (String.length jsonBytes))).

Fixpoint routerGroupExist (rgs : list RouterGroup) (rg : RouterGroup) : option RouterGroup :=
  match rgs with
  | [] => None
  | r :: rgs' =>
      if bool_decide (RG_Name r = RG_Name rg) && bool_decide (RG_Type r = RG_Type rg)
      then Some r else routerGroupExist rgs' rg
  end.

Definition with_guid (rg : RouterGroup) (guid : string) : RouterGroup :=
  mkRouterGroup (RG_Model rg) guid (RG_Name rg) (RG_Type rg) (RG_ReservablePorts rg).

Definition CreateRouterGroup (req : Request) : M unit :=
  authorized req RouterGroupsWriteScope (
    match Decode Unmarshal_RouterGroup req with
    | inl err => handleProcessRequestError err
    | inr rg =>
        r ← try (on_db db_ReadRouterGroups);
        match r with
        | inl err => handleDBCommunicationError err
        | inr routerGroups =>
            match routerGroupExist routerGroups rg with
            | Some existingRg => _ ← WriteHeader StatusOK; writeRouterGroupResponse existingRg
            | None =>
                r ← try (on_db new_uuid);
                match r with
                | inl err => handleGuidGenerationError err
                | inr guid =>
                    let rg := with_guid rg guid in
                    match RouterGroups_Validate gl (routerGroups ++ [rg])%list with
                    | Some err => handleProcessRequestError err
                    | None =>
                        r ← try (on_db (db_SaveRouterGroup rg));
                        match r with
                        | inl err => handleDBCommunicationError err
                        | inr _ => _ ← WriteHeader StatusCreated; writeRouterGroupResponse rg
                        end
                    end
                end
            end
        end
    end).
End Handlers.
