(* ===== verification/HandlerFacts.v ===== *)
(** HandlerFacts: what each API request does to the abstract store and which
    status it answers with, proved against the contract of [db.DB]. *)
From Stdlib Require Import ZArith Lia.
From stdpp Require Import base option strings gmap list.
From S2P Require Import JsonText.
From S2P Require Import Prelude GoStrings RouterGroups Routes Json SqlDB SqlDBFacts SqlTcpFacts SqlGroupFacts.
From S2P Require Import Contract Validator Http Handlers.

Local Open Scope string_scope.
Local Open Scope list_scope.
Local Open Scope Z_scope.

(** ** Batches of store steps *)
Section Steps.
Context {A : Type} (step : A -> View -> View -> Prop).

Fixpoint steps (xs : list A) (v v' : View) : Prop :=
  match xs with
  | [] => v' = v
  | x :: xs' => exists v1, step x v v1 /\ steps xs' v1 v'
  end.

(** A relation every step keeps is kept by the batch. *)
Lemma steps_keep (R : View -> View -> Prop) xs v v' :
  Reflexive R -> Transitive R -> (forall x v v', x ∈ xs -> step x v v' -> R v v') ->
  steps xs v v' -> R v v'.
Proof.
  intros HR HT. revert v. induction xs as [|x xs IH]; intros v Hs; simpl; [by intros ->|].
  intros (v1 & H1 & H2). etrans; [apply (Hs x); [set_solver|done]|].
  apply IH; [|done]. intros y w w' Hy. apply Hs. set_solver.
Qed.

(** A property a step establishes and all later steps keep. *)
Lemma steps_in (P : A -> View -> Prop) xs v v' x :
  (forall x v v', step x v v' -> P x v') ->
  (forall x y v v', P x v -> step y v v' -> P x v') ->
  steps xs v v' -> x ∈ xs -> P x v'.
Proof.
  intros Hest Hkeep. revert v. induction xs as [|y xs IH]; intros v; simpl; [set_solver|].
  intros (v1 & H1 & H2) [->|Hx]%elem_of_cons; [|by eapply IH].
  apply Hest in H1. clear IH. revert v1 H1 H2. induction xs as [|z xs IH]; simpl; [by intros v1 ? ->|].
  intros v1 H1 (v2 & H3 & H4). eapply IH; [by eapply Hkeep|done].
Qed.
End Steps.

Definition route_removed (r : Route) (v v' : View) : Prop :=
  v' = set_routes (delete (route_key r) (v_routes v)) v.
Definition tcp_removed (m : TcpRouteMapping) (v v' : View) : Prop :=
  v' = set_tcp (delete (tcp_key m, None) (v_tcp v)) v.

(** The parts of the store a batch of route requests does not touch. *)
Definition only_routes (ks : list (string * string * Z * string)) (v v' : View) : Prop :=
  v_tcp v' = v_tcp v /\ v_groups v' = v_groups v /\ v_locks v' = v_locks v /\
  forall k, k ∉ ks -> v_routes v' !! k = v_routes v !! k.

Definition only_tcp (ks : list TcpKey) (v v' : View) : Prop :=
  v_routes v' = v_routes v /\ v_groups v' = v_groups v /\ v_locks v' = v_locks v /\
  forall k, fst k ∉ ks -> v_tcp v' !! k = v_tcp v !! k.

(** A mapping with the key of [m] is in the store; under that key, so that it is
    found again, if it has a TLS port. *)
Definition key_present (k : TcpKey) (v : View) : Prop :=
  exists hidden, is_Some (v_tcp v !! (k, hidden)) /\ (key_tls k <> 0 -> hidden = None).

Definition tcp_present (m : TcpRouteMapping) (v : View) : Prop := key_present (tcp_key m) v.

#[export] Instance only_routes_refl ks : Reflexive (only_routes ks).
Proof. by repeat split. Qed.
#[export] Instance only_routes_trans ks : Transitive (only_routes ks).
Proof.
  intros v1 v2 v3 (A1 & A2 & A3 & A4) (B1 & B2 & B3 & B4).
  split_and!; try congruence. intros k Hk. by rewrite B4, A4.
Qed.
#[export] Instance only_tcp_refl ks : Reflexive (only_tcp ks).
Proof. by repeat split. Qed.
#[export] Instance only_tcp_trans ks : Transitive (only_tcp ks).
Proof.
  intros v1 v2 v3 (A1 & A2 & A3 & A4) (B1 & B2 & B3 & B4).
  split_and!; try congruence. intros k Hk. by rewrite B4, A4.
Qed.

Lemma stored_only_routes rs v v' : steps route_stored rs v v' -> only_routes (route_key <$> rs) v v'.
Proof.
  apply steps_keep; [apply _..|]. intros r w w' Hr (tag & exp & ->). split_and!; [done..|].
  intros k Hk. apply lookup_insert_ne. intros <-. apply Hk, list_elem_of_fmap. eauto.
Qed.

Lemma removed_only_routes rs v v' : steps route_removed rs v v' -> only_routes (route_key <$> rs) v v'.
Proof.
  apply steps_keep; [apply _..|]. intros r w w' Hr ->. split_and!; [done..|].
  intros k Hk. apply lookup_delete_ne. intros <-. apply Hk, list_elem_of_fmap. eauto.
Qed.

Lemma stored_only_tcp ms v v' : steps tcp_stored ms v v' -> only_tcp (tcp_key <$> ms) v v'.
Proof.
  apply steps_keep; [apply _..|]. intros r w w' Hr (tag & exp & k & Hs & ->). split_and!; [done..|].
  intros k' Hk. apply lookup_insert_ne. intros <-. apply Hk, list_elem_of_fmap. exists r. split; [|done].
  destruct Hs as [->|(_ & _ & _ & g & ->)]; done.
Qed.

Lemma removed_only_tcp ms v v' : steps tcp_removed ms v v' -> only_tcp (tcp_key <$> ms) v v'.
Proof.
  apply steps_keep; [apply _..|]. intros r w w' Hr ->. split_and!; [done..|].
  intros k Hk. apply lookup_delete_ne. intros <-. apply Hk, list_elem_of_fmap. eauto.
Qed.

(** After a batch every requested key is present (or absent). *)
Lemma stored_present rs v v' r :
  steps route_stored rs v v' -> r ∈ rs -> is_Some (v_routes v' !! route_key r).
Proof.
  apply (steps_in _ (fun r v => is_Some (v_routes v !! route_key r))).
  - intros x w w' (tag & exp & ->). simpl. rewrite lookup_insert_eq. eauto.
  - intros x y w w' Hx (tag & exp & ->). simpl. destruct (decide (route_key y = route_key x)) as [->|].
    + rewrite lookup_insert_eq. eauto.
    + by rewrite lookup_insert_ne.
Qed.

Lemma removed_absent rs v v' r :
  steps route_removed rs v v' -> r ∈ rs -> v_routes v' !! route_key r = None.
Proof.
  apply (steps_in _ (fun r v => v_routes v !! route_key r = None)).
  - intros x w w' ->. apply lookup_delete_eq.
  - intros x y w w' Hx ->. simpl. destruct (decide (route_key y = route_key x)) as [->|];
      [apply lookup_delete_eq|by rewrite lookup_delete_ne].
Qed.

Lemma tcp_stored_present ms v v' m :
  steps tcp_stored ms v v' -> m ∈ ms -> tcp_present m v'.
Proof.
  apply (steps_in _ tcp_present).
  - intros x w w' (tag & exp & k & Hk & ->). destruct Hk as [->|(H0 & _ & _ & g & ->)]; eexists; simpl;
      rewrite lookup_insert_eq; by split; [eexists|].
  - intros x y w w' (h & Hx & Hh) (tag & exp & k & _ & ->). exists h. split; [|done]. simpl.
    destruct (decide (k = (tcp_key x, h))) as [->|]; [rewrite lookup_insert_eq; by eexists|by rewrite lookup_insert_ne].
Qed.

Lemma tcp_removed_absent ms v v' m :
  steps tcp_removed ms v v' -> m ∈ ms -> v_tcp v' !! (tcp_key m, None) = None.
Proof.
  apply (steps_in _ (fun m v => v_tcp v !! (tcp_key m, None) = None)).
  - intros x w w' ->. apply lookup_delete_eq.
  - intros x y w w' Hx ->. simpl. destruct (decide (tcp_key y = tcp_key x)) as [->|];
      [apply lookup_delete_eq|rewrite lookup_delete_ne; [done|congruence]].
Qed.

(** What no request finds, no request removes. *)
Lemma removed_keeps_hidden ms v v' k guid :
  steps tcp_removed ms v v' -> v_tcp v' !! (k, Some guid) = v_tcp v !! (k, Some guid).
Proof.
  apply (steps_keep tcp_removed (fun v v' => v_tcp v' !! (k, Some guid) = v_tcp v !! (k, Some guid))).
  - done.
  - intros x y z H1 H2. congruence.
  - intros x w w' _ ->. by apply lookup_delete_ne.
Qed.

(** ** Handler steps *)
Section Facts.
Context {D U : Type} `{!DB D, !Env D, !DBContract D, !TokenValidator U, !NetUrl}.
Context (gl : Globals) (maxTTL : Z).
Implicit Types (s : Server D U) (v : View).

Definition fresh s : Prop := sv_w s = new_ResponseWriter.

(** The response went out with a status that, with the new store, is in [P]. *)
Definition responds (P : Z -> View -> Prop) : unit -> Server D U -> Prop := fun _ s' =>
  db_inv (sv_db s') /\ exists code, rw_status (sv_w s') = Some code /\ P code (view (sv_db s')).

Definition never : option error -> Server D U -> Prop := fun _ _ => False.

(** The only panic: the token validator's, before anything was done. *)
Definition aborts s : option error -> Server D U -> Prop := fun e s' =>
  e = None /\ sv_db s' = sv_db s /\ sv_w s' = sv_w s.

Lemma responds_mono (P P' : Z -> View -> Prop) (m : Go (Server D U) unit) s X :
  wp m s (responds P) X -> (forall code v, P code v -> P' code v) -> wp m s (responds P') X.
Proof.
  intros Hw HP. eapply wp_mono; [exact Hw| |done].
  intros [] s' (Hi & code & Hc & Hp). split; [done|]. exists code. auto.
Qed.

Lemma wp_db {A} (m : Go D A) (k : error + A -> Go (Server D U) unit) s Q X :
  wp m (sv_db s) (fun a d => wp (k (inr a)) (with_db d s) Q X)
    (fun e d => match e with
                | Some e => wp (k (inl e)) (with_db d s) Q X
                | None => X None (with_db d s)
                end) ->
  wp (try (on_db m) ≫= k) s Q X.
Proof. unfold wp, mbind, Go_bind, try, on_db, zoom. by destruct (m (sv_db s)). Qed.

Lemma wp_error code err s (P : Z -> View -> Prop) X :
  fresh s -> db_inv (sv_db s) -> P code (view (sv_db s)) -> wp (error_response code err) s (responds P) X.
Proof.
  intros Hf Hi HP. unfold wp, error_response. simpl. split; [done|]. exists code. split; [|done].
  simpl. by rewrite Hf.
Qed.

Lemma wp_WriteHeader code s (P : Z -> View -> Prop) X :
  fresh s -> db_inv (sv_db s) -> P code (view (sv_db s)) -> wp (WriteHeader code) s (responds P) X.
Proof.
  intros Hf Hi HP. unfold wp, WriteHeader. simpl. split; [done|]. exists code. split; [|done].
  simpl. by rewrite Hf.
Qed.

Lemma wp_write_json j s (P : Z -> View -> Prop) X :
  rw_sent (sv_w s) = None -> db_inv (sv_db s) -> P StatusOK (view (sv_db s)) ->
  wp (write_json j) s (responds P) X.
Proof.
  intros Hf Hi HP. unfold wp, write_json, rw_status. cbn -[json_text Itoa]. split; [done|]. exists StatusOK. split; [|done].
  unfold rw_status. cbn -[json_text Itoa]. unfold rw_WriteHeader. cbn -[json_text Itoa]. by rewrite Hf.
Qed.

(** An invalid token: 401 and nothing else. *)
Definition rejected (err : error) (u : U) s : Server D U :=
  mkServer (sv_db s) u (i64 (totalTokenErrors s + 1))
    (rw_Write (unauthorized_body err) (rw_WriteHeader StatusUnauthorized (sv_w s))).

Definition with_uaa (u : U) s : Server D U := mkServer (sv_db s) u (totalTokenErrors s) (sv_w s).

Definition token_of (req : Request) : string := Header_Get (req_Header req) "Authorization".

Lemma authorized_run req scope body s err u :
  uaa_ValidateToken (token_of req) [scope] (sv_uaa s) = Fail err u ->
  authorized req scope body s = Ok tt (rejected err u s).
Proof. intros Hv. unfold authorized, mbind, Go_bind, ValidateToken. unfold token_of in Hv. by rewrite Hv. Qed.

Lemma wp_authorized req scope body s (P : Z -> View -> Prop) :
  fresh s -> db_inv (sv_db s) -> P StatusUnauthorized (view (sv_db s)) ->
  (forall u, uaa_ValidateToken (token_of req) [scope] (sv_uaa s) = Ok tt u ->
     wp body (with_uaa u s) (responds P) never) ->
  wp (authorized req scope body) s (responds P) (aborts s).
Proof.
  intros Hf Hi HP Hb. destruct (uaa_ValidateToken (token_of req) [scope] (sv_uaa s)) as [[] u|err u|m u] eqn:E.
  - specialize (Hb u eq_refl). unfold wp, authorized, mbind, Go_bind, ValidateToken.
    unfold token_of in E. rewrite E. unfold wp in Hb. fold (with_uaa u s). by destruct (body (with_uaa u s)).
  - unfold wp. rewrite (authorized_run _ _ _ _ _ _ E). split; [done|]. exists StatusUnauthorized.
    split; [|done]. simpl. by rewrite Hf.
  - unfold wp, authorized, mbind, Go_bind, ValidateToken. unfold token_of in E. by rewrite E.
Qed.

(** *** HTTP routes *)

Lemma save_routes_wp rs s :
  fresh s -> db_inv (sv_db s) -> Forall (fun r => RE_TTL (Route_Entity r) <> None) rs ->
  wp (save_routes rs) s
    (responds (fun code v' =>
       (code = StatusCreated /\ steps route_stored rs (view (sv_db s)) v') \/
       (code = StatusServiceUnavailable /\ exists pre r post,
          rs = pre ++ r :: post /\ steps route_stored pre (view (sv_db s)) v'))) never.
Proof.
  intros Hf Hi Httl. revert s Hf Hi. induction Httl as [|r rs Hr Hrs IH]; intros s Hf Hi; simpl.
  { apply wp_WriteHeader; auto. }
  apply wp_db. eapply wp_mono; [by apply c_SaveRoute| |].
  - intros _ d' [Hi' Hst]. eapply responds_mono; [by apply IH|].
    intros code v' [[-> Hs]|(-> & pre & x & post & -> & Hs)]; [left; eauto|right].
    split; [done|]. exists (r :: pre), x, post. split; [done|]. simpl. eauto.
  - intros [e|] d' (Hi' & Hv & Hn); [|naive_solver]. apply wp_error; [done|done|]. right.
    split; [done|]. by exists [], r, rs.
Qed.

Definition accepted_routes (rs : list Route) : Prop :=
  Forall (fun r => valid_route_request r /\ valid_ttl maxTTL (RE_TTL (Route_Entity r))) rs.

(** The batch an upsert request carries, after [SetDefaults]. *)
Definition requested_routes (req : Request) : option (list Route) :=
  match Decode (dec_slice Unmarshal_Route) req with
  | inl _ => None
  | inr rs => Some (Route_SetDefaults maxTTL <$> rs)
  end.

Definition upsert_answer (req : Request) v (code : Z) v' : Prop :=
  (code = StatusUnauthorized /\ v' = v) \/
  (code = StatusBadRequest /\ v' = v /\ (forall rs, requested_routes req = Some rs -> ~ accepted_routes rs)) \/
  exists rs, requested_routes req = Some rs /\ accepted_routes rs /\
    ((code = StatusCreated /\ steps route_stored rs v v') \/
     (code = StatusServiceUnavailable /\ exists pre r post,
        rs = pre ++ r :: post /\ steps route_stored pre v v')).

Lemma Routes_Upsert_wp req s :
  fresh s -> db_inv (sv_db s) ->
  wp (Routes_Upsert maxTTL req) s (responds (upsert_answer req (view (sv_db s)))) (aborts s).
Proof.
  intros Hf Hi. unfold Routes_Upsert. apply wp_authorized; [done|done|by left|].
  intros u _. unfold upsert_answer, requested_routes.
  destruct (Decode _ req) as [err|rs]; [apply wp_error; [done|done|]; right; left; naive_solver|].
  assert (Forall (fun r => RE_TTL (Route_Entity r) <> None) (Route_SetDefaults maxTTL <$> rs)) as Httl.
  { apply Forall_fmap, Forall_true. intros r. apply SetDefaults_TTL. }
  set (rs' := Route_SetDefaults maxTTL <$> rs) in *.
  destruct (ValidateCreate_spec rs' maxTTL (with_uaa u s) Httl) as (res & Hres & Hiff).
  apply (wp_run _ _ _ _ _ _ _ Hres).
  destruct res as [e|].
  - apply wp_error; [done|done|]. right; left. split_and!; [done..|]. intros ? [= <-] Hacc. naive_solver.
  - eapply responds_mono; [by apply save_routes_wp|]. intros code v' Hs. right; right. exists rs'. naive_solver.
Qed.

Lemma removed_noop (r : Route) v : v_routes v !! route_key r = None -> route_removed r v v.
Proof. intros Hn. unfold route_removed, set_routes. rewrite delete_id by done. by destruct v. Qed.

Lemma tcp_removed_noop (m : TcpRouteMapping) v : v_tcp v !! (tcp_key m, None) = None -> tcp_removed m v v.
Proof. intros Hn. unfold tcp_removed, set_tcp. rewrite delete_id by done. by destruct v. Qed.

Lemma key_not_found_db (err : error) : not_key_not_found err = false -> exists x, err = db_error x.
Proof. destruct err; simpl; [done|eauto|done..]. Qed.

Lemma delete_routes_wp rs s :
  fresh s -> db_inv (sv_db s) ->
  wp (delete_routes rs) s
    (responds (fun code v' =>
       (code = StatusNoContent /\ steps route_removed rs (view (sv_db s)) v') \/
       (code = StatusServiceUnavailable /\ exists pre r post,
          rs = pre ++ r :: post /\ steps route_removed pre (view (sv_db s)) v'))) never.
Proof.
  revert s. induction rs as [|r rs IH]; intros s Hf Hi; simpl; [apply wp_WriteHeader; auto|].
  assert (forall d', db_inv d' -> route_removed r (view (sv_db s)) (view d') ->
    wp (delete_routes rs) (with_db d' s)
      (responds (fun code v' =>
        (code = StatusNoContent /\ (exists v1, route_removed r (view (sv_db s)) v1 /\ steps route_removed rs v1 v')) \/
        (code = StatusServiceUnavailable /\ exists pre x post,
           r :: rs = pre ++ x :: post /\ steps route_removed pre (view (sv_db s)) v'))) never) as Hgo.
  { intros d' Hi' Hst. eapply responds_mono; [by apply IH|].
    intros code v' [[-> Hs]|(-> & pre & x & post & -> & Hs)]; [left; eauto|right].
    split; [done|]. exists (r :: pre), x, post. split; [done|]. simpl. eauto. }
  apply wp_db. eapply wp_mono; [by apply c_DeleteRoute| |].
  - intros _ d' (Hi' & _ & Hst). by apply Hgo.
  - intros [e|] d' (Hi' & Hv & Hn & Hd); [|done].
    destruct (not_key_not_found e) eqn:Hk.
    + apply wp_error; [done|done|]. right. split; [done|]. by exists [], r, rs.
    + apply Hgo; [done|]. rewrite Hv. apply removed_noop.
      destruct (key_not_found_db e Hk) as [x ->]. by apply (Hd x).
Qed.

Definition delete_answer (req : Request) v (code : Z) v' : Prop :=
  (code = StatusUnauthorized /\ v' = v) \/
  (code = StatusBadRequest /\ v' = v /\
    (forall rs, Decode (dec_slice Unmarshal_Route) req = inr rs -> ~ Forall valid_route_request rs)) \/
  exists rs, Decode (dec_slice Unmarshal_Route) req = inr rs /\ Forall valid_route_request rs /\
    ((code = StatusNoContent /\ steps route_removed rs v v') \/
     (code = StatusServiceUnavailable /\ exists pre r post,
        rs = pre ++ r :: post /\ steps route_removed pre v v')).

Lemma Routes_Delete_wp req s :
  fresh s -> db_inv (sv_db s) ->
  wp (Routes_Delete req) s (responds (delete_answer req (view (sv_db s)))) (aborts s).
Proof.
  intros Hf Hi. unfold Routes_Delete. apply wp_authorized; [done|done|by left|].
  intros u _. unfold delete_answer.
  destruct (Decode _ req) as [err|rs]; [apply wp_error; [done|done|]; right; left; naive_solver|].
  pose proof (ValidateDelete_None rs) as Hiff.
  destruct (ValidateDelete rs) as [e|].
  - apply wp_error; [done|done|]. right; left. split_and!; [done..|]. intros ? [= <-] Hacc. naive_solver.
  - eapply responds_mono; [by apply delete_routes_wp|]. intros code v' Hs. right; right. exists rs. naive_solver.
Qed.

Definition list_answer v (code : Z) v' : Prop :=
  v' = v /\ code ∈ [StatusOK; StatusUnauthorized; StatusServiceUnavailable].

Lemma wp_Encode j s (P : Z -> View -> Prop) X :
  fresh s -> db_inv (sv_db s) -> P StatusOK (view (sv_db s)) -> wp (Encode j) s (responds P) X.
Proof.
  intros Hf Hi HP. unfold wp, Encode, Write, on_w, modify. split; [done|]. exists StatusOK.
  split; [|done]. cbn [sv_w]. by rewrite Hf.
Qed.

Lemma Routes_List_wp req s :
  fresh s -> db_inv (sv_db s) -> wp (Routes_List req) s (responds (list_answer (view (sv_db s)))) (aborts s).
Proof.
  intros Hf Hi. unfold Routes_List, list_answer. apply wp_authorized; [done|done|set_solver|].
  intros u _. apply wp_db. eapply wp_mono; [by apply c_ReadRoutes| |].
  - intros l d' (Hi' & Hv & _). apply wp_Encode; [done|done|]. simpl. rewrite Hv. set_solver.
  - intros [e|] d' (Hi' & Hv & Hn); [|done]. apply wp_error; [done|done|]. simpl. rewrite Hv. set_solver.
Qed.

(** *** TCP route mappings *)

Lemma Tcp_List_wp req s :
  fresh s -> db_inv (sv_db s) -> wp (Tcp_List req) s (responds (list_answer (view (sv_db s)))) (aborts s).
Proof.
  intros Hf Hi. unfold Tcp_List, list_answer. apply wp_authorized; [done|done|set_solver|].
  intros u _. apply wp_db.
  assert (forall l d', db_inv d' -> view d' = view (sv_db s) ->
    wp (Encode (JArr (json_of_Tcp <$> l))) (with_db d' (with_uaa u s))
      (responds (fun code v' => v' = view (sv_db s) /\
         code ∈ [StatusOK; StatusUnauthorized; StatusServiceUnavailable])) never) as Hok.
  { intros l d' Hi' Hv. apply wp_Encode; [done|done|]. simpl. rewrite Hv. set_solver. }
  assert (forall e d', db_inv d' /\ view d' = view (sv_db s) /\ e <> None ->
    match e with
    | Some e => wp (handleDBCommunicationError e) (with_db d' (with_uaa u s))
        (responds (fun code v' => v' = view (sv_db s) /\
           code ∈ [StatusOK; StatusUnauthorized; StatusServiceUnavailable])) never
    | None => never None (with_db d' (with_uaa u s))
    end) as Herr.
  { intros [e|] d' (Hi' & Hv & Hn); [|done]. apply wp_error; [done|done|]. simpl. rewrite Hv. set_solver. }
  destruct (default [] _) as [|x xs].
  - eapply wp_mono; [by apply c_ReadTcp|intros l d' (Hi' & Hv & _); by apply Hok|exact Herr].
  - eapply wp_mono; [by apply c_ReadFiltered|intros l d' (Hi' & Hv & _); by apply Hok|exact Herr].
Qed.

Lemma save_tcp_wp ms s :
  fresh s -> db_inv (sv_db s) -> Forall (fun m => TM_TTL (Tcp_Entity m) <> None) ms ->
  wp (save_tcp ms) s
    (responds (fun code v' =>
       (code = StatusCreated /\ steps tcp_stored ms (view (sv_db s)) v') \/
       (code = StatusServiceUnavailable /\ exists pre m post,
          ms = pre ++ m :: post /\ steps tcp_stored pre (view (sv_db s)) v'))) never.
Proof.
  intros Hf Hi Httl. revert s Hf Hi. induction Httl as [|r rs Hr Hrs IH]; intros s Hf Hi; simpl.
  { apply wp_WriteHeader; auto. }
  apply wp_db. eapply wp_mono; [by apply c_SaveTcp| |].
  - intros _ d' [Hi' Hst]. eapply responds_mono; [by apply IH|].
    intros code v' [[-> Hs]|(-> & pre & x & post & -> & Hs)]; [left; eauto|right].
    split; [done|]. exists (r :: pre), x, post. split; [done|]. simpl. eauto.
  - intros [e|] d' (Hi' & Hv & Hn); [|naive_solver]. apply wp_error; [done|done|]. right.
    split; [done|]. by exists [], r, rs.
Qed.

Lemma listed groups v g : lists_groups groups v -> g ∈ groups ->
  v_groups v !! RG_Guid g = Some (RG_Name g, RG_Type g, RG_ReservablePorts g).
Proof. intros (_ & Hm & Hg) Hin. apply Hg. exists g. split; [done|]. by split_and!; [|apply Hm|]. Qed.

(** What the validation loop checked of one mapping. *)
Definition accepted_tcp v (m : TcpRouteMapping) : Prop :=
  valid_tcp_request m /\ valid_ttl maxTTL (TM_TTL (Tcp_Entity m)) /\
  is_Some (v_groups v !! TM_RouterGroupGuid (Tcp_Entity m)).

Lemma validate_tcp_wp groups ms k s (P : Z -> View -> Prop) :
  fresh s -> db_inv (sv_db s) -> lists_groups groups (view (sv_db s)) ->
  Forall (fun m => TM_TTL (Tcp_Entity m) <> None) ms ->
  P StatusServiceUnavailable (view (sv_db s)) -> P StatusBadRequest (view (sv_db s)) ->
  (forall s', fresh s' -> db_inv (sv_db s') -> view (sv_db s') = view (sv_db s) ->
     Forall (accepted_tcp (view (sv_db s))) ms -> wp k s' (responds P) never) ->
  wp (validate_tcp maxTTL groups ms k) s (responds P) never.
Proof.
  intros Hf Hi Hg Httl HP1 HP2. revert s Hf Hi Hg HP1 HP2.
  induction Httl as [|m ms Hm Hms IH]; intros s Hf Hi Hg HP1 HP2 Hk; simpl; [by apply Hk|].
  apply wp_db. eapply wp_mono; [by apply c_FindSimilar| |].
  - intros similar d' (Hi' & Hv & _).
    destruct (ValidateCreateTcp_spec m similar groups maxTTL (with_db d' s) Hm) as (res & Hres & Hiff).
    apply (wp_run _ _ _ _ _ _ _ Hres). destruct res as [e|].
    + apply wp_error; [done|done|]. simpl. by rewrite Hv.
    + apply IH; simpl; rewrite ?Hv; try done. intros s' Hf' Hs' Hv' Hacc. apply Hk; try done.
      constructor; [|done]. destruct (proj1 Hiff eq_refl) as (V1 & V2 & (g & Hin & Hguid) & _).
      split_and!; [done|done|]. exists (RG_Name g, RG_Type g, RG_ReservablePorts g).
      rewrite <- Hguid. by apply (listed groups).
  - intros [e|] d' (Hi' & Hv & Hn); [|done]. apply wp_error; [done|done|]. simpl. by rewrite Hv.
Qed.

Definition requested_tcp (req : Request) : option (list TcpRouteMapping) :=
  match Decode (dec_slice Unmarshal_Tcp) req with
  | inl _ => None
  | inr ms => Some (Tcp_SetDefaults maxTTL <$> ms)
  end.

(** Nothing is stored unless every mapping of the batch is well formed and
    names an existing router group. *)
Definition tcp_upsert_answer (req : Request) v (code : Z) v' : Prop :=
  (v' = v /\ code ∈ [StatusUnauthorized; StatusBadRequest; StatusServiceUnavailable]) \/
  exists ms, requested_tcp req = Some ms /\ Forall (accepted_tcp v) ms /\
    ((code = StatusCreated /\ steps tcp_stored ms v v') \/
     (code = StatusServiceUnavailable /\ exists pre m post,
        ms = pre ++ m :: post /\ steps tcp_stored pre v v')).

Lemma Tcp_Upsert_wp req s :
  fresh s -> db_inv (sv_db s) ->
  wp (Tcp_Upsert maxTTL req) s (responds (tcp_upsert_answer req (view (sv_db s)))) (aborts s).
Proof.
  intros Hf Hi. unfold Tcp_Upsert. apply wp_authorized; [done|done|left; set_solver|].
  intros u _. unfold tcp_upsert_answer, requested_tcp.
  destruct (Decode _ req) as [err|ms]; [apply wp_error; [done|done|]; left; set_solver|].
  set (ms' := Tcp_SetDefaults maxTTL <$> ms).
  assert (Forall (fun m => TM_TTL (Tcp_Entity m) <> None) ms') as Httl.
  { apply Forall_fmap, Forall_true. intros m. apply Tcp_SetDefaults_TTL. }
  apply wp_db. eapply wp_mono; [by apply c_ReadRouterGroups| |].
  - intros groups d' (Hi' & Hv & _ & Hl). apply validate_tcp_wp; simpl; rewrite ?Hv; try done.
    1,2: left; set_solver.
    intros s' Hf' Hs' Hv' Hacc. eapply responds_mono; [by apply save_tcp_wp|].
    rewrite Hv'. intros code v' Hs. right. exists ms'. done.
  - intros [e|] d' (Hi' & Hv & Hn); [|done]. apply wp_error; [done|done|]. left. simpl. rewrite Hv. set_solver.
Qed.

Lemma delete_tcp_wp ms s :
  fresh s -> db_inv (sv_db s) ->
  wp (delete_tcp ms) s
    (responds (fun code v' =>
       (code = StatusNoContent /\ steps tcp_removed ms (view (sv_db s)) v') \/
       (code = StatusServiceUnavailable /\ exists pre m post,
          ms = pre ++ m :: post /\ steps tcp_removed pre (view (sv_db s)) v'))) never.
Proof.
  revert s. induction ms as [|m ms IH]; intros s Hf Hi; simpl; [apply wp_WriteHeader; auto|].
  assert (forall d', db_inv d' -> tcp_removed m (view (sv_db s)) (view d') ->
    wp (delete_tcp ms) (with_db d' s)
      (responds (fun code v' =>
        (code = StatusNoContent /\ (exists v1, tcp_removed m (view (sv_db s)) v1 /\ steps tcp_removed ms v1 v')) \/
        (code = StatusServiceUnavailable /\ exists pre x post,
           m :: ms = pre ++ x :: post /\ steps tcp_removed pre (view (sv_db s)) v'))) never) as Hgo.
  { intros d' Hi' Hst. eapply responds_mono; [by apply IH|].
    intros code v' [[-> Hs]|(-> & pre & x & post & -> & Hs)]; [left; eauto|right].
    split; [done|]. exists (m :: pre), x, post. split; [done|]. simpl. eauto. }
  apply wp_db. eapply wp_mono; [by apply c_DeleteTcp| |].
  - intros _ d' (Hi' & _ & Hst). by apply Hgo.
  - intros [e|] d' (Hi' & Hv & Hn & Hd); [|done].
    destruct (not_key_not_found e) eqn:Hk.
    + apply wp_error; [done|done|]. right. split; [done|]. by exists [], m, ms.
    + apply Hgo; [done|]. rewrite Hv. apply tcp_removed_noop.
      destruct (key_not_found_db e Hk) as [x ->]. by apply (Hd x).
Qed.

Definition tcp_delete_answer (req : Request) v (code : Z) v' : Prop :=
  (v' = v /\ code ∈ [StatusUnauthorized; StatusBadRequest]) \/
  exists ms, Decode (dec_slice Unmarshal_Tcp) req = inr ms /\ Forall valid_tcp_request ms /\
    ((code = StatusNoContent /\ steps tcp_removed ms v v') \/
     (code = StatusServiceUnavailable /\ exists pre m post,
        ms = pre ++ m :: post /\ steps tcp_removed pre v v')).

Lemma Tcp_Delete_wp req s :
  fresh s -> db_inv (sv_db s) ->
  wp (Tcp_Delete req) s (responds (tcp_delete_answer req (view (sv_db s)))) (aborts s).
Proof.
  intros Hf Hi. unfold Tcp_Delete. apply wp_authorized; [done|done|left; set_solver|].
  intros u _. unfold tcp_delete_answer.
  destruct (Decode _ req) as [err|ms]; [apply wp_error; [done|done|]; left; set_solver|].
  destruct (ValidateDeleteTcp_spec ms (with_uaa u s)) as (res & Hres & Hiff).
  apply (wp_run _ _ _ _ _ _ _ Hres). destruct res as [e|].
  - apply wp_error; [done|done|]. left. set_solver.
  - eapply responds_mono; [by apply delete_tcp_wp|]. intros code v' Hs. right. exists ms. naive_solver.
Qed.
End Facts.
