(* ===== verification/GroupApi.v ===== *)
(** GroupApi: the router group requests against the contract of [db.DB]; the
    store never gets an invalid group or two groups of the same name and type. *)
From Stdlib Require Import ZArith Lia.
From stdpp Require Import base option strings gmap list.
From S2P Require Import Prelude GoStrings RouterGroups Routes Json SqlDB SqlGroupFacts Contract Validator.
From S2P Require Import Http Handlers HandlerFacts.

Local Open Scope string_scope.
Local Open Scope list_scope.
Local Open Scope Z_scope.

(** The stored fields as a group. *)
Definition group_fields (x : string * string * string) : RouterGroup :=
  let '(n, t, p) := x in mkRouterGroup zero_Model "" n t p.

(** Every stored group is valid, and name and type identify a group. *)
Definition groups_ok (gl : Globals) (v : View) : Prop :=
  (forall guid x, v_groups v !! guid = Some x -> valid_group gl (group_fields x)) /\
  (forall g1 g2 n t p1 p2, v_groups v !! g1 = Some (n, t, p1) -> v_groups v !! g2 = Some (n, t, p2) -> g1 = g2).

Lemma routerGroupExist_Some rgs rg r :
  routerGroupExist rgs rg = Some r -> r ∈ rgs /\ RG_Name r = RG_Name rg /\ RG_Type r = RG_Type rg.
Proof.
  induction rgs as [|x rgs IH]; simpl; [done|].
  case_bool_decide; simpl; [case_bool_decide|]; intros Hr; [injection Hr as <-|..]; set_solver.
Qed.

Lemma routerGroupExist_None rgs rg :
  routerGroupExist rgs rg = None ->
  forall r, r ∈ rgs -> ~ (RG_Name r = RG_Name rg /\ RG_Type r = RG_Type rg).
Proof.
  induction rgs as [|x rgs IH]; simpl; [set_solver|].
  case_bool_decide; simpl; [case_bool_decide|]; intros Hr r [->|Hin]%elem_of_cons; naive_solver.
Qed.

(** A valid request overwrites whatever the guid held. *)
Lemma upsert_valid gl old g : valid_group gl g ->
  upsert_group old g = (RG_Name g, RG_Type g, RG_ReservablePorts g).
Proof.
  intros (Hn & Ht & _). destruct old as [[[n t] p]|]; simpl; [|done].
  by rewrite !bool_decide_eq_true_2.
Qed.

Section GroupFacts.
Context {D U : Type} `{!DB D, !Env D, !DBContract D, !TokenValidator U, !NetUrl}.
Context (gl : Globals).
Implicit Types (s : Server D U) (v : View).

Definition create_answer (req : Request) v (code : Z) v' : Prop :=
  (v' = v /\ code ∈ [StatusUnauthorized; StatusBadRequest; StatusServiceUnavailable; StatusInternalServerError]) \/
  exists rg, Decode Unmarshal_RouterGroup req = inr rg /\
    ((code = StatusOK /\ v' = v /\ exists guid p, v_groups v !! guid = Some (RG_Name rg, RG_Type rg, p)) \/
     (code = StatusCreated /\ valid_group gl rg /\ isWriteLocked (v_locks v) = false /\
      (forall g p, v_groups v !! g <> Some (RG_Name rg, RG_Type rg, p)) /\
      exists guid, guid <> "" /\
        v' = set_groups (<[guid := (RG_Name rg, RG_Type rg, RG_ReservablePorts rg)]> (v_groups v)) v)).

Lemma wp_group_response rg code s (P : Z -> View -> Prop) X :
  fresh s -> db_inv (sv_db s) -> P code (view (sv_db s)) ->
  wp (_ ← WriteHeader code; writeRouterGroupResponse rg) s (responds P) X.
Proof.
  intros Hf Hi HP. unfold wp, writeRouterGroupResponse, WriteHeader, SetHeader, Write, on_w, modify, mbind, Go_bind.
  split; [done|]. exists code. split; [|done]. cbn [sv_w]. by rewrite Hf.
Qed.

Lemma new_uuid_wp (d : D) : db_inv d ->
  wp new_uuid d (fun g d' => g <> "" /\ db_inv d' /\ view d' = view d)
    (fun e d' => db_inv d' /\ view d' = view d /\ e <> None).
Proof.
  intros Hi. unfold wp, new_uuid, call. destruct (uuid_NewV4 d) as [r d'] eqn:E.
  destruct (c_uuid d r d' Hi E) as (Hi' & Hv & Hne). destruct r as [e|g]; [done|].
  split_and!; [|done..]. by intros ->.
Qed.

Lemma decoded_model req rg : Decode Unmarshal_RouterGroup req = inr rg -> RG_Model rg = zero_Model.
Proof.
  unfold Decode, Unmarshal_RouterGroup. destruct (req_Body req) as [e|v]; [done|].
  destruct v as [| | | | | |ms]; simpl; try done; [by intros [= <-]|].
  assert (RG_Model zero_RouterGroup = zero_Model) as Hz by done. revert Hz.
  generalize zero_RouterGroup as g. induction ms as [|[k x] ms IH]; intros g Hg; simpl; [by intros [= <-]|].
  assert (forall (A : Type) (o : error + A) f, (forall a, RG_Model (f a) = zero_Model) ->
    match on_field o f with inl e => inl e | inr r' => dec_members set_RouterGroup ms r' end = inr rg ->
    RG_Model rg = zero_Model) as Hfield.
  { intros A [e|a] f Hf; simpl; [done|]. apply IH, Hf. }
  destruct g as [m guid name ty ports]. simpl in Hg. subst m. unfold set_RouterGroup.
  do 4 (destruct (EqualFold k _); [by apply Hfield|]). by apply IH.
Qed.

Lemma CreateRouterGroup_wp req s :
  fresh s -> db_inv (sv_db s) ->
  wp (CreateRouterGroup gl req) s (responds (create_answer req (view (sv_db s)))) (aborts s).
Proof.
  intros Hf Hi. unfold CreateRouterGroup. apply wp_authorized; [done|done|left; set_solver|].
  intros u _. destruct (Decode _ req) as [err|rg] eqn:Hdec; [apply wp_error; [done|done|]; left; set_solver|].
  apply wp_db. eapply wp_mono; [by apply c_ReadRouterGroups| |].
  2:{ intros [e|] d' (Hi' & Hv & Hn); [|done]. apply wp_error; [done|done|]. left. simpl. rewrite Hv. set_solver. }
  intros groups d1 (Hi1 & Hv1 & _ & Hl). destruct (routerGroupExist groups rg) as [ex|] eqn:Hex.
  - apply routerGroupExist_Some in Hex as (Hin & Hn & Ht).
    apply wp_group_response; [done|done|]. right. exists rg. split; [done|]. left. split_and!; [done|done|].
    exists (RG_Guid ex), (RG_ReservablePorts ex). rewrite <- Hn, <- Ht. by apply (listed groups).
  - apply wp_db. eapply wp_mono; [by apply new_uuid_wp| |].
    2:{ intros [e|] d2 (Hi2 & Hv2 & Hn); [|done]. apply wp_error; [done|done|]. left. simpl in *. rewrite Hv2, Hv1. set_solver. }
    intros guid d2 (Hg & Hi2 & Hv2).
    pose proof (RouterGroups_Validate_spec gl (groups ++ [with_guid rg guid])) as Hval.
    destruct (RouterGroups_Validate gl _) as [err|].
    { apply wp_error; [done|done|]. left. simpl in *. rewrite Hv2, Hv1. set_solver. }
    pose proof (proj1 Hval eq_refl) as [_ Hval']%Forall_app. rewrite Forall_singleton in Hval'.
    apply wp_db. eapply wp_mono; [apply c_SaveRouterGroup; [done|done|]| |].
    { left. simpl. by rewrite (decoded_model req rg Hdec). }
    2:{ intros [e|] d3 (Hi3 & Hv3 & Hn); [|done]. apply wp_error; [done|done|]. left. simpl in *. rewrite Hv3, Hv2, Hv1. set_solver. }
    intros _ d3 (Hi3 & Hwl & Hv3). apply wp_group_response; [done|done|]. right. exists rg. split; [done|].
    right. simpl in *. rewrite Hv2, Hv1 in Hwl, Hv3. split; [done|]. split; [exact Hval'|]. split; [done|]. split.
    + intros g p Hlook. apply (proj2 (proj2 Hl)) in Hlook as (x & Hx & _ & _ & [= E1 E2 E3]).
      by apply (routerGroupExist_None _ _ Hex x Hx).
    + exists guid. split; [done|]. rewrite Hv3. by rewrite (upsert_valid gl).
Qed.

(** An update changes nothing but the reservable ports of one group. *)
Definition update_answer (req : Request) v (code : Z) v' : Prop :=
  (v' = v /\ code ∈ [StatusUnauthorized; StatusBadRequest; StatusNotFound; StatusServiceUnavailable]) \/
  exists rg guid n t p, Decode Unmarshal_RouterGroup req = inr rg /\ req_Param req !! "guid" = Some guid /\
    v_groups v !! guid = Some (n, t, p) /\ code = StatusOK /\
    (RG_ReservablePorts rg <> p ->
       isWriteLocked (v_locks v) = false /\ valid_group gl (group_fields (n, t, RG_ReservablePorts rg))) /\
    v' = set_groups (<[guid := (n, t, RG_ReservablePorts rg)]> (v_groups v)) v.

Lemma wp_update_response rg s (P : Z -> View -> Prop) X :
  fresh s -> db_inv (sv_db s) -> P StatusOK (view (sv_db s)) ->
  wp (_ ← addWarningsHeader; write_json (json_of_RouterGroup rg)) s (responds P) X.
Proof.
  intros Hf Hi HP. eapply wp_run; [done|]. apply wp_write_json; [|done|done].
  cbn [sv_w]. by rewrite Hf.
Qed.

Lemma set_groups_same guid x v : v_groups v !! guid = Some x -> set_groups (<[guid := x]> (v_groups v)) v = v.
Proof. intros Hx. unfold set_groups. rewrite insert_id by done. by destruct v. Qed.

Lemma UpdateRouterGroup_wp req s :
  fresh s -> db_inv (sv_db s) ->
  wp (UpdateRouterGroup gl req) s (responds (update_answer req (view (sv_db s)))) (aborts s).
Proof.
  intros Hf Hi. unfold UpdateRouterGroup. apply wp_authorized; [done|done|left; set_solver|].
  intros u _. destruct (Decode _ req) as [err|rg] eqn:Hdec; [apply wp_error; [done|done|]; left; set_solver|].
  apply wp_db. eapply wp_mono; [by apply c_ReadRouterGroup| |].
  2:{ intros [e|] d' (Hi' & Hv & Hn); [|done]. apply wp_error; [done|done|]. left. simpl. rewrite Hv. set_solver. }
  intros g d1 (Hi1 & Hv1 & [[-> Hnone]|(Hguid & [[n t] p] & Hlook & Hgo)]).
  { rewrite bool_decide_eq_true_2 by done. apply wp_error; [done|done|]. left. simpl. rewrite Hv1. set_solver. }
  destruct Hgo as (G1 & G2 & [= G3 G4 G5]).
  rewrite bool_decide_eq_false_2 by (intros ->; done).
  destruct (req_Param req !! "guid") as [guid|] eqn:Hparam; [|done]. simpl in *.
  assert (forall v', v' = set_groups (<[guid := (n, t, RG_ReservablePorts rg)]> (v_groups (view (sv_db s)))) (view (sv_db s)) ->
    (RG_ReservablePorts rg <> p -> isWriteLocked (v_locks (view (sv_db s))) = false /\
       valid_group gl (group_fields (n, t, RG_ReservablePorts rg))) ->
    update_answer req (view (sv_db s)) StatusOK v') as Hdone.
  { intros v' -> Hc. right. exists rg, guid, n, t, p. by split_and!. }
  case_bool_decide as Hports.
  - pose proof (RouterGroup_Validate_spec gl (with_ports g (RG_ReservablePorts rg))) as Hval.
    destruct (RouterGroup_Validate gl _) as [err|].
    { apply wp_error; [done|done|]. left. simpl. rewrite Hv1. set_solver. }
    pose proof (proj1 Hval eq_refl) as Hvalid. clear Hval.
    apply wp_db. eapply wp_mono; [apply c_SaveRouterGroup; simpl; [done|congruence|right; congruence]| |].
    2:{ intros [e|] d3 (Hi3 & Hv3 & Hn); [|done]. apply wp_error; [done|done|]. left. simpl in *. rewrite Hv3, Hv1. set_solver. }
    intros _ d3 (Hi3 & Hwl & Hv3). apply wp_update_response; [done|done|]. simpl in *.
    apply Hdone; [|by intros _; subst; rewrite Hv1 in Hwl].
    rewrite Hv3, (upsert_valid gl _ _ Hvalid), Hv1, G1. simpl. by rewrite G3, G4.
  - apply wp_update_response; [done|done|]. simpl. apply Hdone; [|congruence].
    rewrite Hv1. symmetry. apply set_groups_same. rewrite Hlook. congruence.
Qed.

Definition group_delete_answer (req : Request) v (code : Z) v' : Prop :=
  (v' = v /\ code ∈ [StatusUnauthorized; StatusServiceUnavailable]) \/
  let guid := default "" (req_Param req !! "guid") in
  (code = StatusNotFound /\ v' = v /\ v_groups v !! guid = None) \/
  (code = StatusNoContent /\ isWriteLocked (v_locks v) = false /\ is_Some (v_groups v !! guid) /\
   v' = set_groups (delete guid (v_groups v)) v).

Lemma wp_status_length code s (P : Z -> View -> Prop) X :
  fresh s -> db_inv (sv_db s) -> P code (view (sv_db s)) ->
  wp (_ ← WriteHeader code; SetHeader "Content-Length" "0") s (responds P) X.
Proof.
  intros Hf Hi HP. unfold wp, WriteHeader, SetHeader, on_w, modify, mbind, Go_bind.
  split; [done|]. exists code. split; [|done]. cbn [sv_w]. by rewrite Hf.
Qed.

Lemma DeleteRouterGroup_handler_wp req s :
  fresh s -> db_inv (sv_db s) ->
  wp (DeleteRouterGroup_handler req) s (responds (group_delete_answer req (view (sv_db s)))) (aborts s).
Proof.
  intros Hf Hi. unfold DeleteRouterGroup_handler. apply wp_authorized; [done|done|left; set_solver|].
  intros u _. apply wp_db. eapply wp_mono; [by apply c_DeleteRouterGroup| |].
  - intros _ d' (Hi' & Hwl & Hs & Hv). apply wp_status_length; [done|done|]. right. right. by split_and!.
  - intros [e|] d' (Hi' & Hv & Hn & Hd); [|done]. destruct (not_key_not_found e) eqn:Hk.
    + apply wp_error; [done|done|]. left. simpl. rewrite Hv. set_solver.
    + apply wp_status_length; [done|done|]. right. left. split_and!; [done|done|].
      destruct (key_not_found_db e Hk) as [x ->]. by apply (Hd x).
Qed.

Definition group_list_answer (req : Request) v (code : Z) v' : Prop :=
  v' = v /\ code ∈ [StatusOK; StatusUnauthorized; StatusNotFound; StatusServiceUnavailable].

Lemma ListRouterGroups_wp req s :
  fresh s -> db_inv (sv_db s) ->
  wp (ListRouterGroups req) s (responds (group_list_answer req (view (sv_db s)))) (aborts s).
Proof.
  intros Hf Hi. unfold ListRouterGroups, group_list_answer. apply wp_authorized; [done|done|set_solver|].
  intros u _. case_bool_decide; apply wp_db.
  - eapply wp_mono; [by apply c_ReadRouterGroupByName| |].
    + intros g d' (Hi' & Hv & _). case_bool_decide; [apply wp_error|apply wp_write_json]; try done.
      all: try (by cbn; rewrite Hf). all: simpl; rewrite Hv; set_solver.
    + intros [e|] d' (Hi' & Hv & Hn); [|done]. rewrite bool_decide_eq_true_2 by done.
      apply wp_error; [done|done|]. simpl. rewrite Hv. set_solver.
  - eapply wp_mono; [by apply c_ReadRouterGroups| |].
    + intros g d' (Hi' & Hv & _). apply wp_write_json; [by cbn; rewrite Hf|done|].
      simpl. rewrite Hv. set_solver.
    + intros [e|] d' (Hi' & Hv & Hn); [|done]. apply wp_error; [done|done|]. simpl. rewrite Hv. set_solver.
Qed.
End GroupFacts.

(** ** The invariant of the groups *)

Lemma groups_ok_create gl req v code v' : create_answer gl req v code v' -> groups_ok gl v -> groups_ok gl v'.
Proof.
  intros [[-> _]|(rg & _ & [(_ & -> & _)|(_ & Hval & _ & Hnew & guid & Hg & ->)])] Hok; [done..|].
  destruct Hok as [Hv Hu]. split; simpl.
  - intros g x. destruct (decide (guid = g)) as [->|]; [|rewrite lookup_insert_ne by done; apply Hv].
    rewrite lookup_insert_eq. by intros [= <-].
  - intros g1 g2 n t p1 p2. rewrite !lookup_insert_Some.
    intros [[<- [= <- <- <-]]|[N1 L1]] [[<- E]|[N2 L2]]; [done| | |by eapply Hu].
    + by destruct (Hnew _ _ L2).
    + injection E as <- <- <-. by destruct (Hnew _ _ L1).
Qed.

Lemma groups_ok_update gl req v code v' : update_answer gl req v code v' -> groups_ok gl v -> groups_ok gl v'.
Proof.
  intros [[-> _]|(rg & guid & n & t & p & _ & _ & Hlook & _ & Hc & ->)] Hok; [done|].
  destruct Hok as [Hv Hu]. split; simpl.
  - intros g x. destruct (decide (guid = g)) as [->|]; [|rewrite lookup_insert_ne by done; apply Hv].
    rewrite lookup_insert_eq. intros [= <-]. destruct (decide (RG_ReservablePorts rg = p)) as [->|Hne].
    + by apply (Hv g).
    + by apply Hc.
  - intros g1 g2 n' t' p1 p2. rewrite !lookup_insert_Some.
    intros [[<- [= <- <- <-]]|[N1 L1]] [[<- E]|[N2 L2]]; [done| | |by eapply Hu].
    + by apply (Hu _ _ _ _ _ _ Hlook L2).
    + injection E as <- <- <-. by apply (Hu _ _ _ _ _ _ L1 Hlook).
Qed.

Lemma groups_ok_delete gl req v code v' : group_delete_answer req v code v' -> groups_ok gl v -> groups_ok gl v'.
Proof.
  intros [[-> _]|[(_ & -> & _)|(_ & _ & _ & ->)]] [Hv Hu]; [done..|]. split; simpl.
  - intros g x [_ Hl]%lookup_delete_Some. by eapply Hv.
  - intros g1 g2 n t p1 p2 [_ L1]%lookup_delete_Some [_ L2]%lookup_delete_Some. by eapply Hu.
Qed.

Lemma groups_ok_same gl v v' : v_groups v' = v_groups v -> groups_ok gl v -> groups_ok gl v'.
Proof. unfold groups_ok. by intros ->. Qed.
