(* ===== verification/Watch.v ===== *)
(** Watch: the event streams.  [WatchChanges] and [dispatchWatchEvents]
    (db/db_sql.go) turn a hub subscription into two channels, and
    [handleEventStream] (handlers/event_stream_handler.go) writes what arrives
    as server-sent events.  The dispatcher and the handler are two goroutines
    that meet on an unbuffered channel, so a stream is a step relation. *)
From Stdlib Require Import ZArith Lia.
From stdpp Require Import base option strings gmap list relations.
From S2P Require Import JsonText Sse.
From S2P Require Import Prelude GoStrings RouterGroups Routes Json EventHub SqlDB Contract Validator Http.
From S2P Require Import Handlers.

Local Open Scope string_scope.
Local Open Scope list_scope.
Local Open Scope Z_scope.

Definition TCP_WATCH : string := "tcp-watch".
Definition HTTP_WATCH : string := "http-watch".
Definition ROUTER_GROUP_WATCH : string := "router-group-watch".

(** ** The watch

    The dispatcher is about to call [Next], is blocked sending on [events],
    or has returned, which closes both channels. *)
Inductive disp := DNext | DSend (e : Event) | DDone.

Record watch := mkWatch {
  w_sub : option nat;       (* the subscription, if there is one *)
  w_disp : disp;
  w_errs : list error       (* the buffer of the [errors] channel *)
}.

(** One round of [dispatchWatchEvents]; [None] when it cannot move. *)
Definition dispatchWatchEvents (h : hub Event) (w : watch) : option (watch * hub Event) :=
  match w_disp w, w_sub w with
  | DNext, Some sub =>
      match sub_Next sub h with
      | (NextBlocks, _) => None
      | (NextErr err, h1) =>
          Some (mkWatch (w_sub w) DDone
                  (if bool_decide (err = ErrReadFromClosedSource) then w_errs w else w_errs w ++ [err]), h1)
      | (NextEvent event, h1) => Some (mkWatch (w_sub w) (DSend event) (w_errs w), h1)
      end
  | _, _ => None
  end.

Section WatchChanges.
Context {S : Type}.

Definition watch_of (r : (error + nat) * hub Event) : watch :=
  match fst r with
  | inl err => mkWatch None DDone [err]
  | inr sub => mkWatch (Some sub) DNext []
  end.

Definition WatchChanges (watchType : string) (s : SqlDB S) : watch * SqlDB S :=
  if bool_decide (watchType = TCP_WATCH) then
    let r := hub_Subscribe (tcpEventHub s) in (watch_of r, with_tcpHub (snd r) s)
  else if bool_decide (watchType = HTTP_WATCH) then
    let r := hub_Subscribe (httpEventHub s) in (watch_of r, with_httpHub (snd r) s)
  else (mkWatch None DDone [errors_New ("invalid watch type: " +:+ watchType)], s).

(** The hub a watch reads from. *)
Definition hub_for (watchType : string) (s : SqlDB S) : hub Event :=
  if bool_decide (watchType = TCP_WATCH) then tcpEventHub s else httpEventHub s.
End WatchChanges.

(** ** The handler's loop *)
Record stream := mkStream {
  eventID : Z;
  st_out : list sse_event;   (* written to the response *)
  st_seen : list (Event * bool);   (* received from [resultChan], and whether the write succeeded *)
  st_done : bool             (* the handler has returned *)
}.

Definition init_stream : stream := mkStream 0 [] [] false.

Definition received (st : stream) : list Event := (st_seen st).*1.

(** The events whose write succeeded. *)
Definition written (st : stream) : list Event := (filter (fun p => snd p = true) (st_seen st)).*1.

(** [case event := <-resultChan]: the write succeeds or not ([wrote]).  The
    [break] after a failed write leaves the select, not the loop. *)
Definition on_event (wrote : bool) (event : Event) (st : stream) : stream :=
  if bool_decide (Event_Type event = InvalidEvent)
  then mkStream (eventID st) (st_out st) (st_seen st) true
  else
    let seen := st_seen st ++ [(event, wrote)] in
    if wrote
    then mkStream (i64 (eventID st + 1))
           (st_out st ++ [mkSse (Itoa (eventID st)) (EventType_String (Event_Type event)) (json_text (Event_Value event)) 0])
           seen false
    else mkStream (eventID st) (st_out st) seen false.

Definition zero_Event : Event := mkEvent InvalidEvent JNull.

(** A receive on [resultChan]: from the blocked dispatcher, or the zero event
    once the channel is closed. *)
Definition recv_event (wrote : bool) (w : watch) (st : stream) : option (watch * stream) :=
  match w_disp w with
  | DNext => None
  | DSend e => Some (mkWatch (w_sub w) DNext (w_errs w), on_event wrote e st)
  | DDone => Some (w, on_event wrote zero_Event st)
  end.

(** [case err := <-errChan]: an error, or nil once the channel is closed. *)
Definition recv_err (w : watch) (st : stream) : option (watch * stream) :=
  let stop := mkStream (eventID st) (st_out st) (st_seen st) true in
  match w_errs w, w_disp w with
  | _ :: es, _ => Some (mkWatch (w_sub w) (w_disp w) es, stop)
  | [], DDone => Some (w, stop)
  | [], _ => None
  end.

(** [case <-closeNotifier]: [cancelFunc] closes the subscription. *)
Definition cancel (w : watch) (h : hub Event) : hub Event :=
  match w_sub w with None => h | Some sub => sub_Close sub h end.

Definition on_close (st : stream) : stream := mkStream (eventID st) (st_out st) (st_seen st) true.

(** ** A stream among the other activity on its hub

    [sy_obs] is the hub with the history of this subscription. *)
Record system := mkSystem { sy_obs : obs Event; sy_watch : watch; sy_stream : stream }.

Definition sy_hub (y : system) : hub Event := o_hub (sy_obs y).

Inductive sys_step (sub : nat) : system -> system -> Prop :=
| sys_emit o w st e :
    sys_step sub (mkSystem o w st) (mkSystem (obs_step sub o (OpEmit e)) w st)
| sys_subscribe o w st :
    sys_step sub (mkSystem o w st) (mkSystem (obs_step sub o (OpSubscribe)) w st)
| sys_CancelWatches o w st :
    sys_step sub (mkSystem o w st) (mkSystem (obs_step sub o (OpHubClose)) w st)
| sys_dispatch o w st w' h' :
    dispatchWatchEvents (o_hub o) w = Some (w', h') ->
    sys_step sub (mkSystem o w st) (mkSystem (obs_step sub o (OpNext sub)) w' st)
| sys_recv o w st wrote w' st' :
    st_done st = false -> recv_event wrote w st = Some (w', st') ->
    sys_step sub (mkSystem o w st) (mkSystem o w' st')
| sys_err o w st w' st' :
    st_done st = false -> recv_err w st = Some (w', st') ->
    sys_step sub (mkSystem o w st) (mkSystem o w' st')
| sys_disconnect o w st :
    st_done st = false ->
    sys_step sub (mkSystem o w st) (mkSystem (obs_step sub o (OpSubClose sub)) w (on_close st)).

(** What the dispatcher holds: read from the hub, not yet received. *)
Definition in_flight (d : disp) : list Event := match d with DSend e => [e] | _ => [] end.

(** The events written for the events seen. *)
Fixpoint numbered (i : Z) (es : list Event) : list sse_event :=
  match es with
  | [] => []
  | e :: es' => mkSse (Itoa (i64 i)) (EventType_String (Event_Type e)) (json_text (Event_Value e)) 0 :: numbered (i + 1) es'
  end.

Definition sys_inv (sub : nat) (y : system) : Prop :=
  w_sub (sy_watch y) = Some sub /\ wf_hub (sy_hub y) /\ delivered sub (sy_obs y) /\
  exists skipped, o_received (sy_obs y) = received (sy_stream y) ++ skipped ++ in_flight (w_disp (sy_watch y)) /\
    (st_done (sy_stream y) = false -> skipped = []).

Lemma dispatch_cases sub o w w' h' :
  w_sub w = Some sub -> dispatchWatchEvents (o_hub o) w = Some (w', h') ->
  w_disp w = DNext /\ w_sub w' = Some sub /\ o_hub (obs_step sub o (OpNext sub)) = h' /\
  o_received (obs_step sub o (OpNext sub)) = o_received o ++ in_flight (w_disp w').
Proof.
  intros Hsub. unfold dispatchWatchEvents. rewrite Hsub. destruct (w_disp w) eqn:Hd; try done.
  unfold obs_step. destruct (sub_Next sub (o_hub o)) as [[e|err|] h1]; try done; intros [= <- <-]; simpl.
  - by rewrite bool_decide_eq_true_2.
  - by rewrite app_nil_r.
Qed.

Lemma sys_inv_step sub y y' : sys_inv sub y -> sys_step sub y y' -> sys_inv sub y'.
Proof.
  intros (Hsub & Hwf & Hdel & sk & Hrec & Hsk) Hstep. unfold sys_inv, sy_hub in *.
  assert (forall op, wf_hub (o_hub (obs_step sub (sy_obs y) op)) /\ delivered sub (obs_step sub (sy_obs y) op)) as Hop
    by (intros op; by apply delivered_step).
  destruct Hstep as [o w st e|o w st|o w st|o w st w' h' Hd|o w st wr w' st' Hnd Hr|o w st w' st' Hnd Hr|o w st Hnd];
    simpl in *.
  1-3: split_and!; try apply (Hop (OpEmit _)); try apply (Hop OpSubscribe); try apply (Hop OpHubClose); eauto.
  - destruct (dispatch_cases sub o w w' h' Hsub Hd) as (Hn & Hsub' & _ & Hrec').
    split_and!; [done|apply (Hop (OpNext _))..|]. exists sk. split; [|done].
    simpl in Hrec'. rewrite Hrec', Hrec, Hn. simpl. by rewrite app_nil_r, <- (assoc_L (++)).
  - rewrite (Hsk Hnd) in *. simpl in *. unfold recv_event, on_event in Hr.
    destruct (w_disp w) as [|e|] eqn:Hd; [done| |].
    + injection Hr as <- <-. split_and!; [done..|]. case_bool_decide as Hinv.
      * exists [e]. simpl. split; [by rewrite ?app_nil_r|done].
      * exists []. destruct wr; unfold received in *; simpl; rewrite fmap_app; (split; [by rewrite Hrec, app_nil_r|done]).
    + injection Hr as <- <-. split_and!; [done..|]. exists []. simpl. by rewrite Hrec, Hd.
  - rewrite (Hsk Hnd) in *. simpl in *. unfold recv_err in Hr.
    destruct (w_errs w) as [|e es], (w_disp w) eqn:Hd; try done; injection Hr as <- <-; simpl;
      split_and!; try done; exists []; by rewrite ?Hd.
  - split_and!; [done|apply (Hop (OpSubClose _))..|]. exists sk. simpl. split; [done|]. done.
Qed.

(** ** Reachable streams *)

(** A stream right after [WatchChanges] subscribed it. *)
Definition init_system (sub : nat) (h : hub Event) : system :=
  mkSystem (mkObs h [] []) (mkWatch (Some sub) DNext []) init_stream.

Lemma sys_inv_init h sub h' : wf_hub h -> hub_Subscribe h = (inr sub, h') -> sys_inv sub (init_system sub h').
Proof.
  intros Hwf Hs. split_and!; [done| |by eapply delivered_Subscribe|by exists []].
  pose proof (wf_Subscribe h Hwf) as Hw. by rewrite Hs in Hw.
Qed.

Lemma sys_inv_reach sub y y' : sys_inv sub y -> rtc (sys_step sub) y y' -> sys_inv sub y'.
Proof. intros Hi Hr. induction Hr; eauto using sys_inv_step. Qed.

(** What the handler has received is a gap-free prefix of the changes. *)
Lemma sys_inv_prefix sub y : sys_inv sub y -> received (sy_stream y) `prefix_of` o_emitted (sy_obs y).
Proof.
  intros (_ & _ & (s & _ & Hpre & _) & sk & Hrec & _). etrans; [|exact Hpre].
  rewrite Hrec, <- !(assoc_L (++)). by apply prefix_app_r.
Qed.

(** *** The numbering of the events written *)
Lemma i64_succ i : i64 (i64 i + 1) = i64 (i + 1).
Proof.
  unfold i64. f_equal.
  replace ((i + 9223372036854775808) `mod` 18446744073709551616 - 9223372036854775808 + 1 + 9223372036854775808)
    with ((i + 9223372036854775808) `mod` 18446744073709551616 + 1) by lia.
  rewrite Zplus_mod_idemp_l. f_equal. lia.
Qed.

Lemma numbered_snoc i es e :
  numbered i (es ++ [e]) =
  numbered i es ++ [mkSse (Itoa (i64 (i + Z.of_nat (length es)))) (EventType_String (Event_Type e)) (json_text (Event_Value e)) 0].
Proof.
  revert i. induction es as [|x es IH]; intros i; cbn [numbered app length]; [by rewrite Z.add_0_r|].
  rewrite IH. do 4 f_equal. f_equal. f_equal. lia.
Qed.

Definition out_inv (st : stream) : Prop :=
  st_out st = numbered 0 (written st) /\ eventID st = i64 (Z.of_nat (length (written st))).

Lemma written_received st : written st `sublist_of` received st.
Proof. apply fmap_sublist, sublist_filter. Qed.

(** No write has failed: everything received was written. *)
Definition all_written (st : stream) : Prop := Forall (fun p => snd p = true) (st_seen st).

Lemma written_all st : all_written st -> written st = received st.
Proof. unfold all_written. intros Hall. unfold written, received. induction Hall as [|p l Hp _ IH]; [done|]. rewrite filter_cons_True by done. csimpl. by rewrite IH. Qed.

Lemma written_snoc i out seen e b d :
  written (mkStream i out (seen ++ [(e, b)]) d) = (filter (fun p => snd p = true) seen).*1 ++ (if b then [e] else []).
Proof. unfold written. simpl. rewrite filter_app, fmap_app. by destruct b. Qed.

Lemma out_inv_event wrote e st : out_inv st -> out_inv (on_event wrote e st).
Proof.
  intros [Hout Hid]. unfold on_event. case_bool_decide; [done|]. unfold out_inv in *. fold (written st) in *.
  destruct wrote; rewrite written_snoc; simpl; [|by rewrite app_nil_r]. fold (written st). rewrite length_app. simpl. split.
  - rewrite numbered_snoc, Hout. simpl. by rewrite Hid.
  - rewrite Hid, i64_succ. f_equal. lia.
Qed.

Lemma out_inv_step sub y y' : out_inv (sy_stream y) -> sys_step sub y y' -> out_inv (sy_stream y').
Proof.
  intros Ho Hs. destruct Hs as [| | | |o w st wr w' st' _ Hr|o w st w' st' _ Hr|]; simpl in *; try done.
  - unfold recv_event in Hr. destruct (w_disp w); [done|..]; injection Hr as <- <-; by apply out_inv_event.
  - unfold recv_err in Hr. by destruct (w_errs w), (w_disp w); try done; injection Hr as <- <-.
Qed.

Lemma out_inv_reach sub y y' : out_inv (sy_stream y) -> rtc (sys_step sub) y y' -> out_inv (sy_stream y').
Proof. intros Hi Hr. induction Hr; eauto using out_inv_step. Qed.

(** *** A dispatcher whose handler has returned *)
Lemma blocked_step sub y y' e :
  st_done (sy_stream y) = true -> w_disp (sy_watch y) = DSend e -> sys_step sub y y' ->
  st_done (sy_stream y') = true /\ w_disp (sy_watch y') = DSend e.
Proof.
  intros Hd Hw Hs. destruct Hs as [| | |o w st w' h' Hx| | |]; simpl in *; try done; try congruence.
  unfold dispatchWatchEvents in Hx. by rewrite Hw in Hx.
Qed.

Lemma blocked_forever sub y y' e :
  st_done (sy_stream y) = true -> w_disp (sy_watch y) = DSend e -> rtc (sys_step sub) y y' ->
  w_disp (sy_watch y') = DSend e.
Proof.
  intros Hd Hw Hr. revert Hd Hw. induction Hr as [|y1 y2 y3 Hs Hr IH]; intros Hd Hw; [done|].
  destruct (blocked_step _ _ _ _ Hd Hw Hs). by apply IH.
Qed.

(** *** Cancelling *)

(** A closed source loses its place in the subscriber list at the next
    [Emit]. *)
Lemma Emit_drops_closed {E} (h : hub E) sub s e :
  wf_hub h -> hub_sources h !! sub = Some s -> src_closed s = true ->
  sub ∉ hub_subscribers (hub_Emit e h).
Proof.
  intros (Hnd & Hlt & _) Hs Hc. unfold hub_Emit. pose proof (emit_loop_spec e _ _ Hnd Hlt) as Hspec.
  destruct (emit_loop _ _ _) as [rem heap]. destruct Hspec as (_ & Hrem & _). simpl.
  rewrite Hrem. intros (_ & t & Ht & Hsend). rewrite Hs in Ht. injection Ht as <-.
  unfold source_send in Hsend. by rewrite Hc in Hsend.
Qed.

Lemma disconnect_unsubscribes sub (o : obs Event) e :
  wf_hub (o_hub o) -> delivered sub o ->
  sub ∉ hub_subscribers (hub_Emit e (sub_Close sub (o_hub o))).
Proof.
  intros Hwf (s & Hs & _). pose proof (wf_sub_Close sub _ Hwf) as Hwf'.
  apply (Emit_drops_closed _ _ (snd (source_Close s)) _ Hwf'); [|by apply source_Close_fields].
  unfold sub_Close. rewrite Hs. simpl. apply list_lookup_insert_eq. by eapply lookup_lt_Some.
Qed.

(** ** Opening a stream *)
Section Open.
Context {S U : Type} `{!TokenValidator U}.
Notation M := (Go (Server (SqlDB S) U)).

Definition AddHeader (k v : string) : M unit := on_w (rw_update_header (Header_Add k v)).

(** [handleEventStream] up to its loop: the watch it will read from, or
    nothing when the token is refused. *)
Definition handleEventStream_open (filterKey : string) (req : Request) : M (option watch) :=
  err ← ValidateToken req RoutingRoutesReadScope;
  match err with
  | Some err => _ ← handleUnauthorizedError err; mret None
  | None =>
      w ← (fun s => let '(w, d) := WatchChanges filterKey (sv_db s) in Ok w (with_db d s));
      _ ← AddHeader "Content-Type" "text/event-stream; charset=utf-8";
      _ ← AddHeader "Cache-Control" "no-cache, no-store, must-revalidate";
      _ ← AddHeader "Connection" "keep-alive";
      _ ← WriteHeader StatusOK;
      mret (Some w)
  end.
End Open.
