(* ===== verification/SqlHubFacts.v ===== *)
(** SqlHubFacts: the two event hubs stay well formed under every operation of
    the database, however the operation ends and whatever the database client
    does.  No law of the client is needed. *)
From Stdlib Require Import ZArith Lia.
From stdpp Require Import base option strings gmap list.
From S2P Require Import Prelude GoStrings RouterGroups Routes Json EventHub Store Keyed SqlDB Prune Watch.

Local Open Scope string_scope.
Local Open Scope list_scope.
Local Open Scope Z_scope.

Section Hubs.
Context {S : Type} `{!Env S, !SqlClient S}.
Implicit Types (s : SqlDB S).

Definition hubs_ok s : Prop := wf_hub (httpEventHub s) /\ wf_hub (tcpEventHub s).

(** A call on the client cannot reach the hubs. *)
Lemma client_keeps {A} (m : Go S A) : keeps hubs_ok (client m).
Proof. intros s Hs. unfold client, zoom. by destruct (m (Client s)). Qed.

Lemma emit_keeps ty obj : keeps hubs_ok (emitEvent ty obj).
Proof. intros s [Hh Ht]. destruct obj; simpl; (split; [|]; simpl; auto using wf_Emit). Qed.

Lemma locker_keeps f : keeps hubs_ok (modify (fun s => with_locker (f (locker s)) s)).
Proof. by intros s Hs. Qed.

#[local] Hint Resolve client_keeps emit_keeps : keepsdb.

Lemma read_group_keeps p : keeps hubs_ok (read_group_where p).
Proof. unfold read_group_where. keeps_tac. Qed.

Lemma readRoute_keeps r : keeps hubs_ok (readRoute r).
Proof. unfold readRoute. keeps_tac. Qed.

Lemma FindExisting_keeps m : keeps hubs_ok (FindExistingTcpRouteMapping m).
Proof. unfold FindExistingTcpRouteMapping. keeps_tac. Qed.

#[local] Hint Resolve read_group_keeps readRoute_keeps FindExisting_keeps : keepsdb.

(** The operations of the database, as data. *)
Inductive db_op :=
| DSaveRoute (r : Route) | DDeleteRoute (r : Route)
| DSaveTcp (m : TcpRouteMapping) | DDeleteTcp (m : TcpRouteMapping)
| DSaveGroup (g : RouterGroup) | DDeleteGroup (guid : string)
| DPruneHttp | DPruneTcp | DCancelWatches | DWatch (watchType : string)
| DLockReads | DLockWrites | DUnlockReads | DUnlockWrites.

Definition run_db_op (o : db_op) : Go (SqlDB S) unit :=
  match o with
  | DSaveRoute r => SaveRoute r
  | DDeleteRoute r => DeleteRoute r
  | DSaveTcp m => SaveTcpRouteMapping m
  | DDeleteTcp m => DeleteTcpRouteMapping m
  | DSaveGroup g => SaveRouterGroup g
  | DDeleteGroup guid => DeleteRouterGroup guid
  | DPruneHttp => prune_http_routes
  | DPruneTcp => prune_tcp_routes
  | DCancelWatches => CancelWatches
  | DWatch ty => modify (fun s => snd (WatchChanges ty s))
  | DLockReads => LockRouterGroupReads
  | DLockWrites => LockRouterGroupWrites
  | DUnlockReads => UnlockRouterGroupReads
  | DUnlockWrites => UnlockRouterGroupWrites
  end.

Lemma prune_keeps {R} `{!Row R, !Expires R} : keeps hubs_ok (prune_pass (R:=R)).
Proof. unfold prune_pass, FindExpiredRoutes, delete_expired, emit_expired. keeps_tac. Qed.

Lemma cancel_keeps : keeps hubs_ok CancelWatches.
Proof. intros s [Hh Ht]. split; simpl; by apply wf_hub_Close. Qed.

Lemma watch_keeps ty : keeps hubs_ok (modify (fun s => snd (WatchChanges ty s))).
Proof.
  intros s [Hh Ht]. simpl. unfold WatchChanges.
  repeat case_bool_decide; (split; [|]); simpl; by try apply wf_Subscribe.
Qed.

Lemma run_db_op_keeps o : keeps hubs_ok (run_db_op o).
Proof.
  destruct o; simpl;
    first [apply prune_keeps | apply cancel_keeps | apply watch_keeps | apply locker_keeps | idtac].
  - unfold SaveRoute, saveRoute_found, updateRoute. keeps_tac.
  - unfold DeleteRoute. keeps_tac.
  - unfold SaveTcpRouteMapping, updateTcpRouteMapping. keeps_tac.
  - unfold DeleteTcpRouteMapping. keeps_tac.
  - unfold SaveRouterGroup, ReadRouterGroup. keeps_tac.
  - unfold DeleteRouterGroup, ReadRouterGroup. keeps_tac.
Qed.

(** Any sequence of operations; a failed one is answered and the next runs. *)
Lemma run_db_ops_keep ops : keeps hubs_ok (for_each ops (fun o => _ ← try (run_db_op o); mret tt)).
Proof. keeps_tac. apply run_db_op_keeps. Qed.
End Hubs.
