(* ===== verification/Api.v ===== *)
(** Api: the route tables (routes.go, admin/server.go), the mapping from route
    names to handlers ([apiHandler] of cmd/routing-api/main.go), the lock
    handlers of admin/router_group_lock_handler.go, and what holds of every
    request. *)
From Stdlib Require Import ZArith Lia.
From stdpp Require Import base option strings gmap list.
From S2P Require Import Prelude GoStrings RouterGroups Routes Json SqlDB Contract Validator Http Handlers.
From S2P Require Import HandlerFacts GroupApi.

Local Open Scope string_scope.
Local Open Scope list_scope.
Local Open Scope Z_scope.

(** ** Route tables *)
Record rata_Route := mkRataRoute { Route_Name : string; Route_Method : string; Route_Path : string }.

Definition RoutesMap : list rata_Route := [
  mkRataRoute "UpsertRoute" "POST" "/routing/v1/routes";
  mkRataRoute "Delete" "DELETE" "/routing/v1/routes";
  mkRataRoute "List" "GET" "/routing/v1/routes";
  mkRataRoute "EventStream" "GET" "/routing/v1/events";
  mkRataRoute "CreateRouterGroup" "POST" "/routing/v1/router_groups";
  mkRataRoute "DeleteRouterGroup" "DELETE" "/routing/v1/router_groups/:guid";
  mkRataRoute "ListRouterGroups" "GET" "/routing/v1/router_groups";
  mkRataRoute "UpdateRouterGroup" "PUT" "/routing/v1/router_groups/:guid";
  mkRataRoute "UpsertTcpRouteMapping" "POST" "/routing/v1/tcp_routes/create";
  mkRataRoute "DeleteTcpRouteMapping" "POST" "/routing/v1/tcp_routes/delete";
  mkRataRoute "ListTcpRouteMapping" "GET" "/routing/v1/tcp_routes";
  mkRataRoute "TcpRouteEventStream" "GET" "/routing/v1/tcp_routes/events"
].

Definition AdminRoutesMap : list rata_Route := [
  mkRataRoute "LockRouterGroupReads" "PUT" "/lock_router_group_reads";
  mkRataRoute "UnlockRouterGroupReads" "PUT" "/unlock_router_group_reads";
  mkRataRoute "LockRouterGroupWrites" "PUT" "/lock_router_group_writes";
  mkRataRoute "UnlockRouterGroupWrites" "PUT" "/unlock_router_group_writes"
].

(** ** Requests that are answered at once; the two streams are in Watch. *)
Inductive action :=
| AUpsertRoute | ADeleteRoute | AListRoute
| AListRouterGroups | ACreateRouterGroup | AUpdateRouterGroup | ADeleteRouterGroup
| AUpsertTcp | ADeleteTcp | AListTcp.

Definition action_of (name : string) : option action :=
  match name with
  | "UpsertRoute" => Some AUpsertRoute
  | "Delete" => Some ADeleteRoute
  | "List" => Some AListRoute
  | "ListRouterGroups" => Some AListRouterGroups
  | "CreateRouterGroup" => Some ACreateRouterGroup
  | "UpdateRouterGroup" => Some AUpdateRouterGroup
  | "DeleteRouterGroup" => Some ADeleteRouterGroup
  | "UpsertTcpRouteMapping" => Some AUpsertTcp
  | "DeleteTcpRouteMapping" => Some ADeleteTcp
  | "ListTcpRouteMapping" => Some AListTcp
  | _ => None
  end.

Definition scope_of (a : action) : string :=
  match a with
  | AUpsertRoute | ADeleteRoute | AUpsertTcp | ADeleteTcp => RoutingRoutesWriteScope
  | AListRoute | AListTcp => RoutingRoutesReadScope
  | AListRouterGroups => RouterGroupsReadScope
  | ACreateRouterGroup | AUpdateRouterGroup | ADeleteRouterGroup => RouterGroupsWriteScope
  end.

Section Api.
Context {D U : Type} `{!DB D, !Env D, !TokenValidator U, !NetUrl}.
Context (gl : Globals) (maxTTL : Z).
Notation M := (Go (Server D U)).

Definition apiHandler (a : action) (req : Request) : M unit :=
  match a with
  | AUpsertRoute => Routes_Upsert maxTTL req
  | ADeleteRoute => Routes_Delete req
  | AListRoute => Routes_List req
  | AListRouterGroups => ListRouterGroups req
  | ACreateRouterGroup => CreateRouterGroup gl req
  | AUpdateRouterGroup => UpdateRouterGroup gl req
  | ADeleteRouterGroup => DeleteRouterGroup_handler req
  | AUpsertTcp => Tcp_Upsert maxTTL req
  | ADeleteTcp => Tcp_Delete req
  | AListTcp => Tcp_List req
  end.

(** *** The admin server *)
Definition LockReads : M unit := _ ← on_db db_LockRouterGroupReads; WriteHeader StatusOK.
Definition LockWrites : M unit := _ ← on_db db_LockRouterGroupWrites; WriteHeader StatusOK.
Definition UnlockReads : M unit := _ ← on_db db_UnlockRouterGroupReads; WriteHeader StatusOK.
Definition UnlockWrites : M unit := _ ← on_db db_UnlockRouterGroupWrites; WriteHeader StatusOK.

Definition admin_handler (name : string) : option (M unit) :=
  match name with
  | "LockRouterGroupReads" => Some LockReads
  | "UnlockRouterGroupReads" => Some UnlockReads
  | "LockRouterGroupWrites" => Some LockWrites
  | "UnlockRouterGroupWrites" => Some UnlockWrites
  | _ => None
  end.

(** *** Every request *)

Lemma apiHandler_rejected a req s err u :
  uaa_ValidateToken (token_of req) [scope_of a] (sv_uaa s) = Fail err u ->
  apiHandler a req s = Ok tt (rejected err u s).
Proof. destruct a; apply authorized_run. Qed.
End Api.

Section ApiFacts.
Context {D U : Type} `{!DB D, !Env D, !DBContract D, !TokenValidator U, !NetUrl}.
Context (gl : Globals) (maxTTL : Z).
Implicit Types (s : Server D U).

(** What any request may do to the store. *)
Definition api_answer (code : Z) (v v' : View) : Prop :=
  (groups_ok gl v -> groups_ok gl v') /\ v_locks v' = v_locks v /\
  (isWriteLocked (v_locks v) = true -> v_groups v' = v_groups v) /\
  (code ∈ [StatusUnauthorized; StatusBadRequest; StatusNotFound] -> v' = v).

Lemma api_same code v : api_answer code v v.
Proof. done. Qed.

Lemma api_other code v v' : v_groups v' = v_groups v -> v_locks v' = v_locks v ->
  code ∉ [StatusUnauthorized; StatusBadRequest; StatusNotFound] -> api_answer code v v'.
Proof. intros Hg Hl Hc. split_and!; [by apply groups_ok_same|done|done|done]. Qed.

Lemma api_groups code m v :
  (groups_ok gl v -> groups_ok gl (set_groups m v)) -> isWriteLocked (v_locks v) = false ->
  code ∉ [StatusUnauthorized; StatusBadRequest; StatusNotFound] -> api_answer code v (set_groups m v).
Proof. intros Hg Hl Hc. split_and!; [done|done|congruence|done]. Qed.

Lemma api_routes code rs v v' : only_routes rs v v' ->
  code ∉ [StatusUnauthorized; StatusBadRequest; StatusNotFound] -> api_answer code v v'.
Proof. intros (_ & Hg & Hl & _). by apply api_other. Qed.

Lemma api_tcp code ms v v' : only_tcp ms v v' ->
  code ∉ [StatusUnauthorized; StatusBadRequest; StatusNotFound] -> api_answer code v v'.
Proof. intros (_ & Hg & Hl & _). by apply api_other. Qed.

Ltac not_error := apply (bool_decide_unpack _); vm_compute; exact I.

Lemma update_api req code v v' : update_answer gl req v code v' -> api_answer code v v'.
Proof.
  intros Hu. split; [by eapply groups_ok_update|].
  destruct Hu as [[-> _]|(rg & guid & n & t & p & _ & _ & Hlook & -> & Hc & ->)]; [done|].
  destruct (decide (RG_ReservablePorts rg = p)) as [<-|Hne]; [by rewrite set_groups_same|].
  destruct (Hc Hne) as [Hl _]. split_and!; [done|congruence|].
  intros Hin. exfalso. revert Hin. not_error.
Qed.

Lemma apiHandler_wp a req s :
  fresh s -> db_inv (sv_db s) ->
  wp (apiHandler gl maxTTL a req) s
    (responds (fun code v' => api_answer code (view (sv_db s)) v')) (aborts s).
Proof.
  intros Hf Hi. destruct a; simpl.
  - eapply responds_mono; [by apply Routes_Upsert_wp|].
    intros code v' [[-> ->]|[(-> & -> & _)|(rs & _ & _ & [[-> Hs]|(-> & pre & r & post & _ & Hs)])]];
      try apply api_same; (eapply api_routes; [by eapply stored_only_routes|not_error]).
  - eapply responds_mono; [by apply Routes_Delete_wp|].
    intros code v' [[-> ->]|[(-> & -> & _)|(rs & _ & _ & [[-> Hs]|(-> & pre & r & post & _ & Hs)])]];
      try apply api_same; (eapply api_routes; [by eapply removed_only_routes|not_error]).
  - eapply responds_mono; [by apply Routes_List_wp|]. intros code v' [-> _]. apply api_same.
  - eapply responds_mono; [by apply ListRouterGroups_wp|]. intros code v' [-> _]. apply api_same.
  - eapply responds_mono; [by apply CreateRouterGroup_wp|]. intros code v' Hc.
    pose proof (groups_ok_create _ _ _ _ _ Hc) as Hok.
    destruct Hc as [[-> _]|(rg & _ & [(-> & -> & _)|(-> & _ & Hwl & _ & guid & _ & ->)])]; try apply api_same.
    apply api_groups; [done|done|not_error].
  - eapply responds_mono; [by apply UpdateRouterGroup_wp|]. intros code v'. apply update_api.
  - eapply responds_mono; [by apply DeleteRouterGroup_handler_wp|]. intros code v' Hc.
    pose proof (groups_ok_delete gl _ _ _ _ Hc) as Hok.
    destruct Hc as [[-> _]|[(_ & -> & _)|(-> & Hwl & _ & ->)]]; try apply api_same.
    apply api_groups; [done|done|not_error].
  - eapply responds_mono; [by apply Tcp_Upsert_wp|].
    intros code v' [[-> _]|(ms & _ & _ & [[-> Hs]|(-> & pre & r & post & _ & Hs)])];
      try apply api_same; (eapply api_tcp; [by eapply stored_only_tcp|not_error]).
  - eapply responds_mono; [by apply Tcp_Delete_wp|].
    intros code v' [[-> _]|(ms & _ & _ & [[-> Hs]|(-> & pre & r & post & _ & Hs)])];
      try apply api_same; (eapply api_tcp; [by eapply removed_only_tcp|not_error]).
  - eapply responds_mono; [by apply Tcp_List_wp|]. intros code v' [-> _]. apply api_same.
Qed.
End ApiFacts.
