(* ===== verification/Routing.v ===== *)
(** Routing: from the name of a route to its path and back.
    [Route.CreatePath] and [NewRouter] (vendor/github.com/tedsuo/rata) and the
    pattern multiplexer behind it (vendor/github.com/bmizerany/pat/mux.go).  The
    routes are registered in the order of a Go map, which is arbitrary, so the
    theorems are about every order. *)
From Stdlib Require Import ZArith Lia Ascii.
From stdpp Require Import base option strings gmap list.
From S2P Require Import Prelude GoStrings Utf8 RouterGroups Routes Json Http Handlers Api.

Local Open Scope string_scope.
Local Open Scope list_scope.
Local Open Scope Z_scope.

(** ** Paths *)

(** [url.Parse] followed by [String]. *)
Class UrlText := url_String : string -> error + string.

Definition is_alpha (c : ascii) : bool := within 97 122 c || within 65 90 c || bool_decide (c = "_"%char).
Definition is_digit_ (c : ascii) : bool := within 48 57 c.
Definition isAlnum (c : ascii) : bool := is_alpha c || is_digit_ c.

(** Letters, digits, and the marks that are never escaped. *)
Definition plain_char (c : ascii) : bool := isAlnum c || bool_decide (c ∈ ["-"; "."; "~"]%char).

Fixpoint all_chars (f : ascii -> bool) (s : string) : bool :=
  match s with EmptyString => true | String c s' => f c && all_chars f s' end.

Definition plain (s : string) : bool := all_chars plain_char s.

(** Documented behaviour: a path of plain segments is left as it is. *)
Class UrlLaws {UrlText0 : UrlText} := {
  url_String_plain : forall segments,
    Forall (fun s => plain s = true) segments -> url_String (Join "/" ("" :: segments)) = inr (Join "/" ("" :: segments))
}.

Fixpoint lookup_param (params : list (string * string)) (k : string) : option string :=
  match params with
  | [] => None
  | (k', v) :: params' => if bool_decide (k' = k) then Some v else lookup_param params' k
  end.

Fixpoint fill (params : list (string * string)) (components : list string) : error + list string :=
  match components with
  | [] => inr []
  | c :: components' =>
      match c with
      | String ":" name =>
          match lookup_param params name with
          | None => inl (errors_New ("missing param " +:+ c))
          | Some val => match fill params components' with inl err => inl err | inr cs => inr (val :: cs) end
          end
      | _ => match fill params components' with inl err => inl err | inr cs => inr (c :: cs) end
      end
  end.

Definition CreatePath {UrlText0 : UrlText} (r : rata_Route) (params : list (string * string)) : error + string :=
  match fill params (Split "/" (Route_Path r)) with
  | inl err => inl err
  | inr components => url_String (Join "/" components)
  end.

Definition FindRouteByName (routes : list rata_Route) (name : string) : option rata_Route :=
  snd <$> list_find (fun r => Route_Name r = name) routes.

(** ** The multiplexer *)
Fixpoint span (f : ascii -> bool) (s : string) : string * string :=
  match s with
  | EmptyString => ("", "")
  | String c s' => if f c then let '(a, b) := span f s' in (String c a, b) else ("", s)
  end.

Definition next_byte (s : string) : ascii := match s with EmptyString => zero | String c _ => c end.

Definition matchPart (b c : ascii) : bool := bool_decide (c <> b) && bool_decide (c <> "/"%char).

Definition hex_value (c : ascii) : option Z :=
  if within 48 57 c then Some (byte_val c - 48)
  else if within 97 102 c then Some (byte_val c - 87)
  else if within 65 70 c then Some (byte_val c - 55)
  else None.

(** [url.QueryUnescape]. *)
Fixpoint QueryUnescape (s : string) : option string :=
  match s with
  | EmptyString => Some ""
  | String c s' =>
      if bool_decide (c = "%"%char) then
        match s' with
        | String a (String b rest) =>
            match hex_value a, hex_value b with
            | Some x, Some y => String (byte (16 * x + y)) <$> QueryUnescape rest
            | _, _ => None
            end
        | _ => None
        end
      else if bool_decide (c = "+"%char) then String " " <$> QueryUnescape s'
      else String c <$> QueryUnescape s'
  end.

Fixpoint ends_with_slash (s : string) : bool :=
  match s with
  | EmptyString => false
  | String c EmptyString => bool_decide (c = "/"%char)
  | String _ s' => ends_with_slash s'
  end.

(** [patHandler.try]; each round shortens the pattern, so its length is fuel
    enough. *)
Fixpoint try_loop (fuel : nat) (full pat path : string) (p : list (string * string)) : option (list (string * string)) :=
  match path, pat with
  | EmptyString, EmptyString => Some p
  | EmptyString, String _ _ => None
  | String _ _, EmptyString => if bool_decide (full <> "/") && ends_with_slash full then Some p else None
  | String c path', String d pat' =>
      match fuel with
      | O => None
      | S fuel' =>
          if bool_decide (d = ":"%char) then
            let '(name, pat1) := span isAlnum pat' in
            let '(val, path1) := span (matchPart (next_byte pat1)) path in
            match QueryUnescape val with
            | None => None
            | Some escval => try_loop fuel' full pat1 path1 (p ++ [(":" +:+ name, escval)])
            end
          else if bool_decide (c = d) then try_loop fuel' full pat' path' p
          else None
      end
  end.

Definition try_pat (pat path : string) : option (list (string * string)) := try_loop (String.length pat) pat pat path [].

(** [patHandler]: the handler is the name of its route; [ph_redirect] marks the
    redirection that is added for a pattern that ends with a slash. *)
Record patHandler := mkPatHandler { ph_method : string; ph_pat : string; ph_name : string; ph_redirect : bool }.

Fixpoint drop_last_char (s : string) : string :=
  match s with
  | EmptyString => ""
  | String _ EmptyString => ""
  | String c s' => String c (drop_last_char s')
  end.

(** [PatternServeMux.add]; the recursion is over the trailing slashes. *)
Fixpoint mux_add (fuel : nat) (meth pat name : string) (redirect : bool) (mux : list patHandler) : list patHandler :=
  if existsb (fun q => bool_decide (ph_method q = meth) && bool_decide (ph_pat q = pat)) mux then mux
  else
    let mux1 := mux ++ [mkPatHandler meth pat name redirect] in
    match fuel with
    | S fuel' => if ends_with_slash pat then mux_add fuel' meth (drop_last_char pat) name true mux1 else mux1
    | O => mux1
    end.

Definition mux_Add (meth pat name : string) (mux : list patHandler) : list patHandler :=
  mux_add (String.length pat) meth pat name false mux.

Definition verbs : list string := ["GET"; "HEAD"; "POST"; "PUT"; "PATCH"; "DELETE"; "CONNECT"; "OPTIONS"; "TRACE"].

(** [NewRouter]; the methods of the tables are in upper case. *)
Fixpoint router_loop (routes : list rata_Route) (handlers : list string) (mux : list patHandler) : error + list patHandler :=
  match routes with
  | [] => inr mux
  | route :: routes' =>
      if bool_decide (Route_Name route ∈ handlers) then
        if bool_decide (Route_Method route ∈ verbs)
        then router_loop routes' handlers (mux_Add (Route_Method route) (Route_Path route) (Route_Name route) mux)
        else inl (errors_New ("invalid verb: " +:+ Route_Method route))
      else inl (errors_New ("missing handler " +:+ Route_Name route))
  end.

Definition NewRouter (routes : list rata_Route) (handlers : list string) : error + list patHandler :=
  router_loop routes handlers [].

(** What [ServeHTTP] does: run a handler with its parameters, answer 404, or
    answer 405 with the methods allowed. *)
Inductive dispatch := Handle (ph : patHandler) (params : list (string * string)) | NotFound404 | NotAllowed405 (allowed : list string).

Definition first_match (path : string) (mux : list patHandler) : option (patHandler * list (string * string)) :=
  ph ← snd <$> list_find (fun ph => is_Some (try_pat (ph_pat ph) path)) mux;
  params ← try_pat (ph_pat ph) path;
  Some (ph, params).

Definition ServeHTTP (mux : list patHandler) (meth path : string) : dispatch :=
  match first_match path (filter (fun ph => ph_method ph = meth) mux) with
  | Some (ph, params) => Handle ph params
  | None =>
      match filter (fun ph => ph_method ph <> meth /\ is_Some (try_pat (ph_pat ph) path)) mux with
      | [] => NotFound404
      | ms => NotAllowed405 (ph_method <$> ms)
      end
  end.

(** [rata.Param]. *)
Definition rata_Param (params : list (string * string)) (paramName : string) : string :=
  default "" (lookup_param params (":" +:+ paramName)).

(** The keys of the handler maps of [apiHandler] and of the admin server. *)
Definition api_actions : list string :=
  ["UpsertRoute"; "Delete"; "List"; "EventStream"; "ListRouterGroups"; "CreateRouterGroup"; "UpdateRouterGroup";
   "DeleteRouterGroup"; "UpsertTcpRouteMapping"; "DeleteTcpRouteMapping"; "ListTcpRouteMapping"; "TcpRouteEventStream"].

Definition admin_actions : list string :=
  ["LockRouterGroupReads"; "UnlockRouterGroupReads"; "LockRouterGroupWrites"; "UnlockRouterGroupWrites"].

(** ** Facts *)
Definition ph_of (r : rata_Route) : patHandler := mkPatHandler (Route_Method r) (Route_Path r) (Route_Name r) false.

Definition route_id (r : rata_Route) : string * string := (Route_Method r, Route_Path r).

(** A table that [NewRouter] accepts as it is. *)
Definition proper_table (handlers : list string) (routes : list rata_Route) : Prop :=
  NoDup (route_id <$> routes) /\
  Forall (fun r => Route_Name r ∈ handlers /\ Route_Method r ∈ verbs /\ ends_with_slash (Route_Path r) = false) routes.

Lemma mux_Add_new r mux :
  (forall q, q ∈ mux -> (ph_method q, ph_pat q) <> route_id r) -> ends_with_slash (Route_Path r) = false ->
  mux_Add (Route_Method r) (Route_Path r) (Route_Name r) mux = mux ++ [ph_of r].
Proof.
  intros Hnew Hs. unfold mux_Add. destruct (String.length (Route_Path r)); cbn [mux_add].
  all: destruct (existsb _ mux) eqn:E; [|by rewrite ?Hs].
  all: apply existsb_exists in E as (q & Hq & [H1%bool_decide_eq_true H2%bool_decide_eq_true]%andb_true_iff);
    destruct (Hnew q); [by apply list_elem_of_In|by unfold route_id; rewrite H1, H2].
Qed.

Lemma router_loop_mux handlers routes mux :
  proper_table handlers routes -> (forall q r, q ∈ mux -> r ∈ routes -> (ph_method q, ph_pat q) <> route_id r) ->
  router_loop routes handlers mux = inr (mux ++ (ph_of <$> routes)).
Proof.
  intros [Hnd Hall]. revert mux. induction Hall as [|r routes (Hn & Hv & Hs) Hall IH]; intros mux Hnew; simpl.
  { by rewrite app_nil_r. }
  rewrite !bool_decide_eq_true_2 by done. rewrite fmap_cons, NoDup_cons in Hnd. destruct Hnd as [Hr Hnd].
  rewrite mux_Add_new by (done || (intros; apply Hnew; set_solver)). rewrite IH; [by rewrite <- (assoc_L (++))|done|].
  intros q r' [Hq| ->%list_elem_of_singleton]%elem_of_app Hr'; [apply Hnew; set_solver|].
  simpl. intros He. apply Hr. apply list_elem_of_fmap. exists r'. by split.
Qed.

Lemma proper_perm handlers routes routes' : routes ≡ₚ routes' -> proper_table handlers routes' -> proper_table handlers routes.
Proof. intros Hp [H1 H2]. split; [by rewrite Hp|by rewrite Hp]. Qed.

Lemma NewRouter_perm handlers routes routes' :
  routes ≡ₚ routes' -> proper_table handlers routes' -> NewRouter routes handlers = inr (ph_of <$> routes).
Proof. intros Hp Ht. apply (router_loop_mux handlers routes []); [by eapply proper_perm|set_solver]. Qed.

Lemma api_table_proper : proper_table api_actions RoutesMap.
Proof. by_evaluation. Qed.

Lemma admin_table_proper : proper_table admin_actions AdminRoutesMap.
Proof. by_evaluation. Qed.

(** Only one pattern matches: the order does not matter. *)
Lemma first_match_unique path phs ph params :
  ph ∈ phs -> try_pat (ph_pat ph) path = Some params ->
  (forall q, q ∈ phs -> is_Some (try_pat (ph_pat q) path) -> q = ph) -> first_match path phs = Some (ph, params).
Proof.
  intros Hin Ht Huniq. unfold first_match.
  destruct (list_find_elem_of (fun ph => is_Some (try_pat (ph_pat ph) path)) phs ph Hin) as [[i q] Hq]; [by eexists|].
  rewrite Hq. simpl. apply list_find_Some in Hq as (Hl & Hs & _). apply list_elem_of_lookup_2 in Hl.
  rewrite (Huniq q Hl Hs). by rewrite Ht.
Qed.

(** *** Plain parameters *)
Lemma plain_char_ok c :
  plain_char c = true -> c <> "/"%char /\ c <> zero /\ c <> "%"%char /\ c <> "+"%char.
Proof. intros Hc. split_and!; intros ->; by vm_compute in Hc. Qed.

Lemma plain_cons c s : plain (String c s) = true <-> plain_char c = true /\ plain s = true.
Proof. apply andb_true_iff. Qed.

Lemma QueryUnescape_plain s : plain s = true -> QueryUnescape s = Some s.
Proof.
  induction s as [|c s IH]; [done|]. intros [Hc Hs]%plain_cons. destruct (plain_char_ok c Hc) as (_ & _ & H1 & H2).
  simpl. rewrite !bool_decide_eq_false_2 by done. by rewrite IH.
Qed.

Lemma span_plain s : plain s = true -> span (matchPart zero) s = (s, "").
Proof.
  induction s as [|c s IH]; [done|]. intros [Hc Hs]%plain_cons. destruct (plain_char_ok c Hc) as (H1 & H2 & _).
  simpl. unfold matchPart at 1. rewrite !bool_decide_eq_true_2 by done. simpl. by rewrite IH.
Qed.

(** A common beginning is matched byte by byte. *)
Lemma try_loop_prefix pre fuel full pat path p :
  all_chars (fun c => bool_decide (c <> ":"%char)) pre = true ->
  try_loop (String.length pre + fuel) full (pre +:+ pat) (pre +:+ path) p = try_loop fuel full pat path p.
Proof.
  induction pre as [|c pre IH]; [done|]. simpl. intros [Hc%bool_decide_eq_true Hpre]%andb_true_iff.
  rewrite bool_decide_eq_false_2 by done. rewrite bool_decide_eq_true_2 by done. by apply IH.
Qed.

Lemma try_param pre guid :
  all_chars (fun c => bool_decide (c <> ":"%char)) pre = true -> plain guid = true -> guid <> "" ->
  try_pat (pre +:+ ":guid") (pre +:+ guid) = Some [(":guid", guid)].
Proof.
  intros Hpre Hg Hne. unfold try_pat. rewrite length_app_string, try_loop_prefix by done.
  destruct guid as [|c guid]; [done|]. change (String.length ":guid") with 5%nat. cbn [try_loop].
  rewrite bool_decide_eq_true_2 by done. change (span isAlnum "guid") with ("guid", ""). cbn iota.
  change (next_byte "") with zero. rewrite span_plain, QueryUnescape_plain by done. done.
Qed.

(** ** Every route is reached *)

(** The parameters a route's handler gets. *)
Definition route_params (r : rata_Route) (guid : string) : list (string * string) :=
  if bool_decide (Route_Name r ∈ ["UpdateRouterGroup"; "DeleteRouterGroup"]) then [(":guid", guid)] else [].

Definition route_path (r : rata_Route) (guid : string) : string :=
  match fill [("guid", guid)] (Split "/" (Route_Path r)) with inr cs => Join "/" cs | inl _ => "" end.

(** One goal for each entry of the table. *)
Ltac each_route :=
  repeat match goal with H : _ \/ _ |- _ => destruct H as [<-|H] | H : False |- _ => destruct H end.

(** The pattern of [r'] matches the path of [r] only if they are the same route, or
    have different methods. *)
Lemma paths_distinct r r' guid :
  r ∈ RoutesMap -> r' ∈ RoutesMap -> Route_Method r' = Route_Method r ->
  is_Some (try_pat (Route_Path r') (route_path r guid)) -> r' = r.
Proof.
  rewrite !list_elem_of_In. unfold RoutesMap. simpl. intros Hr Hr' Hm [x Hx].
  each_route;
    first [reflexivity | by vm_compute in Hm | by vm_compute in Hx].
Qed.

Lemma path_matches r guid :
  r ∈ RoutesMap -> plain guid = true -> guid <> "" -> try_pat (Route_Path r) (route_path r guid) = Some (route_params r guid).
Proof.
  rewrite list_elem_of_In. unfold RoutesMap. simpl. intros Hr Hg Hne.
  each_route;
    try (vm_compute; reflexivity); by apply (try_param "/routing/v1/router_groups/").
Qed.

Section Reached.
Context {UrlText0 : UrlText} {UrlLaws0 : UrlLaws}.

Lemma CreatePath_plain r guid :
  r ∈ RoutesMap -> plain guid = true -> CreatePath r [("guid", guid)] = inr (route_path r guid).
Proof.
  rewrite list_elem_of_In. unfold RoutesMap. simpl. intros Hr Hg.
  each_route;
    apply url_String_plain; repeat constructor; done.
Qed.

(** The path the client builds for a route leads, whatever the order of
    registration, to that route's handler with the parameter. *)
Lemma route_reached routes r guid :
  routes ≡ₚ RoutesMap -> r ∈ RoutesMap -> plain guid = true -> guid <> "" ->
  exists mux path, NewRouter routes api_actions = inr mux /\ CreatePath r [("guid", guid)] = inr path /\
    ServeHTTP mux (Route_Method r) path = Handle (ph_of r) (route_params r guid).
Proof.
  intros Hp Hr Hg Hne. exists (ph_of <$> routes), (route_path r guid).
  split; [by eapply NewRouter_perm, api_table_proper|]. split; [by apply CreatePath_plain|].
  unfold ServeHTTP. rewrite (first_match_unique _ _ (ph_of r) (route_params r guid)); [done| |by apply path_matches|].
  - apply list_elem_of_filter. split; [done|]. apply list_elem_of_fmap_2. by rewrite Hp.
  - intros q [Hm (r' & -> & Hr')%list_elem_of_fmap]%list_elem_of_filter Hs. rewrite Hp in Hr'.
    by rewrite (paths_distinct r r' guid).
Qed.
End Reached.
