(* ===== verification/ApiClient.v ===== *)
(** ApiClient: client.go and event_source.go, the Go client of the API.  The
    HTTP transport is a parameter.  The port loops run on [uint16] counters,
    so they take fuel: [None] means the loop is still running. *)
From Stdlib Require Import ZArith Lia.
From stdpp Require Import base option strings gmap list.
From S2P Require Import Prelude GoStrings RouterGroups Routes Json JsonText Validator Http Sse.

Local Open Scope string_scope.
Local Open Scope list_scope.
Local Open Scope Z_scope.

(** ** Requests and responses *)

(** The body is the text read, or the error of reading it. *)
Record Response := mkResponse { StatusCode : Z; res_Body : error + string }.

Record ClientRequest := mkClientRequest {
  cr_name : string;
  cr_params : list (string * string);
  cr_query : list (string * list string);
  cr_body : string;
  cr_authorization : string
}.

(** [client]: the token that its requests carry. *)
Record client_state := mkClient { cl_authToken : string }.

Definition NewClient : client_state := mkClient "".

Definition SetToken (token : string) (c : client_state) : client_state := mkClient token.

(** [httpClient.Do]. *)
Class HttpClient (W : Type) := http_Do : ClientRequest -> W -> (error + Response) * W.

Section Client.
Context {W : Type} `{!HttpClient W}.
Context (authToken : string).

(** The route's name stands for the method and the path that the request
    generator looks up under it. *)
Definition createRequest (name : string) (params : list (string * string))
    (query : list (string * list string)) (body : option json) : ClientRequest :=
  mkClientRequest name params query (match body with Some v => json_text v | None => "" end)
    ("bearer " +:+ authToken).

Definition transformResponseError (res : Response) : error :=
  match res_Body res with
  | inl _ => api_error (NewError ResponseError "failed to read response body")
  | inr data =>
      match Unmarshal_text data with
      | inl _ => api_error (NewError ResponseError data)
      | inr v =>
          match Unmarshal_ApiError v with
          | inl _ => api_error (NewError ResponseError data)
          | inr errResponse =>
              if bool_decide (ApiError_Type errResponse = "")
              then api_error (NewError ResponseError data)
              else api_error errResponse
          end
      end
  end.

(** [do(req, response)]; [dec] decodes into [*response]. *)
Definition do {A} (dec : json -> error + A) (req : ClientRequest) : Go W A :=
  res ← call (http_Do req);
  if StatusCode res =? StatusUnauthorized
  then fail (api_error (NewError UnauthorizedError "unauthorized"))
  else if 299 <? StatusCode res then fail (transformResponseError res)
  else
    body ← of_sum (res_Body res);
    v ← of_sum (Decode_text body);
    of_sum (dec v).

(** [do(req, nil)]. *)
Definition do_ (req : ClientRequest) : Go W unit :=
  res ← call (http_Do req);
  if StatusCode res =? StatusUnauthorized
  then fail (api_error (NewError UnauthorizedError "unauthorized"))
  else if 299 <? StatusCode res then fail (transformResponseError res)
  else mret tt.

Definition client_UpsertRoutes (routes : list Route) : Go W unit :=
  do_ (createRequest "UpsertRoute" [] [] (Some (JArr (json_of_Route <$> routes)))).
Definition client_Routes : Go W (list Route) :=
  do (dec_slice Unmarshal_Route) (createRequest "List" [] [] None).
Definition client_DeleteRoutes (routes : list Route) : Go W unit :=
  do_ (createRequest "Delete" [] [] (Some (JArr (json_of_Route <$> routes)))).
Definition client_UpdateRouterGroup (group : RouterGroup) : Go W unit :=
  do_ (createRequest "UpdateRouterGroup" [("guid", RG_Guid group)] [] (Some (json_of_RouterGroup group))).
Definition client_CreateRouterGroup (group : RouterGroup) : Go W unit :=
  do_ (createRequest "CreateRouterGroup" [] [] (Some (json_of_RouterGroup group))).
Definition client_DeleteRouterGroup (group : RouterGroup) : Go W unit :=
  do_ (createRequest "DeleteRouterGroup" [("guid", RG_Guid group)] [] None).
Definition client_RouterGroups : Go W (list RouterGroup) :=
  do (dec_slice Unmarshal_RouterGroup) (createRequest "ListRouterGroups" [] [] None).
Definition client_UpsertTcpRouteMappings (ms : list TcpRouteMapping) : Go W unit :=
  do_ (createRequest "UpsertTcpRouteMapping" [] [] (Some (JArr (json_of_Tcp <$> ms)))).
Definition client_DeleteTcpRouteMappings (ms : list TcpRouteMapping) : Go W unit :=
  do_ (createRequest "DeleteTcpRouteMapping" [] [] (Some (JArr (json_of_Tcp <$> ms)))).
Definition client_TcpRouteMappings : Go W (list TcpRouteMapping) :=
  do (dec_slice Unmarshal_Tcp) (createRequest "ListTcpRouteMapping" [] [] None).
Definition client_FilteredTcpRouteMappings (isolationSegments : list string) : Go W (list TcpRouteMapping) :=
  do (dec_slice Unmarshal_Tcp) (createRequest "ListTcpRouteMapping" [] [("isolation_segment", isolationSegments)] None).

(** [routerGroups[0]] of an empty answer panics. *)
Definition client_RouterGroupWithName (name : string) : Go W RouterGroup :=
  routerGroups ← do (dec_slice Unmarshal_RouterGroup) (createRequest "ListRouterGroups" [] [("name", [name])] None);
  match routerGroups with
  | [] => panic "index out of range [0] with length 0"
  | g :: _ => mret g
  end.

(** *** Reserving a port *)

(** [for p := groupStart; p <= groupEnd; p++ { portSet[p] = true }]. *)
Fixpoint mark_ports (fuel : nat) (p groupEnd : Z) (portSet : gset Z) : option (gset Z) :=
  match fuel with
  | O => None
  | S f =>
      if p <=? groupEnd then mark_ports f (u16 (p + 1)) groupEnd ({[p]} ∪ portSet)
      else Some portSet
  end.

Fixpoint mark_ranges (fuel : nat) (rs : list Range) (portSet : gset Z) : option (gset Z) :=
  match rs with
  | [] => Some portSet
  | r :: rs' =>
      match mark_ports fuel (start r) (end_ r) portSet with
      | None => None
      | Some portSet => mark_ranges fuel rs' portSet
      end
  end.

(** The outer loop: [inl] is the parse error of a group. *)
Fixpoint mark_groups (fuel : nat) (groups : list RouterGroup) (portSet : gset Z) : option (error + gset Z) :=
  match groups with
  | [] => Some (inr portSet)
  | group :: groups' =>
      match Parse (RG_ReservablePorts group) with
      | inl err => Some (inl err)
      | inr groupPortRanges =>
          match mark_ranges fuel groupPortRanges portSet with
          | None => None
          | Some portSet => mark_groups fuel groups' portSet
          end
      end
  end.

(** [for i := start; i <= end; i++ { if !portSet[i] { return } }]: the free
    port, or [None] inside when the loop ended. *)
Fixpoint scan_ports (fuel : nat) (i rangeEnd : Z) (portSet : gset Z) : option (option Z) :=
  match fuel with
  | O => None
  | S f =>
      if i <=? rangeEnd then
        if bool_decide (i ∈ portSet) then scan_ports f (u16 (i + 1)) rangeEnd portSet else Some (Some i)
      else Some None
  end.

Definition exhausted (portRange : Range) : error :=
  api_error (mkApiError PortRangeExhaustedError
    ("There are no free ports in range: " +:+ Range_String portRange)).

Definition getNextAvailablePort (fuel : nat) (groups : list RouterGroup) (portRange : Range)
    : option (error + string) :=
  match mark_groups fuel groups ∅ with
  | None => None
  | Some (inl err) => Some (inl err)
  | Some (inr portSet) =>
      match scan_ports fuel (start portRange) (end_ portRange) portSet with
      | None => None
      | Some (Some i) => Some (inr (Itoa i))
      | Some None => Some (inl (exhausted portRange))
      end
  end.

(** [None]: still in a port loop after [fuel] rounds. *)
Definition ReservePort (fuel : nat) (groupName portRange : string) : Go W (option Z) :=
  match Parse portRange with
  | inl err => fail err
  | inr [] => panic "index out of range [0] with length 0"
  | inr (_ :: _ :: _) => fail (api_error (mkApiError ProcessRequestError "multiple port ranges are not supported"))
  | inr [range] =>
      let '(s, e) := Endpoints range in
      if s =? e then fail (api_error (mkApiError ProcessRequestError "single port is not supported"))
      else
        routerGroups ← client_RouterGroups;
        match getNextAvailablePort fuel routerGroups range with
        | None => mret None
        | Some (inl err) => fail err
        | Some (inr reservablePort) =>
            r ← try (client_RouterGroupWithName groupName);
            let existing := match r with inr g => g | inl _ => zero_RouterGroup end in
            _ ← (if bool_decide (existing <> zero_RouterGroup)
                 then client_UpdateRouterGroup
                        (mkRouterGroup (RG_Model existing) (RG_Guid existing) (RG_Name existing)
                           (RG_Type existing) reservablePort)
                 else client_CreateRouterGroup
                        (mkRouterGroup zero_Model "" groupName RouterGroup_TCP reservablePort));
            match Atoi reservablePort with
            | Some p => mret (Some p)
            | None => fail (errors_New "strconv.Atoi: invalid syntax")
            end
        end
  end.
End Client.

(** *** Event sources (event_source.go) *)
Record ClientEvent := mkClientEvent { CE_Route : Route; CE_Action : string }.
Record ClientTcpEvent := mkClientTcpEvent { CE_TcpRouteMapping : TcpRouteMapping; CE_TcpAction : string }.

Definition convertRawEvent (event : sse_event) : error + ClientEvent :=
  match Unmarshal_text (sse_Data event) with
  | inl err => inl err
  | inr v => match Unmarshal_Route v with
             | inl err => inl err
             | inr route => inr (mkClientEvent route (sse_Name event))
             end
  end.

Definition convertRawToTcpEvent (event : sse_event) : error + ClientTcpEvent :=
  match Unmarshal_text (sse_Data event) with
  | inl err => inl err
  | inr v => match Unmarshal_Tcp v with
             | inl err => inl err
             | inr route => inr (mkClientTcpEvent route (sse_Name event))
             end
  end.

(** [Next] of the two sources, on what the raw source returned. *)
Definition eventSource_Next (raw : error + sse_event) : error + ClientEvent :=
  match raw with inl err => inl err | inr e => convertRawEvent e end.
Definition tcpEventSource_Next (raw : error + sse_event) : error + ClientTcpEvent :=
  match raw with inl err => inl err | inr e => convertRawToTcpEvent e end.

(** ** The port loops *)

(** A range that ends below 65535 is marked completely. *)
Lemma mark_ports_spec fuel p e s :
  0 <= p -> e < 65535 -> Z.max 0 (e + 1 - p) < Z.of_nat fuel ->
  exists s', mark_ports fuel p e s = Some s' /\ forall q, q ∈ s' <-> q ∈ s \/ p <= q <= e.
Proof.
  revert p s. induction fuel as [|f IH]; intros p s Hp He Hf; simpl.
  - exfalso. lia.
  - destruct (Z.leb_spec p e); [|exists s; split; [done|]; intros q; split; [auto|intros [?|?]; [done|lia]]].
    rewrite u16_id by (unfold is_u16; lia).
    destruct (IH (p + 1) ({[p]} ∪ s)) as (s' & -> & Hs'); [lia..|].
    exists s'. split; [done|]. intros q. rewrite Hs', elem_of_union, elem_of_singleton.
    destruct (decide (q = p)) as [->|].
    + split; [intros _; right; lia|auto].
    + assert (p + 1 <= q <= e <-> p <= q <= e) by lia. tauto.
Qed.

(** A range that ends at 65535 is marked for ever: the counter wraps to 0. *)
Lemma mark_ports_diverges fuel p s : 0 <= p <= 65535 -> mark_ports fuel p 65535 s = None.
Proof.
  revert p s. induction fuel as [|f IH]; intros p s Hp; simpl; [done|].
  rewrite (proj2 (Z.leb_le p 65535)) by lia. apply IH. apply u16_range.
Qed.

Definition port_fuel : nat := Z.to_nat 65536.

(** A range that ends at the highest port. *)
Definition at_top (r : Range) : Prop := end_ r = 65535.

#[export] Instance at_top_dec r : Decision (at_top r).
Proof. unfold at_top. apply _. Defined.

Lemma mark_ranges_diverges fuel rs s : Forall wf_Range rs -> Exists at_top rs -> mark_ranges fuel rs s = None.
Proof.
  intros Hw Hx. revert s. induction Hw as [|r rs Hr Hw IH]; intros s; [by inversion Hx|]. cbn [mark_ranges].
  inversion Hx as [? ? Ht|? ? Ht]; subst; [|by destruct (mark_ports _ _ _ _); [apply IH|]].
  unfold at_top in Ht. unfold wf_Range in Hr. by rewrite Ht, mark_ports_diverges by lia.
Qed.

Lemma mark_ranges_spec fuel rs s :
  (port_fuel <= fuel)%nat -> Forall wf_Range rs -> ~ Exists at_top rs ->
  exists s', mark_ranges fuel rs s = Some s' /\ forall q, q ∈ s' <-> q ∈ s \/ exists r, r ∈ rs /\ in_range q r.
Proof.
  unfold port_fuel. intros Hf Hrs. revert s. induction Hrs as [|r rs Hw Hrs IH]; intros s Hx; cbn [mark_ranges].
  - exists s. split; [done|]. intros q. split; [auto|intros [?|(r & Hr & _)]; [done|set_solver]].
  - rewrite Exists_cons in Hx. unfold at_top, wf_Range in Hx, Hw.
    destruct (mark_ports_spec fuel (start r) (end_ r) s) as (s1 & -> & H1); [lia..|].
    destruct (IH s1) as (s2 & -> & H2); [tauto|]. exists s2. split; [done|]. intros q. rewrite H2, H1. unfold in_range.
    split; [intros [[?|?]|(x & Hx' & ?)]|intros [?|(x & [->|Hx']%elem_of_cons & ?)]]; eauto 6.
    all: right; eexists; (split; [|done]); set_solver.
Qed.

(** The ports the listed groups hold. *)
Definition held (groups : list RouterGroup) (q : Z) : Prop :=
  exists g rs r, g ∈ groups /\ Parse (RG_ReservablePorts g) = inr rs /\ r ∈ rs /\ in_range q r.

(** A group's ports include a range, the first or not, that ends at 65535: it
    holds that port. *)
Lemma held_top g groups rs :
  g ∈ groups -> Parse (RG_ReservablePorts g) = inr rs -> Exists at_top rs -> held groups 65535.
Proof.
  intros Hg HP (r & Hr & Ht)%Exists_exists. exists g, rs, r. split_and!; [done..|].
  pose proof (proj1 (Forall_forall _ _) (Parse_wf _ _ HP) r Hr) as Hw. unfold wf_Range, in_range, at_top in *. lia.
Qed.

Lemma top_held g rs r :
  Parse (RG_ReservablePorts g) = inr rs -> r ∈ rs -> in_range 65535 r -> Exists at_top rs.
Proof.
  intros HP Hr Hq. apply Exists_exists. exists r. split; [done|].
  pose proof (proj1 (Forall_forall _ _) (Parse_wf _ _ HP) r Hr) as Hw. unfold wf_Range, in_range, at_top in *. lia.
Qed.

Lemma held_cons g groups q :
  held (g :: groups) q <->
  (exists rs r, Parse (RG_ReservablePorts g) = inr rs /\ r ∈ rs /\ in_range q r) \/ held groups q.
Proof.
  unfold held. split.
  - intros (g' & rs & r & [->|Hg']%elem_of_cons & H'); [left|right]; eauto 6.
  - intros [(rs & r & H')|(g' & rs & r & Hg' & H')]; [exists g, rs, r|exists g', rs, r]; (split; [set_solver|done]).
Qed.

(** The first loop does not end only when a group holds 65535; otherwise it has
    the held ports, or the error of a group's ports. *)
Lemma mark_groups_spec fuel groups s :
  (port_fuel <= fuel)%nat ->
  match mark_groups fuel groups s with
  | None => held groups 65535
  | Some (inl err) => exists g, g ∈ groups /\ Parse (RG_ReservablePorts g) = inl err
  | Some (inr s') => ~ held groups 65535 /\ forall q, q ∈ s' <-> q ∈ s \/ held groups q
  end.
Proof.
  intros Hf. revert s. induction groups as [|g gs IH]; intros s; cbn [mark_groups].
  { split; [intros (g & rs & r & Hg & _); set_solver|]. intros q. split; [auto|].
    intros [?|(g & rs & r & Hg & _)]; [done|set_solver]. }
  destruct (Parse (RG_ReservablePorts g)) as [err|rs] eqn:HP; [exists g; set_solver|].
  pose proof (Parse_wf _ _ HP) as Hw. destruct (decide (Exists at_top rs)) as [Hx|Hx].
  { rewrite mark_ranges_diverges by done. eapply held_top; [|done..]. set_solver. }
  destruct (mark_ranges_spec fuel rs s Hf Hw Hx) as (s1 & -> & H1). specialize (IH s1).
  destruct (mark_groups fuel gs s1) as [[err|s2]|].
  - destruct IH as (g' & Hg' & HP'). exists g'. set_solver.
  - destruct IH as [Ht H2]. setoid_rewrite held_cons. split.
    + intros [(rs' & r & HP' & Hr & Hq)|?]; [|done]. rewrite HP in HP'. injection HP' as <-. by eapply Hx, top_held.
    + intros q. rewrite H2, H1, HP. split; [intros [[?|(r & Hr & Hq)]|?]; eauto 8|].
      intros [?|[(rs' & r & [= <-] & Hr & Hq)|?]]; eauto 6.
  - apply held_cons. by right.
Qed.

(** With a group that holds 65535, and no error before, there is no end to it. *)
Lemma mark_groups_diverges fuel groups s :
  Forall (fun g => exists rs, Parse (RG_ReservablePorts g) = inr rs) groups -> held groups 65535 ->
  mark_groups fuel groups s = None.
Proof.
  intros Hp. revert s. induction Hp as [|g gs [rs HP] Hp IH]; intros s Hh; cbn [mark_groups].
  { destruct Hh as (g & rs & r & Hg & _). set_solver. }
  rewrite HP. apply held_cons in Hh. destruct (decide (Exists at_top rs)) as [Hx|Hx].
  - rewrite mark_ranges_diverges; [done|by eapply Parse_wf|done].
  - destruct (mark_ranges fuel rs s); [|done]. apply IH. destruct Hh as [(rs' & r & HP' & Hr & Hq)|?]; [|done].
    rewrite HP in HP'. injection HP' as <-. by destruct (Hx (top_held _ _ _ HP Hr Hq)).
Qed.

(** The second loop.  Up to 65535 it needs that port to be free. *)
Lemma scan_ports_spec fuel i e s :
  0 <= i -> e < 65535 \/ (e = 65535 /\ i <= e /\ 65535 ∉ s) -> Z.max 0 (e + 1 - i) < Z.of_nat fuel ->
  exists res, scan_ports fuel i e s = Some res /\
    match res with
    | Some p => i <= p <= e /\ p ∉ s /\ forall q, i <= q < p -> q ∈ s
    | None => forall q, i <= q <= e -> q ∈ s
    end.
Proof.
  revert i. induction fuel as [|f IH]; intros i Hi He Hf; simpl.
  - exfalso. lia.
  - destruct (Z.leb_spec i e); [|exists None; split; [done|]; intros; lia].
    case_bool_decide as Hin; [|exists (Some i); split; [done|]; split_and!; [lia|lia|done|lia]].
    assert (i <> 65535) by (intros ->; destruct He as [?|(_ & _ & ?)]; [lia|done]).
    rewrite u16_id by (unfold is_u16; lia).
    destruct (IH (i + 1)) as (res & -> & Hres); [lia|destruct He as [?|(? & ? & ?)]; [by left|right; split_and!; [done|lia|done]]|lia|].
    exists res. split; [done|].
    assert (forall P : Z -> Prop, P i -> forall q, (i + 1 <= q -> P q) -> i <= q -> P q) as Hcons.
    { intros P H1 q H2 H3. destruct (decide (q = i)) as [->|]; [done|apply H2; lia]. }
    destruct res as [p|].
    + destruct Hres as (H1 & H2 & H3). split; [lia|]. split; [done|]. intros q Hq.
      apply (Hcons (fun q => q ∈ s)); [done| |lia]. intros. apply H3. lia.
    + intros q Hq. apply (Hcons (fun q => q ∈ s)); [done| |lia]. intros. apply Hres. lia.
Qed.

(** [getNextAvailablePort] returns the lowest port of the range that no group
    holds, or the exhausted error when there is none, or the error of a group whose
    ports do not parse; it does not end only when a group holds 65535. *)
Lemma getNextAvailablePort_spec fuel groups range :
  (port_fuel <= fuel)%nat -> wf_Range range ->
  match getNextAvailablePort fuel groups range with
  | None => held groups 65535
  | Some (inr port) => exists p, port = Itoa p /\ in_range p range /\ ~ held groups p /\
                         forall q, in_range q range -> q < p -> held groups q
  | Some (inl err) => (exists g, g ∈ groups /\ Parse (RG_ReservablePorts g) = inl err) \/
                      (err = exhausted range /\ forall q, in_range q range -> held groups q)
  end.
Proof.
  intros Hf Hw. unfold getNextAvailablePort. pose proof (mark_groups_spec fuel groups ∅ Hf) as Hm.
  destruct (mark_groups fuel groups ∅) as [[err|s]|]; [by left| |done]. destruct Hm as [Ht Hs].
  assert (forall q, q ∈ s <-> held groups q) as Hs' by (intros q; rewrite Hs; set_solver).
  unfold wf_Range, port_fuel in *.
  destruct (scan_ports_spec fuel (start range) (end_ range) s) as (res & -> & Hres); [lia| |lia|].
  { destruct (decide (end_ range < 65535)); [by left|right]. rewrite Hs'. split_and!; [lia|lia|done]. }
  unfold in_range. destruct res as [p|].
  - destruct Hres as (H1 & H2 & H3). exists p. split_and!; [done|lia|lia|by rewrite <- Hs'|].
    intros q Hq Hlt. apply Hs', H3. lia.
  - right. split; [done|]. intros q Hq. by apply Hs', Hres.
Qed.

(** With a group that holds 65535 there is no answer, whatever the fuel. *)
Lemma getNextAvailablePort_diverges fuel groups range :
  Forall (fun g => exists rs, Parse (RG_ReservablePorts g) = inr rs) groups -> held groups 65535 ->
  getNextAvailablePort fuel groups range = None.
Proof. intros Hp Hh. unfold getNextAvailablePort. by rewrite mark_groups_diverges. Qed.
