(* ===== verification/Subscribe.v ===== *)
(** Subscribe: the event sources of the client.  [sse.EventSource]
    (vendor/github.com/vito/go-sse/sse/event_source.go): connecting with retries,
    reading, reconnecting, closing; and the subscription methods of client.go.
    The network and the timer are a parameter; loops that may retry for ever take
    fuel, and [None] means that they are still trying. *)
From Stdlib Require Import ZArith Lia.
From stdpp Require Import base option strings gmap list.
From S2P Require Import Prelude GoStrings RouterGroups Routes Json JsonText Validator Http Sse ApiClient.

Local Open Scope string_scope.
Local Open Scope list_scope.
Local Open Scope Z_scope.

Record StreamRequest := mkStreamRequest {
  sr_name : string;
  sr_authorization : string;
  sr_lastEventID : option string
}.

(** The response: its status, the text of the body that has arrived, and how
    the body ended, if it did. *)
Record StreamResponse := mkStreamResponse { sr_Status : Z; sr_text : string; sr_end : option error }.

(** [streamingHTTPClient.Do], and the wait between two attempts, which a [Close]
    from another goroutine can cut short ([true]). *)
Class StreamEnv (W : Type) := {
  stream_Do : StreamRequest -> W -> (error + StreamResponse) * W;
  stream_wait : Z -> W -> bool * W
}.

(** [sse.BadResponseError] carries the response. *)
Inductive stream_error := BadResponseError (code : Z) | StreamErr (err : error).

Definition ErrSourceClosed : stream_error := StreamErr (errors_New "source closed").

Record EventSource := mkEventSource {
  currentReadCloser : option ReadCloser;
  lastEventID : string;
  es_closed : bool;
  retryInterval : Z;
  maxRetries : Z
}.

Definition with_rc (rc : option ReadCloser) (es : EventSource) : EventSource :=
  mkEventSource rc (lastEventID es) (es_closed es) (retryInterval es) (maxRetries es).

Definition createEventSource (interval retries : Z) : EventSource := mkEventSource None "" false interval retries.

Definition shouldRetry (es : EventSource) (retries : Z) : bool :=
  (maxRetries es =? 0) || ((0 <? maxRetries es) && (retries <=? maxRetries es)).

(** 500, 502, 503, 504: the connection is tried again. *)
Definition reestablish (code : Z) : bool := bool_decide (code ∈ [500; 502; 503; 504]).

Section Source.
Context {W : Type} `{!StreamEnv W}.
Context (name authorization : string).

Definition createStreamRequest (es : EventSource) : StreamRequest :=
  mkStreamRequest name authorization (if bool_decide (lastEventID es = "") then None else Some (lastEventID es)).

(** [waitForRetry]: the error when the source was closed. *)
Definition waitForRetry (es : EventSource) (w : W) : option stream_error * EventSource * W :=
  let es := with_rc None es in
  if es_closed es then (Some ErrSourceClosed, es, w)
  else
    let '(closed, w1) := stream_wait (retryInterval es) w in
    if closed
    then (Some ErrSourceClosed, mkEventSource None (lastEventID es) true (retryInterval es) (maxRetries es), w1)
    else (None, es, w1).

Fixpoint establishConnection (fuel : nat) (connectionRetries : Z) (es : EventSource) (w : W)
    : option (stream_error + ReadCloser) * EventSource * W :=
  match fuel with
  | O => (None, es, w)
  | S fuel' =>
      match stream_Do (createStreamRequest es) w with
      | (inl err, w1) =>
          let connectionRetries := u16 (connectionRetries + 1) in
          if shouldRetry es connectionRetries then
            match waitForRetry es w1 with
            | (Some err, es1, w2) => (Some (inl err), es1, w2)
            | (None, es1, w2) => establishConnection fuel' connectionRetries es1 w2
            end
          else (Some (inl (StreamErr err)), es, w1)
      | (inr res, w1) =>
          if sr_Status res =? StatusOK then (Some (inr (NewReadCloser (sr_text res) (sr_end res))), es, w1)
          else if reestablish (sr_Status res) then
            match waitForRetry es w1 with
            | (Some err, es1, w2) => (Some (inl err), es1, w2)
            | (None, es1, w2) => establishConnection fuel' connectionRetries es1 w2
            end
          else (Some (inl (BadResponseError (sr_Status res))), es, w1)
      end
  end.

(** [Config.Connect]. *)
Definition Connect (fuel : nat) (interval retries : Z) (w : W) : option (stream_error + EventSource) * W :=
  let source := createEventSource interval retries in
  match establishConnection fuel 0 source w with
  | (None, _, w1) => (None, w1)
  | (Some (inl err), _, w1) => (Some (inl err), w1)
  | (Some (inr rc), es, w1) => (Some (inr (with_rc (Some rc) es)), w1)
  end.

Definition ensureReadCloser (fuel : nat) (es : EventSource) (w : W)
    : option (stream_error + ReadCloser) * EventSource * W :=
  match currentReadCloser es with
  | Some rc => (Some (inr rc), es, w)
  | None =>
      match establishConnection fuel 0 es w with
      | (Some (inr rc), es1, w1) =>
          if es_closed es1 then (Some (inl ErrSourceClosed), es1, w1)
          else (Some (inr rc), with_rc (Some rc) es1, w1)
      | r => r
      end
  end.

Inductive source_next := SNEvent (event : sse_event) | SNErr (err : stream_error) | SNBlocks | SNRunning.

Fixpoint next_rounds (fuel : nat) (es : EventSource) (w : W) : source_next * EventSource * W :=
  match fuel with
  | O => (SNRunning, es, w)
  | S fuel' =>
      match ensureReadCloser fuel es w with
      | (None, es1, w1) => (SNRunning, es1, w1)
      | (Some (inl err), es1, w1) => (SNErr err, es1, w1)
      | (Some (inr rc), es1, w1) =>
          match rc_Next rc with
          | (SseEvent event, rc1) =>
              (SNEvent event,
               mkEventSource (Some rc1) (sse_ID event) (es_closed es1)
                 (if sse_Retry event =? 0 then retryInterval es1 else sse_Retry event) (maxRetries es1), w1)
          | (SseBlocks, rc1) => (SNBlocks, with_rc (Some rc1) es1, w1)
          | (SseErr err, rc1) =>
              if bool_decide (err = io_EOF) then (SNErr (StreamErr err), with_rc (Some rc1) es1, w1)
              else
                match waitForRetry es1 w1 with
                | (Some err, es2, w2) => (SNErr err, es2, w2)
                | (None, es2, w2) => next_rounds fuel' es2 w2
                end
          end
      end
  end.

Definition source_Next (fuel : nat) (es : EventSource) (w : W) : source_next * EventSource * W :=
  if es_closed es then (SNErr ErrSourceClosed, es, w) else next_rounds fuel es w.

Definition es_Close (es : EventSource) : option error * EventSource :=
  match currentReadCloser es with
  | None => (None, mkEventSource None (lastEventID es) true (retryInterval es) (maxRetries es))
  | Some rc =>
      match rc_Close rc with
      | (Some err, rc1) =>
          (Some err, mkEventSource (Some rc1) (lastEventID es) true (retryInterval es) (maxRetries es))
      | (None, _) => (None, mkEventSource None (lastEventID es) true (retryInterval es) (maxRetries es))
      end
  end.
End Source.

(** ** The client's methods *)
Section Subscribe.
Context {W : Type} `{!StreamEnv W}.
Context (authToken : string).

Definition defaultMaxRetries : Z := 0.

Definition doSubscribe (fuel : nat) (routeName : string) (retries : Z) (w : W)
    : option (stream_error + EventSource) * W :=
  match Connect routeName ("bearer " +:+ authToken) fuel Second retries w with
  | (Some (inl (BadResponseError code)), w1) =>
      if code =? StatusUnauthorized
      then (Some (inl (StreamErr (api_error (mkApiError "unauthorized" "unauthorized")))), w1)
      else (Some (inl (BadResponseError code)), w1)
  | r => r
  end.

Definition SubscribeToEventsWithMaxRetries (fuel : nat) (retries : Z) := doSubscribe fuel "EventStream" retries.
Definition SubscribeToTcpEventsWithMaxRetries (fuel : nat) (retries : Z) := doSubscribe fuel "TcpRouteEventStream" retries.
Definition SubscribeToEvents (fuel : nat) := doSubscribe fuel "EventStream" defaultMaxRetries.
Definition SubscribeToTcpEvents (fuel : nat) := doSubscribe fuel "TcpRouteEventStream" defaultMaxRetries.
End Subscribe.

(** [doClose]: [Close] of both wrappers. *)
Definition doClose (es : EventSource) : option error * EventSource := es_Close es.

(** ** Retrying *)
Section Retries.
Context {W : Type} `{!StreamEnv W}.
Context (name authorization : string).

(** From every world of [I], nobody closes the source and every attempt ends
    with [bad], in [I] again. *)
Record adverse (I : W -> Prop) (bad : error + StreamResponse -> Prop) : Prop := mkAdverse {
  adverse_Do req w : I w -> bad (fst (stream_Do req w)) /\ I (snd (stream_Do req w));
  adverse_wait d w : I w -> fst (stream_wait d w) = false /\ I (snd (stream_wait d w))
}.

Definition unavailable (r : error + StreamResponse) : Prop :=
  exists res, r = inr res /\ reestablish (sr_Status res) = true.

Definition unreachable (r : error + StreamResponse) : Prop := exists err, r = inl err.

(** One failed attempt and the wait after it, and the world after [n] of them. *)
Definition retry_round (req : StreamRequest) (interval : Z) (w : W) : W :=
  snd (stream_wait interval (snd (stream_Do req w))).

Definition retry_rounds (req : StreamRequest) (interval : Z) (n : nat) (w : W) : W :=
  Nat.iter n (retry_round req interval) w.

Lemma retry_rounds_S req interval n w :
  retry_rounds req interval (S n) w = retry_rounds req interval n (retry_round req interval w).
Proof. apply Nat.iter_succ_r. Qed.

(** A wait that nobody cuts short ends the round. *)
Lemma wait_round I bad es req w r w1 :
  adverse I bad -> I w -> es_closed es = false -> stream_Do req w = (r, w1) ->
  waitForRetry es w1 = (None, with_rc None es, retry_round req (retryInterval es) w) /\
  I (retry_round req (retryInterval es) w) /\ bad r.
Proof.
  intros Ha Hw Hc Hd. destruct (adverse_Do _ _ Ha req w Hw) as [Hb HI]. unfold retry_round. rewrite Hd in *. simpl in *.
  destruct (adverse_wait _ _ Ha (retryInterval es) w1 HI) as [H1 H2].
  unfold waitForRetry. cbn [es_closed with_rc retryInterval]. rewrite Hc.
  destruct (stream_wait (retryInterval es) w1) as [b w2]. simpl in *. by subst b.
Qed.

(** What the connection has come to: still trying after [n] rounds, or given up
    with the error of one more attempt after [n] rounds. *)
Definition still_trying (req : StreamRequest) (interval : Z) (n : nat) (w : W)
    (r : option (stream_error + ReadCloser) * EventSource * W) : Prop :=
  fst (fst r) = None /\ snd r = retry_rounds req interval n w.

Definition given_up (req : StreamRequest) (interval : Z) (n : nat) (w : W)
    (r : option (stream_error + ReadCloser) * EventSource * W) : Prop :=
  exists err, fst (fst r) = Some (inl (StreamErr err)) /\
    stream_Do req (retry_rounds req interval n w) = (inl err, snd r).

(** A server that answers 500, 502, 503 or 504 is tried for ever, whatever the
    number of retries asked for. *)
Lemma establish_unavailable I fuel n es w :
  adverse I unavailable -> I w -> es_closed es = false ->
  still_trying (createStreamRequest name authorization es) (retryInterval es) fuel w
    (establishConnection name authorization fuel n es w).
Proof.
  intros Ha. revert n es w. induction fuel as [|f IH]; intros n es w Hw Hc; [done|]. cbn [establishConnection].
  unfold still_trying. rewrite retry_rounds_S.
  destruct (stream_Do (createStreamRequest name authorization es) w) as [r w1] eqn:Ed.
  destruct (wait_round _ _ es _ w r w1 Ha Hw Hc Ed) as (Hwait & HI & res & -> & Hs).
  destruct (Z.eqb_spec (sr_Status res) StatusOK) as [E|_]; [rewrite E in Hs; by vm_compute in Hs|].
  rewrite Hs, Hwait. by apply (IH n (with_rc None es)).
Qed.

(** A server that cannot be reached is tried for ever when the number of retries
    is 0 or 65535: the counter never exceeds it. *)
Lemma establish_unreachable_forever I fuel n es w :
  adverse I unreachable -> I w -> es_closed es = false -> maxRetries es = 0 \/ maxRetries es = 65535 ->
  still_trying (createStreamRequest name authorization es) (retryInterval es) fuel w
    (establishConnection name authorization fuel n es w).
Proof.
  intros Ha. revert n es w. induction fuel as [|f IH]; intros n es w Hw Hc Hm; [done|]. cbn [establishConnection].
  unfold still_trying. rewrite retry_rounds_S.
  destruct (stream_Do (createStreamRequest name authorization es) w) as [r w1] eqn:Ed.
  destruct (wait_round _ _ es _ w r w1 Ha Hw Hc Ed) as (Hwait & HI & err & ->). cbv zeta.
  assert (shouldRetry es (u16 (n + 1)) = true) as ->.
  { unfold shouldRetry. destruct Hm as [->| ->]; [done|]. simpl. apply Z.leb_le. apply u16_range. }
  rewrite Hwait. by apply (IH _ (with_rc None es)).
Qed.

(** Otherwise it is tried that many times more, and the last error returned. *)
Lemma establish_unreachable I fuel n es w :
  adverse I unreachable -> I w -> es_closed es = false ->
  0 <= n <= maxRetries es -> 0 < maxRetries es < 65535 ->
  let left := Z.to_nat (maxRetries es - n) in
  (if decide (left < fuel)%nat
   then given_up (createStreamRequest name authorization es) (retryInterval es) left w
   else still_trying (createStreamRequest name authorization es) (retryInterval es) fuel w)
    (establishConnection name authorization fuel n es w).
Proof.
  intros Ha. revert n es w. induction fuel as [|f IH]; intros n es w Hw Hc Hn Hm left; [by rewrite decide_False by lia|].
  cbn [establishConnection]. destruct (stream_Do (createStreamRequest name authorization es) w) as [r w1] eqn:Ed.
  destruct (wait_round _ _ es _ w r w1 Ha Hw Hc Ed) as (Hwait & HI & err & ->). cbv zeta.
  rewrite u16_id by (unfold is_u16; lia). unfold shouldRetry.
  rewrite (proj2 (Z.eqb_neq (maxRetries es) 0)) by lia. rewrite (proj2 (Z.ltb_lt 0 (maxRetries es))) by lia. cbn [orb andb].
  destruct (Z.leb_spec (n + 1) (maxRetries es)) as [Hle|Hgt].
  - rewrite Hwait. specialize (IH (n + 1) (with_rc None es) _ HI Hc). cbn [with_rc maxRetries retryInterval] in IH.
    specialize (IH ltac:(lia) Hm). assert (left = S (Z.to_nat (maxRetries es - (n + 1)))) as -> by (unfold left; lia).
    unfold still_trying, given_up in *. rewrite !retry_rounds_S.
    destruct (decide (Z.to_nat (maxRetries es - (n + 1)) < f)%nat);
      [rewrite decide_True by lia|rewrite decide_False by lia]; exact IH.
  - assert (left = 0%nat) as -> by (unfold left; lia). rewrite decide_True by lia. by exists err.
Qed.
End Retries.

(** ** Reading a connected source *)
Section Reading.
Context {W : Type} `{!StreamEnv W}.
Context (name authorization : string).

(** [n] calls of [Next]. *)
Fixpoint source_NextN (fuel n : nat) (es : EventSource) (w : W) : list source_next * EventSource * W :=
  match n with
  | O => ([], es, w)
  | S n' =>
      let '(r, es1, w1) := source_Next name authorization fuel es w in
      let '(rs, es2, w2) := source_NextN fuel n' es1 w1 in (r :: rs, es2, w2)
  end.

Lemma source_Next_lines fuel e rest lastID en cl last interval retries w :
  sse_ok e -> sse_Retry e = 0 ->
  source_Next name authorization (S fuel)
    (mkEventSource (Some (mkReadCloser lastID (sse_lines e ++ rest) en cl)) last false interval retries) w =
  (SNEvent e, mkEventSource (Some (mkReadCloser (sse_ID e) rest en cl)) (sse_ID e) false interval retries, w).
Proof.
  intros He Hr. unfold source_Next. cbn [es_closed next_rounds ensureReadCloser currentReadCloser].
  rewrite rc_Next_lines by done. cbn [es_closed retryInterval maxRetries]. by rewrite Hr.
Qed.

(** The events written by the server come out of the source, in order. *)
Lemma source_reads fuel es lastID last en cl interval retries w :
  Forall sse_ok es -> Forall (fun e => sse_Retry e = 0) es ->
  fst (fst (source_NextN (S fuel) (length es)
    (mkEventSource (Some (mkReadCloser lastID (mjoin (sse_lines <$> es)) en cl)) last false interval retries) w)) =
  SNEvent <$> es.
Proof.
  intros Hes. revert lastID last. induction Hes as [|e es He _ IH]; intros lastID last Hr; [done|].
  inversion_clear Hr. rewrite fmap_cons. cbn [mjoin list_join length source_NextN].
  rewrite source_Next_lines by done. specialize (IH (sse_ID e) (sse_ID e)).
  destruct (source_NextN _ _ _ _) as [[rs es2] w2]. simpl in *. by rewrite IH.
Qed.
End Reading.
