(* ===== verification/StreamClient.v ===== *)
(** StreamClient: from the handler's loop to the client's [Next].  The text a
    stream writes, read through the client's event source, gives the route (or
    TCP mapping) and the action of every event written, in order. *)
From Stdlib Require Import ZArith Lia Ascii.
From stdpp Require Import base option strings gmap list relations.
From S2P Require Import Prelude GoStrings Utf8 RouterGroups Routes Json JsonText JsonTextFacts Wire EventHub SqlDB.
From S2P Require Import SqlDBFacts Http Sse Watch ApiClient Subscribe.

Local Open Scope string_scope.
Local Open Scope list_scope.
Local Open Scope Z_scope.

(** ** The text of an event has no carriage return *)
Definition no_CR (s : string) : bool := negb (string_mem CR s).

Lemma no_CR_app a b : no_CR a = true -> no_CR b = true -> no_CR (a +:+ b) = true.
Proof. unfold no_CR. rewrite string_mem_app, !negb_true_iff, orb_false_iff. done. Qed.

Lemma no_CR_false s : no_CR s = true <-> string_mem CR s = false.
Proof. apply negb_true_iff. Qed.

Lemma no_CR_digits s : digits s = true -> no_CR s = true.
Proof.
  rewrite no_CR_false. induction s as [|c s IH]; [done|]. simpl. intros [Hc Hs]%andb_true_iff.
  rewrite IH by done. rewrite bool_decide_eq_false_2; [done|]. intros <-. by vm_compute in Hc.
Qed.

Lemma no_CR_Join ts : Forall (fun t => no_CR t = true) ts -> no_CR (Join "," ts) = true.
Proof.
  induction 1 as [|t [|t' ts] Ht _ IH]; [done|done|]. rewrite Join_cons2. by repeat apply no_CR_app.
Qed.

Lemma no_CR_high s : high s = true -> no_CR s = true.
Proof.
  rewrite no_CR_false. induction s as [|c s IH]; [done|]. simpl. intros [Hc Hs]%andb_true_iff.
  rewrite IH by done. rewrite bool_decide_eq_false_2; [done|]. intros <-. by vm_compute in Hc.
Qed.

Lemma no_CR_escape_rune r : scanned r -> no_CR (escape_rune r) = true.
Proof.
  intros [Hr|Hr]; destruct r as [c|enc|c]; simpl in Hr; try discriminate; [ascii_cases c| |done].
  unfold escape_rune. case_bool_decide; [done|]. case_bool_decide; [done|]. by apply no_CR_high, multi_high.
Qed.

Lemma no_CR_string s : no_CR (json_string s) = true.
Proof.
  unfold json_string. apply no_CR_app; [done|]. apply no_CR_app; [|done]. unfold json_escape.
  induction (runes_ok s) as [|r rs Hr _ IH]; [done|]. csimpl. apply no_CR_app; [by apply no_CR_escape_rune|done].
Qed.

Lemma span_digits_digits s : digits (fst (span_digits s)) = true.
Proof.
  induction s as [|c s IH]; [done|]. simpl. destruct (is_digit c) eqn:E; [|done].
  destruct (span_digits s). simpl in *. by rewrite E.
Qed.

Lemma scan_digits1_no_CR s v r : scan_digits1 s = Some (v, r) -> no_CR v = true.
Proof.
  unfold scan_digits1. pose proof (span_digits_digits s) as Hd. destruct (span_digits s) as [[|c d] b]; [done|].
  intros [= <- <-]. by apply no_CR_digits.
Qed.

Lemma scan_number_no_CR s l r : scan_number s = Some (JFrac l, r) -> no_CR l = true.
Proof.
  unfold scan_number. destruct (strip "-" s) as [neg s0]. destruct (scan_int s0) as [[int s1]|] eqn:E1; [|done].
  destruct (scan_frac s1) as [[frac s2]|] eqn:E2; [|done]. destruct (scan_exp s2) as [[exp s3]|] eqn:E3; [|done].
  unfold number. destruct (_ && _); [done|]. intros [= <- <-].
  apply no_CR_app; [by destruct neg|]. apply no_CR_app; [|apply no_CR_app].
  - destruct s0 as [|c s0]; [done|]. unfold scan_int in E1. case_bool_decide; [by injection E1 as <- <-|].
    pose proof (span_digits_digits (String c s0)) as Hd. destruct (is_digit c); [|done].
    destruct (span_digits (String c s0)). injection E1 as <- <-. by apply no_CR_digits.
  - unfold scan_frac in E2. destruct (strip "." s1) as [[] s1']; [|by injection E2 as <- <-].
    apply prepend_Some in E2 as (w & Hw & ->). apply no_CR_app; [done|]. by eapply scan_digits1_no_CR.
  - destruct s2 as [|c s2]; [by injection E3 as <- <-|]. unfold scan_exp in E3.
    destruct (_ || _) eqn:Hc; [|by injection E3 as <- <-]. destruct s2 as [|d s2]; [done|].
    assert (no_CR (String c "") = true) as Hc1.
    { apply orb_true_iff in Hc as [Hc|Hc]; apply bool_decide_eq_true in Hc; by subst c. }
    destruct (bool_decide (d = "+"%char) || bool_decide (d = "-"%char)) eqn:Hd; apply prepend_Some in E3 as (w & Hw & ->); (apply no_CR_app; [|by eapply scan_digits1_no_CR]).
    + change (bytes2 c d) with (String c "" +:+ String d ""). apply no_CR_app; [done|].
      apply orb_true_iff in Hd as [Hd|Hd]; apply bool_decide_eq_true in Hd; by subst d.
    + done.
Qed.

Lemma no_CR_Itoa z : no_CR (Itoa z) = true.
Proof.
  unfold Itoa. destruct (Z.ltb_spec z 0); [apply no_CR_app; [done|]|]; apply no_CR_digits, itoa_digits; lia.
Qed.

Lemma json_text_no_CR v d : json_ok d v = true -> no_CR (json_text v) = true.
Proof.
  revert v d. apply (json_induction (fun v => forall d, json_ok d v = true -> no_CR (json_text v) = true)).
  - done.
  - by intros [].
  - intros z d _. apply no_CR_Itoa.
  - intros l d Hok. simpl in Hok. destruct (scan_number l) as [[[] r]|] eqn:E; try done.
    apply andb_true_iff in Hok as [->%bool_decide_eq_true _]. by eapply scan_number_no_CR.
  - intros s d _. apply no_CR_string.
  - intros vs IH [|d] Hok; [done|]. rewrite json_text_JArr. apply no_CR_app; [done|]. apply no_CR_app; [|done].
    apply no_CR_Join, Forall_fmap. apply Is_true_eq_left, forallb_True in Hok. rewrite Forall_forall in *.
    intros v Hv. apply (IH v Hv d), Is_true_eq_true. by apply Hok.
  - intros ms IH [|d] Hok; [done|]. rewrite json_text_JObj. apply no_CR_app; [done|]. apply no_CR_app; [|done].
    apply no_CR_Join, Forall_fmap. apply Is_true_eq_left, forallb_True in Hok. rewrite Forall_forall in *.
    intros m Hm. unfold member_text. simpl. apply no_CR_app; [apply no_CR_string|]. apply no_CR_app; [done|].
    apply (IH m Hm d), Is_true_eq_true. by apply Hok.
Qed.

Lemma Itoa_one_line z : one_line (Itoa z) = true.
Proof.
  apply one_line_iff. split; [|apply no_CR_false, no_CR_Itoa]. unfold Itoa. destruct (Z.ltb_spec z 0).
  - rewrite string_mem_app. rewrite itoa_fuel_no_char; [done|done|lia].
  - apply itoa_fuel_no_char; [done|lia].
Qed.

(** ** The events of a stream survive the trip *)
Lemma numbered_ok i es : Forall (fun e => readable (Event_Value e)) es -> Forall sse_ok (numbered i es).
Proof.
  intros Hes. revert i. induction Hes as [|e es [He _] _ IH]; intros i; constructor; [|apply IH].
  split_and!; [apply Itoa_one_line|by destruct (Event_Type e)|by eapply no_CR_false, json_text_no_CR|].
  exists 0. done.
Qed.

Lemma numbered_retry i es : Forall (fun e => sse_Retry e = 0) (numbered i es).
Proof. revert i. induction es as [|e es IH]; intros i; constructor; [done|apply IH]. Qed.

(** The event of a route as the client's [Next] returns it. *)
Definition seen_by_client (e : Event) (r : Route) : error + ClientEvent :=
  inr (mkClientEvent (wire_Route r) (EventType_String (Event_Type e))).

Definition seen_by_tcp_client (e : Event) (m : TcpRouteMapping) : error + ClientTcpEvent :=
  inr (mkClientTcpEvent (wire_Tcp m) (EventType_String (Event_Type e))).

Lemma convert_route id e r :
  Event_Value e = json_of_Route r -> text_Route r ->
  convertRawEvent (mkSse id (EventType_String (Event_Type e)) (json_text (Event_Value e)) 0) = seen_by_client e r.
Proof.
  intros He Hr. unfold convertRawEvent. cbn [sse_Data sse_Name]. rewrite He, Unmarshal_readable by (by apply readable_Route).
  rewrite Unmarshal_json_of_Route by apply Hr. done.
Qed.

Lemma convert_tcp id e m :
  Event_Value e = json_of_Tcp m -> text_Tcp m ->
  convertRawToTcpEvent (mkSse id (EventType_String (Event_Type e)) (json_text (Event_Value e)) 0) = seen_by_tcp_client e m.
Proof.
  intros He Hr. unfold convertRawToTcpEvent. cbn [sse_Data sse_Name]. rewrite He, Unmarshal_readable by (by apply readable_Tcp).
  rewrite Unmarshal_json_of_Tcp by apply Hr. done.
Qed.

(** What [eventSource.Next] makes of the raw source's answers. *)
Definition client_Next (r : source_next) : option (error + ClientEvent) :=
  match r with
  | SNEvent e => Some (eventSource_Next (inr e))
  | SNErr (StreamErr err) => Some (eventSource_Next (inl err))
  | _ => None
  end.

Definition client_TcpNext (r : source_next) : option (error + ClientTcpEvent) :=
  match r with
  | SNEvent e => Some (tcpEventSource_Next (inr e))
  | SNErr (StreamErr err) => Some (tcpEventSource_Next (inl err))
  | _ => None
  end.

Section Client.
Context {W : Type} `{!StreamEnv W}.
Context (name authorization : string).

(** A source connected to a response with the stream's text so far. *)
Definition connected (out : list sse_event) (en : option error) (retries : Z) : EventSource :=
  with_rc (Some (NewReadCloser (concat (sse_Write <$> out)) en)) (createEventSource Second retries).

(** Each event carries a route that can cross the wire. *)
Definition route_events (es : list Event) (rs : list Route) : Prop :=
  Forall2 (fun e r => Event_Value e = json_of_Route r /\ text_Route r) es rs.

Definition tcp_events (es : list Event) (ms : list TcpRouteMapping) : Prop :=
  Forall2 (fun e m => Event_Value e = json_of_Tcp m /\ text_Tcp m) es ms.

Lemma route_events_readable es rs : route_events es rs -> Forall (fun e => readable (Event_Value e)) es.
Proof. induction 1 as [|e r es rs [He Hr] _ IH]; constructor; [|done]. rewrite He. by apply readable_Route. Qed.

Lemma tcp_events_readable es ms : tcp_events es ms -> Forall (fun e => readable (Event_Value e)) es.
Proof. induction 1 as [|e m es ms [He Hr] _ IH]; constructor; [|done]. rewrite He. by apply readable_Tcp. Qed.

Lemma source_reads_numbered fuel ws en retries w :
  Forall (fun e => readable (Event_Value e)) ws ->
  fst (fst (source_NextN name authorization (S fuel) (length (numbered 0 ws)) (connected (numbered 0 ws) en retries) w)) =
  SNEvent <$> numbered 0 ws.
Proof.
  intros Hws. unfold connected, NewReadCloser, with_rc, createEventSource.
  rewrite <- (string_app_nil (concat _)), complete_lines_events by (by apply numbered_ok).
  cbn [complete_lines fst]. rewrite app_nil_r. cbn [lastEventID es_closed retryInterval maxRetries].
  apply source_reads; [by apply numbered_ok|apply numbered_retry].
Qed.

Lemma client_sees_routes i ws rs :
  route_events ws rs -> client_Next <$> (SNEvent <$> numbered i ws) = Some <$> zip_with seen_by_client ws rs.
Proof.
  intros Hw. revert i. induction Hw as [|e r ws rs [He Hr] _ IH]; intros i; [done|]. cbn [numbered]. csimpl.
  rewrite IH. by rewrite (convert_route _ e r).
Qed.

Lemma client_sees_tcp i ws ms :
  tcp_events ws ms -> client_TcpNext <$> (SNEvent <$> numbered i ws) = Some <$> zip_with seen_by_tcp_client ws ms.
Proof.
  intros Hw. revert i. induction Hw as [|e m ws ms [He Hr] _ IH]; intros i; [done|]. cbn [numbered]. csimpl.
  rewrite IH. by rewrite (convert_tcp _ e m).
Qed.
End Client.
