(* ===== verification/EndToEnd.v ===== *)
(** EndToEnd: the client package against the server.  The transport hands the
    client's request to [apiHandler] and the response back, so a client method
    runs on the server's state. *)
From Stdlib Require Import ZArith Lia.
From stdpp Require Import base option strings gmap list.
From S2P Require Import Prelude GoStrings RouterGroups Routes Json Validator Contract Http Handlers.
From S2P Require Import HandlerFacts GroupApi Api ApiClient.
From S2P Require Import Utf8 JsonText JsonTextFacts Wire.

Local Open Scope string_scope.
Local Open Scope list_scope.
Local Open Scope Z_scope.

(** What crosses the wire: the first JSON value of the body ([io.EOF] when
    there is none), the query, the path parameters and the token. *)
Definition wire_request (cr : ClientRequest) : Request :=
  mkRequest {[ "Authorization" := [cr_authorization cr] ]}
    (Decode_text (cr_body cr))
    (list_to_map (cr_query cr)) (list_to_map (cr_params cr)).

Section Transport.
Context {D U : Type} `{!DB D, !Env D, !TokenValidator U, !NetUrl}.
Context (gl : Globals) (maxTTL : Z).

Definition new_request (s : Server D U) : Server D U :=
  mkServer (sv_db s) (sv_uaa s) (totalTokenErrors s) new_ResponseWriter.

(** A handler that writes nothing answers 200. *)
Definition wire_response (w : ResponseWriter) : Response :=
  mkResponse (default StatusOK (rw_status w)) (inr (concat (rw_body w))).

(** net/http recovers the panic of a handler and closes the connection. *)
#[local] Instance loopback : HttpClient (Server D U) := fun cr s =>
  match action_of (cr_name cr) with
  | None => (inl (ext_error "unknown request"), s)
  | Some a =>
      match apiHandler gl maxTTL a (wire_request cr) (new_request s) with
      | Ok _ s' => (inr (wire_response (sv_w s')), s')
      | Fail _ s' | Panic _ s' => (inl (ext_error "EOF"), s')
      end
  end.

Context `{!DBContract D}.
Implicit Types (s : Server D U) (v : View).

(** A call without a result returns exactly when the answer was at most 299. *)
Lemma wp_do_ cr a s (P : Z -> View -> Prop) :
  action_of (cr_name cr) = Some a ->
  wp (apiHandler gl maxTTL a (wire_request cr)) (new_request s) (responds P) (aborts (new_request s)) ->
  wp (do_ cr) s
    (fun _ s' => db_inv (sv_db s') /\ exists code, code <= 299 /\ P code (view (sv_db s')))
    (fun e s' => e <> None /\
       ((db_inv (sv_db s') /\ exists code, 299 < code /\ P code (view (sv_db s'))) \/ sv_db s' = sv_db s)).
Proof.
  intros Ha Hw. unfold do_, wp, mbind, Go_bind, call, http_Do, loopback in *. rewrite Ha.
  destruct (apiHandler _ _ _ _ _) as [[] s'|e s'|x s']; [|split; [done|right; apply Hw]..].
  destruct Hw as (Hi & code & Hc & HP). unfold wire_response. rewrite Hc. simpl.
  destruct (Z.eqb_spec code StatusUnauthorized) as [Hu|].
  { simpl. split; [done|]. left. split; [done|]. exists code. split; [by rewrite Hu|done]. }
  destruct (Z.ltb_spec 299 code); [simpl; split; [done|left; eauto]|]. simpl. eauto.
Qed.

(** ** The arguments arrive *)
Lemma wire_Decode {A} (dec : json -> error + A) cr (v : json) :
  cr_body cr = json_text v -> readable v -> Decode dec (wire_request cr) = dec v.
Proof.
  intros Hb Hv. unfold Decode, wire_request. cbn [req_Body]. rewrite Hb, <- (string_app_nil (json_text v)).
  by rewrite Decode_readable.
Qed.

Lemma wire_routes routes cr :
  cr_body cr = json_text (JArr (json_of_Route <$> routes)) -> Forall text_Route routes ->
  Decode (dec_slice Unmarshal_Route) (wire_request cr) = inr (wire_Route <$> routes).
Proof.
  intros Hb Ht. rewrite (wire_Decode _ _ _ Hb) by (by apply readable_Routes). apply dec_elems_map.
  eapply Forall_impl; [exact Ht|]. intros r [Hr _]. by apply Unmarshal_json_of_Route.
Qed.

Lemma wire_tcp ms cr :
  cr_body cr = json_text (JArr (json_of_Tcp <$> ms)) -> Forall text_Tcp ms ->
  Decode (dec_slice Unmarshal_Tcp) (wire_request cr) = inr (wire_Tcp <$> ms).
Proof.
  intros Hb Ht. rewrite (wire_Decode _ _ _ Hb) by (by apply readable_Tcps). apply dec_elems_map.
  eapply Forall_impl; [exact Ht|]. intros r [Hr _]. by apply Unmarshal_json_of_Tcp.
Qed.

Lemma wire_group g cr :
  cr_body cr = json_text (json_of_RouterGroup g) -> text_RouterGroup g ->
  Decode Unmarshal_RouterGroup (wire_request cr) = inr g.
Proof.
  intros Hb Ht. rewrite (wire_Decode _ _ _ Hb) by (by apply readable_RouterGroup).
  apply Unmarshal_json_of_RouterGroup, Ht.
Qed.

Lemma key_SetDefaults r : route_key (Route_SetDefaults maxTTL (wire_Route r)) = route_key r.
Proof. unfold Route_SetDefaults. by destruct r as [m x [? ? ? [ttl|] ? ? ?]]. Qed.

Lemma tcp_key_SetDefaults m : tcp_key (Tcp_SetDefaults maxTTL (wire_Tcp m)) = tcp_key m.
Proof. unfold Tcp_SetDefaults. by destruct m as [mo x [? ? ? ? ? ? ? ? ? [ttl|] ? ? ? ?]]. Qed.

(** *** Writing routes *)
Lemma only_routes_prefix {A} (key : A -> _) pre r post v v' :
  only_routes (key <$> pre) v v' -> only_routes (key <$> pre ++ r :: post) v v'.
Proof.
  intros (H1 & H2 & H3 & H4). split_and!; [done..|]. intros k Hk. apply H4. rewrite fmap_app in Hk. set_solver.
Qed.

Lemma only_tcp_prefix {A} (key : A -> _) pre r post v v' :
  only_tcp (key <$> pre) v v' -> only_tcp (key <$> pre ++ r :: post) v v'.
Proof.
  intros (H1 & H2 & H3 & H4). split_and!; [done..|]. intros k Hk. apply H4. rewrite fmap_app in Hk. set_solver.
Qed.

Definition all_present (routes : list Route) v : Prop := forall r, r ∈ routes -> is_Some (v_routes v !! route_key r).
Definition all_absent (routes : list Route) v : Prop := forall r, r ∈ routes -> v_routes v !! route_key r = None.

Lemma keys_SetDefaults (routes : list Route) :
  route_key <$> (Route_SetDefaults maxTTL <$> (wire_Route <$> routes)) = route_key <$> routes.
Proof. rewrite <- !list_fmap_compose. apply list_fmap_ext. intros i r _. apply key_SetDefaults. Qed.

Lemma client_UpsertRoutes_wp token routes s :
  db_inv (sv_db s) -> Forall text_Route routes ->
  wp (client_UpsertRoutes token routes) s
    (fun _ s' => db_inv (sv_db s') /\ all_present routes (view (sv_db s')) /\
                 only_routes (route_key <$> routes) (view (sv_db s)) (view (sv_db s')))
    (fun e s' => e <> None /\ db_inv (sv_db s') /\
                 only_routes (route_key <$> routes) (view (sv_db s)) (view (sv_db s'))).
Proof.
  intros Hi Ht. set (cr := createRequest token "UpsertRoute" [] [] (Some (JArr (json_of_Route <$> routes)))).
  pose proof (wire_routes routes cr eq_refl Ht) as Hdec.
  assert (forall rs, requested_routes maxTTL (wire_request cr) = Some rs ->
            route_key <$> rs = route_key <$> routes) as Hkeys.
  { unfold requested_routes. rewrite Hdec. intros rs [= <-]. apply keys_SetDefaults. }
  eapply wp_mono; [eapply (wp_do_ cr AUpsertRoute); [reflexivity|]; by apply Routes_Upsert_wp| |].
  - intros [] s' (Hi' & code & Hle & [[-> _]|[[-> _]|(rs & Hrs & _ & [[-> Hs]|[-> _]])]]); try (by vm_compute in Hle).
    specialize (Hkeys rs Hrs). split_and!; [done| |].
    + intros r Hr. assert (route_key r ∈ route_key <$> rs) as (r' & -> & Hr')%list_elem_of_fmap
        by (rewrite Hkeys; apply list_elem_of_fmap; eauto). by eapply stored_present.
    + rewrite <- Hkeys. by apply stored_only_routes.
  - intros e s' [Hn [[Hi' (code & Hgt & Ha)]|Hsame]]; [|rewrite Hsame; split_and!; [done..|reflexivity]].
    split_and!; [done..|]. simpl in Ha.
    destruct Ha as [[_ ->]|[(_ & -> & _)|(rs & Hrs & _ & [[_ Hs]|(_ & pre & r & post & -> & Hs)])]];
      [reflexivity..| |]; rewrite <- (Hkeys _ Hrs);
      [by apply stored_only_routes|by apply only_routes_prefix, stored_only_routes].
Qed.

Lemma client_DeleteRoutes_wp token routes s :
  db_inv (sv_db s) -> Forall text_Route routes ->
  wp (client_DeleteRoutes token routes) s
    (fun _ s' => db_inv (sv_db s') /\ all_absent routes (view (sv_db s')) /\
                 only_routes (route_key <$> routes) (view (sv_db s)) (view (sv_db s')))
    (fun e s' => e <> None /\ db_inv (sv_db s') /\
                 only_routes (route_key <$> routes) (view (sv_db s)) (view (sv_db s'))).
Proof.
  intros Hi Ht. set (cr := createRequest token "Delete" [] [] (Some (JArr (json_of_Route <$> routes)))).
  pose proof (wire_routes routes cr eq_refl Ht) as Hdec.
  assert (route_key <$> (wire_Route <$> routes) = route_key <$> routes) as Hkeys by (by rewrite <- list_fmap_compose).
  eapply wp_mono; [eapply (wp_do_ cr ADeleteRoute); [reflexivity|]; by apply Routes_Delete_wp| |].
  - intros [] s' (Hi' & code & Hle & [[-> _]|[[-> _]|(rs & Hrs & _ & [[-> Hs]|[-> _]])]]); try (by vm_compute in Hle).
    rewrite Hdec in Hrs. injection Hrs as <-. split_and!; [done| |].
    + intros r Hr. apply (removed_absent _ _ _ (wire_Route r) Hs), list_elem_of_fmap. eauto.
    + rewrite <- Hkeys. by apply removed_only_routes.
  - intros e s' [Hn [[Hi' (code & Hgt & Ha)]|Hsame]]; [|rewrite Hsame; split_and!; [done..|reflexivity]].
    split_and!; [done..|]. simpl in Ha.
    destruct Ha as [[_ ->]|[(_ & -> & _)|(rs & Hrs & _ & Ha)]]; [reflexivity..|].
    rewrite Hdec in Hrs. injection Hrs as Hrs. rewrite <- Hkeys, Hrs.
    destruct Ha as [[_ Hs]|(_ & pre & r & post & -> & Hs)];
      [by apply removed_only_routes|by apply only_routes_prefix, removed_only_routes].
Qed.

(** *** Writing TCP route mappings *)
Lemma refusals_above codes code :
  code ∈ codes -> code <= 299 -> forallb (fun c => 299 <? c) codes = false.
Proof.
  intros Hin Hle. apply not_true_is_false. intros Hall%Is_true_eq_left%forallb_True.
  rewrite Forall_forall in Hall. specialize (Hall code Hin). apply Is_true_eq_true, Z.ltb_lt in Hall. lia.
Qed.

Definition all_tcp_present (ms : list TcpRouteMapping) v : Prop := forall m, m ∈ ms -> tcp_present m v.

(** No request finds one of the mappings any more; the ones with a TLS port are gone,
    and what requests do not find has stayed. *)
Definition all_tcp_absent (ms : list TcpRouteMapping) v v' : Prop :=
  (forall m, m ∈ ms -> v_tcp v' !! (tcp_key m, None) = None /\
     (TM_HostTLSPort (Tcp_Entity m) <> 0 -> forall hidden, v_tcp v' !! (tcp_key m, hidden) = None)) /\
  (forall k guid, v_tcp v' !! (k, Some guid) = v_tcp v !! (k, Some guid)).

Lemma tls_found d (m : TcpRouteMapping) hidden : db_inv d -> TM_HostTLSPort (Tcp_Entity m) <> 0 ->
  v_tcp (view d) !! (tcp_key m, None) = None -> v_tcp (view d) !! (tcp_key m, hidden) = None.
Proof.
  intros Hi Htls Hn. destruct hidden as [g|]; [|done]. apply eq_None_not_Some. intros Hs.
  apply Htls. rewrite <- key_tls_key. by eapply c_hidden.
Qed.

Lemma tcp_keys_SetDefaults (ms : list TcpRouteMapping) :
  tcp_key <$> (Tcp_SetDefaults maxTTL <$> (wire_Tcp <$> ms)) = tcp_key <$> ms.
Proof. rewrite <- !list_fmap_compose. apply list_fmap_ext. intros i m _. apply tcp_key_SetDefaults. Qed.

Lemma client_UpsertTcp_wp token ms s :
  db_inv (sv_db s) -> Forall text_Tcp ms ->
  wp (client_UpsertTcpRouteMappings token ms) s
    (fun _ s' => db_inv (sv_db s') /\ all_tcp_present ms (view (sv_db s')) /\
                 only_tcp (tcp_key <$> ms) (view (sv_db s)) (view (sv_db s')))
    (fun e s' => e <> None /\ db_inv (sv_db s') /\
                 only_tcp (tcp_key <$> ms) (view (sv_db s)) (view (sv_db s'))).
Proof.
  intros Hi Ht.
  set (cr := createRequest token "UpsertTcpRouteMapping" [] [] (Some (JArr (json_of_Tcp <$> ms)))).
  pose proof (wire_tcp ms cr eq_refl Ht) as Hdec.
  assert (forall l, requested_tcp maxTTL (wire_request cr) = Some l -> tcp_key <$> l = tcp_key <$> ms) as Hkeys.
  { unfold requested_tcp. rewrite Hdec. intros l [= <-]. apply tcp_keys_SetDefaults. }
  eapply wp_mono; [eapply (wp_do_ cr AUpsertTcp); [reflexivity|]; by apply Tcp_Upsert_wp| |].
  - intros [] s' (Hi' & code & Hle & [[_ Hin]|(l & Hl & _ & [[-> Hs]|[-> _]])]); [|  |by vm_compute in Hle].
    { by pose proof (refusals_above _ _ Hin Hle). }
    specialize (Hkeys l Hl). split_and!; [done| |].
    + intros m Hm. assert (tcp_key m ∈ tcp_key <$> l) as (m' & E & Hm')%list_elem_of_fmap
        by (rewrite Hkeys; apply list_elem_of_fmap; eauto). unfold tcp_present. rewrite E. by eapply (tcp_stored_present l).
    + rewrite <- Hkeys. by apply stored_only_tcp.
  - intros e s' [Hn [[Hi' (code & Hgt & Ha)]|Hsame]]; [|rewrite Hsame; split_and!; [done..|reflexivity]].
    split_and!; [done..|]. simpl in Ha.
    destruct Ha as [[-> _]|(l & Hl & _ & [[_ Hs]|(_ & pre & r & post & -> & Hs)])];
      [reflexivity| |]; rewrite <- (Hkeys _ Hl);
      [by apply stored_only_tcp|by apply only_tcp_prefix, stored_only_tcp].
Qed.

Lemma client_DeleteTcp_wp token ms s :
  db_inv (sv_db s) -> Forall text_Tcp ms ->
  wp (client_DeleteTcpRouteMappings token ms) s
    (fun _ s' => db_inv (sv_db s') /\ all_tcp_absent ms (view (sv_db s)) (view (sv_db s')) /\
                 only_tcp (tcp_key <$> ms) (view (sv_db s)) (view (sv_db s')))
    (fun e s' => e <> None /\ db_inv (sv_db s') /\
                 only_tcp (tcp_key <$> ms) (view (sv_db s)) (view (sv_db s'))).
Proof.
  intros Hi Ht.
  set (cr := createRequest token "DeleteTcpRouteMapping" [] [] (Some (JArr (json_of_Tcp <$> ms)))).
  pose proof (wire_tcp ms cr eq_refl Ht) as Hdec.
  assert (tcp_key <$> (wire_Tcp <$> ms) = tcp_key <$> ms) as Hkeys by (by rewrite <- list_fmap_compose).
  eapply wp_mono; [eapply (wp_do_ cr ADeleteTcp); [reflexivity|]; by apply Tcp_Delete_wp| |].
  - intros [] s' (Hi' & code & Hle & [[_ Hin]|(l & Hl & _ & [[-> Hs]|[-> _]])]); [|  |by vm_compute in Hle].
    { by pose proof (refusals_above _ _ Hin Hle). }
    rewrite Hdec in Hl. injection Hl as <-. split_and!; [done| |].
    + split; [|intros k guid; by eapply removed_keeps_hidden]. intros m Hm.
      assert (v_tcp (view (sv_db s')) !! (tcp_key m, None) = None) as Hno
        by (apply (tcp_removed_absent _ _ _ (wire_Tcp m) Hs), list_elem_of_fmap; eauto).
      split; [done|]. intros Htls hidden. by apply tls_found.
    + rewrite <- Hkeys. by apply removed_only_tcp.
  - intros e s' [Hn [[Hi' (code & Hgt & Ha)]|Hsame]]; [|rewrite Hsame; split_and!; [done..|reflexivity]].
    split_and!; [done..|]. simpl in Ha.
    destruct Ha as [[-> _]|(l & Hl & _ & Ha)]; [reflexivity|].
    rewrite Hdec in Hl. injection Hl as Hl. rewrite <- Hkeys, Hl.
    destruct Ha as [[_ Hs]|(_ & pre & r & post & -> & Hs)];
      [by apply removed_only_tcp|by apply only_tcp_prefix, removed_only_tcp].
Qed.

(** *** Router groups *)
Lemma client_CreateRouterGroup_wp token g s :
  db_inv (sv_db s) -> text_RouterGroup g ->
  wp (client_CreateRouterGroup token g) s
    (fun _ s' => db_inv (sv_db s') /\ exists guid ports,
       v_groups (view (sv_db s')) !! guid = Some (RG_Name g, RG_Type g, ports) /\
       (view (sv_db s') = view (sv_db s) \/
        ports = RG_ReservablePorts g /\
        view (sv_db s') = set_groups (<[guid := (RG_Name g, RG_Type g, ports)]> (v_groups (view (sv_db s)))) (view (sv_db s))))
    (fun e s' => e <> None /\ view (sv_db s') = view (sv_db s)).
Proof.
  intros Hi Ht. set (cr := createRequest token "CreateRouterGroup" [] [] (Some (json_of_RouterGroup g))).
  pose proof (wire_group g cr eq_refl Ht) as Hdec.
  eapply wp_mono; [eapply (wp_do_ cr ACreateRouterGroup); [reflexivity|]; by apply CreateRouterGroup_wp| |].
  - intros [] s' (Hi' & code & Hle & [[_ Hin]|(rg & Hrg & Ha)]); [by pose proof (refusals_above _ _ Hin Hle)|].
    rewrite Hdec in Hrg. injection Hrg as <-. split; [done|].
    destruct Ha as [(_ & Hsame & guid & p & Hl)|(_ & _ & _ & _ & guid & _ & Hv)].
    + exists guid, p. rewrite Hsame. auto.
    + exists guid, (RG_ReservablePorts g). rewrite Hv. split; [apply lookup_insert_eq|auto].
  - intros e s' [Hn [[Hi' (code & Hgt & Ha)]|Hsame]]; [|by rewrite Hsame]. split; [done|].
    destruct Ha as [[-> _]|(rg & _ & [(-> & _)|(-> & _)])]; [done|by vm_compute in Hgt..].
Qed.

Lemma client_UpdateRouterGroup_wp token g s :
  db_inv (sv_db s) -> text_RouterGroup g ->
  wp (client_UpdateRouterGroup token g) s
    (fun _ s' => db_inv (sv_db s') /\ exists n t p,
       v_groups (view (sv_db s)) !! RG_Guid g = Some (n, t, p) /\
       view (sv_db s') = set_groups (<[RG_Guid g := (n, t, RG_ReservablePorts g)]> (v_groups (view (sv_db s)))) (view (sv_db s)))
    (fun e s' => e <> None /\ view (sv_db s') = view (sv_db s)).
Proof.
  intros Hi Ht.
  set (cr := createRequest token "UpdateRouterGroup" [("guid", RG_Guid g)] [] (Some (json_of_RouterGroup g))).
  pose proof (wire_group g cr eq_refl Ht) as Hdec.
  eapply wp_mono; [eapply (wp_do_ cr AUpdateRouterGroup); [reflexivity|]; by apply UpdateRouterGroup_wp| |].
  - intros [] s' (Hi' & code & Hle & [[_ Hin]|(rg & guid & n & t & p & Hrg & Hg & Hl & _ & _ & Hv)]);
      [by pose proof (refusals_above _ _ Hin Hle)|].
    rewrite Hdec in Hrg. injection Hrg as <-. vm_compute in Hg. injection Hg as <-. split; [done|]. exists n, t, p. auto.
  - intros e s' [Hn [[Hi' (code & Hgt & Ha)]|Hsame]]; [|by rewrite Hsame]. split; [done|].
    destruct Ha as [[-> _]|(rg & guid & n & t & p & _ & _ & _ & -> & _)]; [done|by vm_compute in Hgt].
Qed.

Lemma client_DeleteRouterGroup_wp token g s :
  db_inv (sv_db s) ->
  wp (client_DeleteRouterGroup token g) s
    (fun _ s' => db_inv (sv_db s') /\ is_Some (v_groups (view (sv_db s)) !! RG_Guid g) /\
       view (sv_db s') = set_groups (delete (RG_Guid g) (v_groups (view (sv_db s)))) (view (sv_db s)))
    (fun e s' => e <> None /\ view (sv_db s') = view (sv_db s)).
Proof.
  intros Hi. set (cr := createRequest token "DeleteRouterGroup" [("guid", RG_Guid g)] [] None).
  eapply wp_mono; [eapply (wp_do_ cr ADeleteRouterGroup); [reflexivity|]; by apply DeleteRouterGroup_handler_wp| |].
  - intros [] s' (Hi' & code & Hle & [[_ Hin]|[(-> & _)|(_ & _ & Hs & Hv)]]);
      [by pose proof (refusals_above _ _ Hin Hle)|by vm_compute in Hle|]. auto.
  - intros e s' [Hn [[Hi' (code & Hgt & Ha)]|Hsame]]; [|by rewrite Hsame]. split; [done|].
    destruct Ha as [[-> _]|[(_ & -> & _)|(-> & _)]]; [done|done|by vm_compute in Hgt].
Qed.
End Transport.
