(* ===== verification/ReadBack.v ===== *)
(** ReadBack: what the client's reading methods return is what the server's
    store holds, and what [ReservePort] does to it. *)
From Stdlib Require Import ZArith Lia.
From stdpp Require Import base option strings gmap list.
From S2P Require Import Prelude GoStrings Utf8 RouterGroups Routes Json JsonText JsonTextFacts Wire.
From S2P Require Import SqlGroupFacts Contract Validator Http Handlers HandlerFacts GroupApi Api ApiClient EndToEnd.

Local Open Scope string_scope.
Local Open Scope list_scope.
Local Open Scope Z_scope.

Section ReadBack.
Context {D U : Type} `{!DB D, !Env D, !TokenValidator U, !NetUrl, !DBContract D}.
Context (gl : Globals) (maxTTL : Z).
Implicit Types (s : Server D U) (v : View).

#[local] Instance wire : HttpClient (Server D U) := loopback gl maxTTL.

(** The store is as before, and the answer is an error or a list of [P]. *)
Definition list_reply {A} (enc : A -> json) (tail : string) (P : list A -> Prop) s : unit -> Server D U -> Prop :=
  fun _ s' => db_inv (sv_db s') /\ view (sv_db s') = view (sv_db s) /\
    ((exists code, rw_status (sv_w s') = Some code /\ 299 < code) \/
     (rw_status (sv_w s') = Some StatusOK /\
      exists l, P l /\ concat (rw_body (sv_w s')) = json_text (JArr (enc <$> l)) +:+ tail)).

Lemma wp_authorized_raw req scope body s (Q : unit -> Server D U -> Prop) :
  (forall err u, Q tt (rejected err u s)) ->
  (forall u, wp body (with_uaa u s) Q never) -> wp (authorized req scope body) s Q (aborts s).
Proof.
  intros Hrej Hb. destruct (uaa_ValidateToken (token_of req) [scope] (sv_uaa s)) as [[] u|err u|m u] eqn:E.
  - specialize (Hb u). unfold wp, authorized, mbind, Go_bind, ValidateToken. unfold token_of in E. rewrite E.
    unfold wp in Hb. fold (with_uaa u s). by destruct (body (with_uaa u s)).
  - unfold wp. rewrite (authorized_run _ _ _ _ _ _ E). apply Hrej.
  - unfold wp, authorized, mbind, Go_bind, ValidateToken. unfold token_of in E. by rewrite E.
Qed.

Lemma wp_error_reply {A} (enc : A -> json) tail P code err s d :
  fresh s -> db_inv d -> view d = view (sv_db s) -> 299 < code ->
  forall u, wp (error_response code err) (with_db d (with_uaa u s)) (list_reply enc tail P s) never.
Proof.
  intros Hf Hi Hv Hc u. unfold wp, error_response. simpl. split_and!; [done..|].
  left. exists code. simpl. by rewrite Hf.
Qed.

Lemma rejected_reply {A} (enc : A -> json) tail P s err u :
  fresh s -> db_inv (sv_db s) -> list_reply enc tail P s tt (rejected err u s).
Proof.
  intros Hf Hi. split_and!; [done..|]. left. exists StatusUnauthorized. split; [|done].
  unfold rejected. simpl. by rewrite Hf.
Qed.

Lemma Routes_List_reply req s :
  fresh s -> db_inv (sv_db s) ->
  wp (Routes_List req) s
    (list_reply json_of_Route newline (fun l => forall r, r ∈ l ->
       v_routes (view (sv_db s)) !! route_key r = Some (Route_Entity r, Route_ExpiresAt r)) s) (aborts s).
Proof.
  intros Hf Hi. unfold Routes_List. apply wp_authorized_raw; [intros; by apply rejected_reply|].
  intros u. apply wp_db. eapply wp_mono; [by apply c_ReadRoutes| |].
  - intros l d' (Hi' & Hv & Hl). unfold wp, Encode, Write, on_w, modify. split_and!; [done..|]. right.
    cbn [sv_w with_db with_uaa]. rewrite Hf. split; [done|]. exists l. split; [done|]. rewrite Hf. exact (string_app_nil _).
  - intros [e|] d' (Hi' & Hv & Hn); [|done]. by apply wp_error_reply.
Qed.

Lemma Tcp_List_reply req s :
  fresh s -> db_inv (sv_db s) ->
  wp (Tcp_List req) s
    (list_reply json_of_Tcp newline (fun l => forall m, m ∈ l ->
       tcp_listed m (view (sv_db s)) /\
       match default [] (req_Query req !! "isolation_segment") with
       | [] => True
       | segments => TM_IsolationSegment (Tcp_Entity m) ∈ segments
       end) s) (aborts s).
Proof.
  intros Hf Hi. unfold Tcp_List. apply wp_authorized_raw; [intros; by apply rejected_reply|].
  intros u. apply wp_db. destruct (default [] _) as [|x xs].
  - eapply wp_mono; [by apply c_ReadTcp| |].
    + intros l d' (Hi' & Hv & Hl). unfold wp, Encode, Write, on_w, modify. split_and!; [done..|]. right.
      cbn [sv_w with_db with_uaa]. rewrite Hf. split; [done|]. exists l. split; [auto|]. rewrite Hf. exact (string_app_nil _).
    + intros [e|] d' (Hi' & Hv & Hn); [|done]. by apply wp_error_reply.
  - eapply wp_mono; [by apply c_ReadFiltered| |].
    + intros l d' (Hi' & Hv & Hl). unfold wp, Encode, Write, on_w, modify. split_and!; [done..|]. right.
      cbn [sv_w with_db with_uaa]. rewrite Hf. split; [done|]. exists l. split; [auto|]. rewrite Hf. exact (string_app_nil _).
    + intros [e|] d' (Hi' & Hv & Hn); [|done]. by apply wp_error_reply.
Qed.

Lemma wp_write_json_reply {A} (enc : A -> json) (P : list A -> Prop) l s d u :
  fresh s -> db_inv d -> view d = view (sv_db s) -> P l ->
  wp (write_json (JArr (enc <$> l))) (with_db d (with_uaa u s)) (list_reply enc "" P s) never.
Proof.
  intros Hf Hi Hv HP. unfold wp, write_json, SetHeader, WriteHeader, Write, on_w, modify, mbind, Go_bind.
  split_and!; [done..|]. right. cbn [sv_w with_db with_uaa]. rewrite Hf. split; [done|].
  exists l. split; [done|]. rewrite Hf. reflexivity.
Qed.

(** Listing router groups: all of them, or the one with the name. *)
Definition named_group name v (l : list RouterGroup) : Prop :=
  exists g, l = [g] /\ RG_Name g = name /\ v_groups v !! RG_Guid g = Some (name, RG_Type g, RG_ReservablePorts g).

Lemma ListRouterGroups_reply req s :
  fresh s -> db_inv (sv_db s) ->
  wp (ListRouterGroups req) s
    (list_reply json_of_RouterGroup "" (fun l =>
       let name := Header_Get (req_Query req) "name" in
       if bool_decide (name <> "") then named_group name (view (sv_db s)) l
       else lists_groups l (view (sv_db s))) s) (aborts s).
Proof.
  intros Hf Hi. unfold ListRouterGroups. apply wp_authorized_raw; [intros; by apply rejected_reply|].
  intros u. case_bool_decide; apply wp_db.
  - eapply wp_mono; [by apply c_ReadRouterGroupByName| |].
    + intros g d' (Hi' & Hv & Hg). case_bool_decide as Hz; [by apply wp_error_reply|].
      apply (wp_write_json_reply json_of_RouterGroup _ [g]); [done..|].
      destruct Hg as [[-> _]|(Hn & _ & Hl)]; [done|]. by exists g.
    + intros [e|] d' (Hi' & Hv & Hn); [|done]. rewrite bool_decide_eq_true_2 by done. by apply wp_error_reply.
  - eapply wp_mono; [by apply c_ReadRouterGroups| |].
    + intros g d' (Hi' & Hv & _ & Hl). by apply (wp_write_json_reply json_of_RouterGroup).
    + intros [e|] d' (Hi' & Hv & Hn); [|done]. by apply wp_error_reply.
Qed.

(** A reading call: the decoded list, or an error; the store stays. *)
Lemma wp_do {A B} (enc : A -> json) (dec : json -> error + B) tail cr a s (P : list A -> Prop) (R : B -> Prop) :
  action_of (cr_name cr) = Some a ->
  wp (apiHandler gl maxTTL a (wire_request cr)) (new_request s)
    (list_reply enc tail P (new_request s)) (aborts (new_request s)) ->
  (forall l, P l -> exists b, then_decode dec (Decode_text (json_text (JArr (enc <$> l)) +:+ tail)) = inr b /\ R b) ->
  db_inv (sv_db s) ->
  wp (do dec cr) s
    (fun b s' => R b /\ db_inv (sv_db s') /\ view (sv_db s') = view (sv_db s))
    (fun e s' => e <> None /\ db_inv (sv_db s') /\ view (sv_db s') = view (sv_db s)).
Proof.
  intros Ha Hw HR Hi. unfold do, wp, mbind, Go_bind, call, http_Do, wire, loopback in *. rewrite Ha.
  destruct (apiHandler _ _ _ _ _) as [[] s'|e s'|x s'];
    [|destruct Hw as (_ & -> & _); split_and!; done..].
  destruct Hw as (Hi' & Hv & [(code & Hc & Hgt)|(Hc & l & HP & Hbody)]); unfold wire_response; rewrite Hc; simpl.
  - destruct (Z.eqb_spec code StatusUnauthorized); [done|]. by destruct (Z.ltb_spec 299 code); [|lia].
  - rewrite Hbody. destruct (HR l HP) as (b & Hb & HRb). unfold then_decode in Hb.
    destruct (Decode_text _) as [e|v]; simpl; [done|]. rewrite Hb. done.
Qed.

(** ** The client's reads *)
Definition utf8_view v : Prop :=
  (forall k x, v_routes v !! k = Some x -> text_Route (mkRoute zero_Model (snd x) (fst x))) /\
  (forall k x, v_tcp v !! k = Some x -> text_Tcp (mkTcpRouteMapping zero_Model (snd x) (fst x))) /\
  (forall guid x, v_groups v !! guid = Some x ->
     json_utf8 (json_of_RouterGroup (mkRouterGroup zero_Model guid (fst (fst x)) (snd (fst x)) (snd x))) = true).

Lemma client_Routes_wp token s :
  db_inv (sv_db s) -> utf8_view (view (sv_db s)) ->
  wp (client_Routes token) s
    (fun rs s' => (forall r, r ∈ rs -> exists exp,
                     v_routes (view (sv_db s)) !! route_key r = Some (Route_Entity r, exp)) /\
                  db_inv (sv_db s') /\ view (sv_db s') = view (sv_db s))
    (fun e s' => e <> None /\ db_inv (sv_db s') /\ view (sv_db s') = view (sv_db s)).
Proof.
  intros Hi (Hu & _). set (cr := createRequest token "List" [] [] None).
  eapply (wp_do json_of_Route _ newline cr AListRoute s _
    (fun rs => forall r, r ∈ rs -> exists exp, v_routes (view (sv_db s)) !! route_key r = Some (Route_Entity r, exp)));
    [reflexivity|by apply Routes_List_reply| |done].
  intros l Hl. exists (wire_Route <$> l). split.
  - apply text_routes_roundtrip; [|done]. apply Forall_forall. intros r Hr. apply (Hu _ _ (Hl r Hr)).
  - intros r (r0 & -> & Hr0)%list_elem_of_fmap. eexists. exact (Hl r0 Hr0).
Qed.

Lemma client_Filtered_wp token segments s :
  db_inv (sv_db s) -> utf8_view (view (sv_db s)) ->
  wp (client_FilteredTcpRouteMappings token segments) s
    (fun ms s' => (forall m, m ∈ ms -> (exists exp hidden, v_tcp (view (sv_db s)) !! (tcp_key m, hidden) = Some (Tcp_Entity m, exp)) /\
                     (segments <> [] -> TM_IsolationSegment (Tcp_Entity m) ∈ segments)) /\
                  db_inv (sv_db s') /\ view (sv_db s') = view (sv_db s))
    (fun e s' => e <> None /\ db_inv (sv_db s') /\ view (sv_db s') = view (sv_db s)).
Proof.
  intros Hi (_ & Hu & _).
  set (cr := createRequest token "ListTcpRouteMapping" [] [("isolation_segment", segments)] None).
  eapply (wp_do json_of_Tcp _ newline cr AListTcp s _
    (fun ms => forall m, m ∈ ms -> (exists exp hidden, v_tcp (view (sv_db s)) !! (tcp_key m, hidden) = Some (Tcp_Entity m, exp)) /\
       (segments <> [] -> TM_IsolationSegment (Tcp_Entity m) ∈ segments)));
    [reflexivity|by apply Tcp_List_reply| |done].
  intros l Hl. exists (wire_Tcp <$> l). split.
  - apply text_tcp_roundtrip; [|done]. apply Forall_forall. intros r Hr.
    destruct (proj1 (Hl r Hr)) as [h Hh]. apply (Hu _ _ Hh).
  - intros m (m0 & -> & Hm0)%list_elem_of_fmap. destruct (Hl m0 Hm0) as [[h H1] H2]. split; [by eexists _, h|].
    intros Hne. change (default [] (req_Query (wire_request cr) !! "isolation_segment")) with segments in H2.
    by destruct segments.
Qed.

(** The groups of the store, each once, without their database model. *)
Definition shows_groups (gs : list RouterGroup) v : Prop :=
  NoDup (RG_Guid <$> gs) /\ (forall g, g ∈ gs -> RG_Model g = zero_Model) /\
  forall guid n t p, v_groups v !! guid = Some (n, t, p) <-> mkRouterGroup zero_Model guid n t p ∈ gs.

Lemma lists_shows l v : lists_groups l v -> shows_groups (wire_RouterGroup <$> l) v.
Proof.
  intros (Hnd & Hm & Hl). split; [by rewrite <- list_fmap_compose|].
  split; [by intros g (g0 & -> & _)%list_elem_of_fmap|]. intros guid n t p. rewrite Hl, list_elem_of_fmap. unfold group_of, wire_RouterGroup. split.
  - intros (g & Hg & <- & G2 & [= <- <- <-]). by exists g.
  - intros (g & [= -> -> -> ->] & Hg). exists g. split_and!; [done|done|by apply Hm|done].
Qed.

Lemma listed_utf8 l v : lists_groups l v -> utf8_view v -> Forall (fun g => json_utf8 (json_of_RouterGroup g) = true) l.
Proof.
  intros (_ & Hm & Hl) (_ & _ & Hu). apply Forall_forall. intros g Hg.
  apply (Hu (RG_Guid g) (RG_Name g, RG_Type g, RG_ReservablePorts g)). apply Hl. exists g. by split_and!; [|split_and!; auto].
Qed.

Lemma client_RouterGroups_wp token s :
  db_inv (sv_db s) -> utf8_view (view (sv_db s)) ->
  wp (client_RouterGroups token) s
    (fun gs s' => shows_groups gs (view (sv_db s)) /\ db_inv (sv_db s') /\ view (sv_db s') = view (sv_db s))
    (fun e s' => e <> None /\ db_inv (sv_db s') /\ view (sv_db s') = view (sv_db s)).
Proof.
  intros Hi Hu. set (cr := createRequest token "ListRouterGroups" [] [] None).
  eapply (wp_do json_of_RouterGroup _ "" cr AListRouterGroups s _ (fun gs => shows_groups gs (view (sv_db s))));
    [reflexivity|by apply ListRouterGroups_reply| |done].
  intros l Hl. change (lists_groups l (view (sv_db s))) in Hl.
  exists (wire_RouterGroup <$> l). split; [|by apply lists_shows].
  apply listed_groups_roundtrip; [|done]. by eapply listed_utf8.
Qed.

Lemma client_RouterGroupWithName_wp token name s :
  db_inv (sv_db s) -> utf8_view (view (sv_db s)) -> name <> "" ->
  wp (client_RouterGroupWithName token name) s
    (fun g s' => RG_Model g = zero_Model /\ RG_Name g = name /\
       v_groups (view (sv_db s)) !! RG_Guid g = Some (name, RG_Type g, RG_ReservablePorts g) /\
       db_inv (sv_db s') /\ view (sv_db s') = view (sv_db s))
    (fun e s' => e <> None /\ db_inv (sv_db s') /\ view (sv_db s') = view (sv_db s)).
Proof.
  intros Hi Hu Hne. set (cr := createRequest token "ListRouterGroups" [] [("name", [name])] None).
  assert (Header_Get (req_Query (wire_request cr)) "name" = name) as Hname by reflexivity.
  unfold client_RouterGroupWithName. apply wp_bind. fold cr. eapply wp_mono.
  - eapply (wp_do json_of_RouterGroup _ "" cr AListRouterGroups s _
      (fun gs => exists g, gs = [g] /\ RG_Model g = zero_Model /\ RG_Name g = name /\
         v_groups (view (sv_db s)) !! RG_Guid g = Some (name, RG_Type g, RG_ReservablePorts g)));
      [reflexivity|by apply ListRouterGroups_reply| |done].
    cbv zeta. rewrite Hname, bool_decide_eq_true_2 by done. intros l (g & -> & Hn & Hl).
    exists [wire_RouterGroup g]. split; [|by exists (wire_RouterGroup g)].
    apply (listed_groups_roundtrip [g]); [|done]. apply Forall_singleton. destruct Hu as (_ & _ & Hu).
    unfold json_of_RouterGroup. rewrite Hn. exact (Hu _ _ Hl).
  - intros gs s' ((g & -> & Hm & Hn & Hl) & Hi' & Hv). apply wp_ret. done.
  - done.
Qed.

(** ** Reserving a port *)

(** A group of the store holds the port. *)
Definition holds v (q : Z) : Prop :=
  exists guid n t p rs r, v_groups v !! guid = Some (n, t, p) /\ Parse p = inr rs /\ r ∈ rs /\ in_range q r.

(** The ports of every group parse. *)
Definition all_parse v : Prop :=
  forall guid n t p, v_groups v !! guid = Some (n, t, p) -> exists rs, Parse p = inr rs.

Lemma shows_lookup gs v g :
  shows_groups gs v -> g ∈ gs -> v_groups v !! RG_Guid g = Some (RG_Name g, RG_Type g, RG_ReservablePorts g).
Proof. intros (_ & Hm & Hs) Hg. apply Hs. specialize (Hm g Hg). destruct g; simpl in *. by subst. Qed.

Lemma shows_parse gs v :
  shows_groups gs v -> all_parse v -> Forall (fun g => exists rs, Parse (RG_ReservablePorts g) = inr rs) gs.
Proof. intros Hs Hv. apply Forall_forall. intros g Hg. eapply Hv. by apply (shows_lookup gs). Qed.

Lemma shows_held gs v q : shows_groups gs v -> (held gs q <-> holds v q).
Proof.
  intros Hs. split.
  - intros (g & rs & r & Hg & HP & Hr & Hq). exists (RG_Guid g), (RG_Name g), (RG_Type g), (RG_ReservablePorts g), rs, r.
    split; [by apply (shows_lookup gs)|done].
  - intros (guid & n & t & p & rs & r & Hl & HP & Hr & Hq). destruct Hs as (_ & _ & Hs). apply Hs in Hl.
    by exists (mkRouterGroup zero_Model guid n t p), rs, r.
Qed.

Lemma valid_digits (s : string) : digits s = true -> valid_utf8 s = true.
Proof.
  induction s as [|c s IH]; [done|]. simpl. intros [Hc Hs]%andb_true_iff. unfold valid_utf8.
  rewrite runes_ascii; [by apply IH|]. unfold is_digit in Hc. apply within_iff in Hc. apply Z.ltb_lt. lia.
Qed.

Lemma valid_Itoa z : 0 <= z -> valid_utf8 (Itoa z) = true.
Proof. intros Hz. unfold Itoa. destruct (Z.ltb_spec z 0); [lia|]. by apply valid_digits, itoa_digits. Qed.

(** The group under [name] got the port, or one was created with it; or the
    lookup by name failed for a group that exists, and nothing changed. *)
Definition reserved (name ports : string) v v' : Prop :=
  (exists guid t p, v_groups v !! guid = Some (name, t, p) /\
     v' = set_groups (<[guid := (name, t, ports)]> (v_groups v)) v) \/
  (exists guid, v' = set_groups (<[guid := (name, RouterGroup_TCP, ports)]> (v_groups v)) v) \/
  (v' = v /\ exists guid p, v_groups v !! guid = Some (name, RouterGroup_TCP, p)).

Lemma save_reservation_wp token name ports s :
  db_inv (sv_db s) -> utf8_view (view (sv_db s)) -> name <> "" -> valid_utf8 name = true -> valid_utf8 ports = true ->
  wp (r ← try (client_RouterGroupWithName token name);
      let existing := match r with inr g => g | inl _ => zero_RouterGroup end in
      if bool_decide (existing <> zero_RouterGroup)
      then client_UpdateRouterGroup token
             (mkRouterGroup (RG_Model existing) (RG_Guid existing) (RG_Name existing) (RG_Type existing) ports)
      else client_CreateRouterGroup token (mkRouterGroup zero_Model "" name RouterGroup_TCP ports)) s
    (fun _ s' => db_inv (sv_db s') /\ reserved name ports (view (sv_db s)) (view (sv_db s')))
    (fun e s' => e <> None /\ view (sv_db s') = view (sv_db s)).
Proof.
  intros Hi Hu Hne Hname Hports.
  assert (forall s1, db_inv (sv_db s1) -> view (sv_db s1) = view (sv_db s) ->
    wp (client_CreateRouterGroup token (mkRouterGroup zero_Model "" name RouterGroup_TCP ports)) s1
      (fun _ s' => db_inv (sv_db s') /\ reserved name ports (view (sv_db s)) (view (sv_db s')))
      (fun e s' => e <> None /\ view (sv_db s') = view (sv_db s))) as Hcreate.
  { intros s1 Hi1 Hv1. eapply wp_mono; [apply client_CreateRouterGroup_wp; [done|]| |].
    - split; [done|]. simpl. by rewrite Hname, Hports.
    - intros _ s' (Hi' & guid & p & Hl & [Hsame|[-> Hv]]); (split; [done|]); rewrite Hv1 in *; unfold reserved.
      + right. right. split; [done|]. exists guid, p. by rewrite Hsame in Hl.
      + right. left. by exists guid.
    - intros e s' [Hn Hv]. by rewrite Hv. }
  apply wp_bind, wp_try. eapply wp_mono; [by apply client_RouterGroupWithName_wp| |].
  2:{ intros [e|] s1 (Hn & Hi1 & Hv1); [|done]. cbv zeta. rewrite bool_decide_eq_false_2 by (by intros ?). by apply Hcreate. }
  intros g s1 (Hm & Hn & Hl & Hi1 & Hv1). cbv zeta. rewrite bool_decide_eq_true_2 by (intros ->; by simpl in Hn).
  eapply wp_mono; [apply client_UpdateRouterGroup_wp; [done|]| |].
  - split; [done|]. destruct Hu as (_ & _ & Hu). pose proof (Hu _ _ Hl) as Hg. simpl in *.
    rewrite !andb_true_iff in *. rewrite Hn. naive_solver.
  - intros _ s' (Hi' & n & t & p & Hl' & Hv'). cbn [RG_Guid RG_ReservablePorts] in *. rewrite Hv1 in *.
    split; [done|]. left. rewrite Hl in Hl'. injection Hl' as <- <- <-. by exists (RG_Guid g), (RG_Type g), (RG_ReservablePorts g).
  - intros e s' [Hne' Hv]. by rewrite Hv.
Qed.

(** What [ReservePort] has when it returns: the lowest free port of the one range
    given, reserved; or it is still searching, and a group holds 65535. *)
Definition port_reserved (name portRange : string) v (res : option Z) (s' : Server D U) : Prop :=
  match res with
  | Some p => exists r, Parse portRange = inr [r] /\ in_range p r /\ ~ holds v p /\
      (forall q, in_range q r -> q < p -> holds v q) /\
      db_inv (sv_db s') /\ reserved name (Itoa p) v (view (sv_db s'))
  | None => holds v 65535 /\ view (sv_db s') = v
  end.

Lemma client_ReservePort_wp fuel token name portRange s :
  db_inv (sv_db s) -> utf8_view (view (sv_db s)) -> name <> "" -> valid_utf8 name = true -> (port_fuel <= fuel)%nat ->
  wp (ReservePort token fuel name portRange) s (port_reserved name portRange (view (sv_db s)))
    (fun e s' => e <> None /\ view (sv_db s') = view (sv_db s)).
Proof.
  intros Hi Hu Hne Hname Hf. unfold ReservePort.
  destruct (Parse portRange) as [err|[|r [|]]] eqn:HP; [by apply wp_fail|by apply Parse_nonempty in HP| |by apply wp_fail].
  assert (wf_Range r) as Hw by (apply Parse_wf in HP; by inversion HP).
  destruct (Endpoints r) as [a b]. destruct (a =? b); [by apply wp_fail|].
  apply wp_bind. eapply wp_mono; [by apply client_RouterGroups_wp| |]; [|naive_solver].
  intros gs s1 (Hgs & Hi1 & Hv1). pose proof (getNextAvailablePort_spec fuel gs r Hf Hw) as Hres.
  destruct (getNextAvailablePort fuel gs r) as [[err|port]|]; [by apply wp_fail| |].
  2:{ apply wp_ret. split; [by apply (shows_held _ _ _ Hgs)|done]. }
  destruct Hres as (p & -> & Hp & Hfree & Hlow). rewrite (shows_held _ _ _ Hgs) in Hfree.
  assert (is_u16 p) as Hp16 by (unfold in_range, wf_Range, is_u16 in *; lia).
  pose proof (save_reservation_wp token name (Itoa p) s1 Hi1) as Hsave. rewrite Hv1 in Hsave.
  specialize (Hsave Hu Hne Hname (valid_Itoa p ltac:(unfold is_u16 in Hp16; lia))).
  apply wp_bind. eapply wp_mono; [exact (wp_bind_inv _ _ _ _ _ Hsave)| |by intros e s2 He2].
  intros res s2 Hres2. apply wp_bind. eapply wp_mono; [exact Hres2| |done].
  intros [] s3 [Hi3 Hr3]. rewrite Atoi_Itoa by done. apply wp_ret. exists r. split_and!; try done.
  intros q Hq Hlt. apply (shows_held _ _ _ Hgs). auto.
Qed.

(** With a group that holds 65535 no number of rounds is enough. *)
Lemma client_ReservePort_endless fuel token name portRange s :
  db_inv (sv_db s) -> utf8_view (view (sv_db s)) -> all_parse (view (sv_db s)) -> holds (view (sv_db s)) 65535 ->
  wp (ReservePort token fuel name portRange) s (fun res s' => res = None /\ view (sv_db s') = view (sv_db s))
    (fun e s' => e <> None /\ view (sv_db s') = view (sv_db s)).
Proof.
  intros Hi Hu Hp Hh. unfold ReservePort.
  destruct (Parse portRange) as [err|[|r [|]]] eqn:HP; [by apply wp_fail|by apply Parse_nonempty in HP| |by apply wp_fail].
  destruct (Endpoints r) as [a b]. destruct (a =? b); [by apply wp_fail|].
  apply wp_bind. eapply wp_mono; [by apply client_RouterGroups_wp| |]; [|naive_solver].
  intros gs s1 (Hgs & Hi1 & Hv1). rewrite getNextAvailablePort_diverges; [by apply wp_ret|by eapply shows_parse|].
  by apply (shows_held _ _ _ Hgs).
Qed.
End ReadBack.
