(* ===== verification/ErrorFlow.v ===== *)
(** ErrorFlow: every error answer of the API carries a JSON error that the
    client decodes again, except two: a 401, which the client does not read, and
    the 404 of deleting a router group, which has no body. *)
From Stdlib Require Import ZArith Lia.
From stdpp Require Import base option strings gmap list.
From S2P Require Import Prelude GoStrings Utf8 RouterGroups Routes Json JsonText JsonTextFacts Wire.
From S2P Require Import Contract Validator Http Handlers HandlerFacts Api ApiClient EndToEnd.

Local Open Scope string_scope.
Local Open Scope list_scope.
Local Open Scope Z_scope.

(** The error has a type, so the client takes it for an error of the API. *)
Definition named (e : ApiError) : Prop := coerce (ApiError_Type e) <> "".

(** *** The validators' errors are named *)
Section Named.
Context `{!NetUrl} {W : Type}.

Lemma requiredValidation_named route e : requiredValidation route = Some e -> named e.
Proof.
  unfold requiredValidation, validateRouteUrl, validateRouteServiceUrl, named.
  repeat case_match; intros; simplify_eq; done.
Qed.

Lemma ValidateDelete_named routes e : ValidateDelete routes = Some e -> named e.
Proof.
  induction routes as [|r routes IH]; simpl; [done|].
  destruct (requiredValidation r) eqn:E; [|apply IH]. intros [= <-]. by eapply requiredValidation_named.
Qed.

(** [m] does not touch its world, and an error it finds is named. *)
Definition finds_named (m : Go W (option ApiError)) : Prop :=
  forall w, final (m w) = w /\ forall e w', m w = Ok (Some e) w' -> named e.

Lemma finds_None : finds_named (mret None).
Proof. by intros w. Qed.

Lemma finds_Some e : named e -> finds_named (mret (Some e)).
Proof. intros He w. split; [done|]. by intros e' w' [= <- _]. Qed.

Lemma ValidateCreate_named routes maxTTL : finds_named (ValidateCreate routes maxTTL).
Proof.
  induction routes as [|r routes IH]; cbn [ValidateCreate]; [apply finds_None|].
  destruct (requiredValidation r) eqn:E; [by eapply finds_Some, requiredValidation_named|].
  destruct (RE_TTL (Route_Entity r)) as [ttl|]; [|by intros w].
  intros w. unfold mbind, Go_bind, deref.
  destruct (maxTTL <? ttl); [by apply finds_Some|]. destruct (ttl <=? 0); [by apply finds_Some|apply IH].
Qed.

(** The errors of the TCP validators are wrapped by their callers. *)
Lemma validateTcp_silent m checkTTL maxTTL (w : W) : final (validateTcpRouteMapping m checkTTL maxTTL w) = w.
Proof.
  unfold validateTcpRouteMapping, mbind, Go_bind, deref, mret, Go_ret. repeat case_match; simplify_eq; done.
Qed.

Lemma ValidateCreateTcp_silent m similar groups maxTTL (w : W) :
  final (ValidateCreateTcpRouteMapping m similar groups maxTTL w) = w.
Proof.
  unfold ValidateCreateTcpRouteMapping. pose proof (validateTcp_silent m true maxTTL w) as Hm.
  unfold mbind, Go_bind. destruct (validateTcpRouteMapping m true maxTTL w) as [[e|] w'|e w'|x w']; simpl in *; try done.
  by case_match.
Qed.

Lemma ValidateDeleteTcp_silent ms (w : W) : final (ValidateDeleteTcpRouteMapping ms w) = w.
Proof.
  revert w. induction ms as [|m ms IH]; intros w; [done|]. cbn [ValidateDeleteTcpRouteMapping].
  pose proof (validateTcp_silent m false 0 w) as Hm. unfold mbind, Go_bind.
  destruct (validateTcpRouteMapping m false 0 w) as [[e|] w'|e w'|x w']; simpl in *; subst; done || apply IH.
Qed.
End Named.

(** ** The shape of an answer *)
Section Answers.
Context {D U : Type} `{!DB D, !Env D, !TokenValidator U, !NetUrl}.
Context (gl : Globals) (maxTTL : Z).
Notation M := (Go (Server D U)).
Implicit Types (s : Server D U).

Definition quiet (w : ResponseWriter) : Prop := rw_sent w = None /\ rw_body w = [].

(** [bare]: a 404 without a body is possible. *)
Definition answered (bare : bool) (w : ResponseWriter) : Prop :=
  quiet w \/ exists code hd, rw_sent w = Some (code, hd) /\
    (code <= 299 \/ code = StatusUnauthorized \/ (exists e, named e /\ rw_body w = [marshalRoutingApiError e]) \/
     (bare = true /\ code = StatusNotFound /\ rw_body w = [])).

Definition answers (bare : bool) (m : M unit) : Prop :=
  forall s, quiet (sv_w s) -> answered bare (sv_w (final (m s))).

(** Calls that leave the response alone. *)
Definition silent {A} (m : M A) : Prop := forall s, sv_w (final (m s)) = sv_w s.

Lemma silent_on_db {A} (m : Go D A) : silent (try (on_db m)).
Proof. intros s. unfold try, on_db, zoom. by destruct (m (sv_db s)). Qed.

Lemma silent_of {A} (m : M A) : (forall s, final (m s) = s) -> silent m.
Proof. intros Hm s. by rewrite Hm. Qed.

Lemma answers_silent {A} bare (m : M A) k : silent m -> (forall a, answers bare (k a)) -> answers bare (m ≫= k).
Proof.
  intros Hm Hk s Hq. specialize (Hm s). unfold mbind, Go_bind.
  destruct (m s) as [a s'|e s'|x s']; simpl in *; [apply Hk|left..]; by rewrite Hm.
Qed.

Lemma answers_finds bare m (k : option ApiError -> M unit) :
  finds_named m -> answers bare (k None) -> (forall e, named e -> answers bare (k (Some e))) -> answers bare (m ≫= k).
Proof.
  intros Hm H0 H1 s Hq. destruct (Hm s) as [Hf He]. unfold mbind, Go_bind.
  destruct (m s) as [[e|] s'|e s'|x s'] eqn:E; simpl in *; subst s'; [|by apply H0|by left..].
  apply H1; [by eapply He|done].
Qed.

Lemma answers_error bare code err : named err -> answers bare (error_response code err).
Proof.
  intros He [d u n [h snt b]] [Hs Hb]. simpl in Hs, Hb. subst. right. exists code, h. split; [done|].
  right; right; left. by exists err.
Qed.

(** Once a success status is out nothing can take it back. *)
Definition keeps_sent (m : M unit) : Prop :=
  forall s x, rw_sent (sv_w s) = Some x -> rw_sent (sv_w (final (m s))) = Some x.

Lemma keeps_sent_bind m (k : unit -> M unit) : keeps_sent m -> (forall u, keeps_sent (k u)) -> keeps_sent (m ≫= k).
Proof.
  intros Hm Hk s x Hs. specialize (Hm s x Hs). unfold mbind, Go_bind.
  destruct (m s) as [u s'|e s'|y s']; simpl in *; [by apply Hk|done..].
Qed.

Lemma keeps_sent_Write b : keeps_sent (Write b).
Proof. intros s x Hs. unfold Write, on_w, modify. simpl. unfold rw_WriteHeader. by rewrite Hs. Qed.

Lemma keeps_sent_SetHeader k v : keeps_sent (SetHeader k v).
Proof. by intros s x Hs. Qed.

Lemma keeps_sent_ret : keeps_sent (mret tt).
Proof. by intros s x Hs. Qed.

Lemma answers_status bare code (k : unit -> M unit) :
  code <= 299 -> (forall u, keeps_sent (k u)) -> answers bare (WriteHeader code ≫= k).
Proof.
  intros Hc Hk s [Hs Hb]. right. exists code, (rw_header (sv_w s)). split; [|by left].
  unfold mbind, Go_bind, WriteHeader, on_w, modify. apply Hk. simpl. unfold rw_WriteHeader. by rewrite Hs.
Qed.

Lemma answers_WriteHeader bare code : code <= 299 -> answers bare (WriteHeader code).
Proof.
  intros Hc. apply (answers_status bare code (fun _ => mret tt) Hc). intros u. apply keeps_sent_ret.
Qed.

(** A header set before the status, or a body written without one. *)
Lemma answers_SetHeader bare k v (c : unit -> M unit) : (forall u, answers bare (c u)) -> answers bare (SetHeader k v ≫= c).
Proof. intros Hc s Hq. unfold mbind, Go_bind, SetHeader, on_w, modify. by apply Hc. Qed.

Lemma answers_Write bare b : answers bare (Write b).
Proof.
  intros s [Hs Hb]. right. exists StatusOK, (rw_header (sv_w s)). split; [|left; done].
  unfold Write, on_w, modify. simpl. unfold rw_WriteHeader. by rewrite Hs.
Qed.

Lemma answers_bare : answers true (_ ← WriteHeader StatusNotFound; SetHeader "Content-Length" "0").
Proof.
  intros [d u n [h snt b]] [Hs Hb]. simpl in Hs, Hb. subst. right. exists StatusNotFound, h. split; [done|].
  by right; right; right.
Qed.

Lemma answers_authorized bare req scope body : answers bare body -> answers bare (authorized req scope body).
Proof.
  intros Hb s Hq. unfold authorized, mbind, Go_bind, ValidateToken.
  destruct (uaa_ValidateToken _ _ _) as [[] u|err u|x u]; [by apply Hb| |by left].
  destruct s as [d u0 n [h snt b]], Hq as [Hs Hbd]. simpl in Hs, Hbd. subst. right. exists StatusUnauthorized, h.
  split; [done|]. by right; left.
Qed.

Create HintDb answersdb.
#[local] Hint Resolve answers_error answers_WriteHeader answers_Write answers_bare silent_on_db
  keeps_sent_bind keeps_sent_Write keeps_sent_SetHeader : answersdb.

(** Walks a handler: silent calls, branches, and its last answer. *)
Ltac answers_step :=
  match goal with
  | |- answers _ (authorized _ _ _) => apply answers_authorized
  | |- answers _ (try _ ≫= _) => apply answers_silent; [apply silent_on_db|intros ?]
  | |- answers _ (WriteHeader StatusNotFound ≫= _) => apply answers_bare
  | |- answers _ (WriteHeader _ ≫= _) => apply answers_status; [done|intros ?]
  | |- answers _ (SetHeader _ _ ≫= _) => apply answers_SetHeader; intros ?
  | |- answers _ (match ?x with _ => _ end) => destruct x
  | |- answers _ _ => solve [apply answers_error; done | apply answers_WriteHeader; done | apply answers_Write | done]
  | |- keeps_sent (_ ≫= _) => apply keeps_sent_bind; [|intros ?]
  | |- keeps_sent _ => solve [apply keeps_sent_Write | apply keeps_sent_SetHeader]
  end.

Lemma save_routes_answers rs : answers false (save_routes rs).
Proof. induction rs; cbn [save_routes]; repeat answers_step. Qed.

Lemma delete_routes_answers rs : answers false (delete_routes rs).
Proof. induction rs; cbn [delete_routes]; repeat answers_step. Qed.

Lemma save_tcp_answers ms : answers false (save_tcp ms).
Proof. induction ms; cbn [save_tcp]; repeat answers_step. Qed.

Lemma delete_tcp_answers ms : answers false (delete_tcp ms).
Proof. induction ms; cbn [delete_tcp]; repeat answers_step. Qed.

Lemma validate_tcp_answers groups ms k : answers false k -> answers false (validate_tcp maxTTL groups ms k).
Proof.
  intros Hk. induction ms as [|m ms IH]; cbn [validate_tcp]; [done|]. cbv zeta. answers_step. answers_step; [answers_step|].
  apply answers_silent; [apply silent_of; intros s; apply ValidateCreateTcp_silent|]. intros r. repeat answers_step.
Qed.

Lemma apiHandler_answers a req :
  answers (match a with ADeleteRouterGroup => true | _ => false end) (apiHandler gl maxTTL a req).
Proof.
  destruct a; cbn [apiHandler].
  - unfold Routes_Upsert. answers_step. answers_step; [answers_step|]. cbv zeta.
    apply answers_finds; [apply ValidateCreate_named|apply save_routes_answers|]. intros e He. by apply answers_error.
  - unfold Routes_Delete. answers_step. answers_step; [answers_step|].
    destruct (ValidateDelete _) as [e|] eqn:E; [|apply delete_routes_answers].
    by eapply answers_error, ValidateDelete_named.
  - unfold Routes_List. repeat answers_step.
  - unfold ListRouterGroups, write_json. answers_step. cbv zeta. repeat answers_step.
  - unfold CreateRouterGroup, writeRouterGroupResponse. cbv zeta. repeat answers_step.
  - unfold UpdateRouterGroup, write_json, addWarningsHeader. cbv zeta. repeat answers_step.
  - unfold DeleteRouterGroup_handler. cbv zeta. repeat answers_step.
  - unfold Tcp_Upsert. cbv zeta. answers_step. answers_step; [answers_step|]. answers_step. answers_step; [answers_step|].
    apply validate_tcp_answers, save_tcp_answers.
  - unfold Tcp_Delete. answers_step. answers_step; [answers_step|].
    apply answers_silent; [apply silent_of; intros s; apply ValidateDeleteTcp_silent|]. intros [e|]; [by apply answers_error|].
    apply delete_tcp_answers.
  - unfold Tcp_List. cbv zeta. repeat answers_step.
Qed.
End Answers.

(** ** What the client gets *)
Section Client.
Context {D U : Type} `{!DB D, !Env D, !TokenValidator U, !NetUrl}.
Context (gl : Globals) (maxTTL : Z).

#[local] Instance error_wire : HttpClient (Server D U) := loopback gl maxTTL.

(** The client's error for an answer of the server. *)
Definition client_error (a : action) (code : Z) (body : list string) (err : error) : Prop :=
  (code = StatusUnauthorized /\ err = api_error (NewError UnauthorizedError "unauthorized")) \/
  (exists e, body = [marshalRoutingApiError e] /\ err = api_error (coerce_error e)) \/
  (a = ADeleteRouterGroup /\ code = StatusNotFound /\ body = [] /\ err = api_error (NewError ResponseError "")).

Lemma transform_decoded code text e :
  then_decode Unmarshal_ApiError (Unmarshal_text text) = inr e -> ApiError_Type e <> "" ->
  transformResponseError (mkResponse code (inr text)) = api_error e.
Proof.
  intros Ht He. unfold transformResponseError, then_decode in *. cbn [res_Body].
  destruct (Unmarshal_text text) as [x|v]; [done|]. rewrite Ht. by rewrite bool_decide_eq_false_2.
Qed.

Lemma transform_marshalled code e :
  named e -> transformResponseError (mkResponse code (inr (marshalRoutingApiError e))) = api_error (coerce_error e).
Proof. intros He. exact (transform_decoded _ _ _ (text_error_roundtrip e) He). Qed.

Lemma transform_empty : transformResponseError (mkResponse StatusNotFound (inr "")) = api_error (NewError ResponseError "").
Proof. vm_compute. reflexivity. Qed.

Lemma do_outcome cr a (s s' : Server D U) :
  action_of (cr_name cr) = Some a -> apiHandler gl maxTTL a (wire_request cr) (new_request s) = Ok tt s' ->
  let code := default StatusOK (rw_status (sv_w s')) in
  if code <=? 299 then do_ cr s = Ok tt s'
  else exists err, do_ cr s = Fail err s' /\ client_error a code (rw_body (sv_w s')) err.
Proof.
  intros Ha Hrun code. pose proof (apiHandler_answers gl maxTTL a (wire_request cr) (new_request s) (conj eq_refl eq_refl)) as Hans.
  rewrite Hrun in Hans. cbn [final] in Hans.
  assert (do_ cr s = if code =? StatusUnauthorized then Fail (api_error (NewError UnauthorizedError "unauthorized")) s'
    else if 299 <? code then Fail (transformResponseError (wire_response (sv_w s'))) s' else Ok tt s') as ->.
  { unfold do_, mbind, Go_bind, call, http_Do, error_wire, loopback. rewrite Ha, Hrun. fold code.
    unfold wire_response. cbn [StatusCode]. fold code. destruct (code =? _); [done|]. by destruct (299 <? code). }
  destruct (Z.leb_spec code 299) as [Hle|Hgt].
  - rewrite (proj2 (Z.eqb_neq _ _)) by (unfold StatusUnauthorized; lia). by rewrite (proj2 (Z.ltb_ge _ _)) by lia.
  - destruct Hans as [[Hs _]|(c & hd & Hs & Hc)].
    { exfalso. subst code. unfold rw_status in Hgt. rewrite Hs in Hgt. by vm_compute in Hgt. }
    assert (code = c) as -> by (subst code; unfold rw_status; by rewrite Hs).
    destruct (Z.eqb_spec c StatusUnauthorized) as [Hu|Hu]; [eexists; split; [done|by left]|].
    rewrite (proj2 (Z.ltb_lt _ _)) by lia. eexists. split; [done|].
    destruct Hc as [Hc|[Hc|[(e & He & Hb)|(Hbare & -> & Hb)]]]; [lia|done|..]; right; unfold wire_response; rewrite Hb.
    + left. exists e. split; [done|]. cbn [concat]. rewrite string_app_nil. by apply transform_marshalled.
    + right. split; [by destruct a|]. split; [done|]. split; [done|]. exact transform_empty.
Qed.
End Client.
