(* ===== verification/Metrics.v ===== *)
(** Metrics: metrics/metrics.go and the subscription gauges of
    handlers/event_stream_handler.go.  The statsd client is the list of calls made to it. *)
From Stdlib Require Import ZArith Lia.
From stdpp Require Import base option strings gmap list.
From S2P Require Import Prelude GoStrings RouterGroups Routes Json EventHub Store Keyed SqlDB SqlDBFacts.
From S2P Require Import SqlTcpFacts Prune Contract.

Local Open Scope string_scope.
Local Open Scope list_scope.
Local Open Scope Z_scope.

Definition TotalHttpSubscriptions := "total_http_subscriptions".
Definition TotalHttpRoutes := "total_http_routes".
Definition TotalTcpSubscriptions := "total_tcp_subscriptions".
Definition TotalTcpRoutes := "total_tcp_routes".
Definition TotalTokenErrors := "total_token_errors".
Definition KeyRefreshEvents := "key_refresh_events".

(** The two calls of [PartialStatsdClient]. *)
Inductive stat := Gauge (name : string) (value : Z) | GaugeDelta (name : string) (value : Z).

Definition getStatsEventType (event : Event) : Z :=
  match Event_Type event with
  | CreateEvent => 1
  | ExpireEvent | DeleteEvent => -1
  | _ => 0
  end.

(** ** The reporter

    [rp_sent] holds the calls in order; failed sends are only logged. *)
Record Reporter (D : Type) := mkReporter {
  rp_db : D;
  rp_tokenErrors : Z;
  rp_keyRefreshes : Z;
  rp_sent : list stat
}.
Arguments mkReporter {_} _ _ _ _.
Arguments rp_db {_} _.
Arguments rp_tokenErrors {_} _.
Arguments rp_keyRefreshes {_} _.
Arguments rp_sent {_} _.

(** What the select of [Run] can receive. *)
Inductive report_input :=
| OnHttpEvent (event : Event)
| OnTcpEvent (event : Event)
| OnTick
| OnSignal
| OnHttpErr (err : option error)
| OnTcpErr (err : option error).

Section Reporter.
Context {D : Type} `{!DB D}.
Notation M := (Go (Reporter D)).

Definition send (c : stat) : M unit :=
  modify (fun r => mkReporter (rp_db r) (rp_tokenErrors r) (rp_keyRefreshes r) (rp_sent r ++ [c])).

Definition reporter_db {A} (m : Go D A) : M A :=
  zoom rp_db (fun d r => mkReporter d (rp_tokenErrors r) (rp_keyRefreshes r) (rp_sent r)) m.

(** The counters; [atomic.AddInt64] wraps around. *)
Definition GetTokenErrors : M Z := rp_tokenErrors <$> get.
Definition GetKeyVerificationRefreshCount : M Z := rp_keyRefreshes <$> get.
Definition IncrementKeyVerificationRefreshCount : M unit :=
  modify (fun r => mkReporter (rp_db r) (rp_tokenErrors r) (i64 (rp_keyRefreshes r + 1)) (rp_sent r)).

(** A failed read counts as no routes. *)
Definition getTotalRoutes : M Z :=
  r ← try (reporter_db db_ReadRoutes);
  mret (match r with inr routes => Z.of_nat (length routes) | inl _ => 0 end).

Definition getTotalTcpRoutes : M Z :=
  r ← try (reporter_db db_ReadTcpRouteMappings);
  mret (match r with inr routes => Z.of_nat (length routes) | inl _ => 0 end).

(** One round of the loop: [Some err] when [Run] returns [err]. *)
Definition reporter_round (i : report_input) : M (option (option error)) :=
  match i with
  | OnHttpEvent event => _ ← send (GaugeDelta TotalHttpRoutes (getStatsEventType event)); mret None
  | OnTcpEvent event => _ ← send (GaugeDelta TotalTcpRoutes (getStatsEventType event)); mret None
  | OnTick =>
      n ← getTotalRoutes;
      _ ← send (Gauge TotalHttpRoutes n);
      _ ← send (GaugeDelta TotalHttpSubscriptions 0);
      m ← getTotalTcpRoutes;
      _ ← send (Gauge TotalTcpRoutes m);
      _ ← send (GaugeDelta TotalTcpSubscriptions 0);
      e ← GetTokenErrors;
      _ ← send (Gauge TotalTokenErrors e);
      k ← GetKeyVerificationRefreshCount;
      _ ← send (Gauge KeyRefreshEvents k);
      mret None
  | OnSignal => mret (Some None)
  | OnHttpErr err | OnTcpErr err => mret (Some err)
  end.

Fixpoint reporter_loop (ins : list report_input) : M (option (option error)) :=
  match ins with
  | [] => mret None
  | i :: ins' =>
      r ← reporter_round i;
      match r with Some err => mret (Some err) | None => reporter_loop ins' end
  end.

(** [Run] after its two [WatchChanges]: [ins] is what the select receives
    from the channels they returned, the ticker and the signals, in order.  A
    closed event channel delivers the zero event. *)
Definition Reporter_Run (ins : list report_input) : M (option (option error)) :=
  _ ← send (Gauge TotalHttpSubscriptions 0);
  _ ← send (Gauge TotalTcpSubscriptions 0);
  reporter_loop ins.
End Reporter.

(** The value of a gauge after a sequence of calls. *)
Fixpoint gauge_value (name : string) (calls : list stat) (v : Z) : Z :=
  match calls with
  | [] => v
  | Gauge n x :: cs => gauge_value name cs (if bool_decide (n = name) then x else v)
  | GaugeDelta n x :: cs => gauge_value name cs (if bool_decide (n = name) then v + x else v)
  end.

Lemma gauge_value_app name a b v : gauge_value name (a ++ b) v = gauge_value name b (gauge_value name a v).
Proof. revert v. induction a as [|[]]; intros v; simpl; auto. Qed.

(** ** The subscription gauge

    [EventStream] and [TcpEventStream]: the deferred decrement runs however
    the stream ends. *)
Definition counted {W A} (name : string) (body : Go W A) : Go (W * list stat) A := fun '(w, calls) =>
  let calls1 := calls ++ [GaugeDelta name 1] in
  let finish w' := (w', calls1 ++ [GaugeDelta name (-1)]) in
  match body w with
  | Ok a w' => Ok a (finish w')
  | Fail e w' => Fail e (finish w')
  | Panic s w' => Panic s (finish w')
  end.

Lemma counted_balanced {W A} name (body : Go W A) w calls n v :
  gauge_value n (snd (final (counted name body (w, calls)))) v = gauge_value n calls v.
Proof.
  unfold counted. destruct (body w); simpl; rewrite !gauge_value_app; simpl;
    case_bool_decide; lia.
Qed.

(** ** The route gauges follow the tables *)
Section Tracking.
Context {S : Type} `{!Env S, !SqlClient S, !SqlLaws S}.
Implicit Types (s : SqlDB S).

Lemma size_insert_delta {K V} `{Countable K} (m : gmap K V) k v :
  Z.of_nat (size (<[k := v]> m)) = Z.of_nat (size m) + match m !! k with Some _ => 0 | None => 1 end.
Proof.
  destruct (m !! k) eqn:E.
  - rewrite map_size_insert_Some by eauto. lia.
  - rewrite map_size_insert_None by done. lia.
Qed.

Lemma size_delete_delta {K V} `{Countable K} (m : gmap K V) k v :
  m !! k = Some v -> Z.of_nat (size (delete k m)) = Z.of_nat (size m) - 1.
Proof.
  intros E. rewrite map_size_delete_Some by eauto.
  assert (size m <> 0%nat); [|lia]. intros ->%map_size_empty_inv. by rewrite lookup_empty in E.
Qed.

Definition emits (evs : list Event) (h : hub Event) : hub Event := foldl (fun h e => hub_Emit e h) h evs.

Definition delta (evs : list Event) : Z := foldr (fun e n => getStatsEventType e + n) 0 evs.

Lemma delta_app a b : delta (a ++ b) = delta a + delta b.
Proof. induction a as [|e a IH]; simpl; [done|]. rewrite IH. lia. Qed.

(** From [s] to [s'] some events were emitted, and their deltas add up to
    the change in the number of routes. *)
Definition tracked (count : SqlDB S -> Z) (hub_of : SqlDB S -> hub Event) (evs : list Event) s s' : Prop :=
  hub_of s' = emits evs (hub_of s) /\ count s' = count s + delta evs.

Lemma tracked_trans count hub_of a b s1 s2 s3 :
  tracked count hub_of a s1 s2 -> tracked count hub_of b s2 s3 -> tracked count hub_of (a ++ b) s1 s3.
Proof.
  intros [H1 C1] [H2 C2]. split; [|rewrite delta_app; lia]. unfold emits in *. by rewrite foldl_app, H2, H1.
Qed.

Definition http_count s : Z := Z.of_nat (length (tb_routes (tabs s))).
Definition tcp_count s : Z := Z.of_nat (length (tb_tcp (tabs s))).

Lemma http_count_map s : route_inv s -> http_count s = Z.of_nat (size (route_map s)).
Proof. intros Hi. unfold http_count, route_map. by rewrite (size_table_map route_key). Qed.

Lemma tcp_count_map s : tcp_inv s -> tcp_count s = Z.of_nat (size (tcp_map s)).
Proof. intros Hi. unfold tcp_count, tcp_map. by rewrite (size_table_map row_key). Qed.

Lemma saved_route_tracked route s s' :
  route_inv s -> saved_route route s s' -> route_inv s' /\ exists evs, tracked http_count httpEventHub evs s s'.
Proof.
  intros Hi (new & t & ttl & g & _ & _ & _ & _ & Hi' & Hm & _ & _ & Hh & _). split; [done|].
  eexists [_]. split; [exact Hh|]. rewrite !http_count_map, Hm, size_insert_delta by done. f_equal.
  by destruct (route_map s !! route_key route).
Qed.

Lemma deleted_route_tracked route s s' :
  route_inv s -> deleted_route route s s' -> route_inv s' /\ exists evs, tracked http_count httpEventHub evs s s'.
Proof.
  intros Hi (e & exp & Hl & Hi' & Hm & _ & _ & Hh & _). split; [done|]. eexists [_]. split; [exact Hh|].
  rewrite !http_count_map, Hm by done. by erewrite size_delete_delta.
Qed.

Lemma saved_tcp_tracked m s s' :
  tcp_inv s -> saved_tcp m s s' -> tcp_inv s' /\ exists evs, tracked tcp_count tcpEventHub evs s s'.
Proof.
  intros Hi (new & t & ttl & g & k & _ & _ & _ & _ & Hi' & [Hk _] & Hm & _ & _ & Hh & _). split; [done|].
  eexists [_]. split; [exact Hh|]. rewrite !tcp_count_map, Hm, size_insert_delta by done. f_equal.
  rewrite (stored_under_old _ _ _ Hk). by destruct (tcp_map s !! (tcp_key m, None)).
Qed.

Lemma deleted_tcp_tracked m s s' :
  tcp_inv s -> deleted_tcp m s s' -> tcp_inv s' /\ exists evs, tracked tcp_count tcpEventHub evs s s'.
Proof.
  intros Hi (e & exp & Hl & Hi' & Hm & _ & _ & Hh & _). split; [done|]. eexists [_]. split; [exact Hh|].
  rewrite !tcp_count_map, Hm by done. by erewrite size_delete_delta.
Qed.

(** *** Pruning *)
Lemma delta_expired {A} (f : A -> Event) (l : list A) :
  (forall a, Event_Type (f a) = ExpireEvent) -> delta (f <$> l) = - Z.of_nat (length l).
Proof.
  intros Hf. induction l as [|a l IH]; [done|]. rewrite fmap_cons.
  change (delta (f a :: (f <$> l))) with (getStatsEventType (f a) + delta (f <$> l)).
  rewrite IH. unfold getStatsEventType. rewrite Hf. simpl length. lia.
Qed.

Lemma emit_all_http (l : list Route) s :
  httpEventHub (emit_all ExpireEvent (to_obj <$> l) s) =
  emits ((fun r => NewEventFromInterface ExpireEvent (ObjRoute r)) <$> l) (httpEventHub s).
Proof. revert s. induction l as [|r l IH]; intros s; [done|]. csimpl. by rewrite IH. Qed.

Lemma emit_all_tcp (l : list TcpRouteMapping) s :
  tcpEventHub (emit_all ExpireEvent (to_obj <$> l) s) =
  emits ((fun r => NewEventFromInterface ExpireEvent (ObjTcp r)) <$> l) (tcpEventHub s).
Proof. revert s. induction l as [|r l IH]; intros s; [done|]. csimpl. by rewrite IH. Qed.

Lemma pruned_rows {R K} `{!Row R, !Expires R} `{Countable K} (key : R -> K) s s' :
  keyed_inv key (tb_get (tabs s)) -> pruned (R:=R) s s' ->
  exists (expired : list R) s1, frame s s1 /\ s' = emit_all ExpireEvent (to_obj <$> expired) s1 /\
    keyed_inv key (tb_get (tabs s')) /\
    (length expired + length (tb_get (R:=R) (tabs s')) = length (tb_get (R:=R) (tabs s)))%nat.
Proof.
  intros Hi (t & expired & l & s1 & _ & He & Hl & Hf & Ht & ->). exists expired, s1.
  destruct (emit_all_tabs ExpireEvent (to_obj <$> expired) s1) as [-> _]. rewrite Ht, tb_get_set.
  split_and!; [done|done| |].
  - eapply keyed_inv_perm; [exact Hl|]. by apply keyed_inv_filter.
  - rewrite He, Hl. apply length_rows_where.
Qed.

Lemma pruned_http_tracked s s' :
  route_inv s -> pruned (R:=Route) s s' -> route_inv s' /\ exists evs, tracked http_count httpEventHub evs s s'.
Proof.
  intros Hi (l & s1 & Hf & -> & Hi' & Hlen)%(pruned_rows route_key); [|done]. split; [done|].
  eexists. split; [rewrite emit_all_http; by rewrite (proj1 (proj2 Hf))|].
  rewrite delta_expired by done. unfold http_count. simpl in Hlen |- *. lia.
Qed.

Lemma pruned_tcp_tracked s s' :
  tcp_inv s -> pruned (R:=TcpRouteMapping) s s' -> tcp_inv s' /\ exists evs, tracked tcp_count tcpEventHub evs s s'.
Proof.
  intros Hi (l & s1 & Hf & -> & Hi' & Hlen)%(pruned_rows row_key); [|done]. split; [done|].
  eexists. split; [rewrite emit_all_tcp; by rewrite (proj1 Hf)|].
  rewrite delta_expired by done. unfold tcp_count. simpl in Hlen |- *. lia.
Qed.

(** *** Sequences of operations

    What writes to a table: saving and deleting routes, and the pruner. *)
Inductive route_op := RSave (route : Route) | RDelete (route : Route) | RPrune.
Inductive tcp_op := TSave (m : TcpRouteMapping) | TDelete (m : TcpRouteMapping) | TPrune.

Definition run_route_op (o : route_op) : Go (SqlDB S) (error + unit) :=
  try (match o with RSave r => SaveRoute r | RDelete r => DeleteRoute r | RPrune => prune_http_routes end).
Definition run_tcp_op (o : tcp_op) : Go (SqlDB S) (error + unit) :=
  try (match o with TSave m => SaveTcpRouteMapping m | TDelete m => DeleteTcpRouteMapping m
       | TPrune => prune_tcp_routes end).

(** A request that passed validation has a TTL. *)
Definition route_op_ok (o : route_op) : Prop :=
  match o with RSave r => RE_TTL (Route_Entity r) <> None | _ => True end.
Definition tcp_op_ok (o : tcp_op) : Prop :=
  match o with TSave m => TM_TTL (Tcp_Entity m) <> None | _ => True end.

Lemma unchanged_http_tracked s s' :
  route_inv s -> unchanged s s' -> route_inv s' /\ exists evs, tracked http_count httpEventHub evs s s'.
Proof.
  intros Hi [(_ & Hh & _) Ht]. unfold route_inv. rewrite Ht. split; [done|].
  exists []. unfold tracked, http_count. rewrite Ht, Hh. simpl. split; [done|lia].
Qed.

Lemma unchanged_tcp_tracked s s' :
  tcp_inv s -> unchanged s s' -> tcp_inv s' /\ exists evs, tracked tcp_count tcpEventHub evs s s'.
Proof.
  intros Hi [(Hh & _ & _) Ht]. unfold tcp_inv. rewrite Ht. split; [done|].
  exists []. unfold tracked, tcp_count. rewrite Ht, Hh. simpl. split; [done|lia].
Qed.

Lemma run_route_op_tracked o s :
  route_op_ok o -> route_inv s ->
  wp (run_route_op o) s (fun _ s' => route_inv s' /\ exists evs, tracked http_count httpEventHub evs s s')
    (fun _ _ => False).
Proof.
  intros Hok Hi. apply wp_try. destruct o as [r|r|]; simpl in *.
  - eapply wp_mono; [by apply SaveRoute_wp| |].
    + intros [] s' H. by eapply saved_route_tracked.
    + intros [e|] s' [H Hn]; [by apply unchanged_http_tracked|tauto].
  - eapply wp_mono; [by apply DeleteRoute_wp| |].
    + intros [] s' H. by eapply deleted_route_tracked.
    + intros [e|] s' (H & Hn & _); [by apply unchanged_http_tracked|done].
  - eapply wp_mono; [exact (prune_pass_wp (R:=Route) route_key s Hi)| |done].
    intros [] s' [[H _]|[H _]]; [by apply unchanged_http_tracked|by apply pruned_http_tracked].
Qed.

Lemma run_tcp_op_tracked o s :
  tcp_op_ok o -> tcp_inv s ->
  wp (run_tcp_op o) s (fun _ s' => tcp_inv s' /\ exists evs, tracked tcp_count tcpEventHub evs s s')
    (fun _ _ => False).
Proof.
  intros Hok Hi. apply wp_try. destruct o as [r|r|]; simpl in *.
  - eapply wp_mono; [by apply SaveTcpRouteMapping_wp| |].
    + intros [] s' H. by eapply saved_tcp_tracked.
    + intros [e|] s' [H Hn]; [by apply unchanged_tcp_tracked|tauto].
  - eapply wp_mono; [by apply DeleteTcpRouteMapping_wp| |].
    + intros [] s' H. by eapply deleted_tcp_tracked.
    + intros [e|] s' (H & Hn & _); [by apply unchanged_tcp_tracked|done].
  - eapply wp_mono; [exact (prune_pass_wp (R:=TcpRouteMapping) row_key s Hi)| |done].
    intros [] s' [[H _]|[H _]]; [by apply unchanged_tcp_tracked|by apply pruned_tcp_tracked].
Qed.

(** A sequence of tracked operations is tracked. *)
Lemma run_all_tracked {O R} (run : O -> Go (SqlDB S) R) (ok : O -> Prop) (inv : SqlDB S -> Prop) count hub_of ops s :
  (forall o s, ok o -> inv s ->
     wp (run o) s (fun _ s' => inv s' /\ exists evs, tracked count hub_of evs s s') (fun _ _ => False)) ->
  Forall ok ops -> inv s ->
  wp (for_each ops (fun o => _ ← run o; mret tt)) s
    (fun _ s' => inv s' /\ exists evs, tracked count hub_of evs s s') (fun _ _ => False).
Proof.
  intros Hrun Hok. revert s. induction Hok as [|o ops Ho Hok IH]; intros s Hi; simpl.
  { apply wp_ret. split; [done|]. exists []. split; [done|]. simpl. lia. }
  apply wp_bind, wp_bind. eapply wp_mono; [by apply Hrun| |done].
  intros r s1 (Hi1 & evs & H1). apply wp_ret. eapply wp_mono; [by apply IH| |done].
  intros [] s2 (Hi2 & evs' & H2). split; [done|]. exists (evs ++ evs'). by eapply tracked_trans.
Qed.
End Tracking.

(** The reporter adds the deltas of the events it receives. *)
Lemma reporter_http_gauge {D} `{!DB D} evs (r : Reporter D) v :
  gauge_value TotalHttpRoutes (rp_sent (final (reporter_loop (OnHttpEvent <$> evs) r))) v =
  gauge_value TotalHttpRoutes (rp_sent r) v + delta evs.
Proof.
  revert r. induction evs as [|e evs IH]; intros r; [simpl; lia|].
  csimpl. unfold mbind, Go_bind, send, modify, mret, Go_ret in *. rewrite IH. simpl.
  rewrite gauge_value_app. simpl. lia.
Qed.

Lemma reporter_tcp_gauge {D} `{!DB D} evs (r : Reporter D) v :
  gauge_value TotalTcpRoutes (rp_sent (final (reporter_loop (OnTcpEvent <$> evs) r))) v =
  gauge_value TotalTcpRoutes (rp_sent r) v + delta evs.
Proof.
  revert r. induction evs as [|e evs IH]; intros r; [simpl; lia|].
  csimpl. unfold mbind, Go_bind, send, modify, mret, Go_ret in *. rewrite IH. simpl.
  rewrite gauge_value_app. simpl. lia.
Qed.
