(* ===== verification/Main.v ===== *)
(** Main: cmd/routing-api/main.go and helpers/helpers.go: the processes the
    server starts and in which order, the seeding of the router groups, and the
    registration of the server's own route. *)
From Stdlib Require Import ZArith Lia.
From stdpp Require Import base option strings gmap list.
From S2P Require Import Prelude GoStrings RouterGroups Routes Json SqlDB SqlDBFacts SqlGroupFacts Contract.
From S2P Require Import HandlerFacts GroupApi.

Local Open Scope string_scope.
Local Open Scope list_scope.
Local Open Scope Z_scope.

(** ** Flags and configuration *)
Definition checkFlags (configPath ip : string) : option error :=
  if bool_decide (configPath = "") then Some (errors_New "no configuration file provided")
  else if bool_decide (ip = "") then Some (errors_New "no ip address provided")
  else None.

Definition isSql (host : string) (port : Z) (schema : string) : bool :=
  bool_decide (host <> "") && (0 <? port) && bool_decide (schema <> "").

(** ** The process group: started in order, stopped in reverse order. *)
Definition members (httpEnabled sql : bool) : list string :=
  ["lock-acquirer"; "migration"; "seed-router-groups"] ++
  (if httpEnabled then ["api-server"; "route-register"] else []) ++
  ["api-mtls-server"] ++
  ["admin-server"; "conn-stopper"; "metrics"] ++
  (if sql then ["sql-route-pruner"] else []) ++
  ["lock-releaser"].

(** [x] starts before [y]. *)
Definition before (x y : string) (l : list string) : bool :=
  match list_find (eq x) l, list_find (eq y) l with
  | Some (i, _), Some (j, _) => (i <? j)%nat
  | _, _ => false
  end.

(** What the select of [RouteRegister.Run] can receive. *)
Inductive register_input := RTick | RSignal.

#[export] Instance register_input_eq_dec : EqDecision register_input.
Proof. solve_decision. Defined.

(** ** Seeding *)
Section Seed.
Context {D : Type} `{!DB D, !Env D}.

Definition with_new_guid (rg : RouterGroup) (guid : string) : RouterGroup :=
  mkRouterGroup (RG_Model rg) guid (RG_Name rg) (RG_Type rg) (RG_ReservablePorts rg).

Fixpoint seed_loop (groups : list RouterGroup) : Go D unit :=
  match groups with
  | [] => mret tt
  | rg :: groups' =>
      guid ← new_uuid;
      _ ← db_SaveRouterGroup (with_new_guid rg guid);
      seed_loop groups'
  end.

(** The error of the read is dropped: a failed read looks like an empty
    table. *)
Definition seedRouterGroups (configured : list RouterGroup) : Go D unit :=
  if bool_decide (configured = []) then mret tt
  else
    r ← try db_ReadRouterGroups;
    let routerGroups := match r with inr l => l | inl _ => [] end in
    if bool_decide (routerGroups = []) then seed_loop configured else mret tt.

(** *** The route register (helpers/helpers.go) *)

Fixpoint register_loop (route : Route) (ins : list register_input) : Go D unit :=
  match ins with
  | [] => mret tt
  | RTick :: ins' => _ ← try (db_SaveRoute route); register_loop route ins'
  | RSignal :: _ => db_DeleteRoute route
  end.

Definition RouteRegister_Run (route : Route) (ins : list register_input) : Go D unit :=
  r ← try (db_SaveRoute route);
  match r with
  | inl err => fail (errors_New ("registration error: " +:+ Error_string err))
  | inr _ => register_loop route ins
  end.
End Seed.

(** [int(d.Seconds())]. *)
Definition int_Seconds (d : Z) : Z := Z.quot d Second.

(** The route and the tick interval; [time.NewTicker] panics on an interval
    that is not positive. *)
Definition constructRouteRegister {W} (port : Z) (ip logGuid systemDomain : string) (maxTTL : Z)
    : Go W (Route * Z) :=
  let host := "api." +:+ systemDomain +:+ "/routing" in
  let route := NewRoute host port ip logGuid "" (int_Seconds maxTTL) in
  let registerInterval := Z.quot (int_Seconds maxTTL) 2 in
  let interval := i64 (registerInterval * Second) in
  if interval <=? 0 then panic "non-positive interval for NewTicker" else mret (route, interval).

(** ** Facts *)
Section Facts.
Context {D : Type} `{!DB D, !Env D, !DBContract D}.
Implicit Types (d : D).

(** Seeding stores configured groups only. *)
Definition seeded (groups : list RouterGroup) (v v' : View) : Prop :=
  v_routes v' = v_routes v /\ v_tcp v' = v_tcp v /\ v_locks v' = v_locks v /\
  forall guid x, v_groups v' !! guid = Some x ->
    v_groups v !! guid = Some x \/
    exists g, g ∈ groups /\ x = (RG_Name g, RG_Type g, RG_ReservablePorts g).

Lemma seeded_refl groups v : seeded groups v v.
Proof. unfold seeded. auto. Qed.

Lemma seed_loop_wp gl groups d :
  db_inv d -> Forall (fun g => valid_group gl g /\ RG_Model g = zero_Model) groups ->
  wp (seed_loop groups) d (fun _ d' => db_inv d' /\ seeded groups (view d) (view d'))
    (fun e d' => db_inv d' /\ seeded groups (view d) (view d') /\ e <> None).
Proof.
  intros Hi Hg. revert d Hi. induction Hg as [|g gs [Hval Hmod] Hgs IH]; intros d Hi; simpl.
  { apply wp_ret. split; [done|]. apply seeded_refl. }
  apply wp_bind. eapply wp_mono; [by apply new_uuid_wp| |].
  2:{ intros e d' (Hi' & -> & Hn). split; [done|]. split; [apply seeded_refl|done]. }
  intros guid d1 (Hne & Hi1 & Hv1). apply wp_bind. eapply wp_mono; [apply c_SaveRouterGroup; [done|done|]| |].
  { left. simpl. by rewrite Hmod. }
  2:{ intros e d' (Hi' & Hv & Hn). rewrite Hv, Hv1. split; [done|]. split; [apply seeded_refl|done]. }
  intros _ d2 (Hi2 & _ & Hv2).
  assert (forall v', seeded gs (view d2) v' -> seeded (g :: gs) (view d) v') as Hstep.
  { intros v' (H1 & H2 & H3 & H4). rewrite Hv2, Hv1 in *. split_and!; try done.
    intros k x Hx. destruct (H4 k x Hx) as [Hl|(g' & Hg' & ->)]; [|right; exists g'; set_solver].
    simpl in Hl. apply lookup_insert_Some in Hl as [[_ <-]|[_ Hl]]; [right|by left].
    exists g. split; [set_solver|]. by rewrite (upsert_valid gl). }
  eapply wp_mono; [by apply IH| |]; naive_solver.
Qed.

(** Seeding leaves a store with groups alone. *)
Lemma seed_nonempty configured d guid x :
  db_inv d -> v_groups (view d) !! guid = Some x -> isReadLocked (v_locks (view d)) = false ->
  (forall e d', db_ReadRouterGroups d <> Fail e d') ->
  exists d', seedRouterGroups configured d = Ok tt d' /\ view d' = view d.
Proof.
  intros Hi Hx Hl Hok. unfold seedRouterGroups. case_bool_decide; [by exists d|].
  pose proof (c_ReadRouterGroups d Hi) as Hr. unfold wp, mbind, Go_bind, try in *.
  destruct (db_ReadRouterGroups d) as [l d'|e d'|m d'] eqn:E; [|by destruct (Hok e d')|naive_solver].
  destruct Hr as (_ & Hv & _ & (_ & _ & Hg)). rewrite bool_decide_eq_false_2; [by exists d'|].
  intros ->. apply Hg in Hx as (g & Hin & _). set_solver.
Qed.

(** The registered route is present as long as the loop runs, whatever
    refreshes fail, and gone after a clean stop. *)
Lemma register_loop_wp route ins d :
  db_inv d -> RE_TTL (Route_Entity route) <> None -> is_Some (v_routes (view d) !! route_key route) ->
  wp (register_loop route ins) d
    (fun _ d' => db_inv d' /\
       if bool_decide (RSignal ∈ ins) then v_routes (view d') !! route_key route = None
       else is_Some (v_routes (view d') !! route_key route))
    (fun e d' => db_inv d' /\ RSignal ∈ ins /\ is_Some (v_routes (view d') !! route_key route) /\ e <> None).
Proof.
  intros Hi Httl. revert d Hi. induction ins as [|[|] ins IH]; intros d Hi Hs; cbn [register_loop].
  - apply wp_ret. rewrite bool_decide_eq_false_2 by set_solver. done.
  - apply wp_bind, wp_try. assert (forall d', db_inv d' -> is_Some (v_routes (view d') !! route_key route) ->
      wp (register_loop route ins) d'
        (fun _ d' => db_inv d' /\
           if bool_decide (RSignal ∈ RTick :: ins) then v_routes (view d') !! route_key route = None
           else is_Some (v_routes (view d') !! route_key route))
        (fun e d' => db_inv d' /\ RSignal ∈ RTick :: ins /\
           is_Some (v_routes (view d') !! route_key route) /\ e <> None)) as Hgo.
    { intros d' Hi' Hs'. eapply wp_mono; [by apply IH| |].
      - intros _ d2 [H1 H2]. split; [done|].
        rewrite (bool_decide_ext _ (RSignal ∈ ins)) by (rewrite elem_of_cons; naive_solver). done.
      - intros e d2 (H1 & H2 & H3). split_and!; try apply H3; [done|set_solver]. }
    eapply wp_mono; [by apply c_SaveRoute| |].
    + intros _ d' (Hi' & tag & exp & Hv). apply Hgo; [done|]. rewrite Hv. simpl.
      rewrite lookup_insert_eq. eauto.
    + intros [e|] d' (Hi' & Hv & Hn); [|naive_solver]. apply Hgo; [done|]. by rewrite Hv.
  - eapply wp_mono; [by apply c_DeleteRoute| |].
    + intros _ d' (Hi' & _ & Hv). split; [done|]. rewrite bool_decide_eq_true_2 by set_solver.
      rewrite Hv. apply lookup_delete_eq.
    + intros e d' (Hi' & Hv & Hn & _). split_and!; [done|set_solver|by rewrite Hv|done].
Qed.
End Facts.

(** The own route is refreshed before it expires: two intervals fit in the
    TTL.  A maximum TTL below two seconds cannot be registered. *)
Lemma constructRouteRegister_ok {W} port ip logGuid domain maxTTL (w : W) :
  2 * Second <= maxTTL <= 9223372036854775807 ->
  exists route interval, constructRouteRegister port ip logGuid domain maxTTL w = Ok (route, interval) w /\
    RE_TTL (Route_Entity route) = Some (int_Seconds maxTTL) /\
    0 < interval /\ 2 * interval <= int_Seconds maxTTL * Second <= maxTTL.
Proof.
  intros Hm. unfold constructRouteRegister, int_Seconds, Second in *.
  pose proof (Z.quot_div_nonneg maxTTL 1000000000 ltac:(lia) ltac:(lia)) as E. rewrite E.
  set (n := maxTTL / 1000000000) in *.
  assert (2 <= n <= 9223372036) as Hn.
  { unfold n. split; [apply Z.div_le_lower_bound; lia|].
    apply Z.lt_succ_r, Z.div_lt_upper_bound; lia. }
  assert (n * 1000000000 <= maxTTL) as Hle by (unfold n; pose proof (Z.mul_div_le maxTTL 1000000000); lia).
  rewrite (Z.quot_div_nonneg n 2) by lia.
  pose proof (Z.div_mod n 2 ltac:(lia)). pose proof (Z.mod_pos_bound n 2 ltac:(lia)).
  rewrite i64_id by (unfold is_i64; lia).
  rewrite (proj2 (Z.leb_gt _ _)) by lia. eexists _, _. split; [reflexivity|]. simpl. split; [done|]. lia.
Qed.

Lemma constructRouteRegister_short {W} port ip logGuid domain maxTTL (w : W) :
  0 <= maxTTL < 2 * Second -> panics (constructRouteRegister port ip logGuid domain maxTTL w) = true.
Proof.
  intros Hm. unfold constructRouteRegister, int_Seconds, Second in *.
  rewrite (Z.quot_div_nonneg maxTTL 1000000000) by lia.
  assert (0 <= maxTTL / 1000000000 < 2) as Hn.
  { split; [apply Z.div_pos; lia|apply Z.div_lt_upper_bound; lia]. }
  rewrite (Z.quot_div_nonneg _ 2) by lia. rewrite (Z.div_small _ 2) by lia. done.
Qed.
