(* ===== verification/Process.v ===== *)
(** Process: the process group of the server.  [grouper.NewOrdered]
    (vendor/github.com/tedsuo/ifrit/grouper/ordered.go) as a transition system:
    the members run on their own (become ready, exit), and the group reacts to
    one of the things its select can see.  The members are those of
    cmd/routing-api/main.go. *)
From Stdlib Require Import ZArith Lia.
From stdpp Require Import base option strings list relations.
From S2P Require Import Prelude Main.

Local Open Scope string_scope.
Local Open Scope list_scope.

Inductive os_signal := Interrupt | Terminate.

#[export] Instance os_signal_eq_dec : EqDecision os_signal.
Proof. solve_decision. Defined.

(** A started member: whether it closed [ready], the signals sent to it, and
    what its [Run] returned. *)
Record proc := mkProc {
  p_ready : bool;
  p_signals : list os_signal;
  p_exit : option (option error)
}.

Definition new_proc : proc := mkProc false [] None.

(** Where the group's [Run] is.  [Stopping k]: the members from [k] on are
    handled; [sent]: member [k - 1] was signalled and is waited for. *)
Inductive phase :=
| Starting (i : nat)
| Waiting
| Stopping (k : nat) (sig : os_signal) (exited : list nat) (errOccurred sent : bool)
| Finished (errOccurred : bool).

Record group := mkGroup { g_phase : phase; g_pool : list proc }.

Definition failed (err : option error) : bool := match err with Some _ => true | None => false end.

Definition set_ready (p : proc) : proc := mkProc true (p_signals p) (p_exit p).
Definition set_exit (err : option error) (p : proc) : proc := mkProc (p_ready p) (p_signals p) (Some err).
Definition send_signal (sig : os_signal) (p : proc) : proc := mkProc (p_ready p) (p_signals p ++ [sig]) (p_exit p).

Definition orderedGroup : group := mkGroup (Starting 0) [new_proc].

(** [n] is the number of members. *)
Inductive group_step (n : nat) : group -> group -> Prop :=
(* the members *)
| member_ready ph pool i p :
    pool !! i = Some p -> p_exit p = None -> p_ready p = false ->
    group_step n (mkGroup ph pool) (mkGroup ph (<[i := set_ready p]> pool))
| member_exit ph pool i p err :
    pool !! i = Some p -> p_exit p = None ->
    group_step n (mkGroup ph pool) (mkGroup ph (<[i := set_exit err p]> pool))
(* orderedStart *)
| start_next pool i p :
    pool !! i = Some p -> p_ready p = true -> (S i < n)%nat ->
    group_step n (mkGroup (Starting i) pool) (mkGroup (Starting (S i)) (pool ++ [new_proc]))
| start_done pool i p :
    pool !! i = Some p -> p_ready p = true -> (n <= S i)%nat ->
    group_step n (mkGroup (Starting i) pool) (mkGroup Waiting pool)
| start_exit pool i j p err :
    pool !! j = Some p -> p_exit p = Some err ->
    group_step n (mkGroup (Starting i) pool) (mkGroup (Stopping (length pool) Interrupt [j] (failed err) false) pool)
| start_signal pool i sig :
    group_step n (mkGroup (Starting i) pool) (mkGroup (Stopping (length pool) sig [] false false) pool)
(* waitForSignal *)
| wait_exit pool j p err :
    pool !! j = Some p -> p_exit p = Some err ->
    group_step n (mkGroup Waiting pool) (mkGroup (Stopping (length pool) Interrupt [j] (failed err) false) pool)
| wait_signal pool sig :
    group_step n (mkGroup Waiting pool) (mkGroup (Stopping (length pool) sig [] false false) pool)
(* stop *)
| stop_skip pool k sig ex f :
    k ∈ ex ->
    group_step n (mkGroup (Stopping (S k) sig ex f false) pool) (mkGroup (Stopping k sig ex f false) pool)
| stop_send pool k sig ex f p :
    k ∉ ex -> pool !! k = Some p ->
    group_step n (mkGroup (Stopping (S k) sig ex f false) pool)
      (mkGroup (Stopping (S k) sig ex f true) (<[k := send_signal sig p]> pool))
| stop_exited pool k sig ex f p err :
    pool !! k = Some p -> p_exit p = Some err ->
    group_step n (mkGroup (Stopping (S k) sig ex f true) pool) (mkGroup (Stopping k sig ex (f || failed err) false) pool)
| stop_signal pool k sig ex f p sig' :
    pool !! k = Some p -> sig' <> sig ->
    group_step n (mkGroup (Stopping (S k) sig ex f true) pool)
      (mkGroup (Stopping (S k) sig' ex f true) (<[k := send_signal sig' p]> pool))
| stop_done pool sig ex f :
    group_step n (mkGroup (Stopping 0 sig ex f false) pool) (mkGroup (Finished f) pool).

Definition exited (pool : list proc) (j : nat) : Prop := exists p, pool !! j = Some p /\ is_Some (p_exit p).
Definition signalled (pool : list proc) (j : nat) : Prop := exists p, pool !! j = Some p /\ p_signals p <> [].
Definition ready (pool : list proc) (j : nat) : Prop := exists p, pool !! j = Some p /\ p_ready p = true.

(** *** Updates of the pool *)
Section Updates.
Implicit Types (pool : list proc).

Lemma exited_insert pool i p q j :
  pool !! i = Some p -> (is_Some (p_exit p) -> is_Some (p_exit q)) -> exited pool j -> exited (<[i := q]> pool) j.
Proof.
  intros Hi Hq (r & Hr & Hx). destruct (decide (i = j)) as [->|Hne].
  - exists q. rewrite Hi in Hr. injection Hr as ->. split; [|auto]. apply list_lookup_insert_eq. by eapply lookup_lt_Some.
  - exists r. by rewrite list_lookup_insert_ne.
Qed.

Lemma ready_insert pool i p q j :
  pool !! i = Some p -> (p_ready p = true -> p_ready q = true) -> ready pool j -> ready (<[i := q]> pool) j.
Proof.
  intros Hi Hq (r & Hr & Hx). destruct (decide (i = j)) as [->|Hne].
  - exists q. rewrite Hi in Hr. injection Hr as ->. split; [|auto]. apply list_lookup_insert_eq. by eapply lookup_lt_Some.
  - exists r. by rewrite list_lookup_insert_ne.
Qed.

Lemma ready_app pool q j : ready pool j -> ready (pool ++ [q]) j.
Proof. intros (r & Hr & Hx). exists r. split; [by apply lookup_app_l_Some|done]. Qed.
End Updates.

(** ** The invariant *)

(** Every member but the newest has become ready. *)
Definition started_in_order (pool : list proc) : Prop := forall j, (S j < length pool)%nat -> ready pool j.

(** The members from [k] on have exited, and nobody below was signalled. *)
Definition stopped_from (k : nat) (pool : list proc) : Prop :=
  (forall j, (k <= j < length pool)%nat -> exited pool j) /\ (forall j, (j < k)%nat -> ~ signalled pool j).

Definition group_inv (n : nat) (g : group) : Prop :=
  let pool := g_pool g in
  started_in_order pool /\
  match g_phase g with
  | Starting i => length pool = S i /\ (i < n)%nat /\ forall j, ~ signalled pool j
  | Waiting => length pool = n /\ ready pool (pred n) /\ forall j, ~ signalled pool j
  | Stopping k sig ex f sent =>
      (k <= length pool)%nat /\ (forall j, j ∈ ex -> exited pool j) /\ length pool <= n /\
      (if sent then (0 < k)%nat /\ (forall j, (k <= j < length pool)%nat -> exited pool j) /\
                    forall j, (S j < k)%nat -> ~ signalled pool j
       else stopped_from k pool)
  | Finished _ => forall j, (j < length pool)%nat -> exited pool j
  end.

(** A member's own step: readiness and exit only grow, signals stay. *)
Lemma member_update n ph pool i p q :
  pool !! i = Some p -> (p_ready p = true -> p_ready q = true) -> (is_Some (p_exit p) -> is_Some (p_exit q)) ->
  p_signals q = p_signals p ->
  group_inv n (mkGroup ph pool) -> group_inv n (mkGroup ph (<[i := q]> pool)).
Proof.
  intros Hi Hr Hx Hs [Hord Hph]. unfold group_inv in *. cbn [g_pool g_phase] in *.
  assert (forall j, signalled (<[i := q]> pool) j -> signalled pool j) as Hsig.
  { intros j Hj. destruct (decide (i = j)) as [->|Hne].
    - exists p. split; [done|]. destruct Hj as (r & Hr' & Hne'). rewrite list_lookup_insert_eq in Hr'
        by (by eapply lookup_lt_Some). injection Hr' as <-. by rewrite <- Hs.
    - destruct Hj as (r & Hr' & Hne'). rewrite list_lookup_insert_ne in Hr' by done. by exists r. }
  assert (forall j, exited pool j -> exited (<[i := q]> pool) j) as Hexit by (intros; by eapply exited_insert).
  assert (forall j, ready pool j -> ready (<[i := q]> pool) j) as Hready by (intros; by eapply ready_insert).
  rewrite length_insert. split; [intros j; rewrite length_insert; auto|].
  destruct ph as [k| |k sig ex f [|]|f].
  - naive_solver.
  - naive_solver.
  - destruct Hph as (H1 & H2 & H3 & H4 & H5 & H6). split_and!; eauto.
    intros j Hj Hs'. by eapply H6, Hsig.
  - destruct Hph as (H1 & H2 & H3 & H4 & H5). split_and!; eauto.
    split; [rewrite length_insert; auto|]. intros j Hj Hs'. by eapply H5, Hsig.
  - auto.
Qed.

Lemma new_unsignalled pool : (forall j, ~ signalled pool j) -> forall j, ~ signalled (pool ++ [new_proc]) j.
Proof.
  intros H j (r & Hr & Hne). apply lookup_app_Some in Hr as [Hr|[_ Hr]]; [by apply (H j); exists r|].
  apply list_lookup_singleton_Some in Hr as [_ <-]. done.
Qed.

(** Sending to the member in turn leaves the ones below without a signal. *)
Lemma send_keeps pool k sig p :
  pool !! k = Some p ->
  (forall j, exited pool j -> exited (<[k := send_signal sig p]> pool) j) /\
  (forall j, ready pool j -> ready (<[k := send_signal sig p]> pool) j) /\
  (forall j, j <> k -> signalled (<[k := send_signal sig p]> pool) j -> signalled pool j).
Proof.
  intros Hk. split_and!.
  - intros j. by apply (exited_insert pool k p).
  - intros j. by apply (ready_insert pool k p).
  - intros j Hne (r & Hr & Hs). rewrite list_lookup_insert_ne in Hr by done. by exists r.
Qed.

Lemma group_inv_step n g g' : group_inv n g -> group_step n g g' -> group_inv n g'.
Proof.
  intros Hi Hs. destruct Hs as [ph pool i p Hl Hx Hr|ph pool i p err Hl Hx|pool i p Hl Hr Hn|pool i p Hl Hr Hn
    |pool i j p err Hl Hx|pool i sig|pool j p err Hl Hx|pool sig|pool k sig ex f Hin|pool k sig ex f p Hnin Hl
    |pool k sig ex f p err Hl Hx|pool k sig ex f p sig' Hl Hne|pool sig ex f].
  1: by eapply member_update.
  1: { eapply member_update; [exact Hl|done| |done|done]. intros _. simpl. eauto. }
  all: unfold group_inv in *; cbn [g_pool g_phase] in *; destruct Hi as [Hord Hph].
  - destruct Hph as (Hlen & Hi & Hsig). split; [|rewrite length_app; simpl; split_and!; [lia|lia|by apply new_unsignalled]].
    intros j Hj. rewrite length_app in Hj. simpl in Hj. apply ready_app.
    destruct (decide (j = i)) as [->|]; [by exists p|]. apply Hord. lia.
  - destruct Hph as (Hlen & Hi & Hsig). split; [done|]. assert (n = S i) as -> by lia. split_and!; [done| |done].
    by exists p.
  - destruct Hph as (Hlen & Hi & Hsig). split; [done|]. split_and!; [done| |lia|].
    + intros x ->%list_elem_of_singleton. exists p. eauto.
    + split; [intros x; lia|auto].
  - destruct Hph as (Hlen & Hi & Hsig). split; [done|]. split_and!; [done|set_solver|lia|]. split; [intros x; lia|auto].
  - destruct Hph as (Hlen & Hr & Hsig). split; [done|]. split_and!; [done| |lia|].
    + intros x ->%list_elem_of_singleton. exists p. eauto.
    + split; [intros x; lia|auto].
  - destruct Hph as (Hlen & Hr & Hsig). split; [done|]. split_and!; [done|set_solver|lia|]. split; [intros x; lia|auto].
  - destruct Hph as (H1 & H2 & H3 & H4 & H5). split; [done|]. split_and!; [lia|done|done|]. split; [|intros x Hx; apply H5; lia].
    intros x Hx. destruct (decide (x = k)) as [->|]; [by apply H2|apply H4; lia].
  - destruct Hph as (H1 & H2 & H3 & H4 & H5). destruct (send_keeps pool k sig p Hl) as (S1 & S2 & S3).
    rewrite length_insert. split; [intros j; rewrite length_insert; auto|]. split_and!; [lia|auto|done|lia|auto|].
    intros j Hj Hs'. apply (H5 j); [lia|]. apply S3; [lia|done].
  - destruct Hph as (H1 & H2 & H3 & H4 & H5 & H6). split; [done|]. split_and!; [lia|done|done|].
    split; [|intros j Hj; apply H6; lia]. intros j Hj. destruct (decide (j = k)) as [->|]; [exists p; eauto|apply H5; lia].
  - destruct Hph as (H1 & H2 & H3 & H4 & H5 & H6). destruct (send_keeps pool k sig' p Hl) as (S1 & S2 & S3).
    rewrite length_insert. split; [intros j; rewrite length_insert; auto|]. split_and!; [lia|auto|done|lia|auto|].
    intros j Hj Hs'. apply (H6 j); [lia|]. apply S3; [lia|done].
  - destruct Hph as (_ & _ & _ & H4 & _). split; [done|]. intros j Hj. apply H4. lia.
Qed.

Lemma group_inv_init n : (0 < n)%nat -> group_inv n orderedGroup.
Proof.
  intros Hn. split; [intros j; simpl; lia|]. simpl. split_and!; [done|done|].
  intros j (r & Hr & Hs). apply list_lookup_singleton_Some in Hr as [_ <-]. done.
Qed.

Lemma group_inv_reach n g : (0 < n)%nat -> rtc (group_step n) orderedGroup g -> group_inv n g.
Proof.
  intros Hn Hr. assert (forall a b, rtc (group_step n) a b -> group_inv n a -> group_inv n b) as H.
  { intros a b Hab. induction Hab; eauto using group_inv_step. }
  by eapply H, group_inv_init.
Qed.

(** A signal reaches a member only when all members started after it have
    exited. *)
Lemma signalled_last n g i j :
  group_inv n g -> signalled (g_pool g) i -> (i < j < length (g_pool g))%nat -> exited (g_pool g) j.
Proof.
  intros [_ Hph] Hs Hj. destruct (g_phase g) as [k| |k sig ex f [|]|f]; [naive_solver..| | |auto with lia].
  - destruct Hph as (H1 & _ & _ & H4 & H5 & H6). destruct (decide (k <= j)%nat); [apply H5; lia|].
    exfalso. apply (H6 i); [lia|done].
  - destruct Hph as (H1 & _ & _ & H4 & H5). destruct (decide (k <= j)%nat); [apply H4; lia|].
    exfalso. apply (H5 i); [lia|done].
Qed.

(** *** Stopping ends *)

(** Once all members have exited, the group finishes by itself. *)
Lemma stop_finishes n k sig ex f sent pool :
  (k <= length pool)%nat -> (sent = true -> (0 < k)%nat) -> (forall j, (j < length pool)%nat -> exited pool j) ->
  exists f' pool', rtc (group_step n) (mkGroup (Stopping k sig ex f sent) pool) (mkGroup (Finished f') pool') /\
    (f = true -> f' = true).
Proof.
  revert f sent pool. induction k as [|k IH]; intros f sent pool Hk Hs Hall.
  - destruct sent; [specialize (Hs eq_refl); lia|]. exists f, pool. split; [|done]. eapply rtc_l; [apply stop_done|apply rtc_refl].
  - assert (forall pool f, (S k <= length pool)%nat -> (forall j, (j < length pool)%nat -> exited pool j) ->
      exists f' pool', rtc (group_step n) (mkGroup (Stopping (S k) sig ex f true) pool) (mkGroup (Finished f') pool') /\
        (f = true -> f' = true)) as Hsent.
    { intros pool1 f1 Hk1 Hall1. destruct (Hall1 k ltac:(lia)) as (p & Hp & err & Herr).
      destruct (IH (f1 || failed err) false pool1 ltac:(lia) ltac:(done) Hall1) as (f' & pool' & Hr & Hf).
      exists f', pool'. split; [|intros ->; auto]. eapply rtc_l; [by eapply stop_exited|done]. }
    destruct sent; [by apply Hsent|]. destruct (decide (k ∈ ex)) as [Hin|Hnin].
    + destruct (IH f false pool ltac:(lia) ltac:(done) Hall) as (f' & pool' & Hr & Hf).
      exists f', pool'. split; [|done]. eapply rtc_l; [by apply stop_skip|done].
    + destruct (Hall k ltac:(lia)) as (p & Hp & Hx). destruct (send_keeps pool k sig p Hp) as (S1 & _ & _).
      destruct (Hsent (<[k := send_signal sig p]> pool) f) as (f' & pool' & Hr & Hf);
        [by rewrite length_insert|intros j Hj; rewrite length_insert in Hj; auto|].
      exists f', pool'. split; [|done]. eapply rtc_l; [by apply stop_send|done].
Qed.

(** ** The members of the server *)
Definition started_member (ms : list string) (g : group) (x : string) : Prop :=
  exists i, ms !! i = Some x /\ (i < length (g_pool g))%nat.
Definition ready_member (ms : list string) (g : group) (x : string) : Prop :=
  exists i, ms !! i = Some x /\ ready (g_pool g) i.
Definition signalled_member (ms : list string) (g : group) (x : string) : Prop :=
  exists i, ms !! i = Some x /\ signalled (g_pool g) i.
Definition exited_member (ms : list string) (g : group) (x : string) : Prop :=
  exists i, ms !! i = Some x /\ exited (g_pool g) i.

(** Names are distinct ([Members.Validate]). *)
Lemma members_distinct http sql : NoDup (members http sql).
Proof. destruct http, sql; by_evaluation. Qed.

Lemma before_lookup ms x y :
  NoDup ms -> before x y ms = true -> exists i j, ms !! i = Some x /\ ms !! j = Some y /\ (i < j)%nat.
Proof.
  intros Hnd. unfold before. destruct (list_find (eq x) ms) as [[i a]|] eqn:E1; [|done].
  destruct (list_find (eq y) ms) as [[j b]|] eqn:E2; [|done]. intros Hlt%Nat.ltb_lt.
  apply list_find_Some in E1 as (H1 & <- & _), E2 as (H2 & <- & _). eauto.
Qed.

Lemma member_started_ready ms g x y :
  NoDup ms -> group_inv (length ms) g -> before x y ms = true -> started_member ms g y -> ready_member ms g x.
Proof.
  intros Hnd [Hord _] (i & j & Hi & Hj & Hlt)%before_lookup (j' & Hj' & Hst); [|done].
  assert (j' = j) as -> by (by eapply NoDup_lookup). exists i. split; [done|]. apply Hord. lia.
Qed.

Lemma member_signalled_exited ms g x y :
  NoDup ms -> group_inv (length ms) g -> before x y ms = true -> signalled_member ms g x -> started_member ms g y ->
  exited_member ms g y.
Proof.
  intros Hnd Hinv (i & j & Hi & Hj & Hlt)%before_lookup (i' & Hi' & Hs) (j' & Hj' & Hst); [|done].
  assert (i' = i) as -> by (by eapply NoDup_lookup). assert (j' = j) as -> by (by eapply NoDup_lookup).
  exists j. split; [done|]. eapply signalled_last; [done|exact Hs|lia].
Qed.
