(* ===== verification/Lock.v ===== *)
(** Lock: the lock acquirer and the lock releaser of cmd/routing-api/main.go
    ([initializeLockAcquirer], [initializeLockReleaser]).  The acquirer starts a
    goroutine that runs the lock and then sends its error on [lockErrChan]; the
    releaser passes signals on to it over [releaseLock] and waits for that error.
    Both channels are unbuffered, so a send waits for a receiver. *)
From Stdlib Require Import ZArith Lia.
From stdpp Require Import base option strings list relations.
From S2P Require Import Prelude Routes Process.

Local Open Scope list_scope.
Local Open Scope Z_scope.

(** The goroutine: in [lockRunner.Run], which receives from [releaseLock]
    ([signalled]: it did), sending its result, or ended. *)
Inductive lock_goroutine :=
| LockRunning (signalled : bool)
| LockSending (err : option error)
| LockEnded.

(** The releaser: in its select, sending on [releaseLock], sleeping, returned. *)
Inductive releaser :=
| RelSelect
| RelSending (sig : os_signal)
| RelSleeping (duration : Z) (err : option error)
| RelReturned (err : option error).

Record handshake := mkHandshake {
  h_lock : lock_goroutine;
  h_releaser : releaser;
  h_signals : list os_signal  (* sent to the releaser by the group *)
}.

Definition started (sigs : list os_signal) : handshake := mkHandshake (LockRunning false) RelSelect sigs.

(** Time for another instance to take the lock. *)
Definition release_sleep (retryInterval : Z) : Z := i64 (retryInterval + 5 * Second).

Section Handshake.
(** [lossy]: the lock can end without being told to (it was lost). *)
Context (retryInterval : Z) (lossy : bool).

Inductive hand_step : handshake -> handshake -> Prop :=
| lock_ends signalled err rel sigs :
    signalled = true \/ lossy = true ->
    hand_step (mkHandshake (LockRunning signalled) rel sigs) (mkHandshake (LockSending err) rel sigs)
| releaser_signal lk sig sigs :
    hand_step (mkHandshake lk RelSelect (sig :: sigs)) (mkHandshake lk (RelSending sig) sigs)
| releaser_sends signalled sig sigs :
    hand_step (mkHandshake (LockRunning signalled) (RelSending sig) sigs) (mkHandshake (LockRunning true) RelSelect sigs)
| releaser_error err sigs :
    hand_step (mkHandshake (LockSending err) RelSelect sigs)
      (mkHandshake LockEnded (RelSleeping (release_sleep retryInterval) err) sigs)
| releaser_wakes lk d err sigs :
    hand_step (mkHandshake lk (RelSleeping d err) sigs) (mkHandshake lk (RelReturned err) sigs).

(** Steps left: each step takes one away. *)
Definition lock_weight (lk : lock_goroutine) : nat :=
  match lk with LockRunning _ => 2 | LockSending _ => 1 | LockEnded => 0 end.

Definition releaser_weight (rel : releaser) : nat :=
  match rel with RelSelect => 2 | RelSending _ => 3 | RelSleeping _ _ => 1 | RelReturned _ => 0 end.

Definition weight (h : handshake) : nat :=
  lock_weight (h_lock h) + releaser_weight (h_releaser h) + 2 * length (h_signals h).

Lemma hand_step_weight h h' : hand_step h h' -> (weight h' < weight h)%nat.
Proof. destruct 1; unfold weight; simpl; try destruct lk; lia. Qed.

Lemma hand_nsteps_weight n h h' : nsteps hand_step n h h' -> (n + weight h' <= weight h)%nat.
Proof. induction 1 as [|n x y z Hs _ IH]; [done|]. apply hand_step_weight in Hs. lia. Qed.

(** A state that cannot go on although the releaser has not returned. *)
Definition deadlocked (h : handshake) : Prop :=
  (forall err, h_releaser h <> RelReturned err) /\ forall h', ~ hand_step h h'.

(** The releaser waits for the lock to receive, the lock for the releaser. *)
Lemma crossed_sends_deadlock sig err sigs : deadlocked (mkHandshake (LockSending err) (RelSending sig) sigs).
Proof. split; [done|]. intros h' Hs. inversion Hs. Qed.
End Handshake.

(** *** One signal, and a lock that is not lost *)

(** The only states then. *)
Definition orderly (h : handshake) : Prop :=
  match h_lock h, h_releaser h with
  | LockRunning signalled, RelSelect => length (h_signals h) = (if signalled then 0 else 1)%nat
  | LockRunning signalled, RelSending _ => signalled = false /\ h_signals h = []
  | LockSending _, RelSelect => h_signals h = []
  | LockEnded, RelSleeping _ _ | LockEnded, RelReturned _ => h_signals h = []
  | _, _ => False
  end.

Lemma orderly_step r h h' : orderly h -> hand_step r false h h' -> orderly h'.
Proof.
  intros Ho Hs. destruct Hs as [signalled err rel sigs Hc|lk sig sigs|signalled sig sigs|err sigs|lk d err sigs];
    unfold orderly in *; simpl in *.
  - destruct Hc as [->|Hc]; [|done]. destruct rel; try done; [by apply nil_length_inv|naive_solver].
  - destruct lk as [[]| |]; try done. split; [done|]. apply nil_length_inv. simpl in Ho. lia.
  - destruct Ho as [_ ->]. done.
  - done.
  - by destruct lk.
Qed.

Lemma orderly_progress r h :
  orderly h -> (exists err, h_releaser h = RelReturned err) \/ exists h', hand_step r false h h'.
Proof.
  destruct h as [lk rel sigs]. unfold orderly. simpl. intros Ho.
  destruct lk as [signalled|err|], rel as [|sig|d err'|err']; try done; try (by left; eauto).
  - destruct signalled; [right; eexists; apply (lock_ends r false true None); by left|].
    destruct sigs as [|sig sigs]; [done|]. right. eexists. apply releaser_signal.
  - right. eexists. apply releaser_sends.
  - right. eexists. apply releaser_error.
  - right. eexists. apply releaser_wakes.
Qed.

Lemma orderly_reach r h h' : orderly h -> rtc (hand_step r false) h h' -> orderly h'.
Proof. intros Ho Hr. induction Hr; eauto using orderly_step. Qed.

(** Every run ends after at most six steps, with the releaser returned. *)
Lemma one_signal_releases r sig n h :
  nsteps (hand_step r false) n (started [sig]) h ->
  (n <= 6)%nat /\ ((exists err, h_releaser h = RelReturned err) \/ exists h', hand_step r false h h').
Proof.
  intros Hn. split.
  - apply hand_nsteps_weight in Hn. unfold weight, started in Hn. simpl in Hn. lia.
  - eapply orderly_progress, orderly_reach; [|by eapply rtc_nsteps_2]. done.
Qed.

(** *** Two signals, or a lock lost at the time of the signal *)

Lemma second_signal_deadlocks r :
  exists h, rtc (hand_step r false) (started [Interrupt; Terminate]) h /\ deadlocked r false h.
Proof.
  exists (mkHandshake (LockSending None) (RelSending Terminate) []). split; [|apply crossed_sends_deadlock].
  eapply rtc_l; [apply releaser_signal|]. eapply rtc_l; [apply releaser_sends|].
  eapply rtc_l; [apply (lock_ends r false true None); by left|]. eapply rtc_l; [apply releaser_signal|]. apply rtc_refl.
Qed.

Lemma lost_lock_deadlocks r (err : option error) :
  exists h, rtc (hand_step r true) (started [Interrupt]) h /\ deadlocked r true h.
Proof.
  exists (mkHandshake (LockSending err) (RelSending Interrupt) []). split; [|apply crossed_sends_deadlock].
  eapply rtc_l; [apply (lock_ends r true false err); by right|]. eapply rtc_l; [apply releaser_signal|]. apply rtc_refl.
Qed.
