(* ===== verification/Config.v ===== *)
(** Config: config/config.go, validation and defaults of the configuration
    file. *)
From Stdlib Require Import ZArith Lia Ascii.
From stdpp Require Import base option strings gmap list.
From S2P Require Import Prelude GoStrings RouterGroups Routes.

Local Open Scope string_scope.
Local Open Scope list_scope.
Local Open Scope Z_scope.

Definition DefaultLockResourceKey : string := "routing_api_lock".

(** From code.cloudfoundry.org/locket. *)
Definition locket_DefaultSessionTTL : Z := 15 * Second.
Definition locket_RetryInterval : Z := 5 * Second.
Definition Minute : Z := 60 * Second.

Record OAuthConfig := mkOAuth {
  OA_TokenEndpoint : string; OA_Port : Z; OA_SkipSSLValidation : bool;
  OA_ClientName : string; OA_ClientSecret : string; OA_CACerts : string
}.

Record SqlConfig := mkSqlConfig {
  SC_Host : string; SC_Port : Z; SC_Schema : string; SC_Type : string; SC_Username : string;
  SC_Password : string; SC_CACert : string; SC_SkipSSLValidation : bool; SC_SkipHostnameValidation : bool;
  SC_MaxIdleConns : Z; SC_MaxOpenConns : Z; SC_ConnMaxLifetime : Z
}.

Record APIConfig := mkAPIConfig {
  API_ListenPort : Z; API_HTTPEnabled : bool; API_MTLSListenPort : Z;
  API_MTLSClientCAPath : string; API_MTLSServerCertPath : string; API_MTLSServerKeyPath : string
}.

(** [MetronConfig] is the two fields [C_MetronAddress] and [C_MetronPort]. *)
Record Config := mkConfig {
  C_API : APIConfig;
  C_AdminPort : Z;
  C_DebugAddress : string;
  C_LogGuid : string;
  C_MetronAddress : string;
  C_MetronPort : string;
  C_MaxTTL : Z;
  C_SystemDomain : string;
  C_MetricsReportingIntervalString : string;
  C_MetricsReportingInterval : Z;
  C_StatsdEndpoint : string;
  C_StatsdClientFlushIntervalString : string;
  C_StatsdClientFlushInterval : Z;
  C_OAuth : OAuthConfig;
  C_RouterGroups : list RouterGroup;
  C_ReservedSystemComponentPorts : list Z;
  C_FailOnRouterPortConflicts : bool;
  C_SqlDB : SqlConfig;
  C_LocketAddress : string;
  C_UUID : string;
  C_SkipSSLValidation : bool;
  C_LockTTL : Z;
  C_RetryInterval : Z;
  C_LockResouceKey : string
}.

Definition validatePort (port : Z) : option error :=
  if port <? 1 then Some (errors_New ("port number is invalid: " +:+ Itoa port +:+ " (1-65535)")) else None.

Definition port_error (what : string) (port : Z) : option error :=
  match validatePort port with
  | Some err => Some (errors_New ("invalid " +:+ what +:+ ": " +:+ Error_string err))
  | None => None
  end.

(** The checks before the package variables are assigned. *)
Definition validate_fields (cfg : Config) (authDisabled : bool) : option error :=
  if bool_decide (C_SystemDomain cfg = "") then Some (errors_New "no system_domain specified")
  else if bool_decide (C_LogGuid cfg = "") then Some (errors_New "no log_guid specified")
  else if negb authDisabled && bool_decide (OA_TokenEndpoint (C_OAuth cfg) = "")
  then Some (errors_New "no token endpoint specified")
  else if negb authDisabled && bool_decide (OA_TokenEndpoint (C_OAuth cfg) <> "") && (OA_Port (C_OAuth cfg) =? 0)
  then Some (errors_New "routing API requires TLS enabled to get OAuth token")
  else if bool_decide (C_UUID cfg = "") then Some (errors_New "no UUID is specified")
  else match port_error "admin port" (C_AdminPort cfg) with
  | Some err => Some err
  | None =>
      match port_error "API listen port" (API_ListenPort (C_API cfg)) with
      | Some err => Some err
      | None => port_error "API mTLS listen port" (API_MTLSListenPort (C_API cfg))
      end
  end.

(** [validate] assigns the package variables of models, whatever follows. *)
Definition validate (cfg : Config) (authDisabled : bool) : Go Globals unit :=
  match validate_fields cfg authDisabled with
  | Some err => fail err
  | None =>
      _ ← modify (fun _ => mkGlobals (C_ReservedSystemComponentPorts cfg) (C_FailOnRouterPortConflicts cfg));
      if bool_decide (C_LocketAddress cfg = "") then fail (errors_New "locket address is required")
      else
        gl ← get;
        match RouterGroups_Validate gl (C_RouterGroups cfg) with
        | Some err => fail err
        | None => mret tt
        end
  end.

Section Process.
(** [time.ParseDuration]. *)
Context (ParseDuration : string -> error + Z).

Definition process (cfg : Config) : error + Config :=
  let lockTTL := if C_LockTTL cfg =? 0 then locket_DefaultSessionTTL else C_LockTTL cfg in
  let retryInterval := if C_RetryInterval cfg =? 0 then locket_RetryInterval else C_RetryInterval cfg in
  let lockKey := if bool_decide (C_LockResouceKey cfg = "") then DefaultLockResourceKey else C_LockResouceKey cfg in
  let o := C_OAuth cfg in
  let d := C_SqlDB cfg in
  let oauth := mkOAuth (OA_TokenEndpoint o) (OA_Port o) (C_SkipSSLValidation cfg) (OA_ClientName o)
                 (OA_ClientSecret o) (OA_CACerts o) in
  let sql := mkSqlConfig (SC_Host d) (SC_Port d) (SC_Schema d) (SC_Type d) (SC_Username d) (SC_Password d)
               (SC_CACert d) (C_SkipSSLValidation cfg) (SC_SkipHostnameValidation d) (SC_MaxIdleConns d)
               (SC_MaxOpenConns d) (SC_ConnMaxLifetime d) in
  match ParseDuration (C_MetricsReportingIntervalString cfg) with
  | inl err => inl err
  | inr metricsReportingInterval =>
      match ParseDuration (C_StatsdClientFlushIntervalString cfg) with
      | inl err => inl err
      | inr statsdClientFlushInterval =>
          let maxTTL := if C_MaxTTL cfg =? 0 then 2 * Minute else C_MaxTTL cfg in
          inr (mkConfig (C_API cfg) (C_AdminPort cfg) (C_DebugAddress cfg) (C_LogGuid cfg) (C_MetronAddress cfg)
                 (C_MetronPort cfg) maxTTL (C_SystemDomain cfg)
                 (C_MetricsReportingIntervalString cfg) metricsReportingInterval (C_StatsdEndpoint cfg)
                 (C_StatsdClientFlushIntervalString cfg) statsdClientFlushInterval oauth (C_RouterGroups cfg)
                 (C_ReservedSystemComponentPorts cfg) (C_FailOnRouterPortConflicts cfg) sql
                 (C_LocketAddress cfg) (C_UUID cfg) (C_SkipSSLValidation cfg) lockTTL retryInterval lockKey)
      end
  end.

(** [yaml.Unmarshal] gives [parsed]. *)
Definition NewConfigFromBytes (parsed : error + Config) (authDisabled : bool) : Go Globals Config :=
  config ← of_sum parsed;
  _ ← validate config authDisabled;
  of_sum (process config).

(** What a loaded configuration satisfies. *)
Definition good_config (authDisabled : bool) (gl : Globals) (cfg : Config) : Prop :=
  C_SystemDomain cfg <> "" /\ C_LogGuid cfg <> "" /\ C_UUID cfg <> "" /\ C_LocketAddress cfg <> "" /\
  (authDisabled = false -> OA_TokenEndpoint (C_OAuth cfg) <> "" /\ OA_Port (C_OAuth cfg) <> 0) /\
  1 <= C_AdminPort cfg /\ 1 <= API_ListenPort (C_API cfg) /\ 1 <= API_MTLSListenPort (C_API cfg) /\
  gl = mkGlobals (C_ReservedSystemComponentPorts cfg) (C_FailOnRouterPortConflicts cfg) /\
  Forall (valid_group gl) (C_RouterGroups cfg) /\
  C_MaxTTL cfg <> 0 /\ C_LockTTL cfg <> 0 /\ C_RetryInterval cfg <> 0 /\ C_LockResouceKey cfg <> "" /\
  SC_SkipSSLValidation (C_SqlDB cfg) = C_SkipSSLValidation cfg /\
  OA_SkipSSLValidation (C_OAuth cfg) = C_SkipSSLValidation cfg.

Lemma port_error_None what port : port_error what port = None <-> 1 <= port.
Proof. unfold port_error, validatePort. destruct (Z.ltb_spec port 1); split; try done; lia. Qed.

Lemma validate_fields_None cfg authDisabled :
  validate_fields cfg authDisabled = None <->
  C_SystemDomain cfg <> "" /\ C_LogGuid cfg <> "" /\ C_UUID cfg <> "" /\
  (authDisabled = false -> OA_TokenEndpoint (C_OAuth cfg) <> "" /\ OA_Port (C_OAuth cfg) <> 0) /\
  1 <= C_AdminPort cfg /\ 1 <= API_ListenPort (C_API cfg) /\ 1 <= API_MTLSListenPort (C_API cfg).
Proof.
  unfold validate_fields. pose proof (port_error_None "admin port" (C_AdminPort cfg)) as P1.
  pose proof (port_error_None "API listen port" (API_ListenPort (C_API cfg))) as P2.
  rewrite <- (port_error_None "API mTLS listen port" (API_MTLSListenPort (C_API cfg))).
  assert (forall e P, (P -> False) -> (@Some error e = None <-> P)) as Hno by (intros; split; [done|tauto]).
  case_bool_decide; [apply Hno; tauto|]. case_bool_decide; [apply Hno; tauto|].
  destruct authDisabled; cbn [negb andb].
  - case_bool_decide; [apply Hno; tauto|].
    destruct (port_error "admin port" _); [apply Hno; intuition congruence|].
    destruct (port_error "API listen port" _); [apply Hno|]; intuition congruence.
  - case_bool_decide; [apply Hno; tauto|]. case_bool_decide; [|tauto]. cbn [andb].
    destruct (Z.eqb_spec (OA_Port (C_OAuth cfg)) 0); [apply Hno; tauto|].
    case_bool_decide; [apply Hno; tauto|].
    destruct (port_error "admin port" _); [apply Hno; intuition congruence|].
    destruct (port_error "API listen port" _); [apply Hno|]; intuition congruence.
Qed.

(** What a configuration file must say to be accepted. *)
Definition acceptable (authDisabled : bool) (cfg : Config) : Prop :=
  (C_SystemDomain cfg <> "" /\ C_LogGuid cfg <> "" /\ C_UUID cfg <> "" /\
   (authDisabled = false -> OA_TokenEndpoint (C_OAuth cfg) <> "" /\ OA_Port (C_OAuth cfg) <> 0) /\
   1 <= C_AdminPort cfg /\ 1 <= API_ListenPort (C_API cfg) /\ 1 <= API_MTLSListenPort (C_API cfg)) /\
  C_LocketAddress cfg <> "" /\
  Forall (valid_group (mkGlobals (C_ReservedSystemComponentPorts cfg) (C_FailOnRouterPortConflicts cfg)))
    (C_RouterGroups cfg) /\
  (exists d, ParseDuration (C_MetricsReportingIntervalString cfg) = inr d) /\
  (exists d, ParseDuration (C_StatsdClientFlushIntervalString cfg) = inr d).

Lemma validate_spec cfg authDisabled gl :
  match validate cfg authDisabled gl with
  | Ok _ gl' => validate_fields cfg authDisabled = None /\ C_LocketAddress cfg <> "" /\
      gl' = mkGlobals (C_ReservedSystemComponentPorts cfg) (C_FailOnRouterPortConflicts cfg) /\
      Forall (valid_group gl') (C_RouterGroups cfg)
  | Fail _ _ => ~ acceptable authDisabled cfg
  | Panic _ _ => False
  end.
Proof.
  unfold validate, acceptable. pose proof (validate_fields_None cfg authDisabled) as Hf.
  destruct (validate_fields cfg authDisabled); [simpl; intros [Ha _]; apply Hf in Ha; done|].
  unfold mbind, Go_bind, modify, get. case_bool_decide; [simpl; tauto|].
  pose proof (RouterGroups_Validate_spec
    (mkGlobals (C_ReservedSystemComponentPorts cfg) (C_FailOnRouterPortConflicts cfg)) (C_RouterGroups cfg)) as Hs.
  destruct (RouterGroups_Validate _ _); simpl.
  - intros (_ & _ & Hg & _). apply Hs in Hg. done.
  - split_and!; [done..|]. by apply Hs.
Qed.

(** The defaults fill what was left out. *)
Lemma process_good cfg authDisabled mi si gl :
  ParseDuration (C_MetricsReportingIntervalString cfg) = inr mi ->
  ParseDuration (C_StatsdClientFlushIntervalString cfg) = inr si ->
  validate_fields cfg authDisabled = None -> C_LocketAddress cfg <> "" ->
  gl = mkGlobals (C_ReservedSystemComponentPorts cfg) (C_FailOnRouterPortConflicts cfg) ->
  Forall (valid_group gl) (C_RouterGroups cfg) ->
  exists cfg', process cfg = inr cfg' /\ good_config authDisabled gl cfg'.
Proof.
  intros Hmi Hsi (F1 & F2 & F3 & F4 & F5 & F6 & F7)%validate_fields_None Hl Hg Hgr. unfold process. rewrite Hmi, Hsi.
  eexists. split; [reflexivity|]. unfold good_config. simpl. split_and!; try done.
  - destruct (Z.eqb_spec (C_MaxTTL cfg) 0); [|done]. unfold Minute, Second. lia.
  - destruct (Z.eqb_spec (C_LockTTL cfg) 0); [|done]. unfold locket_DefaultSessionTTL, Second. lia.
  - destruct (Z.eqb_spec (C_RetryInterval cfg) 0); [|done]. unfold locket_RetryInterval, Second. lia.
  - case_bool_decide; done.
Qed.

Lemma NewConfigFromBytes_spec c authDisabled gl :
  match NewConfigFromBytes (inr c) authDisabled gl with
  | Ok cfg gl' => acceptable authDisabled c /\ good_config authDisabled gl' cfg
  | Fail _ _ => ~ acceptable authDisabled c
  | Panic _ _ => False
  end.
Proof.
  unfold NewConfigFromBytes. unfold mbind, Go_bind, of_sum. simpl. pose proof (validate_spec c authDisabled gl) as Hv.
  destruct (validate c authDisabled gl) as [[] gl'|e gl'|x gl']; [|done..].
  destruct Hv as (Hf & Hl & Hg & Hgr).
  destruct (ParseDuration (C_MetricsReportingIntervalString c)) as [e|mi] eqn:E1.
  { unfold process. rewrite E1. simpl. intros (_ & _ & _ & [d Hd] & _). congruence. }
  destruct (ParseDuration (C_StatsdClientFlushIntervalString c)) as [e|si] eqn:E2.
  { unfold process. rewrite E1, E2. simpl. intros (_ & _ & _ & _ & [d Hd]). congruence. }
  destruct (process_good c authDisabled mi si gl' E1 E2 Hf Hl Hg Hgr) as (cfg' & -> & Hgood). simpl.
  split; [|done]. split; [by apply validate_fields_None|]. rewrite <- Hg. split_and!; eauto.
Qed.
End Process.
