(* ===== verification/Connect.v ===== *)
(** Connect: opening the database.  The connection strings and the TLS settings of
    db/db_sql.go and db/mysql_connection_string_builder.go, the verification of
    certificates without the host name, and [NewSqlDB].  The operating system, the
    MySQL driver, gorm and crypto/x509 are parameters. *)
From Stdlib Require Import ZArith Lia.
From stdpp Require Import base option strings gmap list.
From S2P Require Import Prelude GoStrings RouterGroups Routes EventHub SqlDB Config.

Local Open Scope string_scope.
Local Open Scope list_scope.
Local Open Scope Z_scope.

(** ** Certificates *)

(** crypto/x509: [ParseCertificate], and [Verify] with the roots (as PEM text),
    the time and the intermediates. *)
Class X509 := {
  Certificate : Type;
  ParseCertificate : string -> error + Certificate;
  Certificate_Verify : Certificate -> string -> Z -> list Certificate -> option error
}.

Section Certificates.
Context `{!X509} {W : Type}.

Fixpoint parse_certs (rawCerts : list string) : error + list Certificate :=
  match rawCerts with
  | [] => inr []
  | asn1Data :: rawCerts' =>
      match ParseCertificate asn1Data with
      | inl err => inl (errors_New ("tls: failed to parse certificate from server: " +:+ Error_string err))
      | inr cert => match parse_certs rawCerts' with
                    | inl err => inl err
                    | inr certs => inr (cert :: certs)
                    end
      end
  end.

Definition VerifyCertificatesIgnoreHostname (rawCerts : list string) (caCertPool : string) (now : Z) : Go W unit :=
  certs ← of_sum (parse_certs rawCerts);
  match certs with
  | [] => panic "index out of range [0] with length 0"
  | leaf :: intermediates =>
      match Certificate_Verify leaf caCertPool now intermediates with
      | Some err => fail err
      | None => mret tt
      end
  end.

Lemma parse_certs_length raw certs : parse_certs raw = inr certs -> length certs = length raw.
Proof.
  revert certs. induction raw as [|r raw IH]; intros certs; simpl; [by intros [= <-]|].
  destruct (ParseCertificate r); [done|]. destruct (parse_certs raw); [done|]. intros [= <-]. simpl. by rewrite (IH _ eq_refl).
Qed.

(** A chain is accepted exactly when every certificate parses and the first one
    verifies against the pool with the others as intermediates; only an empty
    chain panics. *)
Lemma VerifyCertificates_exact raw pool now (w : W) :
  (VerifyCertificatesIgnoreHostname raw pool now w = Ok tt w <->
   exists leaf rest, parse_certs raw = inr (leaf :: rest) /\ Certificate_Verify leaf pool now rest = None) /\
  (panics (VerifyCertificatesIgnoreHostname raw pool now w) = true <-> raw = []).
Proof.
  unfold VerifyCertificatesIgnoreHostname, mbind, Go_bind, of_sum.
  destruct (parse_certs raw) as [err|certs] eqn:E.
  - split; split; try done; [naive_solver|]. by intros ->.
  - apply parse_certs_length in E as Hl. destruct certs as [|leaf rest].
    + split; split; try done; [naive_solver|]. intros _. by apply nil_length_inv.
    + destruct (Certificate_Verify leaf pool now rest) eqn:Ev; split; split; try done; try naive_solver; by intros ->.
Qed.
End Certificates.

(** ** Connection strings *)

(** [tls.Config]; [tc_verify_chain] is the pool that [VerifyPeerCertificate]
    hands to [VerifyCertificatesIgnoreHostname], if it is set. *)
Record TlsConfig := mkTls {
  tc_InsecureSkipVerify : bool;
  tc_ServerName : string;
  tc_RootCAs : option string;
  tc_verify_chain : option string
}.

(** What opening the database calls: the driver's registry of TLS settings, files,
    [gorm.Open] with the dialect, [db.DB()], and the settings of the pool. *)
Class OpenEnv (W S : Type) := {
  RegisterTLSConfig : string -> TlsConfig -> W -> (error + unit) * W;
  os_MkdirTemp : W -> (error + string) * W;
  os_WriteFile : string -> string -> W -> (error + unit) * W;
  gorm_Open : string -> string -> W -> (error + S) * W;
  gorm_DB : S -> W -> (error + unit) * W;
  set_pool : Z -> Z -> Z -> W -> W
}.

(** The registry holds what was registered last under a key. *)
Class OpenLaws (W S : Type) `{!OpenEnv W S} := {
  registered : W -> string -> option TlsConfig;
  registered_after : forall key tc w w', RegisterTLSConfig key tc w = (inr tt, w') -> registered w' key = Some tc
}.

Section Open.
Context {W S : Type} `{!OpenEnv W S}.

Definition skip_tls : TlsConfig := mkTls true "" None None.

Definition ca_tls (cfg : SqlConfig) : TlsConfig :=
  let rootCA := SC_CACert cfg in
  if SC_SkipHostnameValidation cfg then mkTls true (SC_Host cfg) (Some rootCA) (Some rootCA)
  else mkTls false (SC_Host cfg) (Some rootCA) None.

Definition MySQL_Build (cfg : SqlConfig) : Go W string :=
  let finish queryString :=
    SC_Username cfg +:+ ":" +:+ SC_Password cfg +:+ "@tcp(" +:+ SC_Host cfg +:+ ":" +:+ Itoa (SC_Port cfg) +:+
    ")/" +:+ SC_Schema cfg +:+ queryString in
  let with_key key tc := _ ← call (RegisterTLSConfig key tc); mret (finish ("?parseTime=true&tls=" +:+ key)) in
  if SC_SkipSSLValidation cfg then with_key "dbTLSSkipVerify" skip_tls
  else if bool_decide (SC_CACert cfg <> "") then with_key "dbTLSCertVerify" (ca_tls cfg)
  else mret (finish "?parseTime=true").

(** [filepath.Join] of the new directory and the file name. *)
Definition cert_file (tempDir : string) : string := tempDir +:+ "/postgres_cert.pem".

Definition ConnectionString (cfg : SqlConfig) : Go W string :=
  let postgres queryString :=
    "postgres://" +:+ SC_Username cfg +:+ ":" +:+ SC_Password cfg +:+ "@" +:+ SC_Host cfg +:+ ":" +:+
    Itoa (SC_Port cfg) +:+ "/" +:+ SC_Schema cfg +:+ queryString in
  if bool_decide (SC_Type cfg = "mysql") then MySQL_Build cfg
  else if bool_decide (SC_Type cfg = "postgres") then
    if bool_decide (SC_CACert cfg = "") then mret (postgres "?sslmode=disable")
    else if SC_SkipSSLValidation cfg then mret (postgres "?sslmode=require")
    else
      tempDir ← call os_MkdirTemp;
      let certPath := cert_file tempDir in
      _ ← call (os_WriteFile certPath (SC_CACert cfg));
      mret (postgres ("?sslmode=verify-full&sslrootcert=" +:+ certPath))
  else mret "".

(** ** NewSqlDB *)
Definition NewSqlDB (cfg : option SqlConfig) : Go W (SqlDB S) :=
  match cfg with
  | None => fail (errors_New "sql configuration cannot be nil")
  | Some cfg =>
      connStr ← ConnectionString cfg;
      if bool_decide (SC_Type cfg ∈ ["postgres"; "mysql"]) then
        db ← call (gorm_Open (SC_Type cfg) connStr);
        _ ← call (gorm_DB db);
        _ ← modify (set_pool (SC_MaxIdleConns cfg) (SC_MaxOpenConns cfg) (i64 (SC_ConnMaxLifetime cfg * Second)));
        mret (mkSqlDB db (NewNonBlocking 1024) (NewNonBlocking 1024) (mkLocker 0 0))
      else fail (errors_New ("unknown type " +:+ SC_Type cfg))
  end.

(** [Connect] is not offered by the SQL database. *)
Definition notImplementedError (functionName : string) : error :=
  errors_New ("function not implemented: " +:+ functionName).

Definition Connect_ : Go (SqlDB S) unit := fail (notImplementedError "code.cloudfoundry.org/routing-api/db.(*SqlDB).Connect").

(** *** Facts *)

(** A new database has two new hubs, open and without sources or subscribers,
    both locks are free, and its type is one of the two. *)
Definition opened_db (cfg : SqlConfig) (db : SqlDB S) : Prop :=
  (SC_Type cfg = "mysql" \/ SC_Type cfg = "postgres") /\
  tcpEventHub db = NewNonBlocking 1024 /\ httpEventHub db = NewNonBlocking 1024 /\
  hub_closed (tcpEventHub db) = false /\ hub_closed (httpEventHub db) = false /\
  isReadLocked (locker db) = false /\ isWriteLocked (locker db) = false.

(** Nothing here panics. *)
Lemma MySQL_Build_total cfg w : wp (MySQL_Build cfg) w (fun _ _ => True) (fun e _ => e <> None).
Proof.
  unfold MySQL_Build, wp, mbind, Go_bind, call. repeat case_match; simplify_eq; done.
Qed.

Lemma ConnectionString_total cfg w : wp (ConnectionString cfg) w (fun _ _ => True) (fun e _ => e <> None).
Proof.
  unfold ConnectionString. case_bool_decide; [apply MySQL_Build_total|].
  unfold wp, mbind, Go_bind, call. repeat case_match; simplify_eq; done.
Qed.

Lemma NewSqlDB_opens cfg w :
  wp (NewSqlDB (Some cfg)) w (fun db _ => opened_db cfg db) (fun e _ => e <> None).
Proof.
  unfold NewSqlDB. apply wp_bind. eapply wp_mono; [apply ConnectionString_total| |done].
  intros connStr w1 _. case_bool_decide as Ht; [|done]. unfold wp, mbind, Go_bind, call, modify.
  destruct (gorm_Open _ _ _) as [[e|db] w2]; [done|]. destruct (gorm_DB _ _) as [[e|[]] w3]; [done|].
  simpl. split_and!; [|done..].
  apply list_elem_of_In in Ht. simpl in Ht. naive_solver.
Qed.

(** The chain of the server's certificates is checked against the given CA: by the
    library together with the host name, or by the callback without it. *)
Definition checks_chain (ca host : string) (tc : TlsConfig) : Prop :=
  (tc_InsecureSkipVerify tc = false /\ tc_RootCAs tc = Some ca /\ tc_ServerName tc = host) \/
  tc_verify_chain tc = Some ca.

Lemma MySQL_Build_checks `{!OpenLaws W S} cfg w connStr w' :
  SC_SkipSSLValidation cfg = false -> SC_CACert cfg <> "" -> MySQL_Build cfg w = Ok connStr w' ->
  exists tc pre, registered w' "dbTLSCertVerify" = Some tc /\ checks_chain (SC_CACert cfg) (SC_Host cfg) tc /\
    connStr = pre +:+ "?parseTime=true&tls=dbTLSCertVerify".
Proof.
  intros Hs Hc. unfold MySQL_Build. rewrite Hs, bool_decide_eq_true_2 by done. unfold mbind, Go_bind, call.
  destruct (RegisterTLSConfig _ _ w) as [[e|[]] w1] eqn:E; [done|]. intros [= <- <-].
  exists (ca_tls cfg), (SC_Username cfg +:+ ":" +:+ SC_Password cfg +:+ "@tcp(" +:+ SC_Host cfg +:+ ":" +:+
    Itoa (SC_Port cfg) +:+ ")/" +:+ SC_Schema cfg).
  split; [by eapply registered_after|]. split; [|by rewrite !string_app_assoc].
  unfold ca_tls, checks_chain. destruct (SC_SkipHostnameValidation cfg); simpl; auto.
Qed.
End Open.
