(* ===== verification/Uaa.v ===== *)
(** Uaa: uaaclient/token_validator.go and uaaclient/token_fetcher.go.  The UAA
    server, the JWT library and the PEM decoder are parameters. *)
From Stdlib Require Import ZArith Lia Ascii.
From stdpp Require Import base option strings gmap list.
From S2P Require Import Prelude GoStrings RouterGroups Routes Validator Http.

Local Open Scope string_scope.
Local Open Scope list_scope.
Local Open Scope Z_scope.

(** ** Tokens *)

(** The bits of [jwt.ValidationError.Errors] the validator looks at. *)
Definition ValidationErrorSignatureInvalid : Z := 4.
Definition ValidationErrorExpired : Z := 16.
Definition ValidationErrorIssuedAt : Z := 32.

(** What [jwt.Parse] returns: the token's scopes ([None] when the scope claim
    is missing or not a list of strings), and the error if any. *)
Record Token := mkToken { tok_scopes : option (list string) }.

Inductive parse_error := validation_error (Errors : Z) (msg : string) | other_error (msg : string).

Definition parse_error_error (e : parse_error) : error :=
  match e with validation_error _ m | other_error m => ext_error m end.

(** [U] is the UAA server as seen by this process. *)
Class UaaServer (U : Type) := {
  uaa_TokenKey : U -> (error + string) * U
}.

(** The header fields and claims of a token that the key function reads before the
    signature is checked. *)
Record TokenHeader := mkHeader { th_alg : string; th_iss : option string }.

(** [jwt.Parse(token, keyFunc)], [jwt.ParseRSAPublicKeyFromPEM] (its error)
    and [pem.Decode] (whether it finds a block). *)
Class Jwt := {
  jwt_Parse : string -> (TokenHeader -> error + string) -> Token * option parse_error;
  jwt_ParseRSAPublicKeyFromPEM : string -> option error;
  pem_Decode : string -> bool
}.

(** Documented behaviour of [jwt.Parse]: a malformed token and a key function
    that fails give errors with the bits Malformed and Unverifiable alone. *)
Class JwtLaws `{!Jwt} := {
  jwt_header : string -> option TokenHeader;
  Parse_malformed : forall t kf, jwt_header t = None ->
    exists m, snd (jwt_Parse t kf) = Some (validation_error 1 m);
  Parse_unverifiable : forall t kf h e, jwt_header t = Some h -> kf h = inl e ->
    exists m, snd (jwt_Parse t kf) = Some (validation_error 2 m)
}.

Definition matchesError (err : parse_error) (errorType : Z) : bool :=
  match err with
  | validation_error es _ => Z.land es errorType =? errorType
  | other_error _ => false
  end.

Definition checkTokenFormat (token : string) : error + string :=
  match Split " " token with
  | [tokenType; userToken] =>
      if EqualFold tokenType "bearer" then inr userToken
      else inl (errors_New ("Invalid token type: " +:+ tokenType))
  | _ => inl (errors_New "invalid token format")
  end.

Section Validator.
Context {U : Type} `{!UaaServer U, !Jwt} (issuer : string).

(** The validator's state: the server and the cached key. *)
Record tokenValidator := mkTV { tv_api : U; uaaPublicKey : string }.

Notation M := (Go tokenValidator).

Definition checkPublicKey (key : string) : option error :=
  if pem_Decode key then None else Some (errors_New "public uaa token must be PEM encoded").

Definition TokenKey : M string := zoom tv_api (fun u v => mkTV u (uaaPublicKey v)) (call uaa_TokenKey).

Definition getUaaTokenKey (forceFetch : bool) : M string :=
  v ← get;
  if bool_decide (uaaPublicKey v = "") || forceFetch then
    key ← TokenKey;
    match checkPublicKey key with
    | Some err => fail err
    | None => _ ← modify (fun v => mkTV (tv_api v) key); mret key
    end
  else mret (uaaPublicKey v).

Definition isValidSigningMethod (h : TokenHeader) : bool :=
  bool_decide (th_alg h ∈ ["RS256"; "RS384"; "RS512"]).

(** [claims.VerifyIssuer(issuer, true)]: a missing claim is refused. *)
Definition isValidIssuer (h : TokenHeader) : bool := bool_decide (th_iss h = Some issuer).

Definition keyFunc (uaaKey : string) (h : TokenHeader) : error + string :=
  if negb (isValidSigningMethod h) then inl (errors_New "invalid signing method")
  else if negb (isValidIssuer h) then inl (errors_New "invalid issuer")
  else match jwt_ParseRSAPublicKeyFromPEM uaaKey with
       | Some err => inl err
       | None => inr uaaKey
       end.

(** The loop of [ValidateToken]; [n] rounds are left.  A signature error
    fetches the key again; an issued-at error is ignored. *)
Fixpoint decode_loop (n : nat) (jwtToken : string) (forceUaaKeyFetch : bool)
    (last : Token * option parse_error) : M (Token * option parse_error) :=
  match n with
  | O => mret last
  | S n' =>
      uaaKey ← getUaaTokenKey forceUaaKeyFetch;
      let '(token, err) := jwt_Parse jwtToken (keyFunc uaaKey) in
      match err with
      | None => mret (token, None)
      | Some e =>
          if matchesError e ValidationErrorSignatureInvalid then decode_loop n' jwtToken true (token, err)
          else if matchesError e ValidationErrorIssuedAt then mret (token, None)
          else mret (token, err)
      end
  end.

Definition extractPermissionsFromToken (token : Token) : M (list string) :=
  match tok_scopes token with
  | Some scopes => mret scopes
  | None => panic "interface conversion: interface {} is not []interface {}"
  end.

Definition scope_error (desired : list string) : error :=
  errors_New ("Token does not have '" +:+ Join "', '" desired +:+ "' scope").

Definition ValidateToken_ (uaaToken : string) (desired : list string) : M unit :=
  jwtToken ← of_sum (checkTokenFormat uaaToken);
  r ← decode_loop 2 jwtToken false (mkToken None, None);
  match snd r with
  | Some e => fail (parse_error_error e)
  | None =>
      permissions ← extractPermissionsFromToken (fst r);
      if existsb (fun p => bool_decide (p ∈ desired)) permissions then mret tt
      else fail (scope_error desired)
  end.

(** *** Facts *)

(** How the decode loop can succeed: the library accepted the token under
    the key in use, or its only complaint was among those that include the
    issue time and not the signature. *)
Definition accepted_by (jwtToken key : string) (token : Token) : Prop :=
  exists err, jwt_Parse jwtToken (keyFunc key) = (token, err) /\
    (err = None \/ exists e, err = Some e /\ matchesError e ValidationErrorSignatureInvalid = false /\
                            matchesError e ValidationErrorIssuedAt = true).

Lemma getUaaTokenKey_cached force v :
  wp (getUaaTokenKey force) v (fun k v' => uaaPublicKey v' = k) (fun e v' => e <> None /\ uaaPublicKey v' = uaaPublicKey v).
Proof.
  unfold getUaaTokenKey. apply wp_bind, wp_get. case_bool_decide; destruct force; simpl; try done.
  all: unfold wp, mbind, Go_bind, TokenKey, zoom, call; destruct (uaa_TokenKey (tv_api v)) as [[e|k] u]; [done|];
    destruct (checkPublicKey k); done.
Qed.

Lemma decode_loop_ok n jwtToken force last v :
  (snd last = None -> n <> 0%nat) ->
  wp (decode_loop n jwtToken force last) v
    (fun r v' => snd r = None -> accepted_by jwtToken (uaaPublicKey v') (fst r)) (fun e _ => e <> None).
Proof.
  revert force last v. induction n as [|n IH]; intros force last v Hl; simpl.
  { apply wp_ret. intros E. by destruct (Hl E). }
  apply wp_bind. eapply wp_mono; [apply getUaaTokenKey_cached| |naive_solver].
  intros k v' Hk. destruct (jwt_Parse jwtToken (keyFunc k)) as [token err] eqn:E.
  destruct err as [e|]; [|apply wp_ret; intros _; exists None; simpl; rewrite Hk; auto].
  destruct (matchesError e ValidationErrorSignatureInvalid) eqn:E1; [by apply IH|].
  destruct (matchesError e ValidationErrorIssuedAt) eqn:E2; [|by apply wp_ret].
  apply wp_ret. intros _. exists (Some e). simpl. rewrite Hk. split; [done|]. right. by exists e.
Qed.

(** What the library's acceptance implies through the key function. *)
Lemma accepted_header `{!JwtLaws} jwtToken key token :
  accepted_by jwtToken key token ->
  exists h, jwt_header jwtToken = Some h /\ isValidSigningMethod h = true /\ isValidIssuer h = true.
Proof.
  intros (err & HP & Hacc). destruct (jwt_header jwtToken) as [h|] eqn:Hh.
  - exists h. split; [done|]. destruct (keyFunc key h) as [e|k] eqn:Hk.
    + destruct (Parse_unverifiable jwtToken (keyFunc key) h e Hh Hk) as [m Hm]. rewrite HP in Hm. simpl in Hm.
      subst err. destruct Hacc as [|(e' & [= <-] & _ & Hiat)]; [done|]. by vm_compute in Hiat.
    + unfold keyFunc in Hk. destruct (isValidSigningMethod h), (isValidIssuer h); done.
  - destruct (Parse_malformed jwtToken (keyFunc key) Hh) as [m Hm]. rewrite HP in Hm. simpl in Hm. subst err.
    destruct Hacc as [|(e' & [= <-] & _ & Hiat)]; [done|]. by vm_compute in Hiat.
Qed.

(** A token is accepted only if it has the form "bearer <token>", the JWT
    library accepted it under the key now cached, and it holds one of the
    desired scopes. *)
Lemma ValidateToken_sound uaaToken desired v v' :
  ValidateToken_ uaaToken desired v = Ok tt v' ->
  exists jwtToken token scopes,
    checkTokenFormat uaaToken = inr jwtToken /\ accepted_by jwtToken (uaaPublicKey v') token /\
    tok_scopes token = Some scopes /\ exists p, p ∈ scopes /\ p ∈ desired.
Proof.
  unfold ValidateToken_. intros (jwtToken & v1 & Hf & H1)%bind_Ok.
  assert (checkTokenFormat uaaToken = inr jwtToken /\ v1 = v) as [Hfmt ->].
  { unfold of_sum in Hf. destruct (checkTokenFormat uaaToken); [done|]. by injection Hf as -> ->. }
  apply bind_Ok in H1 as ([token err] & v2 & Hd & H2).
  pose proof (decode_loop_ok 2 jwtToken false (mkToken None, None) v ltac:(done)) as Hok.
  apply (wp_Ok _ _ _ _ _ _ Hd) in Hok. simpl in *. destruct err; [done|].
  apply bind_Ok in H2 as (scopes & v3 & Hs & H3).
  unfold extractPermissionsFromToken in Hs. destruct (tok_scopes token) as [sc|] eqn:Esc; [|done].
  injection Hs as -> ->. destruct (existsb _ scopes) eqn:Hex; [|done]. injection H3 as <-.
  exists jwtToken, token, scopes. split_and!; [done|by apply Hok|done|].
  apply existsb_exists in Hex as (p & Hp & Hin). exists p. split; [by apply list_elem_of_In|].
  by apply bool_decide_eq_true in Hin.
Qed.

(** *** The interface of the handlers *)
#[export] Instance tokenValidator_TokenValidator : TokenValidator tokenValidator :=
  {| uaa_ValidateToken := ValidateToken_ |}.
End Validator.
Arguments mkTV {_} _ _.
Arguments tv_api {_} _.
Arguments uaaPublicKey {_} _.

(** [noOpTokenValidator] (development mode). *)
#[export] Instance noOp_TokenValidator : TokenValidator unit := {| uaa_ValidateToken _ _ := mret tt |}.

(** ** Fetching tokens *)
Record OauthToken := mkOauthToken { AccessToken : string; Expiry : Z }.

(** [api.Token(ctx)]: a token, or nil with an optional error. *)
Class UaaTokens (U : Type) := { uaa_Token : U -> (option OauthToken * option error) * U }.

Section Fetcher.
Context {U : Type} `{!Env U, !UaaTokens U}.
Context (maxNumberOfRetries : nat) (expirationBufferInSec : Z).

Record tokenFetcher := mkTF { tf_api : U; cachedToken : option OauthToken; refetchTokenTime : Z }.

Definition canReturnCachedToken (f : tokenFetcher) : bool * tokenFetcher :=
  match cachedToken f with
  | None => (false, f)
  | Some _ =>
      let '(t, u) := time_Now (tf_api f) in
      (t <? refetchTokenTime f, mkTF u (cachedToken f) (refetchTokenTime f))
  end.

Definition updateCachedToken (token : OauthToken) (f : tokenFetcher) : tokenFetcher :=
  mkTF (tf_api f) (Some token) (Expiry token + i64 (i64 (-1 * expirationBufferInSec) * Second)).

(** The retry loop: [retries] more attempts after this one.  The last
    result is what the function returns; a nil token with a nil error
    counts as a failure and is returned as it is. *)
Fixpoint fetch_loop (retries : nat) (f : tokenFetcher) : (option OauthToken * option error) * tokenFetcher :=
  let '((token, err), u) := uaa_Token (tf_api f) in
  let f1 := mkTF u (cachedToken f) (refetchTokenTime f) in
  match token with
  | Some t => ((Some t, err), f1)
  | None => match retries with
            | O => ((None, err), f1)
            | S r => fetch_loop r f1
            end
  end.

Definition FetchToken (forceUpdate : bool) (f : tokenFetcher)
    : (option OauthToken * option error) * tokenFetcher :=
  let '(cached, f1) := if forceUpdate then (false, f) else canReturnCachedToken f in
  if cached then ((cachedToken f1, None), f1)
  else
    match fetch_loop maxNumberOfRetries f1 with
    | ((Some token, err), f2) =>
        let f3 := updateCachedToken token f2 in ((cachedToken f3, err), f3)
    | ((None, err), f2) => ((None, err), f2)
    end.

(** A token handed out without asking the server is not within
    [expirationBufferInSec] of its expiry. *)
Definition tf_inv (f : tokenFetcher) : Prop :=
  forall token, cachedToken f = Some token ->
    refetchTokenTime f = Expiry token + i64 (i64 (-1 * expirationBufferInSec) * Second).

Lemma fetch_loop_cache n f r f' :
  fetch_loop n f = (r, f') -> cachedToken f' = cachedToken f /\ refetchTokenTime f' = refetchTokenTime f.
Proof.
  revert f. induction n as [|n IH]; intros f; simpl; destruct (uaa_Token (tf_api f)) as [[[t|] e] u];
    try (by intros [= <- <-]). intros H. apply IH in H. done.
Qed.

Lemma FetchToken_inv force f r f' : tf_inv f -> FetchToken force f = (r, f') -> tf_inv f'.
Proof.
  intros Hi. unfold FetchToken.
  assert (forall b f1, (if force then (false, f) else canReturnCachedToken f) = (b, f1) ->
    cachedToken f1 = cachedToken f /\ refetchTokenTime f1 = refetchTokenTime f) as Hc.
  { intros b f1. destruct force; [by intros [= <- <-]|]. unfold canReturnCachedToken.
    destruct (cachedToken f) eqn:E; [|by intros [= <- <-]]. destruct (time_Now (tf_api f)). by intros [= <- <-]. }
  destruct (if force then _ else _) as [b f1] eqn:E. destruct (Hc _ _ eq_refl) as [H1 H2].
  assert (tf_inv f1) as Hi1 by (intros t; rewrite H1, H2; apply Hi).
  destruct b; [by intros [= <- <-]|].
  destruct (fetch_loop maxNumberOfRetries f1) as [[[t|] e] f2] eqn:EL; intros [= <- <-].
  - intros t' Ht. simpl in *. by injection Ht as <-.
  - destruct (fetch_loop_cache _ _ _ _ EL) as [H3 H4]. intros t'. rewrite H3, H4. apply Hi1.
Qed.

Lemma FetchToken_cached f token t u :
  tf_inv f -> cachedToken f = Some token -> time_Now (tf_api f) = (t, u) -> t < refetchTokenTime f ->
  FetchToken false f = ((Some token, None), mkTF u (Some token) (refetchTokenTime f)).
Proof.
  intros Hi Hc Ht Hlt. unfold FetchToken, canReturnCachedToken. rewrite Hc, Ht.
  rewrite (proj2 (Z.ltb_lt _ _)) by done. done.
Qed.
End Fetcher.
