(* ===== verification/Trace.v ===== *)
(** Trace: trace/trace.go, the printing of requests and responses with secrets
    hidden, and the request log of handlers/middleware.go.  The regular
    expressions are translated to matchers on byte strings; [replace_all] is
    [ReplaceAllString] for expressions that never match the empty string. *)
From Stdlib Require Import ZArith Lia Ascii.
From stdpp Require Import base option strings gmap list.
From S2P Require Import Prelude GoStrings Utf8 RouterGroups Routes Json JsonText JsonTextFacts Validator Http Sse.

Local Open Scope string_scope.
Local Open Scope list_scope.

Definition PRIVATE_DATA_PLACEHOLDER : string := "[PRIVATE DATA HIDDEN]".

(** ** Sanitizing *)

(** The text after the first [c]. *)
Fixpoint after (c : ascii) (s : string) : option string :=
  match s with
  | EmptyString => None
  | String d s' => if bool_decide (d = c) then Some s' else after c s'
  end.

(** [match_ s] is what follows a match at the beginning of [s]. *)
Fixpoint replace_all (fuel : nat) (match_ : string -> option string) (repl s : string) : string :=
  match fuel with
  | O => s
  | S fuel' =>
      match match_ s with
      | Some rest => repl +:+ replace_all fuel' match_ repl rest
      | None =>
          match s with
          | EmptyString => ""
          | String c s' => String c (replace_all fuel' match_ repl s')
          end
      end
  end.

Definition ReplaceAllString (match_ : string -> option string) (repl s : string) : string :=
  replace_all (String.length s) match_ repl s.

(** [(?m)^Authorization: .*]: the lines that start so. *)
Definition hide_line (line : string) : string :=
  if HasPrefix line "Authorization: " then "Authorization: " +:+ PRIVATE_DATA_PLACEHOLDER else line.

Definition hide_authorization (s : string) : string := Join newline (hide_line <$> Split LF s).

(** [password=[^&]*&]. *)
Definition match_password (s : string) : option string :=
  if HasPrefix s "password=" then after "&" (drop_string 9 s) else None.

(** [\s]. *)
Definition is_regexp_space (c : ascii) : bool := is_space c || bool_decide (c = ascii_of_nat 12).

Fixpoint skip_regexp_ws (s : string) : string :=
  match s with
  | String c s' => if is_regexp_space c then skip_regexp_ws s' else s
  | EmptyString => ""
  end.

Definition quoted (name : string) : string := quote +:+ name +:+ quote.

(** A quoted property name, a colon, [\s*], then a string up to the next quote. *)
Definition match_json (propertyName s : string) : option string :=
  let key := quoted propertyName +:+ ":" in
  if HasPrefix s key then
    match strip quote_char (skip_regexp_ws (drop_string (String.length key) s)) with
    | (true, rest) => after quote_char rest
    | (false, _) => None
    end
  else None.

Definition sanitizeJson (propertyName json : string) : string :=
  ReplaceAllString (match_json propertyName) (quoted propertyName +:+ ":" +:+ quoted PRIVATE_DATA_PLACEHOLDER) json.

Definition Sanitize (input : string) : string :=
  let sanitized := hide_authorization input in
  let sanitized := ReplaceAllString match_password ("password=" +:+ PRIVATE_DATA_PLACEHOLDER +:+ "&") sanitized in
  let sanitized := sanitizeJson "access_token" sanitized in
  let sanitized := sanitizeJson "refresh_token" sanitized in
  let sanitized := sanitizeJson "token" sanitized in
  let sanitized := sanitizeJson "password" sanitized in
  sanitizeJson "oldPassword" sanitized.

(** ** Printing *)

(** [Logger]: prints to standard output, or is the null logger. *)
Definition NewLogger (env_setting : string) : bool := bool_decide (env_setting = "true").

(** [Logger.Printf]: what is written to standard output. *)
Definition Printf (logger : bool) (text : string) : list string := if logger then [text] else [].

Definition dump (logger : bool) (what label now : string) (dumped : error + string) : list string :=
  match dumped with
  | inl err => Printf logger ("Error dumping " +:+ what +:+ newline +:+ Error_string err +:+ newline)
  | inr text => Printf logger (newline +:+ label +:+ " [" +:+ now +:+ "]" +:+ newline +:+ Sanitize text +:+ newline)
  end.

(** [dumped] is the result of httputil.DumpRequest or DumpResponse, [now] the
    formatted time. *)
Definition DumpRequest (logger : bool) (now : string) (dumped : error + string) : list string :=
  dump logger "request" "REQUEST:" now dumped.
Definition DumpResponse (logger : bool) (now : string) (dumped : error + string) : list string :=
  dump logger "response" "RESPONSE:" now dumped.
Definition DumpJSON (logger : bool) (label now : string) (data : json) : list string :=
  dump logger "json object" (label +:+ ":") now (inr (json_text data)).

(** ** The request log (handlers/middleware.go) *)
Record log_entry := mkLog { log_message : string; log_method : string; log_url : string; log_headers : Header }.

(** The entries before and after the handler ran; [res] is the response header
    map when it returns. *)
Definition LogWrap (method url : string) (req res : Header) : list log_entry :=
  [mkLog "serving" method url (header_filter req); mkLog "done" method url res].

(** ** The token is not printed *)
Lemma replace_all_fuel m repl n n' s :
  (forall s r, m s = Some r -> (String.length r < String.length s)%nat) ->
  (String.length s <= n)%nat -> (String.length s <= n')%nat -> replace_all n m repl s = replace_all n' m repl s.
Proof.
  intros Hm. revert n' s. induction n as [|n IH]; intros n' s Hn Hn'.
  - destruct s; [|simpl in Hn; lia]. destruct n'; [done|]. simpl.
    destruct (m "") as [r|] eqn:E; [apply Hm in E; simpl in E; lia|done].
  - destruct n' as [|n'].
    { destruct s; [|simpl in Hn'; lia]. simpl. destruct (m "") as [r|] eqn:E; [apply Hm in E; simpl in E; lia|done]. }
    simpl. destruct (m s) as [r|] eqn:E; [apply Hm in E; f_equal; apply IH; lia|].
    destruct s as [|c s]; [done|]. simpl in *. f_equal. apply IH; lia.
Qed.

Lemma after_length c s r : after c s = Some r -> (String.length r < String.length s)%nat.
Proof.
  induction s as [|d s IH]; simpl; [done|]. case_bool_decide; [intros [= <-]; lia|]. intros Hr%IH. lia.
Qed.

Lemma drop_string_length n s : (String.length (drop_string n s) <= String.length s)%nat.
Proof. revert s. induction n as [|n IH]; intros [|c s]; simpl; try done. specialize (IH s). lia. Qed.

(** The matchers take text away, so the length of the text is fuel enough. *)
Lemma match_password_shrinks s r : match_password s = Some r -> (String.length r < String.length s)%nat.
Proof.
  unfold match_password. destruct (HasPrefix s "password="); [|done]. intros Hr%after_length.
  pose proof (drop_string_length 9 s). lia.
Qed.

Lemma skip_regexp_ws_length s : (String.length (skip_regexp_ws s) <= String.length s)%nat.
Proof. induction s as [|c s IH]; simpl; [done|]. destruct (is_regexp_space c); simpl; lia. Qed.

Lemma match_json_shrinks name s r : match_json name s = Some r -> (String.length r < String.length s)%nat.
Proof.
  unfold match_json. destruct (HasPrefix s _); [|done].
  set (t := drop_string _ s). pose proof (drop_string_length (String.length (quoted name +:+ ":")) s).
  pose proof (skip_regexp_ws_length t). destruct (strip quote_char (skip_regexp_ws t)) as [[] rest] eqn:E; [|done].
  apply strip_length in E. intros Hr%after_length. unfold t in *. lia.
Qed.

(** Splitting around a line. *)
Lemma Split_app_any sep a b f fs :
  Split sep b = f :: fs -> exists pre g, Split sep a = pre ++ [g] /\ Split sep (a +:+ b) = pre ++ (g +:+ f) :: fs.
Proof.
  intros Hb. induction a as [|c a IH].
  - exists [], "". split; [done|]. exact Hb.
  - destruct IH as (pre & g & Ha & Hab). change (String c a +:+ b) with (String c (a +:+ b)). simpl.
    case_bool_decide as Hc.
    + exists ("" :: pre), g. change (String.app a b) with (a +:+ b). by rewrite Ha, Hab.
    + change (String.app a b) with (a +:+ b). rewrite Ha, Hab. destruct pre as [|p pre]; simpl.
      * by exists [], (String c g).
      * by exists (String c p :: pre), g.
Qed.

(** [s] ends a line: it is empty or its last byte is a line feed. *)
Definition line_start (s : string) : Prop := exists pre, Split LF s = pre ++ [""].

Lemma HasPrefix_app_self p t : HasPrefix (p +:+ t) p = true.
Proof.
  induction p as [|c p IH]; [by destruct t|]. change (String c p +:+ t) with (String c (p +:+ t)). simpl.
  change (String.app p t) with (p +:+ t). rewrite IH. by rewrite bool_decide_eq_true_2.
Qed.

Lemma hide_header pre tok rest :
  line_start pre -> string_mem LF tok = false -> rest = "" \/ (exists r, rest = String LF r) ->
  hide_authorization (pre +:+ "Authorization: " +:+ tok +:+ rest) =
  Join newline ((hide_line <$> removelast (Split LF pre)) ++
    ("Authorization: " +:+ PRIVATE_DATA_PLACEHOLDER) :: (hide_line <$> tail (Split LF rest))).
Proof.
  intros [ls Hpre] Htok Hrest.
  assert (Split LF ("Authorization: " +:+ tok +:+ rest) = ("Authorization: " +:+ tok) :: tail (Split LF rest)) as Hline.
  { rewrite <- string_app_assoc. assert (string_mem LF ("Authorization: " +:+ tok) = false) as Hno
      by (rewrite string_mem_app; by rewrite Htok).
    destruct Hrest as [->|[r ->]].
    - rewrite string_app_nil. by rewrite Split_no_sep.
    - by rewrite Split_app. }
  destruct (Split_app_any LF pre _ _ _ Hline) as (pre' & g & E1 & E2).
  rewrite Hpre in E1. apply app_inj_tail in E1 as [<- <-].
  unfold hide_authorization. rewrite E2, Hpre, removelast_last, fmap_app, fmap_cons.
  do 3 f_equal. change ("" +:+ "Authorization: " +:+ tok) with ("Authorization: " +:+ tok).
  unfold hide_line at 1. by rewrite HasPrefix_app_self.
Qed.

(** The printed text is the same whatever the token is. *)
Lemma Sanitize_hides pre tok tok' rest :
  line_start pre -> string_mem LF tok = false -> string_mem LF tok' = false ->
  rest = "" \/ (exists r, rest = String LF r) ->
  Sanitize (pre +:+ "Authorization: " +:+ tok +:+ rest) = Sanitize (pre +:+ "Authorization: " +:+ tok' +:+ rest).
Proof. intros Hp H1 H2 Hr. unfold Sanitize. by rewrite !hide_header. Qed.

Lemma LogWrap_hides method url req req' res :
  delete "Authorization" req = delete "Authorization" req' -> LogWrap method url req res = LogWrap method url req' res.
Proof. intros H. unfold LogWrap, header_filter, Header_Del. by rewrite H. Qed.

(** *** What slips through *)

(** The last field of a form has no ampersand behind it. *)
Example last_password_shown : Sanitize "user=a&password=secret" = "user=a&password=secret".
Proof. vm_compute. reflexivity. Qed.

(** The matcher stops at an escaped quote: the rest of the secret is printed. *)
Definition sample_secret : string := json_text (JObj [("password", JStr ("pass" +:+ quote +:+ "word"))]).

Example quoted_password_shown :
  Sanitize sample_secret = "{" +:+ quoted "password" +:+ ":" +:+ quoted PRIVATE_DATA_PLACEHOLDER +:+ "word" +:+ quote +:+ "}".
Proof. vm_compute. reflexivity. Qed.
