(* ===== verification/TraceFacts.v ===== *)
(** TraceFacts: the secrets of a JSON document are hidden by [Sanitize] of
    trace/trace.go: what is printed is the document with the values of the secret
    names replaced, at any depth. *)
From Stdlib Require Import ZArith Lia Ascii.
From stdpp Require Import base option strings gmap list.
From S2P Require Import Prelude GoStrings Utf8 RouterGroups Routes Json JsonText JsonTextFacts Sse Trace.

Local Open Scope string_scope.
Local Open Scope list_scope.

(** ** Documents *)

(** The names whose values [Sanitize] hides. *)
Definition secret_names : list string := ["access_token"; "refresh_token"; "token"; "password"; "oldPassword"].

(** The document with the strings under [names] hidden. *)
Fixpoint hide_json (names : list string) (v : json) : json :=
  match v with
  | JArr vs => JArr (map (hide_json names) vs)
  | JObj ms =>
      JObj (map (fun m => (fst m, match snd m with
                                  | JStr s => JStr (if bool_decide (fst m ∈ names) then PRIVATE_DATA_PLACEHOLDER else s)
                                  | _ => hide_json names (snd m)
                                  end)) ms)
  | _ => v
  end.

(** No quote, line feed or ampersand. *)
Definition free (s : string) : bool :=
  negb (string_mem quote_char s) && negb (string_mem LF s) && negb (string_mem "&" s).

(** Strings without quotes, and member names that are written as they are. *)
Fixpoint unquoted (v : json) : bool :=
  match v with
  | JFrac l => free l && match l with String c _ => number_start c | EmptyString => false end
  | JStr s => negb (string_mem quote_char s)
  | JArr vs => forallb unquoted vs
  | JObj ms => forallb (fun m => bool_decide (json_escape (fst m) = fst m) && negb (string_mem quote_char (fst m)) && unquoted (snd m)) ms
  | _ => true
  end.

(** ** Text without quotes *)
Lemma free_app a b : free (a +:+ b) = free a && free b.
Proof.
  unfold free. rewrite !string_mem_app, !negb_orb.
  by destruct (string_mem quote_char a), (string_mem LF a), (string_mem "&" a), (string_mem quote_char b),
    (string_mem LF b), (string_mem "&" b).
Qed.

Lemma free_quote s : free s = true -> string_mem quote_char s = false.
Proof. unfold free. rewrite !andb_true_iff, !negb_true_iff. tauto. Qed.

Lemma high_free s : high s = true -> free s = true.
Proof.
  induction s as [|c s IH]; [done|]. cbn [high]. intros [Hc Hs]%andb_true_iff.
  change (String c s) with (String c "" +:+ s). rewrite free_app, (IH Hs), andb_true_r.
  destruct c as [[] [] [] [] [] [] [] []]; try discriminate Hc; reflexivity.
Qed.

Lemma digits_free s : digits s = true -> free s = true.
Proof.
  induction s as [|c s IH]; [done|]. cbn [digits]. intros [Hc Hs]%andb_true_iff.
  change (String c s) with (String c "" +:+ s). rewrite free_app, (IH Hs), andb_true_r.
  destruct c as [[] [] [] [] [] [] [] []]; try discriminate Hc; reflexivity.
Qed.

Lemma escape_rune_free r : scanned r -> r <> RByte quote_char -> free (escape_rune r) = true.
Proof.
  intros [Hr|Hr] Hq; destruct r as [c|enc|c]; simpl in Hr; try discriminate; [| |reflexivity].
  - destruct c as [[] [] [] [] [] [] [] []]; try discriminate Hr; try reflexivity. by destruct Hq.
  - unfold escape_rune. case_bool_decide; [reflexivity|]. case_bool_decide; [reflexivity|]. by apply high_free, multi_high.
Qed.

Lemma runes_no_quote s : string_mem quote_char s = false -> Forall (fun r => r <> RByte quote_char) (runes s).
Proof.
  revert s. apply (runes_ind (fun s => string_mem quote_char s = false -> Forall (fun r => r <> RByte quote_char) (runes s)));
    [constructor| |].
  - intros r t Hr IH. rewrite string_mem_app, runes_text by done. intros [Hm Ht]%orb_false_iff.
    constructor; [|by apply IH]. intros ->. discriminate Hm.
  - intros a t Hb IH [_ Ht]%orb_false_iff. rewrite Hb. constructor; [done|by apply IH].
Qed.

Lemma escape_free s : string_mem quote_char s = false -> free (json_escape s) = true.
Proof.
  intros Hs. unfold json_escape. pose proof (runes_ok s) as Hok. pose proof (runes_no_quote s Hs) as Hq.
  induction Hok as [|r rs Hr _ IH]; [done|]. inversion_clear Hq. csimpl. rewrite free_app, escape_rune_free by done.
  by apply IH.
Qed.

Lemma itoa_number z : digits (Itoa z) = true \/ exists s, Itoa z = String "-" s /\ digits s = true.
Proof.
  unfold Itoa. destruct (z <? 0)%Z eqn:Hz.
  - right. apply Z.ltb_lt in Hz. eexists. split; [reflexivity|]. apply itoa_digits. lia.
  - left. apply Z.ltb_ge in Hz. by apply itoa_digits.
Qed.

Lemma itoa_nonempty z : Itoa z <> "".
Proof.
  unfold Itoa. destruct (z <? 0)%Z; [done|]. cbn [itoa_fuel]. destruct (z <? 10)%Z; [done|].
  by destruct (_ +:+ _) as [|c s] eqn:E; [destruct (if (z / 10 <? 10)%Z then _ else _)|].
Qed.

Lemma itoa_free z : free (Itoa z) = true.
Proof.
  destruct (itoa_number z) as [Hz|(s & -> & Hs)]; [by apply digits_free|].
  change (String "-" s) with ("-" +:+ s). by rewrite free_app, (digits_free s).
Qed.

(** ** Hiding one name *)
Section Name.
Context (name : string) (Hquote : string_mem quote_char name = false)
  (Hstart : match name with String c _ => string_mem c ",]}:" = false | EmptyString => False end).

Let hidden : string := quoted name +:+ ":" +:+ quoted PRIVATE_DATA_PLACEHOLDER.

Lemma sanitizeJson_step s :
  sanitizeJson name s =
    match match_json name s with
    | Some rest => hidden +:+ sanitizeJson name rest
    | None => match s with EmptyString => "" | String c s' => String c (sanitizeJson name s') end
    end.
Proof.
  unfold sanitizeJson, ReplaceAllString. destruct s as [|c s]; [done|]. cbn [String.length replace_all].
  destruct (match_json name (String c s)) as [rest|] eqn:E; [|done]. fold hidden. f_equal.
  apply replace_all_fuel; [apply match_json_shrinks| |done]. apply match_json_shrinks in E. simpl in E. lia.
Qed.

Lemma skip_char c t : c <> quote_char -> sanitizeJson name (String c t) = String c (sanitizeJson name t).
Proof.
  intros Hc. rewrite sanitizeJson_step. unfold match_json.
  change (HasPrefix (String c t) _) with (bool_decide (quote_char = c) && HasPrefix t ((name +:+ quote) +:+ ":")).
  by rewrite bool_decide_eq_false_2.
Qed.

Lemma skip_unquoted w t : string_mem quote_char w = false -> sanitizeJson name (w +:+ t) = w +:+ sanitizeJson name t.
Proof.
  induction w as [|c w IH]; [done|]. cbn [string_mem]. intros [Hc%bool_decide_eq_false Hw]%orb_false_iff.
  change (String c w +:+ t) with (String c (w +:+ t)). by rewrite skip_char, IH by congruence.
Qed.

(** A name and its quote at the beginning of a text with a quoted beginning. *)
Lemma HasPrefix_quoted n w t u : string_mem quote_char n = false -> string_mem quote_char w = false ->
  HasPrefix (w +:+ String quote_char t) (n +:+ String quote_char u) = bool_decide (w = n) && HasPrefix t u.
Proof.
  revert w. induction n as [|c n IH]; intros [|d w] Hn Hw; cbn [string_mem] in *.
  - change (bool_decide (quote_char = quote_char) && HasPrefix t u = bool_decide ("" = "") && HasPrefix t u).
    by rewrite !bool_decide_eq_true_2.
  - apply orb_false_iff in Hw as [Hd%bool_decide_eq_false _].
    change (bool_decide (quote_char = d) && HasPrefix (w +:+ String quote_char t) u = bool_decide (String d w = "") && HasPrefix t u).
    by rewrite !bool_decide_eq_false_2.
  - apply orb_false_iff in Hn as [Hc%bool_decide_eq_false _].
    change (bool_decide (c = quote_char) && HasPrefix t (n +:+ String quote_char u) = bool_decide ("" = String c n) && HasPrefix t u).
    by rewrite !bool_decide_eq_false_2 by congruence.
  - apply orb_false_iff in Hn as [_ Hn], Hw as [_ Hw].
    change (bool_decide (c = d) && HasPrefix (w +:+ String quote_char t) (n +:+ String quote_char u) =
            bool_decide (String d w = String c n) && HasPrefix t u).
    rewrite IH, andb_assoc by done. f_equal. apply eq_true_iff_eq. rewrite andb_true_iff, !bool_decide_eq_true.
    split; [by intros [-> ->]|by intros [= -> ->]].
Qed.

Lemma key_text : quoted name +:+ ":" = String quote_char (name +:+ String quote_char ":").
Proof. unfold quoted. by rewrite !string_app_assoc. Qed.

(** A quote before a comma, a colon or a bracket does not start a match. *)
Lemma skip_closing t : match t with String c _ => string_mem c ",]}:" = true | EmptyString => True end ->
  sanitizeJson name (String quote_char t) = String quote_char (sanitizeJson name t).
Proof.
  intros Ht. rewrite sanitizeJson_step. unfold match_json. rewrite key_text.
  enough (HasPrefix (String quote_char t) (String quote_char (name +:+ String quote_char ":")) = false) as -> by done.
  destruct name as [|c n]; [done|]. destruct t as [|d t]; [done|].
  change (bool_decide (quote_char = quote_char) && (bool_decide (c = d) && HasPrefix t (n +:+ String quote_char ":")) = false).
  rewrite (bool_decide_eq_false_2 (c = d)); [apply andb_false_r|]. intros ->. congruence.
Qed.

(** A quoted text is passed over when it is no name that is matched. *)
Lemma skip_quoted w t : string_mem quote_char w = false ->
  match t with String c _ => string_mem c ",]}:" = true | EmptyString => True end ->
  match_json name (quoted w +:+ t) = None ->
  sanitizeJson name (quoted w +:+ t) = quoted w +:+ sanitizeJson name t.
Proof.
  intros Hw Ht Hm. rewrite sanitizeJson_step, Hm.
  assert (forall u, quoted w +:+ u = String quote_char (w +:+ String quote_char u)) as E
    by (intros u; unfold quoted; by rewrite !string_app_assoc).
  by rewrite !E, skip_unquoted, skip_closing.
Qed.

Definition ends_value (t : string) : bool :=
  match t with String c _ => string_mem c ",]}" | EmptyString => true end.

Lemma ends_closing t : ends_value t = true -> match t with String c _ => string_mem c ",]}:" = true | EmptyString => True end.
Proof. destruct t as [|c t]; [done|]. cbn [ends_value]. by destruct c as [[] [] [] [] [] [] [] []]. Qed.

Lemma match_json_quoted w t : string_mem quote_char w = false ->
  match_json name (quoted w +:+ t) =
    if bool_decide (w = name) && HasPrefix t ":"
    then match strip quote_char (skip_regexp_ws (drop_string 1 t)) with (true, rest) => after quote_char rest | (false, _) => None end
    else None.
Proof.
  intros Hw. unfold match_json. rewrite key_text.
  assert (quoted w +:+ t = String quote_char (w +:+ String quote_char t)) as -> by (unfold quoted; by rewrite !string_app_assoc).
  change (HasPrefix (String quote_char (w +:+ String quote_char t)) (String quote_char (name +:+ String quote_char ":")))
    with (bool_decide (quote_char = quote_char) && HasPrefix (w +:+ String quote_char t) (name +:+ String quote_char ":")).
  rewrite HasPrefix_quoted, (bool_decide_eq_true_2 (quote_char = _)) by done. rewrite andb_true_l.
  destruct (bool_decide (w = name)) eqn:E; [apply bool_decide_eq_true in E as ->|done]. rewrite andb_true_l.
  destruct (HasPrefix t ":"); [|done]. do 3 f_equal.
  clear. change (String.length (String quote_char (name +:+ String quote_char ":"))) with (S (String.length (name +:+ String quote_char ":"))).
  cbn [drop_string]. induction name as [|c n IH]; [done|]. exact IH.
Qed.

Lemma sanitize_string s t : string_mem quote_char s = false -> ends_value t = true ->
  sanitizeJson name (quoted s +:+ t) = quoted s +:+ sanitizeJson name t.
Proof.
  intros Hs Ht. apply skip_quoted; [done|by apply ends_closing|]. rewrite match_json_quoted by done.
  destruct t as [|c t]; [by rewrite andb_false_r|]. change (HasPrefix (String c t) ":") with (bool_decide (":"%char = c) && HasPrefix t "").
  rewrite (bool_decide_eq_false_2 (":"%char = c)); [by rewrite andb_false_r|]. intros <-. discriminate Ht.
Qed.

Lemma after_unquoted w t : string_mem quote_char w = false -> after quote_char (w +:+ String quote_char t) = Some t.
Proof.
  induction w as [|c w IH]; [done|]. cbn [string_mem]. intros [Hc%bool_decide_eq_false Hw]%orb_false_iff.
  change (String c w +:+ String quote_char t) with (String c (w +:+ String quote_char t)). simpl.
  rewrite bool_decide_eq_false_2 by congruence. by apply IH.
Qed.

Lemma quoted_app w t : quoted w +:+ t = String quote_char (w +:+ String quote_char t).
Proof. unfold quoted. by rewrite !string_app_assoc. Qed.

(** The secret itself. *)
Lemma sanitize_secret s t : string_mem quote_char s = false ->
  sanitizeJson name (quoted name +:+ ":" +:+ quoted s +:+ t) =
    quoted name +:+ ":" +:+ quoted PRIVATE_DATA_PLACEHOLDER +:+ sanitizeJson name t.
Proof.
  intros Hs. rewrite sanitizeJson_step, match_json_quoted by done.
  change (HasPrefix (":" +:+ quoted s +:+ t) ":") with (HasPrefix (quoted s +:+ t) "").
  assert (HasPrefix (quoted s +:+ t) "" = true) as -> by by rewrite quoted_app.
  rewrite bool_decide_eq_true_2 by done. cbn [andb]. change (drop_string 1 (":" +:+ quoted s +:+ t)) with (quoted s +:+ t).
  rewrite quoted_app. change (skip_regexp_ws (String quote_char ?u)) with (String quote_char u).
  cbn [strip]. rewrite bool_decide_eq_true_2, after_unquoted by done. unfold hidden. by rewrite !string_app_assoc.
Qed.

(** A value that is no string does not start with a quote. *)
Definition no_string (u : string) : Prop :=
  exists c u', u = String c u' /\ is_regexp_space c = false /\ c <> quote_char.

Lemma sanitize_named k u : string_mem quote_char k = false -> no_string u \/ k <> name ->
  sanitizeJson name (quoted k +:+ ":" +:+ u) = quoted k +:+ ":" +:+ sanitizeJson name u.
Proof.
  intros Hk Hu. rewrite skip_quoted; [|done|done|].
  - change (":" +:+ ?w) with (String ":" w). by rewrite skip_char.
  - rewrite match_json_quoted by done. destruct Hu as [(c & u' & -> & Hc & Hq)|Hne].
    + destruct (bool_decide (k = name) && _); [|done]. change (drop_string 1 (":" +:+ String c u')) with (String c u').
      cbn [skip_regexp_ws]. rewrite Hc. cbn [strip]. by rewrite bool_decide_eq_false_2.
    + by rewrite (bool_decide_eq_false_2 (k = name)).
Qed.

Lemma number_no_string c u : number_start c = true -> no_string (String c u).
Proof.
  intros Hc. exists c, u. split; [done|]. destruct c as [[] [] [] [] [] [] [] []]; try discriminate Hc; by split.
Qed.

Lemma value_no_string v t : unquoted v = true -> (forall s, v <> JStr s) -> no_string (json_text v +:+ t).
Proof.
  assert (forall c u, is_regexp_space c = false -> c <> quote_char -> no_string (String c u)) as Hc by (by intros c u; exists c, u).
  intros Hv Hs. destruct v as [|[]|z|l|s|vs|ms].
  1-3: by apply Hc.
  - simpl. destruct (itoa_number z) as [Hz|(s & -> & Hz)]; [|by apply number_no_string].
    destruct (Itoa z) as [|c s] eqn:E.
    + by destruct (itoa_nonempty z).
    + apply number_no_string. unfold number_start. cbn [digits] in Hz. by apply andb_true_iff in Hz as [-> _].
  - simpl in *. destruct l as [|c l]; [by rewrite andb_false_r in Hv|]. apply andb_true_iff in Hv as [_ Hv].
    by apply number_no_string.
  - by destruct (Hs s).
  - by apply Hc.
  - by apply Hc.
Qed.

(** Texts one by one, separated by commas and followed by a closing bracket. *)
Lemma sanitize_list {A} (f g : A -> string) (l : list A) e t :
  string_mem e "]}" = true ->
  Forall (fun x => forall t, ends_value t = true -> sanitizeJson name (f x +:+ t) = g x +:+ sanitizeJson name t) l ->
  sanitizeJson name (Join "," (f <$> l) +:+ String e t) = Join "," (g <$> l) +:+ String e (sanitizeJson name t).
Proof.
  intros He Hl.
  assert (e <> quote_char /\ ends_value (String e t) = true) as [Hq Hend]
    by (by destruct e as [[] [] [] [] [] [] [] []]).
  induction Hl as [|x l Hx Hl IH]; [by apply skip_char|].
  destruct l as [|y l]; [simpl Join; by rewrite Hx, skip_char|].
  change (Join "," (?h <$> x :: y :: l)) with (h x +:+ "," +:+ Join "," (h <$> y :: l)).
  rewrite !string_app_assoc, Hx by done. f_equal. change ("," +:+ ?u) with (String "," u). by rewrite skip_char, IH.
Qed.

Lemma json_string_quoted s : json_string s = quoted (json_escape s).
Proof. done. Qed.

Lemma sanitize_json v : json_escape name = name -> unquoted v = true -> forall t, ends_value t = true ->
  sanitizeJson name (json_text v +:+ t) = json_text (hide_json [name] v) +:+ sanitizeJson name t.
Proof.
  intros Hname. induction v as [|b|z|l|s|vs IH|ms IH] using json_induction; intros Hv t Ht.
  - by apply skip_unquoted.
  - by destruct b; apply skip_unquoted.
  - apply skip_unquoted, free_quote, itoa_free.
  - simpl in Hv. apply andb_true_iff in Hv as [Hv _]. by apply skip_unquoted, free_quote.
  - apply sanitize_string; [|done]. apply free_quote, escape_free. by apply negb_true_iff.
  - cbn [hide_json]. rewrite !json_text_JArr, !string_app_assoc. change ("[" +:+ ?u) with (String "[" u).
    rewrite skip_char by done. f_equal. change ("]" +:+ ?u) with (String "]" u).
    change (map (hide_json [name]) vs) with (hide_json [name] <$> vs). rewrite <- list_fmap_compose.
    apply sanitize_list; [done|]. cbn [unquoted] in Hv. rewrite forallb_forall in Hv.
    rewrite Forall_forall in *. intros v Hin. apply IH; [done|]. by apply Hv, list_elem_of_In.
  - cbn [hide_json]. rewrite !json_text_JObj, !string_app_assoc. change ("{" +:+ ?u) with (String "{" u).
    rewrite skip_char by done. f_equal. change ("}" +:+ ?u) with (String "}" u).
    match goal with |- context [map ?f ms] => change (map f ms) with (f <$> ms) end. rewrite <- list_fmap_compose.
    apply sanitize_list; [done|]. cbn [unquoted] in Hv. rewrite forallb_forall in Hv.
    rewrite Forall_forall in *. intros [k v] Hin u Hu. specialize (Hv _ (proj1 (list_elem_of_In _ _) Hin)). specialize (IH _ Hin). cbn [fst snd] in *.
    apply andb_true_iff in Hv as [[Hk%bool_decide_eq_true Hq%negb_true_iff]%andb_true_iff Hv].
    unfold member_text, compose. cbn [fst snd]. rewrite !json_string_quoted, !Hk, !string_app_assoc.
    destruct (match v with JStr s => Some s | _ => None end) as [s|] eqn:Es.
    + destruct v as [| | | |s'| |]; try done. injection Es as ->. cbn [unquoted] in Hv. apply negb_true_iff in Hv.
      pose proof (free_quote _ (escape_free s Hv)) as Hf. cbn [json_text]. rewrite !json_string_quoted.
      case_bool_decide as Hn.
      * apply list_elem_of_singleton in Hn as ->. by rewrite sanitize_secret.
      * rewrite sanitize_named by first [done|right; set_solver]. do 3 f_equal. by apply sanitize_string.
    + rewrite sanitize_named by first [done|left; apply value_no_string; [done|by intros s ->]].
      assert (match v with JStr s => JStr (if bool_decide (k ∈ [name]) then PRIVATE_DATA_PLACEHOLDER else s) | _ => hide_json [name] v end
              = hide_json [name] v) as -> by by destruct v. by rewrite IH.
Qed.
End Name.

(** ** All the names *)
Lemma hide_json_unquoted names v : unquoted v = true -> unquoted (hide_json names v) = true.
Proof.
  induction v as [|b|z|l|s|vs IH|ms IH] using json_induction; try done; cbn [hide_json unquoted]; rewrite !forallb_forall; intros Hv x.
  - intros (v & <- & Hin)%in_map_iff. rewrite Forall_forall in IH. apply IH; [by apply list_elem_of_In|by apply Hv].
  - intros ([k v] & <- & Hin)%in_map_iff. specialize (Hv _ Hin). rewrite Forall_forall in IH.
    specialize (IH _ (proj2 (list_elem_of_In _ _) Hin)). cbn [fst snd] in *.
    apply andb_true_iff in Hv as [-> Hv]. destruct v; cbn [andb]; try by apply IH. by case_bool_decide.
Qed.

Lemma hide_json_twice ns ms v : hide_json ns (hide_json ms v) = hide_json (ms ++ ns) v.
Proof.
  induction v as [|b|z|l|s|vs IH|mm IH] using json_induction; try done; cbn [hide_json]; f_equal; rewrite map_map;
    apply map_ext_in; intros x Hx; rewrite Forall_forall in IH; specialize (IH _ (proj2 (list_elem_of_In _ _) Hx)); [done|].
  destruct x as [k v]. cbn [fst snd] in *. f_equal. destruct v; try done.
  f_equal. repeat case_bool_decide; set_solver.
Qed.

Lemma sanitizeJson_document name v :
  string_mem quote_char name = false -> match name with String c _ => string_mem c ",]}:" = false | EmptyString => False end ->
  json_escape name = name -> unquoted v = true -> sanitizeJson name (json_text v) = json_text (hide_json [name] v).
Proof.
  intros Hq Hs He Hv. pose proof (sanitize_json name Hq Hs v He Hv "" eq_refl) as H. by rewrite !string_app_nil in H.
Qed.

(** No line feed and no ampersand in a document's text. *)
Definition one_form (s : string) : bool := negb (string_mem LF s) && negb (string_mem "&" s).

Lemma one_form_app a b : one_form (a +:+ b) = one_form a && one_form b.
Proof.
  unfold one_form. rewrite !string_mem_app, !negb_orb.
  by destruct (string_mem LF a), (string_mem "&" a), (string_mem LF b), (string_mem "&" b).
Qed.

Lemma free_one_form s : free s = true -> one_form s = true.
Proof. unfold free, one_form. rewrite !andb_true_iff. tauto. Qed.

Lemma one_form_Join ts : forallb one_form ts = true -> one_form (Join "," ts) = true.
Proof.
  induction ts as [|x ts IH]; [done|]. cbn [forallb]. intros [Hx Hts]%andb_true_iff. destruct ts as [|y ts]; [done|].
  change (Join "," (x :: y :: ts)) with (x +:+ "," +:+ Join "," (y :: ts)). rewrite !one_form_app, Hx, (IH Hts). done.
Qed.

Lemma json_text_one_form v : unquoted v = true -> one_form (json_text v) = true.
Proof.
  assert (forall s, string_mem quote_char s = false -> one_form (json_string s) = true) as Hstr.
  { intros s Hs. unfold json_string. by rewrite !one_form_app, (free_one_form _ (escape_free s Hs)). }
  induction v as [|b|z|l|s|vs IH|ms IH] using json_induction; intros Hv.
  - done.
  - by destruct b.
  - apply free_one_form, itoa_free.
  - simpl in Hv. apply andb_true_iff in Hv as [Hv _]. by apply free_one_form.
  - apply Hstr. by apply negb_true_iff.
  - rewrite json_text_JArr, !one_form_app, one_form_Join; [done|]. apply forallb_forall. intros x (v & -> & Hin)%list_elem_of_In%list_elem_of_fmap.
    rewrite Forall_forall in IH. apply IH; [done|]. cbn [unquoted] in Hv. rewrite forallb_forall in Hv. by apply Hv, list_elem_of_In.
  - rewrite json_text_JObj, !one_form_app, one_form_Join; [done|]. apply forallb_forall. intros x ([k v] & -> & Hin)%list_elem_of_In%list_elem_of_fmap.
    rewrite Forall_forall in IH. specialize (IH _ Hin). cbn [unquoted] in Hv. rewrite forallb_forall in Hv.
    specialize (Hv _ (proj1 (list_elem_of_In _ _) Hin)). cbn [fst snd] in *.
    apply andb_true_iff in Hv as [[_ Hq%negb_true_iff]%andb_true_iff Hv]. unfold member_text. cbn [fst snd].
    by rewrite !one_form_app, Hstr, IH.
Qed.

Lemma after_absent c s : string_mem c s = false -> after c s = None.
Proof.
  induction s as [|d s IH]; [done|]. cbn [string_mem after]. intros [Hd%bool_decide_eq_false Hs]%orb_false_iff.
  rewrite bool_decide_eq_false_2 by congruence. by apply IH.
Qed.

Lemma drop_string_absent c n s : string_mem c s = false -> string_mem c (drop_string n s) = false.
Proof. revert s. induction n as [|n IH]; intros [|d s]; try done. cbn [string_mem drop_string]. intros [_ Hs]%orb_false_iff. by apply IH. Qed.

(** Without an ampersand no password of a form is matched. *)
Lemma no_password repl s : string_mem "&" s = false -> ReplaceAllString match_password repl s = s.
Proof.
  unfold ReplaceAllString. generalize (String.length s) as n. intros n. revert s. induction n as [|n IH]; intros s Hs; [done|].
  cbn [replace_all]. assert (match_password s = None) as ->.
  { unfold match_password. destruct (HasPrefix s _); [|done]. by apply after_absent, drop_string_absent. }
  destruct s as [|c s]; [done|]. f_equal. apply IH. cbn [string_mem] in Hs. by apply orb_false_iff in Hs as [_ Hs].
Qed.

(** What is printed of an object is the object with its secrets hidden. *)
Lemma Sanitize_json ms :
  unquoted (JObj ms) = true -> Sanitize (json_text (JObj ms)) = json_text (hide_json secret_names (JObj ms)).
Proof.
  intros Hv. pose proof (json_text_one_form _ Hv) as Hform. apply andb_true_iff in Hform as [Hlf%negb_true_iff Hamp%negb_true_iff].
  assert (hide_authorization (json_text (JObj ms)) = json_text (JObj ms)) as Hauth.
  { unfold hide_authorization. rewrite Split_no_sep by done. change (Join newline (hide_line <$> [?u])) with (hide_line u).
    unfold hide_line. by rewrite json_text_JObj. }
  unfold Sanitize. rewrite Hauth, no_password by done.
  rewrite 5!sanitizeJson_document by first [done|by repeat apply hide_json_unquoted].
  by rewrite !hide_json_twice.
Qed.
