(* ===== verification/Migration.v ===== *)
(** Migration: the schema migrations of migration/ (migration.go and the
    migrations V0 to V11).  The database is a parameter: the calls
    migrations make on [db.Client], with laws for the row that holds the
    schema version. *)
From Stdlib Require Import ZArith Lia Sorted.
From stdpp Require Import base option strings gmap list.
From S2P Require Import Prelude GoStrings RouterGroups Routes.

Local Open Scope string_scope.
Local Open Scope list_scope.
Local Open Scope Z_scope.

Definition MigrationKey : string := "routing-api-migration".

Record MigrationData := mkMigrationData { MD_Key : string; CurrentVersion : Z; TargetVersion : Z }.

(** ** The database *)
Class MigClient (S : Type) := {
  mig_dialect : S -> string;
  mig_AutoMigrate : list string -> Go S unit;   (* the tables of the model types *)
  mig_ExecWithError : string -> Go S unit;
  mig_FindGroups : Go S (list RouterGroupDB);
  mig_Begin : Go S unit;
  mig_First : Go S MigrationData;
  mig_tx_Create : MigrationData -> Go S unit;
  mig_tx_Save : MigrationData -> Go S unit;
  mig_Commit : Go S unit;
  mig_Rollback : Go S unit;
  mig_Save : MigrationData -> Go S unit
}.

(** A call that leaves the version row alone and does not panic. *)
Definition DB_ok {S A} (row : S -> option MigrationData) (m : Go S A) : Prop :=
  forall s, wp m s (fun _ s' => row s' = row s) (fun e s' => row s' = row s /\ e <> None).

(** The version row: what is committed and what the open transaction wrote. *)
Class MigLaws (S : Type) `{!MigClient S} := {
  mig_row : S -> option MigrationData;
  mig_pending : S -> option MigrationData;
  AutoMigrate_ok : forall ts, DB_ok mig_row (mig_AutoMigrate ts);
  Exec_ok : forall q, DB_ok mig_row (mig_ExecWithError q);
  FindGroups_ok : DB_ok mig_row mig_FindGroups;
  Begin_ok : forall s, wp mig_Begin s (fun _ s' => mig_row s' = mig_row s /\ mig_pending s' = None)
                         (fun _ _ => False);
  mig_First_ok : forall s, wp mig_First s
    (fun d s' => mig_row s' = mig_row s /\ mig_pending s' = mig_pending s /\ mig_row s = Some d)
    (fun e s' => mig_row s' = mig_row s /\ mig_pending s' = mig_pending s /\ e <> None /\
       (e = Some gorm_ErrRecordNotFound -> mig_row s = None));
  tx_Create_ok : forall d s, wp (mig_tx_Create d) s
    (fun _ s' => mig_row s' = mig_row s /\ mig_pending s' = Some d) (fun e s' => mig_row s' = mig_row s /\ e <> None);
  tx_Save_ok : forall d s, wp (mig_tx_Save d) s
    (fun _ s' => mig_row s' = mig_row s /\ mig_pending s' = Some d) (fun e s' => mig_row s' = mig_row s /\ e <> None);
  Commit_ok : forall s, wp mig_Commit s
    (fun _ s' => mig_row s' = match mig_pending s with Some d => Some d | None => mig_row s end)
    (fun e s' => mig_row s' = mig_row s /\ e <> None);
  Rollback_ok : forall s, wp mig_Rollback s (fun _ s' => mig_row s' = mig_row s)
    (fun e s' => mig_row s' = mig_row s /\ e <> None);
  mig_Save_ok : forall d s, wp (mig_Save d) s (fun _ s' => mig_row s' = Some d)
    (fun e s' => mig_row s' = mig_row s /\ e <> None)
}.

Section Migrations.
Context {S : Type} `{!MigClient S}.

Record Migration := mkMigration { Version : Z; Run : Go S unit }.

(** [if sqlDB.Client.Dialect().Name() == "mysql"]. *)
Definition by_dialect (mysql_sql other_sql : string) : Go S string := fun s =>
  Ok (if bool_decide (mig_dialect s = "mysql") then mysql_sql else other_sql) s.

Definition exec_by_dialect (mysql_sql other_sql : string) : Go S unit :=
  q ← by_dialect mysql_sql other_sql; mig_ExecWithError q.

(** The error of the DROP is dropped. *)
Definition dropIndex (indexName tableName : string) : Go S unit :=
  _ ← try (exec_by_dialect ("DROP INDEX " +:+ indexName +:+ " ON " +:+ tableName)
             ("DROP INDEX IF EXISTS " +:+ indexName));
  mret tt.

Definition create_tcp_index (mysql_cols cols : string) : Go S unit :=
  exec_by_dialect ("CREATE UNIQUE INDEX idx_tcp_route ON tcp_routes (" +:+ mysql_cols +:+ ")")
    ("CREATE UNIQUE INDEX idx_tcp_route ON tcp_routes (" +:+ cols +:+ ")").

(** The shape of V5, V6, V9, V10 and V11. *)
Definition rebuild_tcp_index (mysql_cols cols : string) : Go S unit :=
  _ ← dropIndex "idx_tcp_route" "tcp_routes";
  _ ← mig_AutoMigrate ["tcp_routes"];
  create_tcp_index mysql_cols cols.

Definition V0InitMigration : Migration :=
  mkMigration 0 (mig_AutoMigrate ["router_groups"; "tcp_routes"; "routes"]).

(** A name that occurs more than once, and how often.  The code ranges over
    a map, so which of several it reports is not determined; this is the
    first in row order. *)
Fixpoint duplicate_name (rgs : list RouterGroupDB) (all : list RouterGroupDB) : option (string * Z) :=
  match rgs with
  | [] => None
  | rg :: rgs' =>
      let count := Z.of_nat (length (filter (fun r => RGDB_Name r = RGDB_Name rg) all)) in
      if 1 <? count then Some (RGDB_Name rg, count) else duplicate_name rgs' all
  end.

Definition V2UpdateRgMigration : Migration := mkMigration 2 (
  rgs ← mig_FindGroups;
  match duplicate_name rgs rgs with
  | Some (name, count) =>
      fail (errors_New ("cannot create unique index: router group name '" +:+ name +:+ "' appears " +:+
                        Itoa count +:+ " times"))
  | None =>
      _ ← dropIndex "idx_rg_name" "router_groups";
      exec_by_dialect "CREATE UNIQUE INDEX idx_rg_name ON router_groups (name(191))"
        "CREATE UNIQUE INDEX idx_rg_name ON router_groups (name)"
  end).

Definition V3UpdateTcpRouteMigration : Migration := mkMigration 3 (mig_AutoMigrate ["tcp_routes"]).

Definition V4AddRgUniqIdxTCPRoute : Migration := mkMigration 4 (
  _ ← dropIndex "idx_tcp_route" "tcp_routes";
  create_tcp_index "router_group_guid(191), host_port, host_ip(191), external_port"
    "router_group_guid, host_port, host_ip, external_port").

Definition V5SniHostnameMigration : Migration := mkMigration 5 (
  rebuild_tcp_index "router_group_guid(191), host_port, host_ip(191), external_port, sni_hostname(191)"
    "router_group_guid, host_port, host_ip, external_port, sni_hostname").

Definition V6TCPTLSRoutes : Migration := mkMigration 6 (
  rebuild_tcp_index
    "router_group_guid(191), host_port, host_ip(191), external_port, sni_hostname(191), host_tls_port"
    "router_group_guid, host_port, host_ip, external_port, sni_hostname, host_tls_port").

Definition V7TCPTLSRoutes : Migration := mkMigration 7 (
  _ ← exec_by_dialect "ALTER TABLE tcp_routes MODIFY COLUMN instance_id varchar(255) DEFAULT NULL"
        "ALTER TABLE tcp_routes ALTER COLUMN instance_id SET DEFAULT NULL";
  _ ← dropIndex "idx_tcp_route" "tcp_routes";
  create_tcp_index
    "router_group_guid(191), host_port, host_ip(191), external_port, sni_hostname(191), host_tls_port"
    "router_group_guid, host_port, host_ip, external_port, sni_hostname, host_tls_port").

Definition V8HostTLSPortTCPDefaultZero : Migration := mkMigration 8 (
  _ ← mig_ExecWithError "UPDATE tcp_routes SET host_tls_port = 0 WHERE host_tls_port IS NULL";
  _ ← dropIndex "idx_tcp_route" "tcp_routes";
  exec_by_dialect "ALTER TABLE tcp_routes MODIFY COLUMN host_tls_port int DEFAULT 0"
    "ALTER TABLE tcp_routes ALTER COLUMN host_tls_port SET DEFAULT 0").

Definition V9TerminateFrontendTLS : Migration := mkMigration 9 (
  rebuild_tcp_index
    "router_group_guid(191), host_port, host_ip(191), external_port, sni_hostname(191), host_tls_port, terminate_frontend_tls"
    "router_group_guid, host_port, host_ip, external_port, sni_hostname, host_tls_port, terminate_frontend_tls").

Definition V10SniRewriteHostname : Migration := mkMigration 10 (
  rebuild_tcp_index
    "router_group_guid(191), host_port, host_ip(191), external_port, sni_hostname(191), host_tls_port, terminate_frontend_tls"
    "router_group_guid, host_port, host_ip, external_port, sni_hostname, host_tls_port, terminate_frontend_tls").

Definition V11EnableBackendMTLS : Migration := mkMigration 11 (
  rebuild_tcp_index
    "router_group_guid(191), host_port, host_ip(191), external_port, sni_hostname(191), host_tls_port, terminate_frontend_tls, enable_backend_m_tls"
    "router_group_guid, host_port, host_ip, external_port, sni_hostname, host_tls_port, terminate_frontend_tls, enable_backend_m_tls").

Definition InitializeMigrations : list Migration :=
  [V0InitMigration; V2UpdateRgMigration; V3UpdateTcpRouteMigration; V4AddRgUniqIdxTCPRoute;
   V5SniHostnameMigration; V6TCPTLSRoutes; V7TCPTLSRoutes; V8HostTLSPortTCPDefaultZero;
   V9TerminateFrontendTLS; V10SniRewriteHostname; V11EnableBackendMTLS].

(** *** The runner *)

(** The loop over the migrations; the row carries the current version. *)
Fixpoint migrate_loop (ms : list Migration) (existing : MigrationData) : Go S unit :=
  match ms with
  | [] => mret tt
  | m :: ms' =>
      if CurrentVersion existing <? Version m then
        _ ← Run m;
        let existing := mkMigrationData (MD_Key existing) (Version m) (TargetVersion existing) in
        _ ← mig_Save existing;
        migrate_loop ms' existing
      else migrate_loop ms' existing
  end.

(** Recording the target in the transaction, then the loop. *)
Definition commit_and_migrate (saved : error + unit) (ms : list Migration) (existing : MigrationData) : Go S unit :=
  match saved with
  | inl err => _ ← try mig_Rollback; fail err
  | inr _ => _ ← mig_Commit; migrate_loop ms existing
  end.

(** [sqlDB] is not nil: the server always has a [*db.SqlDB]. *)
Definition RunMigrations (ms : list Migration) : Go S unit :=
  match last ms with
  | None => mret tt
  | Some m =>
      let lastMigrationVersion := Version m in
      _ ← mig_AutoMigrate ["migration_data"];
      _ ← mig_Begin;
      r ← try mig_First;
      match r with
      | inl err =>
          if bool_decide (err = gorm_ErrRecordNotFound) then
            let existing := mkMigrationData MigrationKey (-1) lastMigrationVersion in
            saved ← try (mig_tx_Create existing);
            commit_and_migrate saved ms existing
          else (_ ← try mig_Rollback; fail err)
      | inr existing =>
          if lastMigrationVersion <=? CurrentVersion existing then mig_Commit
          else
            let existing := mkMigrationData (MD_Key existing) (CurrentVersion existing) lastMigrationVersion in
            saved ← try (mig_tx_Save existing);
            commit_and_migrate saved ms existing
      end
  end.
End Migrations.
Arguments Migration : clear implicits.

(** ** What the runner guarantees *)
Create HintDb migdb.

Section Facts.
Context {S : Type} `{!MigClient S, !MigLaws S}.
Implicit Types (s : S) (ms : list (Migration S)).

Definition stored_version s : Z := match mig_row s with Some d => CurrentVersion d | None => -1 end.

Definition versions ms : list Z := Version <$> ms.

Definition ascending ms : Prop := StronglySorted Z.lt (versions ms).

Definition quiet_runs ms : Prop := Forall (fun m => DB_ok mig_row (Run m)) ms.

(** The loop ends with the last version; a failure leaves a version that is
    not lower than before and is that of some migration if it changed. *)
Lemma migrate_loop_wp ms existing s :
  ascending ms -> quiet_runs ms -> mig_row s = Some existing ->
  wp (migrate_loop ms existing) s
    (fun _ s' => stored_version s' = foldl Z.max (CurrentVersion existing) (versions ms))
    (fun e s' => e <> None /\ CurrentVersion existing <= stored_version s' /\
       (stored_version s' = CurrentVersion existing \/ stored_version s' ∈ versions ms)).
Proof.
  intros Hasc Hq. revert existing s. induction Hq as [|m ms Hm Hq IH]; intros ex s Hrow; simpl.
  { apply wp_ret. unfold stored_version. by rewrite Hrow. }
  assert (forall s', mig_row s' = mig_row s -> CurrentVersion ex <= stored_version s' /\
    (stored_version s' = CurrentVersion ex \/ stored_version s' ∈ versions (m :: ms))) as Hstay.
  { intros s' Hr. unfold stored_version. rewrite Hr, Hrow. split; [lia|by left]. }
  inversion Hasc as [|? ? Hasc' Hall]; subst. destruct (Z.ltb_spec (CurrentVersion ex) (Version m)).
  - apply wp_bind. eapply wp_mono; [apply Hm| |].
    2:{ intros e s' [Hr Hn]. split; [done|]. apply Hstay. congruence. }
    intros [] s1 Hr1. apply wp_bind. eapply wp_mono; [apply mig_Save_ok| |].
    2:{ intros e s' [Hr Hn]. split; [done|]. apply Hstay. congruence. }
    intros [] s2 Hr2. eapply wp_mono; [by apply IH| |].
    + intros [] s' ->. simpl. f_equal. lia.
    + intros e s' (Hn & Hle & Hin). simpl in Hle, Hin. split_and!; [done|lia|].
      right. destruct Hin as [->|Hin]; set_solver.
  - eapply wp_mono; [by apply IH| |].
    + intros [] s' ->. f_equal. lia.
    + intros e s' (Hn & Hle & [->|Hin]); (split_and!; [done|lia|]); [by left|right; set_solver].
Qed.

Lemma foldl_max_last c l v : StronglySorted Z.lt l -> last l = Some v -> foldl Z.max c l = Z.max c v.
Proof.
  intros Hs. revert c. induction Hs as [|x l Hs IH Hall]; intros c Hl; [done|].
  destruct l as [|y l]; [by injection Hl as <-|].
  change (foldl Z.max c (x :: y :: l)) with (foldl Z.max (Z.max c x) (y :: l)).
  rewrite IH by done. assert (x < v); [|lia].
  apply (proj1 (Forall_forall _ _) Hall). by apply last_Some_elem_of.
Qed.

Lemma last_version ms m : last ms = Some m -> last (versions ms) = Some (Version m).
Proof. intros H. unfold versions. by rewrite fmap_last, H. Qed.

(** Nothing recorded yet counts as version -1. *)
Lemma RunMigrations_wp ms m s :
  ascending ms -> quiet_runs ms -> last ms = Some m -> -1 <= Version m ->
  wp (RunMigrations ms) s
    (fun _ s' => stored_version s' = Z.max (stored_version s) (Version m))
    (fun e s' => e <> None /\ stored_version s <= stored_version s' /\
       (stored_version s' = stored_version s \/ stored_version s' ∈ versions ms)).
Proof.
  intros Hasc Hq Hlast Hge. unfold RunMigrations. rewrite Hlast.
  assert (forall s', mig_row s' = mig_row s -> stored_version s <= stored_version s' /\
    (stored_version s' = stored_version s \/ stored_version s' ∈ versions ms)) as Hsame
    by (intros s' Hr; unfold stored_version; rewrite Hr; split; [lia|by left]).
  assert (forall ex saved s2, mig_row s2 = mig_row s -> CurrentVersion ex = stored_version s ->
    (saved = inr tt -> mig_pending s2 = Some ex) ->
    wp (commit_and_migrate saved ms ex) s2
      (fun _ s' => stored_version s' = Z.max (stored_version s) (Version m))
      (fun e s' => e <> None /\ stored_version s <= stored_version s' /\
         (stored_version s' = stored_version s \/ stored_version s' ∈ versions ms))) as Hgo.
  { intros ex [err|[]] s2 Hr2 Hc Hp; simpl.
    - apply wp_bind, wp_try. eapply wp_mono; [apply Rollback_ok| |].
      + intros [] s3 Hr3. apply wp_fail. split; [done|]. apply Hsame. congruence.
      + intros [e|] s3 [Hr3 Hn]; [|done]. apply wp_fail. split; [done|]. apply Hsame. congruence.
    - apply wp_bind. eapply wp_mono; [apply Commit_ok| |].
      + intros [] s3 Hr3. rewrite (Hp eq_refl) in Hr3. eapply wp_mono; [by apply migrate_loop_wp| |].
        * intros [] s' ->. rewrite (foldl_max_last _ _ (Version m)), Hc; [done|done|by apply last_version].
        * intros e s'. by rewrite Hc.
      + intros e s3 [Hr3 Hn]. split; [done|]. apply Hsame. congruence. }
  apply wp_bind. eapply wp_mono; [apply AutoMigrate_ok| |intros e s1 [Hr1 Hn]; auto].
  intros [] s1 Hr1. apply wp_bind. eapply wp_mono; [apply Begin_ok| |done].
  intros [] s2 [Hr2 Hp2]. apply wp_bind, wp_try. eapply wp_mono; [apply mig_First_ok| |].
  - intros ex s3 (Hr3 & Hp3 & Hex). rewrite Hp2 in Hp3. assert (stored_version s = CurrentVersion ex) as Hsv.
    { unfold stored_version. by rewrite <- Hr1, <- Hr2, Hex. }
    destruct (Z.leb_spec (Version m) (CurrentVersion ex)).
    + eapply wp_mono; [apply Commit_ok| |].
      * intros [] s4 Hr4. unfold stored_version. rewrite Hr4. rewrite Hp3. fold (stored_version s).
        rewrite Hr3, Hex. simpl. lia.
      * intros e s4 [Hr4 Hn]. split; [done|]. apply Hsame. congruence.
    + apply wp_bind, wp_try. eapply wp_mono; [apply tx_Save_ok| |].
      * intros [] s4 [Hr4 Hp4]. apply Hgo; [congruence|done|done].
      * intros [e|] s4 [Hr4 Hn]; [|done]. apply Hgo; [congruence|done|done].
  - intros [e|] s3 (Hr3 & _ & Hn & Hnf); [|done]. case_bool_decide as He.
    + subst e. apply wp_bind, wp_try. assert (stored_version s = -1) as Hsv.
      { unfold stored_version. by rewrite <- Hr1, <- Hr2, (Hnf eq_refl). }
      eapply wp_mono; [apply tx_Create_ok| |].
      * intros [] s4 [Hr4 Hp4]. apply Hgo; [congruence|done|done].
      * intros [e|] s4 [Hr4 Hn']; [|done]. apply Hgo; [congruence|done|done].
    + apply wp_bind, wp_try. eapply wp_mono; [apply Rollback_ok| |].
      * intros [] s4 Hr4. apply wp_fail. split; [done|]. apply Hsame. congruence.
      * intros [e'|] s4 [Hr4 Hn']; [|done]. apply wp_fail. split; [done|]. apply Hsame. congruence.
Qed.

(** At the latest version no migration runs: the result does not depend on
    what they would do. *)
Lemma RunMigrations_latest ms ms' m m' s :
  last ms = Some m -> last ms' = Some m' -> Version m = Version m' ->
  0 <= Version m <= stored_version s -> RunMigrations ms s = RunMigrations ms' s.
Proof.
  intros H1 H2 Hv Hge. unfold RunMigrations. rewrite H1, H2, <- Hv.
  pose proof (AutoMigrate_ok ["migration_data"] s) as Ha. unfold wp, mbind, Go_bind, try in *.
  destruct (mig_AutoMigrate ["migration_data"] s) as [[] s1|e s1|x s1]; [|done..]. rename Ha into Hr1.
  pose proof (Begin_ok s1) as Hb. unfold wp in Hb. destruct (mig_Begin s1) as [[] s2|e s2|x s2]; [|done..].
  destruct Hb as [Hr2 _]. pose proof (mig_First_ok s2) as Hf. unfold wp in Hf.
  destruct (mig_First s2) as [ex s3|e s3|x s3]; [| |done].
  - destruct Hf as (_ & _ & Hex). rewrite (proj2 (Z.leb_le _ _)); [done|].
    unfold stored_version in Hge. rewrite <- Hr1, <- Hr2, Hex in Hge. lia.
  - destruct Hf as (_ & _ & _ & Hnf). case_bool_decide as He; [|done]. exfalso. subst e.
    unfold stored_version in Hge. rewrite <- Hr1, <- Hr2, (Hnf eq_refl) in Hge. lia.
Qed.

(** *** The migrations leave the version row to the runner *)
Lemma DB_ok_bind {A B} (m : Go S A) (k : A -> Go S B) :
  DB_ok mig_row m -> (forall a, DB_ok mig_row (k a)) -> DB_ok mig_row (m ≫= k).
Proof.
  intros Hm Hk s. apply wp_bind. eapply wp_mono; [apply Hm| |done].
  intros a s1 Hr. eapply wp_mono; [apply Hk| |].
  - intros b s2 Hr'. congruence.
  - intros e s2 [Hr' Hn]. split; [congruence|done].
Qed.

Lemma DB_ok_fail {A} e : DB_ok (A:=A) mig_row (fail e).
Proof. intros s. by apply wp_fail. Qed.

Lemma DB_ok_exec a b : DB_ok mig_row (exec_by_dialect a b).
Proof. apply DB_ok_bind; [by intros s|]. intros q. apply Exec_ok. Qed.

Lemma DB_ok_drop i t : DB_ok mig_row (dropIndex i t).
Proof.
  intros s. apply wp_bind, wp_try. eapply wp_mono; [apply DB_ok_exec|done|].
  intros [e|] s' [Hr Hn]; [|done]. by apply wp_ret.
Qed.

Lemma DB_ok_create a b : DB_ok mig_row (create_tcp_index a b).
Proof. apply DB_ok_exec. Qed.

#[local] Hint Resolve AutoMigrate_ok Exec_ok FindGroups_ok DB_ok_fail DB_ok_exec DB_ok_drop DB_ok_create : migdb.

(** Walks a migration's body. *)
Ltac DB_ok_tac :=
  repeat first
    [ solve [auto with migdb]
    | apply DB_ok_bind; [|intros ?]
    | match goal with |- DB_ok _ (match ?x with _ => _ end) => destruct x as [[]|] end ].

Lemma quiet_InitializeMigrations : quiet_runs InitializeMigrations.
Proof. repeat (constructor; [simpl; DB_ok_tac|]). constructor. Qed.

Lemma InitializeMigrations_ascending : ascending (InitializeMigrations (S:=S)).
Proof. unfold ascending, versions. simpl. repeat (constructor; [|repeat (constructor; [lia|]); constructor]). constructor. Qed.
End Facts.

(** ** An in-memory database *)
Record MemMig := mkMemMig {
  mm_dialect : string;
  mm_row : option MigrationData;
  mm_pending : option MigrationData;
  mm_groups : list RouterGroupDB;
  mm_log : list string;        (* what was executed *)
  mm_failing : list string     (* statements that fail *)
}.

Definition mm_exec (q : string) : Go MemMig unit := fun s =>
  if bool_decide (q ∈ mm_failing s) then Fail (ext_error q) s
  else Ok tt (mkMemMig (mm_dialect s) (mm_row s) (mm_pending s) (mm_groups s) (mm_log s ++ [q]) (mm_failing s)).

Definition mm_set (row pending : option MigrationData) (s : MemMig) : MemMig :=
  mkMemMig (mm_dialect s) row pending (mm_groups s) (mm_log s) (mm_failing s).

#[export] Instance MemMig_Client : MigClient MemMig := {|
  mig_dialect := mm_dialect;
  mig_AutoMigrate ts := mm_exec ("AUTOMIGRATE " +:+ Join " " ts);
  mig_ExecWithError := mm_exec;
  mig_FindGroups s := Ok (mm_groups s) s;
  mig_Begin s := Ok tt (mm_set (mm_row s) None s);
  mig_First s := match mm_row s with Some d => Ok d s | None => Fail gorm_ErrRecordNotFound s end;
  mig_tx_Create d s := Ok tt (mm_set (mm_row s) (Some d) s);
  mig_tx_Save d s := Ok tt (mm_set (mm_row s) (Some d) s);
  mig_Commit s := Ok tt (mm_set (match mm_pending s with Some d => Some d | None => mm_row s end) None s);
  mig_Rollback s := Ok tt (mm_set (mm_row s) None s);
  mig_Save d s := Ok tt (mm_set (Some d) (mm_pending s) s)
|}.

#[export] Program Instance MemMig_Laws : MigLaws MemMig := {| mig_row := mm_row; mig_pending := mm_pending |}.
Next Obligation. intros ts s. unfold wp. simpl. unfold mm_exec. by case_bool_decide. Qed.
Next Obligation. intros ts s. unfold wp. simpl. unfold mm_exec. by case_bool_decide. Qed.
Next Obligation. by intros s. Qed.
Next Obligation. by intros s. Qed.
Next Obligation. intros s. unfold wp. simpl. by destruct (mm_row s) eqn:E. Qed.
Next Obligation. by intros d s. Qed.
Next Obligation. by intros d s. Qed.
Next Obligation. by intros s. Qed.
Next Obligation. by intros s. Qed.
Next Obligation. by intros d s. Qed.
