(* ===== verification/Gorm.v ===== *)
(** Gorm: how gorm (vendor/gorm.io/gorm/schema) makes columns out of the Go
    structs of models/ and of their historical copies under migration/v0 to v7:
    the settings of a tag, the name of a column, its default.  Fields are listed
    with their gorm tags, embedded structs in place. *)
From Stdlib Require Import ZArith Lia Ascii.
From stdpp Require Import base option strings gmap list.
From S2P Require Import Prelude GoStrings.

Local Open Scope string_scope.
Local Open Scope list_scope.
Local Open Scope Z_scope.

(** ** Text *)

Definition upper (c : ascii) : ascii :=
  let n := nat_of_ascii c in
  if (97 <=? n)%nat && (n <=? 122)%nat then ascii_of_nat (n - 32) else c.

Fixpoint map_string (f : ascii -> ascii) (s : string) : string :=
  match s with EmptyString => "" | String c s' => String (f c) (map_string f s') end.

(** [strings.ToUpper] and [strings.ToLower] on ASCII. *)
Definition ToUpper : string -> string := map_string upper.
Definition ToLower : string -> string := map_string lower.

(** Tab, line feed, vertical tab, form feed, carriage return, blank. *)
Definition is_blank (c : ascii) : bool :=
  let n := nat_of_ascii c in bool_decide (n = 32)%nat || (9 <=? n)%nat && (n <=? 13)%nat.

Fixpoint trim_left (s : string) : string :=
  match s with
  | String c s' => if is_blank c then trim_left s' else s
  | EmptyString => ""
  end.

Fixpoint trim_right (s : string) : string :=
  match s with
  | EmptyString => ""
  | String c s' =>
      match trim_right s' with
      | EmptyString => if is_blank c then "" else String c ""
      | t => String c t
      end
  end.

(** [strings.TrimSpace] on ASCII. *)
Definition TrimSpace (s : string) : string := trim_right (trim_left s).

Definition is_upper (c : ascii) : bool :=
  let n := nat_of_ascii c in (65 <=? n)%nat && (n <=? 90)%nat.

Definition is_digit (c : ascii) : bool :=
  let n := nat_of_ascii c in (48 <=? n)%nat && (n <=? 57)%nat.

(** ** Column names *)

Definition commonInitialisms : list string :=
  ["API"; "ASCII"; "CPU"; "CSS"; "DNS"; "EOF"; "GUID"; "HTML"; "HTTP"; "HTTPS"; "ID"; "IP"; "JSON"; "LHS";
   "QPS"; "RAM"; "RHS"; "RPC"; "SLA"; "SMTP"; "SSH"; "TLS"; "TTL"; "UID"; "UI"; "UUID"; "URI"; "URL"; "UTF8";
   "VM"; "XML"; "XSRF"; "XSS"].

(** [cases.Title(language.Und)] of one word. *)
Definition Title (s : string) : string :=
  match s with EmptyString => "" | String c s' => String (upper c) (ToLower s') end.

(** [strings.NewReplacer]: at each position the first pair, in the order of
    the arguments, whose old string starts there. *)
Fixpoint replace_words (fuel : nat) (words : list string) (s : string) : string :=
  match fuel, s with
  | S fuel', String c s' =>
      match filter (fun w => HasPrefix s w = true) words with
      | w :: _ => Title w +:+ replace_words fuel' words (drop_string (String.length w) s)
      | [] => String c (replace_words fuel' words s')
      end
  | _, _ => ""
  end.

(** The loop of [toDBName] over the rest [s] of the name: [prev] is the byte
    before it, [lastCase] and [curCase] say whether that byte and the next one
    are upper case. *)
Fixpoint db_name_loop (prev : option ascii) (lastCase curCase : bool) (s : string) : string :=
  match s with
  | EmptyString => ""
  | String c EmptyString =>
      if curCase then (if negb lastCase && bool_decide (is_Some prev) then "_" else "") +:+ String (lower c) ""
      else String c ""
  | String c ((String d _) as s') =>
      let nextCase := is_upper d in
      let out :=
        if curCase then
          if lastCase && (nextCase || is_digit d) then String (lower c) ""
          else (if bool_decide (is_Some prev) && bool_decide (prev <> Some "_"%char) && bool_decide (d <> "_"%char)
                then "_" else "") +:+ String (lower c) ""
        else String c "" in
      out +:+ db_name_loop (Some c) curCase nextCase s'
  end.

(** [NamingStrategy.toDBName] of the default strategy. *)
Definition toDBName (name : string) : string :=
  match replace_words (String.length name) commonInitialisms name with
  | EmptyString => ""
  | String c s as value => db_name_loop None false (is_upper c) value
  end.

(** ** Tags *)

(** [s] without the backslash at its end, if it has one. *)
Fixpoint strip_backslash (s : string) : option string :=
  match s with
  | EmptyString => None
  | String c EmptyString => if bool_decide (c = "\"%char) then Some "" else None
  | String c s' => String c <$> strip_backslash s'
  end.

(** Joins a part that ends with a backslash to the next one. *)
Fixpoint join_escaped (sep : string) (parts : list string) : list string :=
  match parts with
  | [] => []
  | s :: rest =>
      match strip_backslash s, join_escaped sep rest with
      | Some s', r :: rs => (s' +:+ sep +:+ r) :: rs
      | _, rs => s :: rs
      end
  end.

(** [strings.ReplaceAll] of a backslash and a quote by the quote. *)
Fixpoint unescape_quotes (s : string) : string :=
  match s with
  | String c ((String d _) as s') =>
      if bool_decide (c = "\"%char) && bool_decide (d = "034"%char) then unescape_quotes s'
      else String c (unescape_quotes s')
  | _ => s
  end.

(** [ParseTagSetting(tag, ";")]. *)
Definition ParseTagSetting (tag : string) : gmap string string :=
  foldl (fun (m : gmap string string) (part : string) =>
    match Split ":" part with
    | [] => m
    | [k] => let k := TrimSpace (ToUpper k) in if bool_decide (k = "") then m else <[k := k]> m
    | k :: vs => <[TrimSpace (ToUpper k) := unescape_quotes (Join ":" vs)]> m
    end) ∅ (join_escaped ";" (Split ";" tag)).

(** A setting, empty when there is none. *)
Definition setting (settings : gmap string string) (k : string) : string := default "" (settings !! k).

(** [utils.CheckTruth]. *)
Definition CheckTruth (vals : list string) : bool :=
  existsb (fun val => bool_decide (val <> "") && negb (EqualFold val "false")) vals.

(** ** Fields and columns *)

(** The kind of a field's type behind a pointer. *)
Inductive GoKind := KString | KInt | KUint | KBool | KTime.

Record GoField := mkField { F_Name : string; F_Kind : GoKind; F_Tag : string }.

(** What a column holds. *)
Inductive SqlVal := VNull | VInt (z : Z) | VText (s : string) | VBool (b : bool) | VTime (t : Z).

#[export] Instance GoKind_eq_dec : EqDecision GoKind.
Proof. solve_decision. Defined.
#[export] Instance SqlVal_eq_dec : EqDecision SqlVal.
Proof. solve_decision. Defined.

Record Column := mkColumn {
  C_Name : string;
  C_Kind : GoKind;
  C_PrimaryKey : bool;
  C_NotNull : bool;
  C_Size : Z;
  C_Type : string;                  (* the setting TYPE *)
  C_Indexed : bool;                 (* one of the settings INDEX and UNIQUE *)
  C_HasDefault : bool;              (* HasDefaultValue *)
  C_DefaultValue : option SqlVal    (* DefaultValueInterface *)
}.

(** [strconv.ParseBool]. *)
Definition ParseBool (s : string) : option bool :=
  if bool_decide (s ∈ ["1"; "t"; "T"; "TRUE"; "true"; "True"]) then Some true
  else if bool_decide (s ∈ ["0"; "f"; "F"; "FALSE"; "false"; "False"]) then Some false
  else None.

(** [strings.Trim(s, c)] of one character. *)
Definition trim_char (c : ascii) (s : string) : string :=
  let fix left (s : string) := match s with String d s' => if bool_decide (d = c) then left s' else s | EmptyString => "" end in
  let fix right (s : string) :=
    match s with
    | EmptyString => ""
    | String d s' => match right s' with
                     | EmptyString => if bool_decide (d = c) then "" else String d ""
                     | t => String d t
                     end
    end in right (left s).

(** [DefaultValueInterface]: none for a default that is null, empty or an
    expression.  Numbers are decimal; the default of a time is left out. *)
Definition default_value (kind : GoKind) (text : string) : option SqlVal :=
  if ContainsAny text "(" && ContainsAny text ")" || bool_decide (ToLower text = "null") || bool_decide (text = "")
  then None
  else match kind with
       | KBool => VBool <$> ParseBool text
       | KInt | KUint => VInt <$> Atoi text
       | KString => Some (VText (trim_char "034" (trim_char "'" text)))
       | KTime => None
       end.

(** [Schema.ParseField] on the types of these structs. *)
Definition ParseField (f : GoField) : Column :=
  let settings := ParseTagSetting (F_Tag f) in
  let get := setting settings in
  mkColumn (if bool_decide (get "COLUMN" = "") then toDBName (F_Name f) else get "COLUMN") (F_Kind f)
    (CheckTruth [get "PRIMARYKEY"; get "PRIMARY_KEY"]) (CheckTruth [get "NOT NULL"; get "NOTNULL"])
    (match settings !! "SIZE" with Some n => default (-1) (Atoi n) | None => 0 end) (get "TYPE")
    (bool_decide (get "INDEX" <> "") || bool_decide (get "UNIQUE" <> ""))
    (CheckTruth [get "AUTOINCREMENT"] || bool_decide (is_Some (settings !! "DEFAULT")))
    (match settings !! "DEFAULT" with Some d => default_value (F_Kind f) (TrimSpace d) | None => None end).

Definition Columns (fields : list GoField) : list Column := ParseField <$> fields.
#[global] Arguments Columns : simpl never.

(** The fields for which [Schema.ParseIndexes] makes an index: the setting
    unique_index of the structs is not one of them. *)
Definition indexed_fields (fields : list GoField) : list GoField :=
  filter (fun f => let settings := ParseTagSetting (F_Tag f) in
                   setting settings "INDEX" <> "" \/ setting settings "UNIQUEINDEX" <> "") fields.

(** Whether MySQL's type of a string column (driver/mysql,
    [getSchemaStringType], without a default string size) is longtext. *)
Definition is_longtext (c : Column) : bool :=
  let size := if bool_decide (C_Size c = 0) && (C_PrimaryKey c || C_HasDefault c || C_Indexed c) then 191 else C_Size c in
  bool_decide (C_Kind c = KString) && bool_decide (C_Type c = "") && ((2 ^ 24 <? size) || (size <=? 0)).

(** ** The structs *)

Definition Model_fields : list GoField :=
  [mkField "Guid" KString "primary_key"; mkField "CreatedAt" KTime ""; mkField "UpdatedAt" KTime ""].

Definition ModificationTag_fields : list GoField :=
  [mkField "Guid" KString "column:modification_guid"; mkField "Index" KUint "column:modification_index"].

Definition RouterGroupDB_fields : list GoField :=
  Model_fields ++ [mkField "Name" KString ""; mkField "Type" KString ""; mkField "ReservablePorts" KString ""].

Definition Route_fields : list GoField :=
  Model_fields ++ [mkField "ExpiresAt" KTime ""] ++
  [mkField "Route" KString "not null; unique_index:idx_route";
   mkField "Port" KUint "not null; unique_index:idx_route; size:32";
   mkField "IP" KString "not null; unique_index:idx_route";
   mkField "TTL" KInt ""; mkField "LogGuid" KString "";
   mkField "RouteServiceUrl" KString "not null; unique_index:idx_route"] ++ ModificationTag_fields.

Definition Tcp_fields : list GoField :=
  Model_fields ++ [mkField "ExpiresAt" KTime ""] ++
  [mkField "RouterGroupGuid" KString "not null; unique_index:idx_tcp_route";
   mkField "HostPort" KUint "not null; unique_index:idx_tcp_route; type:int; size:32";
   mkField "HostTLSPort" KInt "default:null; unique_index:idx_tcp_route; type:int";
   mkField "HostIP" KString "not null; unique_index:idx_tcp_route";
   mkField "SniHostname" KString "default:null; unique_index:idx_tcp_route";
   mkField "SniRewriteHostname" KString "default:null";
   mkField "InstanceId" KString "null; default:null;";
   mkField "ExternalPort" KUint "not null; unique_index:idx_tcp_route; type:int; size:32"] ++
  ModificationTag_fields ++
  [mkField "TTL" KInt ""; mkField "IsolationSegment" KString "";
   mkField "TerminateFrontendTLS" KBool "default:false"; mkField "ALPNs" KString "";
   mkField "EnableBackendMTLS" KBool "default:false; unique_index:idx_tcp_route"].

Definition MigrationData_fields : list GoField :=
  [mkField "MigrationKey" KString "primary_key"; mkField "CurrentVersion" KInt ""; mkField "TargetVersion" KInt ""].

(** *** migration/v0 to migration/v7 *)

Module V0.
Definition Model_fields : list GoField :=
  [mkField "Guid" KString "primary_key"; mkField "CreatedAt" KTime ""; mkField "UpdatedAt" KTime ""].

Definition ModificationTag_fields : list GoField :=
  [mkField "Guid" KString "column:modification_guid"; mkField "Index" KUint "column:modification_index"].

Definition Tcp_fields : list GoField :=
  Model_fields ++ [mkField "ExpiresAt" KTime ""] ++
  [mkField "RouterGroupGuid" KString "";
   mkField "HostPort" KUint "not null; unique_index:idx_tcp_route; type:int; size:32";
   mkField "HostIP" KString "not null; unique_index:idx_tcp_route";
   mkField "ExternalPort" KUint "not null; unique_index:idx_tcp_route; type:int; size:32"] ++
  ModificationTag_fields ++ [mkField "TTL" KInt ""].

Definition Route_fields : list GoField :=
  Model_fields ++ [mkField "ExpiresAt" KTime ""] ++
  [mkField "Route" KString "not null; unique_index:idx_route";
   mkField "Port" KUint "not null; unique_index:idx_route; size:32";
   mkField "IP" KString "not null; unique_index:idx_route";
   mkField "TTL" KInt ""; mkField "LogGuid" KString "";
   mkField "RouteServiceUrl" KString "not null; unique_index:idx_route"] ++ ModificationTag_fields.

Definition RouterGroupDB_fields : list GoField :=
  Model_fields ++ [mkField "Name" KString ""; mkField "Type" KString ""; mkField "ReservablePorts" KString ""].
End V0.

Module V5.
Definition Tcp_fields : list GoField :=
  Model_fields ++ [mkField "ExpiresAt" KTime ""] ++
  [mkField "RouterGroupGuid" KString "not null; unique_index:idx_tcp_route";
   mkField "HostPort" KUint "not null; unique_index:idx_tcp_route; type:int; size:32";
   mkField "HostIP" KString "not null; unique_index:idx_tcp_route";
   mkField "SniHostname" KString "default:null; unique_index:idx_tcp_route";
   mkField "ExternalPort" KUint "not null; unique_index:idx_tcp_route; type:int; size:32"] ++
  ModificationTag_fields ++ [mkField "TTL" KInt ""; mkField "IsolationSegment" KString ""].

Definition Route_fields : list GoField :=
  Model_fields ++ [mkField "ExpiresAt" KTime ""] ++
  [mkField "Route" KString "not null; unique_index:idx_route";
   mkField "Port" KUint "not null; unique_index:idx_route";
   mkField "IP" KString "not null; unique_index:idx_route";
   mkField "TTL" KInt ""; mkField "LogGuid" KString "";
   mkField "RouteServiceUrl" KString "not null; unique_index:idx_route"] ++ ModificationTag_fields.
End V5.

Module V6.
Definition Tcp_fields : list GoField :=
  Model_fields ++ [mkField "ExpiresAt" KTime ""] ++
  [mkField "RouterGroupGuid" KString "not null; unique_index:idx_tcp_route";
   mkField "HostPort" KUint "not null; unique_index:idx_tcp_route; type:int";
   mkField "HostTLSPort" KInt "default:null; unique_index:idx_tcp_route; type:int";
   mkField "HostIP" KString "not null; unique_index:idx_tcp_route";
   mkField "SniHostname" KString "default:null; unique_index:idx_tcp_route";
   mkField "InstanceId" KString "not null;";
   mkField "ExternalPort" KUint "not null; unique_index:idx_tcp_route; type: int"] ++
  ModificationTag_fields ++ [mkField "TTL" KInt ""; mkField "IsolationSegment" KString ""].
End V6.

Module V7.
Definition Tcp_fields : list GoField :=
  Model_fields ++ [mkField "ExpiresAt" KTime ""] ++
  [mkField "RouterGroupGuid" KString "not null; unique_index:idx_tcp_route";
   mkField "HostPort" KUint "not null; unique_index:idx_tcp_route; type:int";
   mkField "HostTLSPort" KInt "default:null; unique_index:idx_tcp_route; type:int";
   mkField "HostIP" KString "not null; unique_index:idx_tcp_route";
   mkField "SniHostname" KString "default:null; unique_index:idx_tcp_route";
   mkField "InstanceId" KString "null; default:null;";
   mkField "ExternalPort" KUint "not null; unique_index:idx_tcp_route; type: int"] ++
  ModificationTag_fields ++ [mkField "TTL" KInt ""; mkField "IsolationSegment" KString ""].

Definition Route_fields : list GoField :=
  Model_fields ++ [mkField "ExpiresAt" KTime ""] ++
  [mkField "Route" KString "not null; unique_index:idx_route";
   mkField "Port" KUint "not null; unique_index:idx_route";
   mkField "IP" KString "not null; unique_index:idx_route";
   mkField "TTL" KInt ""; mkField "LogGuid" KString "";
   mkField "RouteServiceUrl" KString "not null; unique_index:idx_route"] ++ ModificationTag_fields.
End V7.

(** ** What the names come to *)
Definition names (fields : list GoField) : list string := C_Name <$> Columns fields.

Lemma Tcp_column_names : names Tcp_fields =
  ["guid"; "created_at"; "updated_at"; "expires_at"; "router_group_guid"; "host_port"; "host_tls_port"; "host_ip";
   "sni_hostname"; "sni_rewrite_hostname"; "instance_id"; "external_port"; "modification_guid";
   "modification_index"; "ttl"; "isolation_segment"; "terminate_frontend_tls"; "alp_ns"; "enable_backend_m_tls"].
Proof. vm_compute. reflexivity. Qed.

Lemma Route_column_names : names Route_fields =
  ["guid"; "created_at"; "updated_at"; "expires_at"; "route"; "port"; "ip"; "ttl"; "log_guid";
   "route_service_url"; "modification_guid"; "modification_index"].
Proof. vm_compute. reflexivity. Qed.

(** No struct has an index that gorm knows of. *)
Lemma no_gorm_indexes :
  Forall (fun fs => indexed_fields fs = [])
    [RouterGroupDB_fields; Route_fields; Tcp_fields; MigrationData_fields; V0.Tcp_fields; V0.Route_fields;
     V5.Tcp_fields; V6.Tcp_fields; V7.Tcp_fields].
Proof. repeat constructor. Qed.
