(* ===== verification/Schema.v ===== *)
(** Schema: the tables of a SQL database as the migrations see them: columns
    with their defaults, rows, unique indexes, the statements that migration/
    executes, gorm's AutoMigrate and Create, and the database as a client of the
    migrations.

    Of a column's type only what an index has to know on MySQL is kept (whether it
    is a longtext); nullability is not.  AutoMigrate of these models then comes to:
    create a missing table, add the missing columns, and give the others the
    model's default and type (vendor/gorm.io/gorm/migrator, AutoMigrate and
    MigrateColumn, and AlterColumn of the two drivers). *)
From Stdlib Require Import ZArith Lia Ascii.
From stdpp Require Import base option strings gmap list.
From S2P Require Import Prelude GoStrings RouterGroups Routes Gorm Migration.

Local Open Scope string_scope.
Local Open Scope list_scope.
Local Open Scope Z_scope.

(** ** Tables *)

Notation SqlRow := (gmap string SqlVal).

Record ColDef := mkColDef { cd_default : SqlVal; cd_longtext : bool }.

(** An index: its columns, each with the prefix length if there is one. *)
Notation IndexDef := (list (string * option Z)).

Record Table := mkTable {
  t_cols : gmap string ColDef;
  t_rows : list SqlRow;
  t_idx : gmap string IndexDef
}.

#[export] Instance ColDef_eq_dec : EqDecision ColDef.
Proof. solve_decision. Defined.

(** [sd_text n s] is what the database compares of a text [s] in an index with
    prefix length [n], or in a comparison when there is none: it depends on the
    collation and on what a character is. *)
Record Sdb := mkSdb {
  sd_dialect : string;
  sd_text : option Z -> string -> string;
  sd_tables : gmap string Table;
  sd_row : option MigrationData;
  sd_pending : option MigrationData
}.

Definition set_tables (ts : gmap string Table) (s : Sdb) : Sdb :=
  mkSdb (sd_dialect s) (sd_text s) ts (sd_row s) (sd_pending s).

Definition is_mysql (s : Sdb) : bool := bool_decide (sd_dialect s = "mysql").

(** The value of a column; a column a row does not have is NULL. *)
Definition col (c : string) (r : SqlRow) : SqlVal := default VNull (r !! c).

(** *** Unique indexes *)
Section Index.
Variable text : option Z -> string -> string.

Definition comparable (p : option Z) (v : SqlVal) : SqlVal :=
  match v with VText s => VText (text p s) | _ => v end.

(** The key of a row in an index; a row with a NULL in it has none. *)
Fixpoint index_key (ix : IndexDef) (r : SqlRow) : option (list SqlVal) :=
  match ix with
  | [] => Some []
  | (c, p) :: ix' =>
      match col c r with
      | VNull => None
      | v => (comparable p v ::.) <$> index_key ix' r
      end
  end.

(** No two rows with the same key. *)
Definition unique (ix : IndexDef) (rows : list SqlRow) : Prop := NoDup (omap (index_key ix) rows).

#[export] Instance unique_dec ix rows : Decision (unique ix rows).
Proof. unfold unique. apply _. Defined.
End Index.

(** ** Statements *)

Inductive Stmt :=
| DropIndexOn (name table : string)
| DropIndexIfExists (name : string)
| CreateUniqueIndex (name table : string) (ix : IndexDef)
| ModifyColumn (table column type : string) (dflt : SqlVal)
| SetDefault (table column : string) (dflt : SqlVal)
| UpdateNulls (table column : string) (v : SqlVal).

Definition parse_value (s : string) : option SqlVal :=
  if bool_decide (s = "NULL") then Some VNull else VInt <$> Atoi s.

(** [name] or [name(length)]. *)
Definition parse_column (s : string) : option (string * option Z) :=
  match Split "(" (TrimSpace s) with
  | [c] => Some (c, None)
  | [c; p] => match Split ")" p with [n; ""] => (fun n => (c, Some n)) <$> Atoi n | _ => None end
  | _ => None
  end.

(** [(a, b(10), c)]. *)
Definition parse_columns (s : string) : option IndexDef :=
  match s with
  | String "(" s' =>
      mapM parse_column (Split "," (String.substring 0 (String.length s' - 1) s'))
  | _ => None
  end.

Definition parse_words (ws : list string) : option Stmt :=
  match ws with
  | ["DROP"; "INDEX"; "IF"; "EXISTS"; n] => Some (DropIndexIfExists n)
  | ["DROP"; "INDEX"; n; "ON"; t] => Some (DropIndexOn n t)
  | "CREATE" :: "UNIQUE" :: "INDEX" :: n :: "ON" :: t :: cols =>
      CreateUniqueIndex n t <$> parse_columns (Join " " cols)
  | ["ALTER"; "TABLE"; t; "MODIFY"; "COLUMN"; c; ty; "DEFAULT"; v] => ModifyColumn t c ty <$> parse_value v
  | ["ALTER"; "TABLE"; t; "ALTER"; "COLUMN"; c; "SET"; "DEFAULT"; v] => SetDefault t c <$> parse_value v
  | ["UPDATE"; t; "SET"; c; "="; v; "WHERE"; c'; "IS"; "NULL"] =>
      if bool_decide (c' = c) then UpdateNulls t c <$> parse_value v else None
  | _ => None
  end.

Definition parse_stmt (q : string) : option Stmt := parse_words (Split " " q).

(** *** Their effect on one table; [None] is an error of the server. *)

Definition drop_index (n : string) (t : Table) : Table := mkTable (t_cols t) (t_rows t) (delete n (t_idx t)).

(** MySQL wants a prefix length for a longtext (error 1170); PostgreSQL has no
    prefix lengths. *)
Definition indexable (mysql : bool) (cols : gmap string ColDef) (part : string * option Z) : bool :=
  match cols !! fst part with
  | None => false
  | Some d => if mysql then bool_decide (cd_longtext d = true -> is_Some (snd part))
              else bool_decide (snd part = None)
  end.

Definition create_index (mysql : bool) (text : option Z -> string -> string) (n : string) (ix : IndexDef) (t : Table)
    : option Table :=
  if bool_decide (t_idx t !! n = None) && forallb (indexable mysql (t_cols t)) ix && bool_decide (unique text ix (t_rows t))
  then Some (mkTable (t_cols t) (t_rows t) (<[n := ix]> (t_idx t)))
  else None.

Definition set_default (c : string) (d : ColDef) (t : Table) : option Table :=
  match t_cols t !! c with
  | None => None
  | Some _ => Some (mkTable (<[c := d]> (t_cols t)) (t_rows t) (t_idx t))
  end.

Definition keep_type (c : string) (v : SqlVal) (t : Table) : ColDef :=
  mkColDef v (match t_cols t !! c with Some d => cd_longtext d | None => false end).

Definition update_nulls (c : string) (v : SqlVal) (t : Table) : option Table :=
  match t_cols t !! c with
  | None => None
  | Some _ => Some (mkTable (t_cols t)
                (map (fun r => if bool_decide (col c r = VNull) then <[c := v]> r else r) (t_rows t)) (t_idx t))
  end.

Definition sql_error (q : string) : error := ext_error ("Error in " +:+ q).

(** Runs [f] on a table that must exist. *)
Definition on_table (name q : string) (f : Table -> option Table) : Go Sdb unit := fun s =>
  match sd_tables s !! name with
  | None => Fail (sql_error q) s
  | Some t => match f t with
              | None => Fail (sql_error q) s
              | Some t' => Ok tt (set_tables (<[name := t']> (sd_tables s)) s)
              end
  end.

(** An index of PostgreSQL is named in the schema, one of MySQL in its table. *)
Definition index_taken (s : Sdb) (n : string) : bool :=
  negb (is_mysql s) && bool_decide (map_Exists (fun _ t => is_Some (t_idx t !! n)) (sd_tables s)).

Definition run_stmt (q : string) (st : Stmt) : Go Sdb unit := fun s =>
  let mysql := is_mysql s in
  match st with
  | DropIndexOn n t =>
      if mysql then on_table t q (fun t => if bool_decide (is_Some (t_idx t !! n)) then Some (drop_index n t) else None) s
      else Fail (sql_error q) s
  | DropIndexIfExists n =>
      if mysql then Fail (sql_error q) s else Ok tt (set_tables (drop_index n <$> sd_tables s) s)
  | CreateUniqueIndex n t ix =>
      if index_taken s n then Fail (sql_error q) s else on_table t q (create_index mysql (sd_text s) n ix) s
  | ModifyColumn t c ty v =>
      if mysql then on_table t q (set_default c (mkColDef v (bool_decide (ty = "longtext")))) s
      else Fail (sql_error q) s
  | SetDefault t c v => on_table t q (fun t => set_default c (keep_type c v t) t) s
  | UpdateNulls t c v => on_table t q (update_nulls c v) s
  end.

Definition sql_exec (q : string) : Go Sdb unit := fun s =>
  match parse_stmt q with
  | Some st => run_stmt q st s
  | None => Fail (sql_error q) s
  end.

(** ** AutoMigrate *)

(** The default of a model's column in the database: NULL when the tag says
    null or nothing. *)
Definition col_default (c : Column) : SqlVal := default VNull (C_DefaultValue c).

Definition model_cols (cs : list Column) : gmap string ColDef :=
  list_to_map ((fun c => (C_Name c, mkColDef (col_default c) (is_longtext c))) <$> cs).

Definition model_defaults (cs : list Column) : SqlRow :=
  list_to_map ((fun c => (C_Name c, col_default c)) <$> cs).

(** MySQL refuses to make a longtext of a column that an index has without a
    prefix length. *)
Definition blocks_longtext (cs : list Column) (ix : IndexDef) : bool :=
  existsb (fun part => bool_decide (snd part = None) &&
    existsb (fun c => bool_decide (C_Name c = fst part) && is_longtext c) cs) ix.

Definition alterable (mysql : bool) (cs : list Column) (t : Table) : bool :=
  negb mysql || forallb (fun p => negb (blocks_longtext cs (snd p))) (map_to_list (t_idx t)).

Definition migrate_table (cs : list Column) (t : Table) : Table :=
  mkTable (model_cols cs ∪ t_cols t) ((fun r => r ∪ model_defaults cs) <$> t_rows t) (t_idx t).

Definition new_table (cs : list Column) : Table := mkTable (model_cols cs) [] ∅.

(** The columns of the models that the migrations pass to AutoMigrate. *)
Definition model_of (table : string) : list Column :=
  if bool_decide (table = "router_groups") then Columns RouterGroupDB_fields
  else if bool_decide (table = "tcp_routes") then Columns Tcp_fields
  else if bool_decide (table = "routes") then Columns Route_fields
  else Columns MigrationData_fields.

Definition auto_migrate (name : string) : Go Sdb unit := fun s =>
  let cs := model_of name in
  match sd_tables s !! name with
  | None => Ok tt (set_tables (<[name := new_table cs]> (sd_tables s)) s)
  | Some t => if alterable (is_mysql s) cs t
              then Ok tt (set_tables (<[name := migrate_table cs t]> (sd_tables s)) s)
              else Fail (sql_error ("ALTER TABLE " +:+ name)) s
  end.

(** ** The database as a client of the migrations *)

Definition text_of (v : SqlVal) : string := match v with VText s => s | _ => "" end.

Definition group_of_row (r : SqlRow) : RouterGroupDB :=
  mkRouterGroupDB (mkModel (text_of (col "guid" r)) zero_time zero_time) (text_of (col "name" r))
    (text_of (col "type" r)) (text_of (col "reservable_ports" r)).

Definition set_version (row pending : option MigrationData) (s : Sdb) : Sdb :=
  mkSdb (sd_dialect s) (sd_text s) (sd_tables s) row pending.

#[export] Instance Sdb_Client : MigClient Sdb := {|
  mig_dialect := sd_dialect;
  mig_AutoMigrate ts := for_each ts auto_migrate;
  mig_ExecWithError := sql_exec;
  mig_FindGroups s :=
    match sd_tables s !! "router_groups" with
    | None => Fail (sql_error "SELECT * FROM router_groups") s
    | Some t => Ok (group_of_row <$> t_rows t) s
    end;
  mig_Begin s := Ok tt (set_version (sd_row s) None s);
  mig_First s := match sd_row s with Some d => Ok d s | None => Fail gorm_ErrRecordNotFound s end;
  mig_tx_Create d s := Ok tt (set_version (sd_row s) (Some d) s);
  mig_tx_Save d s := Ok tt (set_version (sd_row s) (Some d) s);
  mig_Commit s := Ok tt (set_version (match sd_pending s with Some d => Some d | None => sd_row s end) None s);
  mig_Rollback s := Ok tt (set_version (sd_row s) None s);
  mig_Save d s := Ok tt (set_version (Some d) (sd_pending s) s)
|}.
