(* ===== verification/SchemaFacts.v ===== *)
(** SchemaFacts: what a database of schema version [v] looks like, and that each
    migration takes a database of the version before to one of its own. *)
From Stdlib Require Import ZArith Lia Ascii.
From stdpp Require Import base option strings gmap list.
From S2P Require Import Prelude GoStrings RouterGroups Routes Gorm Migration Schema.

Local Open Scope string_scope.
Local Open Scope list_scope.
Local Open Scope Z_scope.

(** ** The unique indexes *)

(** The columns of idx_tcp_route at version [v]; before V4, those V4 will index. *)
Definition key_cols (v : Z) : list string :=
  ["router_group_guid"; "host_port"; "host_ip"; "external_port"] ++
  (if 5 <=? v then ["sni_hostname"] else []) ++ (if 6 <=? v then ["host_tls_port"] else []) ++
  (if 9 <=? v then ["terminate_frontend_tls"] else []) ++ (if 11 <=? v then ["enable_backend_m_tls"] else []).

(** With MySQL's prefix lengths for the text columns. *)
Definition with_prefix (my : bool) (c : string) : string * option Z :=
  (c, if my && bool_decide (c ∈ ["router_group_guid"; "host_ip"; "sni_hostname"; "name"]) then Some 191 else None).

Definition tcp_index (my : bool) (v : Z) : IndexDef := with_prefix my <$> key_cols v.

#[global] Arguments key_cols : simpl never.
#[global] Arguments tcp_index : simpl never.

Definition name_index (my : bool) : IndexDef := [with_prefix my "name"].

(** The row V8 makes of a row. *)
Definition zero_tls (r : SqlRow) : SqlRow :=
  if bool_decide (col "host_tls_port" r = VNull) then <["host_tls_port" := VInt 0]> r else r.

(** ** Rows and keys *)
Section Keys.
Variable text : option Z -> string -> string.
Implicit Types (ix : IndexDef) (r : SqlRow).

Lemma index_key_app ix ix' r k :
  index_key text (ix ++ ix') r = Some k -> index_key text ix r = Some (take (length ix) k).
Proof.
  revert k. induction ix as [|[c p] ix IH]; intros k; [done|]. simpl.
  destruct (col c r); try done; destruct (index_key text (ix ++ ix') r) as [k'|]; try done;
    intros [= <-]; by rewrite (IH k' eq_refl).
Qed.

(** The key depends on the columns of the index only. *)
Lemma index_key_ext ix r r' k :
  index_key text ix r' = Some k ->
  (forall c p, (c, p) ∈ ix -> col c r' <> VNull -> col c r = col c r') -> index_key text ix r = Some k.
Proof.
  revert k. induction ix as [|[c p] ix IH]; intros k; [done|]. simpl. intros Hk Hc.
  assert (col c r' <> VNull) as Hn by (intros E; by rewrite E in Hk).
  rewrite (Hc c p) by (done || left). destruct (col c r') as [|z|t|b|n]; [done|..];
    (destruct (index_key text ix r') as [k'|]; [|done]; injection Hk as <-;
     rewrite (IH k' eq_refl); [done|]; intros c' p' Hin; apply (Hc c' p'); by right).
Qed.

Lemma key_not_null ix r k c p : index_key text ix r = Some k -> (c, p) ∈ ix -> col c r <> VNull.
Proof.
  revert k. induction ix as [|[c' p'] ix IH]; intros k; [by rewrite elem_of_nil|]. simpl. intros Hk.
  rewrite elem_of_cons. intros [[= <- <-]|Hin]; [intros E; by rewrite E in Hk|].
  destruct (col c' r); try done; destruct (index_key text ix r) as [k'|]; try done; by eapply IH.
Qed.

(** Rows that are unique under some keys are unique under keys that determine
    them. *)
Lemma NoDup_omap_weaken {A} (k1 k2 : A -> option (list SqlVal)) (f : list SqlVal -> list SqlVal) (l : list A) :
  (forall x k, x ∈ l -> k2 x = Some k -> k1 x = Some (f k)) -> NoDup (omap k1 l) -> NoDup (omap k2 l).
Proof.
  induction l as [|x l IH]; intros Hf; simpl; [done|]. intros Hnd.
  assert (NoDup (omap k2 l)) as Hl.
  { apply IH; [intros y k Hy; apply Hf; by right|]. destruct (k1 x); [by apply NoDup_cons in Hnd as [_ ?]|done]. }
  destruct (k2 x) as [k|] eqn:E; [|done]. apply NoDup_cons. split; [|done].
  rewrite (Hf x k (list_elem_of_here _ _) E) in Hnd. apply NoDup_cons in Hnd as [Hnot _].
  rewrite list_elem_of_omap. intros (y & Hy & Ey). apply Hnot, list_elem_of_omap.
  exists y. split; [done|]. apply Hf; [by right|done].
Qed.

Lemma omap_fmap {A B C} (f : A -> B) (g : B -> option C) (l : list A) : omap g (f <$> l) = omap (g ∘ f) l.
Proof. induction l as [|x l IH]; [done|]. csimpl. by rewrite IH. Qed.

Lemma unique_fmap ix f (rows : list SqlRow) : unique text ix (f <$> rows) <-> NoDup (omap (index_key text ix ∘ f) rows).
Proof. unfold unique. by rewrite omap_fmap. Qed.
End Keys.

Lemma key_cols_prefix v v' : v <= v' -> key_cols v `prefix_of` key_cols v'.
Proof.
  intros Hv. unfold key_cols. apply prefix_app.
  repeat match goal with |- context [?k <=? ?x] => destruct (Z.leb_spec k x) end; try lia;
    simpl; by (eexists; simpl; reflexivity).
Qed.

Lemma tcp_index_app my v v' : v <= v' -> exists ix, tcp_index my v' = tcp_index my v ++ ix.
Proof.
  intros Hv. destruct (key_cols_prefix v v' Hv) as [l Hl]. exists (with_prefix my <$> l).
  unfold tcp_index. by rewrite Hl, fmap_app.
Qed.

Lemma zero_tls_ne c r : c <> "host_tls_port" -> zero_tls r !! c = r !! c.
Proof. intros Hc. unfold zero_tls. case_bool_decide; [|done]. by rewrite lookup_insert_ne. Qed.

Lemma zero_tls_keep r : col "host_tls_port" r <> VNull -> zero_tls r = r.
Proof. intros H. unfold zero_tls. by rewrite bool_decide_eq_false_2. Qed.

Lemma zero_tls_idemp r : zero_tls (zero_tls r) = zero_tls r.
Proof.
  apply zero_tls_keep. unfold zero_tls. case_bool_decide; [|done]. unfold col. by rewrite lookup_insert_eq.
Qed.

Lemma zero_tls_col c r : col c r <> VNull -> col c (zero_tls r) = col c r.
Proof.
  intros Hn. destruct (decide (c = "host_tls_port")) as [->|Hc]; [by rewrite zero_tls_keep|].
  unfold col. by rewrite zero_tls_ne.
Qed.

(** Unique rows stay unique when columns are added to the index and to the rows. *)
Lemma unique_grow my text v v' (f : SqlRow -> SqlRow) (rows : list SqlRow) :
  v <= v' ->
  (forall r c, r ∈ rows -> c ∈ key_cols v -> col c (f r) <> VNull -> col c (zero_tls r) = col c (f r)) ->
  unique text (tcp_index my v) (zero_tls <$> rows) -> unique text (tcp_index my v') (f <$> rows).
Proof.
  intros Hv Hf. rewrite !unique_fmap. destruct (tcp_index_app my v v' Hv) as [ix Hix].
  apply (NoDup_omap_weaken _ _ (take (length (tcp_index my v)))). intros r k Hr Hk. unfold compose in *.
  rewrite Hix in Hk. apply index_key_app in Hk. eapply index_key_ext; [exact Hk|].
  intros c p Hc. apply Hf; [done|]. unfold tcp_index in Hc. apply list_elem_of_fmap in Hc as (c' & [= <- _] & Hc). done.
Qed.

Lemma unique_now my text v (rows : list SqlRow) :
  unique text (tcp_index my v) (zero_tls <$> rows) -> unique text (tcp_index my v) rows.
Proof.
  intros Hu. rewrite <- (list_fmap_id rows). apply (unique_grow my text v v id rows); [lia| |done].
  intros r c _ _ Hn. by apply zero_tls_col.
Qed.

(** ** A database of version [v] *)

(** The struct of migration/ that describes the table tcp_routes of version [v]. *)
Definition model_at (v : Z) : list GoField :=
  if v <? 5 then V0.Tcp_fields else if v <? 6 then V5.Tcp_fields else if v <? 7 then V6.Tcp_fields
  else V7.Tcp_fields.

Definition has_columns (fields : list GoField) (t : Table) : Prop :=
  Forall (fun c => is_Some (t_cols t !! c)) (names fields).

(** Every row has a value in every column. *)
Definition full_rows (t : Table) : Prop :=
  Forall (fun r : SqlRow => forall c, is_Some (t_cols t !! c) -> is_Some (r !! c)) (t_rows t).

Section Version.
Variables (my : bool) (text : option Z -> string -> string).

(** tcp_routes: it has the columns of its version, the index of its version
    (none after V8), and rows that this index tells apart once V8 has run.  No
    other index stands in the way of AutoMigrate; before V3, none at all does. *)
Record tcp_ok (v : Z) (t : Table) : Prop := {
  to_columns : 0 <= v -> has_columns (model_at v) t;
  to_full : full_rows t;
  to_indexable : 0 <= v -> forallb (indexable my (t_cols t)) (tcp_index my v) = true;
  to_alterable : alterable my (Columns Tcp_fields) (drop_index "idx_tcp_route" t) = true;
  to_alterable_early : v < 3 -> alterable my (Columns Tcp_fields) t = true;
  to_unique : unique text (tcp_index my v) (zero_tls <$> t_rows t);
  to_index : 4 <= v -> v <> 8 -> t_idx t !! "idx_tcp_route" = Some (tcp_index my v);
  to_latest : 11 <= v -> model_cols (Columns Tcp_fields) ⊆ t_cols t
}.

Record groups_ok (v : Z) (t : Table) : Prop := {
  go_columns : 0 <= v -> has_columns RouterGroupDB_fields t;
  go_full : full_rows t;
  go_indexable : 0 <= v -> forallb (indexable my (t_cols t)) (name_index my) = true;
  go_alterable : v < 0 -> alterable my (Columns RouterGroupDB_fields) t = true;
  go_names : Forall (fun r => exists n, col "name" r = VText n) (t_rows t);
  go_unique : unique text (name_index my) (t_rows t);
  go_index : 2 <= v -> t_idx t !! "idx_rg_name" = Some (name_index my)
}.

Record routes_ok (v : Z) (t : Table) : Prop := {
  ro_columns : 0 <= v -> has_columns Route_fields t;
  ro_alterable : v < 0 -> alterable my (Columns Route_fields) t = true
}.

(** A table there is must be in order; before V0 it may be missing. *)
Definition table_ok (P : Z -> Table -> Prop) (v : Z) (o : option Table) : Prop :=
  match o with Some t => P v t | None => v < 0 end.

Record tables_ok (v : Z) (ts : gmap string Table) : Prop := {
  ts_tcp : table_ok tcp_ok v (ts !! "tcp_routes");
  ts_groups : table_ok groups_ok v (ts !! "router_groups");
  ts_routes : table_ok routes_ok v (ts !! "routes")
}.
End Version.

Definition schema_at (v : Z) (s : Sdb) : Prop := tables_ok (is_mysql s) (sd_text s) v (sd_tables s).

(** What the migrations leave of a row: every value, except that V8 turns a NULL TLS
    port into 0; a column that is new has the default [d] of the model. *)
Record row_kept (d r r' : SqlRow) : Prop := {
  rk_old : forall c x, r !! c = Some x ->
    r' !! c = Some x \/ (c = "host_tls_port" /\ x = VNull /\ r' !! c = Some (VInt 0));
  rk_new : forall c x, r !! c = None -> r' !! c = Some x ->
    d !! c = Some x \/ (c = "host_tls_port" /\ x = VInt 0)
}.

Definition defaults_of (table : string) : SqlRow := model_defaults (model_of table).

Definition rows_kept (s s' : Sdb) : Prop :=
  forall n t, sd_tables s !! n = Some t ->
    exists t', sd_tables s' !! n = Some t' /\ Forall2 (row_kept (defaults_of n)) (t_rows t) (t_rows t').

(** The same server. *)
Definition same_server (s s' : Sdb) : Prop := sd_dialect s' = sd_dialect s /\ sd_text s' = sd_text s.

Definition migrated (v : Z) (s s' : Sdb) : Prop := schema_at v s' /\ same_server s s' /\ rows_kept s s'.

#[export] Instance row_kept_refl d : Reflexive (row_kept d).
Proof. intros r. split; [by left|]. intros c x H1 H2. by rewrite H1 in H2. Qed.

#[export] Instance row_kept_trans d : Transitive (row_kept d).
Proof.
  intros r1 r2 r3 [O12 N12] [O23 N23]. split; intros c x H.
  - destruct (O12 c x H) as [H2|(-> & -> & H2)]; [apply (O23 c x H2)|].
    right. split_and!; [done..|]. by destruct (O23 _ _ H2) as [?|(_ & [=] & _)].
  - intros H3. destruct (r2 !! c) as [y|] eqn:E; [|by apply (N23 c x)].
    destruct (O23 c y E) as [E3|(-> & -> & E3)]; rewrite H3 in E3; injection E3 as ->; [by apply N12|by right].
Qed.

#[export] Instance rows_kept_refl : Reflexive rows_kept.
Proof. intros s n t H. exists t. split; [done|]. reflexivity. Qed.

#[export] Instance rows_kept_trans : Transitive rows_kept.
Proof.
  intros s1 s2 s3 H12 H23 n t H. destruct (H12 n t H) as (t2 & H2 & F2).
  destruct (H23 n t2 H2) as (t3 & H3 & F3). exists t3. split; [done|]. by etrans.
Qed.

#[export] Instance same_server_refl : Reflexive same_server.
Proof. done. Qed.

#[export] Instance same_server_trans : Transitive same_server.
Proof. intros s1 s2 s3 [? ?] [? ?]. split; congruence. Qed.

Lemma same_server_mysql s s' : same_server s s' -> is_mysql s' = is_mysql s.
Proof. intros [H _]. unfold is_mysql. by rewrite H. Qed.

Lemma migrated_trans v1 v2 s1 s2 s3 : migrated v1 s1 s2 -> migrated v2 s2 s3 -> migrated v2 s1 s3.
Proof. intros (_ & ? & ?) (? & ? & ?). split_and!; [done|by etrans..]. Qed.

(** ** Tables under the statements *)
Section TableFacts.
Variables (my : bool) (text : option Z -> string -> string).
Implicit Types (t : Table) (cs : list Column).

Lemma alterable_drop cs n t : alterable my cs t = true -> alterable my cs (drop_index n t) = true.
Proof.
  unfold alterable. rewrite !orb_true_iff, !forallb_forall. intros [H|H]; [by left|right].
  intros [k ix] Hin. apply H. apply list_elem_of_In, elem_of_map_to_list.
  apply list_elem_of_In, elem_of_map_to_list in Hin. simpl in Hin. apply lookup_delete_Some in Hin. tauto.
Qed.

Lemma drop_index_drop n t : drop_index n (drop_index n t) = drop_index n t.
Proof. unfold drop_index. simpl. by rewrite delete_delete_eq. Qed.

Lemma drop_index_comm n m t : drop_index n (drop_index m t) = drop_index m (drop_index n t).
Proof. unfold drop_index. simpl. by rewrite delete_delete. Qed.

Lemma model_cols_names fields : forall c, c ∈ names fields -> is_Some (model_cols (Columns fields) !! c).
Proof.
  intros c Hc. unfold model_cols. unfold names in Hc. apply list_elem_of_fmap in Hc as (x & -> & Hx).
  apply not_eq_None_Some. intros Hn. apply not_elem_of_list_to_map in Hn. apply Hn.
  rewrite <- list_fmap_compose. apply list_elem_of_fmap. by exists x.
Qed.

Lemma model_defaults_cols cs c : is_Some (model_cols cs !! c) -> is_Some (model_defaults cs !! c).
Proof.
  intros H. apply not_eq_None_Some. intros Hn. apply not_elem_of_list_to_map in Hn.
  apply not_eq_None_Some in H. apply H. apply not_elem_of_list_to_map. intros Hin. apply Hn.
  rewrite <- !list_fmap_compose in *. exact Hin.
Qed.

Lemma model_defaults_none cs c d : model_cols cs !! c = Some d -> model_defaults cs !! c = Some (cd_default d).
Proof.
  unfold model_cols, model_defaults. induction cs as [|x cs IH]; csimpl; [done|].
  destruct (decide (C_Name x = c)) as [->|Hne]; [|by rewrite !lookup_insert_ne].
  rewrite !lookup_insert_eq. by intros [= <-].
Qed.

(** *** AutoMigrate *)
Lemma migrate_names fields t c : c ∈ names fields -> is_Some (t_cols (migrate_table (Columns fields) t) !! c).
Proof. intros Hc. apply lookup_union_is_Some. left. by apply model_cols_names. Qed.

Lemma migrate_has_columns fields t : has_columns fields (migrate_table (Columns fields) t).
Proof. apply Forall_forall. intros c. apply migrate_names. Qed.

Lemma migrate_full cs t : full_rows t -> full_rows (migrate_table cs t).
Proof.
  unfold full_rows. simpl. rewrite Forall_fmap. intros Hf. eapply Forall_impl; [exact Hf|]. intros r Hr c Hc. simpl.
  apply lookup_union_is_Some in Hc as [Hc|Hc]; apply lookup_union_is_Some.
  - right. by apply model_defaults_cols.
  - left. by apply Hr.
Qed.

Lemma migrate_rows_kept cs t : Forall2 (row_kept (model_defaults cs)) (t_rows t) (t_rows (migrate_table cs t)).
Proof.
  simpl. apply Forall2_fmap_r. apply Forall_Forall2_diag, Forall_true. intros r. split; intros c x H.
  - left. by apply lookup_union_Some_l.
  - rewrite lookup_union_r by done. by left.
Qed.

Lemma indexable_union cols cols' part : indexable my cols part = true -> indexable my (cols ∪ cols') part = true.
Proof.
  unfold indexable. destruct (cols !! fst part) as [d|] eqn:E; [|done]. by rewrite (lookup_union_Some_l _ _ _ _ E).
Qed.

Lemma migrate_indexable cs t ix :
  forallb (indexable my (model_cols cs)) ix = true ->
  forallb (indexable my (t_cols (migrate_table cs t))) ix = true.
Proof. rewrite !forallb_forall. intros H x Hx. by apply indexable_union, H. Qed.

Lemma migrate_col cs t r c : full_rows t -> r ∈ t_rows t -> is_Some (t_cols t !! c) -> col c (r ∪ model_defaults cs) = col c r.
Proof.
  intros Hf Hr Hc. pose proof (proj1 (Forall_forall _ _) Hf r Hr c Hc) as [x Hx].
  unfold col. by rewrite Hx, (lookup_union_Some_l _ _ _ _ Hx).
Qed.

(** A key column of an indexable index is a column. *)
Lemma indexable_column cols ix c p : forallb (indexable my cols) ix = true -> (c, p) ∈ ix -> is_Some (cols !! c).
Proof.
  rewrite forallb_forall. intros H Hin. specialize (H (c, p) (proj1 (list_elem_of_In _ _) Hin)).
  unfold indexable in H. simpl in H. by destruct (cols !! c).
Qed.
End TableFacts.

(** ** The table tcp_routes from version to version *)
Section TcpTable.
Variables (my : bool) (text : option Z -> string -> string).
Implicit Types (t : Table).

Notation tcp_cs := (Columns Tcp_fields).

Lemma current_indexable v : forallb (indexable my (model_cols tcp_cs)) (tcp_index my v) = true.
Proof.
  unfold tcp_index, key_cols. destruct my, (5 <=? v), (6 <=? v), (9 <=? v), (11 <=? v); vm_compute; reflexivity.
Qed.

Lemma model_at_current v c : c ∈ names (model_at v) -> c ∈ names Tcp_fields.
Proof.
  assert (forall fs, bool_decide (Forall (fun c => c ∈ names Tcp_fields) (names fs)) = true ->
    c ∈ names fs -> c ∈ names Tcp_fields) as H.
  { intros fs E. apply bool_decide_eq_true in E. intros Hc. by apply (proj1 (Forall_forall _ _) E). }
  unfold model_at. repeat case_match; apply H; vm_compute; reflexivity.
Qed.

Lemma early_default c : c ∈ key_cols (-1) -> col c (model_defaults tcp_cs) = VNull.
Proof.
  intros Hc. assert (Forall (fun c => col c (model_defaults tcp_cs) = VNull) (key_cols (-1))) as H by by_evaluation.
  by eapply Forall_forall in H.
Qed.

Lemma tls_default : model_defaults tcp_cs !! "host_tls_port" = Some VNull.
Proof. vm_compute. reflexivity. Qed.

(** Adding columns and then zeroing the TLS port changes no key column. *)
Lemma migrated_key v t r c :
  full_rows t -> (0 <= v -> forallb (indexable my (t_cols t)) (tcp_index my v) = true) ->
  r ∈ t_rows t -> c ∈ key_cols v -> col c (zero_tls (r ∪ model_defaults tcp_cs)) <> VNull ->
  col c (zero_tls r) = col c (zero_tls (r ∪ model_defaults tcp_cs)).
Proof.
  intros Hf Hix Hr Hc. destruct (decide (c = "host_tls_port")) as [->|Hne].
  - intros _. unfold zero_tls, col. destruct (r !! "host_tls_port") as [x|] eqn:E.
    + rewrite (lookup_union_Some_l _ _ _ _ E). simpl. case_bool_decide; rewrite ?lookup_insert_eq; [done|].
      by rewrite E, (lookup_union_Some_l _ _ _ _ E).
    + rewrite lookup_union_r, tls_default by done. simpl. by rewrite !lookup_insert_eq.
  - unfold col. rewrite !zero_tls_ne by done. destruct (r !! c) as [x|] eqn:E.
    { by rewrite (lookup_union_Some_l _ _ _ _ E). }
    rewrite lookup_union_r by done. intros Hn. exfalso. destruct (Z.ltb_spec v 0) as [Hv|Hv].
    + apply Hn. assert (c ∈ key_cols (-1)) as Hc'.
      { unfold key_cols in Hc |- *. rewrite !(proj2 (Z.leb_gt _ _)) in Hc by lia. exact Hc. }
      apply (early_default c Hc').
    + destruct (indexable_column my _ _ c (snd (with_prefix my c)) (Hix Hv)) as [d Hd].
      { apply list_elem_of_fmap. by exists c. }
      destruct (proj1 (Forall_forall _ _) Hf r Hr c (mk_is_Some _ _ Hd)) as [x Hx]. congruence.
Qed.

Lemma migrated_unique v v' t :
  v <= v' -> full_rows t -> (0 <= v -> forallb (indexable my (t_cols t)) (tcp_index my v) = true) ->
  unique text (tcp_index my v) (zero_tls <$> t_rows t) ->
  unique text (tcp_index my v') (zero_tls <$> t_rows (migrate_table tcp_cs t)).
Proof.
  intros Hv Hf Hix Hu. simpl. rewrite <- list_fmap_compose. apply (unique_grow my text v v'); [done| |done].
  intros r c Hr Hc. unfold compose. by apply (migrated_key v t).
Qed.

Lemma drop_same t n : t_cols (drop_index n t) = t_cols t /\ t_rows (drop_index n t) = t_rows t.
Proof. done. Qed.

(** V0 and V3: AutoMigrate alone. *)
Lemma tcp_ok_migrate v v' t :
  v <= v' <= 3 -> v < 3 -> tcp_ok my text v t -> tcp_ok my text v' (migrate_table tcp_cs t).
Proof.
  intros Hv Hv3 [H1 H2 H3 H4 H5 H6 H7 H8]. split; try lia.
  - intros _. apply Forall_forall. intros c Hc%model_at_current. by apply migrate_names.
  - by apply migrate_full.
  - intros _. apply migrate_indexable, current_indexable.
  - exact H4.
  - intros _. by apply H5.
  - eapply migrated_unique; eauto. lia.
Qed.

Definition reindex v t : Table :=
  mkTable (t_cols t) (t_rows t) (<["idx_tcp_route" := tcp_index my v]> (delete "idx_tcp_route" (t_idx t))).

Lemma create_reindex v t :
  forallb (indexable my (t_cols t)) (tcp_index my v) = true ->
  unique text (tcp_index my v) (zero_tls <$> t_rows t) ->
  create_index my text "idx_tcp_route" (tcp_index my v) (drop_index "idx_tcp_route" t) = Some (reindex v t).
Proof.
  intros Hix Hu%unique_now. unfold create_index, drop_index. cbn [t_idx t_cols t_rows]. rewrite lookup_delete_eq, Hix.
  by rewrite !bool_decide_eq_true_2.
Qed.

Lemma reindex_alterable cs v t :
  alterable my cs (drop_index "idx_tcp_route" (reindex v t)) = alterable my cs (drop_index "idx_tcp_route" t).
Proof. unfold alterable, reindex, drop_index. simpl. by rewrite delete_insert_eq, delete_delete_eq. Qed.

(** V5, V6, V9, V10 and V11: AutoMigrate and a new index. *)
Lemma tcp_ok_rebuild v v' t :
  0 <= v -> v < v' -> 5 <= v' <= 11 -> tcp_ok my text v t -> tcp_ok my text v' (reindex v' (migrate_table tcp_cs t)).
Proof.
  intros H0 Hv Hv' [H1 H2 H3 H4 H5 H6 H7 H8]. split; try lia.
  - intros _. apply Forall_forall. intros c Hc%model_at_current. by apply migrate_names.
  - by apply migrate_full.
  - intros _. apply (migrate_indexable my tcp_cs t), current_indexable.
  - rewrite reindex_alterable. exact H4.
  - eapply migrated_unique; eauto. lia.
  - intros _ _. simpl. by rewrite lookup_insert_eq.
  - intros _. simpl. apply map_union_subseteq_l.
Qed.

(** V4 and V7: a new index. *)
Lemma tcp_ok_reindex v v' t :
  0 <= v -> 3 <= v' < 11 -> key_cols v' = key_cols v ->
  (forall c, c ∈ names (model_at v') -> c ∈ names (model_at v)) ->
  tcp_ok my text v t -> tcp_ok my text v' (reindex v' t).
Proof.
  intros H0 Hv' Hk Hm [H1 H2 H3 H4 H5 H6 H7 H8].
  assert (tcp_index my v' = tcp_index my v) as Hix by (unfold tcp_index; by rewrite Hk). split; try lia.
  - intros _. apply Forall_forall. intros c Hc%Hm. by apply (proj1 (Forall_forall _ _) (H1 H0)).
  - exact H2.
  - intros _. rewrite Hix. by apply H3.
  - by rewrite reindex_alterable.
  - rewrite Hix. exact H6.
  - intros _ _. simpl. by rewrite lookup_insert_eq.
Qed.

(** A changed default (V7 and V8) matters neither to columns nor to rows. *)
Lemma tcp_ok_default v c d t :
  v < 11 -> is_Some (t_cols t !! c) -> (cd_longtext d = true -> c ∉ key_cols v \/ keep_type c VNull t = mkColDef VNull true) ->
  tcp_ok my text v t -> tcp_ok my text v (mkTable (<[c := d]> (t_cols t)) (t_rows t) (t_idx t)).
Proof.
  intros Hv Hc Hd [H1 H2 H3 H4 H5 H6 H7 H8]. split; [| | |exact H4|exact H5|exact H6|exact H7|lia].
  - intros H0. eapply Forall_impl; [exact (H1 H0)|]. intros x Hx. simpl. apply lookup_insert_is_Some'. by right.
  - eapply Forall_impl; [exact H2|]. intros r Hr x Hx. apply Hr. simpl in Hx.
    apply lookup_insert_is_Some in Hx as [<-|[_ Hx]]; done.
  - intros H0. specialize (H3 H0). revert H3. rewrite !forallb_forall. intros H3 part Hin.
    specialize (H3 part Hin). unfold indexable in *. simpl.
    destruct (decide (fst part = c)) as [<-|Hne]; [|by rewrite lookup_insert_ne].
    rewrite lookup_insert_eq. destruct (t_cols t !! fst part) as [d0|] eqn:E; [|done].
    destruct my; [|done]. apply bool_decide_eq_true in H3. apply bool_decide_eq_true. intros Hl.
    destruct (Hd Hl) as [Hn|Hkeep].
    + exfalso. apply Hn. apply list_elem_of_In in Hin. unfold tcp_index in Hin.
      apply list_elem_of_fmap in Hin as (x & -> & Hx). done.
    + apply H3. unfold keep_type in Hkeep. rewrite E in Hkeep. by injection Hkeep.
Qed.

(** V8: the rows, no index, and then a default. *)
Lemma tcp_ok_zero v v' t :
  v = 7 -> v' = 8 -> tcp_ok my text v t ->
  tcp_ok my text v' (mkTable (t_cols t) (zero_tls <$> t_rows t) (delete "idx_tcp_route" (t_idx t))).
Proof.
  intros -> -> [H1 H2 H3 H4 H5 H6 H7 H8]. split; try lia; simpl.
  - intros _. by apply H1.
  - unfold full_rows. simpl. rewrite Forall_fmap. eapply Forall_impl; [exact H2|]. intros r Hr c Hc. simpl.
    destruct (decide (c = "host_tls_port")) as [->|Hne]; [|rewrite zero_tls_ne by done; by apply Hr].
    unfold zero_tls. case_bool_decide; [rewrite lookup_insert_eq; by eexists|by apply Hr].
  - intros _. by apply H3.
  - unfold alterable, drop_index in *. simpl in *. rewrite delete_delete_eq. exact H4.
  - rewrite <- list_fmap_compose. rewrite (list_fmap_ext (zero_tls ∘ zero_tls) zero_tls (t_rows t)); [exact H6|].
    intros i x _. apply zero_tls_idemp.
Qed.
End TcpTable.

(** ** The other two tables *)
Section OtherTables.
Variables (my : bool) (text : option Z -> string -> string).
Implicit Types (t : Table).

Lemma groups_ok_migrate v t :
  v < 0 -> groups_ok my text v t -> groups_ok my text 0 (migrate_table (Columns RouterGroupDB_fields) t).
Proof.
  intros Hv [H1 H2 H3 H4 H5 H6 H7]. split; try lia.
  - intros _. apply migrate_has_columns.
  - by apply migrate_full.
  - intros _. apply (migrate_indexable my). destruct my; vm_compute; reflexivity.
  - simpl. rewrite Forall_fmap. eapply Forall_impl; [exact H5|]. intros r [n Hn]. exists n. simpl.
    unfold col in *. destruct (r !! "name") as [x|] eqn:E; [|done]. by rewrite (lookup_union_Some_l _ _ _ _ E).
  - simpl. rewrite unique_fmap. refine (NoDup_omap_weaken _ _ id _ _ H6). intros r k Hr. unfold compose, id.
    destruct (proj1 (Forall_forall _ _) H5 r Hr) as [n Hn]. intros Hk. eapply index_key_ext; [exact Hk|].
    intros c p Hc _. apply list_elem_of_singleton in Hc as [= -> ->]. unfold col in *.
    destruct (r !! "name") as [x|] eqn:E; [|done]. by rewrite (lookup_union_Some_l _ _ _ _ E).
Qed.

Lemma groups_ok_bump v v' t : 2 <= v <= v' -> groups_ok my text v t -> groups_ok my text v' t.
Proof. intros Hv [H1 H2 H3 H4 H5 H6 H7]. split; try done; try lia; intros _; [apply H1|apply H3|apply H7]; lia. Qed.

Lemma groups_ok_drop v t : groups_ok my text v t -> groups_ok my text v (drop_index "idx_tcp_route" t).
Proof.
  intros [H1 H2 H3 H4 H5 H6 H7]. split; try done.
  - intros Hv. by apply alterable_drop, H4.
  - intros Hv. simpl. rewrite lookup_delete_ne by done. by apply H7.
Qed.

(** V2. *)
Lemma groups_ok_index v t :
  0 <= v -> groups_ok my text v t ->
  create_index my text "idx_rg_name" (name_index my) (drop_index "idx_rg_name" t) =
    Some (mkTable (t_cols t) (t_rows t) (<["idx_rg_name" := name_index my]> (delete "idx_rg_name" (t_idx t)))) /\
  groups_ok my text 2 (mkTable (t_cols t) (t_rows t) (<["idx_rg_name" := name_index my]> (delete "idx_rg_name" (t_idx t)))).
Proof.
  intros Hv [H1 H2 H3 H4 H5 H6 H7]. split.
  - unfold create_index, drop_index. cbn [t_idx t_cols t_rows]. rewrite lookup_delete_eq, (H3 Hv).
    by rewrite !bool_decide_eq_true_2.
  - split; try done; try lia; [intros _; by apply H1|intros _; by apply H3|]. intros _. apply lookup_insert_eq.
Qed.

Lemma tcp_ok_drop_name v t : tcp_ok my text v t -> tcp_ok my text v (drop_index "idx_rg_name" t).
Proof.
  intros [H1 H2 H3 H4 H5 H6 H7 H8].
  split; [exact H1|exact H2|exact H3| | |exact H6| |exact H8].
  - rewrite drop_index_comm. by apply alterable_drop.
  - intros Hv. by apply alterable_drop, H5.
  - intros. simpl. rewrite lookup_delete_ne by done. by apply H7.
Qed.

Lemma tcp_ok_early v v' t : 0 <= v <= v' -> v' < 3 -> tcp_ok my text v t -> tcp_ok my text v' t.
Proof.
  intros Hv Hv' [H1 H2 H3 H4 H5 H6 H7 H8].
  assert (model_at v' = model_at v) as Hm by (unfold model_at; by rewrite !(proj2 (Z.ltb_lt _ _)) by lia).
  assert (tcp_index my v' = tcp_index my v) as Hix
    by (unfold tcp_index, key_cols; by rewrite !(proj2 (Z.leb_gt _ _)) by lia).
  split; try lia; [intros _; rewrite Hm; apply H1; lia|exact H2|intros _; rewrite Hix; apply H3; lia|exact H4
    |intros _; apply H5; lia|by rewrite Hix].
Qed.

Lemma routes_ok_migrate v t : routes_ok my v t -> routes_ok my 0 (migrate_table (Columns Route_fields) t).
Proof. intros _. split; [|lia]. intros _. apply migrate_has_columns. Qed.

Lemma routes_ok_bump v v' t : 0 <= v <= v' -> routes_ok my v t -> routes_ok my v' t.
Proof. intros Hv [H1 H2]. split; [|lia]. intros _. apply H1. lia. Qed.

Lemma routes_ok_drop v n t : routes_ok my v t -> routes_ok my v (drop_index n t).
Proof. intros [H1 H2]. split; [done|]. intros Hv. by apply alterable_drop, H2. Qed.

(** A new table has no rows and no indexes. *)
Lemma new_tcp_ok : tcp_ok my text 0 (new_table (Columns Tcp_fields)).
Proof.
  split; try lia.
  - intros _. apply Forall_forall. intros c Hc%model_at_current. by apply model_cols_names.
  - constructor.
  - intros _. apply current_indexable.
  - unfold alterable. by rewrite orb_true_r.
  - intros _. unfold alterable. by rewrite orb_true_r.
  - constructor.
Qed.

Lemma new_groups_ok : groups_ok my text 0 (new_table (Columns RouterGroupDB_fields)).
Proof.
  split; [| | |lia|constructor|constructor|lia].
  - intros _. apply Forall_forall. intros c. apply model_cols_names.
  - constructor.
  - intros _. destruct my; vm_compute; reflexivity.
Qed.

Lemma new_routes_ok : routes_ok my 0 (new_table (Columns Route_fields)).
Proof. split; [|lia]. intros _. apply Forall_forall. intros c. apply model_cols_names. Qed.
End OtherTables.
