(* ===== verification/SchemaRun.v ===== *)
(** SchemaRun: the migrations run on the database of [Schema]: each keeps the
    rows and takes a database of the version before it to its own version, and so
    does the run of all of them. *)
From Stdlib Require Import ZArith Lia Ascii Sorted.
From stdpp Require Import base option strings gmap list.
From S2P Require Import Prelude GoStrings RouterGroups Routes Gorm Migration Schema SchemaFacts.

Local Open Scope string_scope.
Local Open Scope list_scope.
Local Open Scope Z_scope.

(** ** The version row is apart from the tables *)
Definition row_apart {A} (m : Go Sdb A) : Prop :=
  forall s, wp m s (fun _ s' => sd_row s' = sd_row s) (fun e s' => sd_row s' = sd_row s /\ e <> None).

Lemma on_table_apart n q f : row_apart (on_table n q f).
Proof. intros s. unfold wp, on_table. by destruct (sd_tables s !! n) as [t|]; [destruct (f t)|]. Qed.

Lemma exec_apart q : row_apart (sql_exec q).
Proof.
  intros s. unfold wp, sql_exec. destruct (parse_stmt q) as [st|]; [|done].
  unfold run_stmt. destruct st as [n t|n|n t ix|t c ty d|t c d|t c d];
    [destruct (is_mysql s)|destruct (is_mysql s)|destruct (index_taken s n)|destruct (is_mysql s)| |];
    first [done|apply (on_table_apart _ _ _ s)].
Qed.

Lemma auto_apart ts : row_apart (for_each ts auto_migrate).
Proof.
  induction ts as [|n ts IH]; intros s; simpl; [done|]. apply wp_bind.
  assert (row_apart (auto_migrate n)) as Hn.
  { intros s0. unfold wp, auto_migrate. by destruct (sd_tables s0 !! n) as [t|]; [destruct (alterable _ _ t)|]. }
  eapply wp_mono; [apply Hn| |done]. intros [] s1 H1. eapply wp_mono; [apply IH| |]; simpl.
  - intros [] s2 ->. done.
  - intros e s2 [-> ?]. done.
Qed.

#[export] Program Instance Sdb_Laws : MigLaws Sdb := {| mig_row := sd_row; mig_pending := sd_pending |}.
Next Obligation. exact auto_apart. Qed.
Next Obligation. exact exec_apart. Qed.
Next Obligation. intros s. unfold wp. simpl. by destruct (sd_tables s !! "router_groups"). Qed.
Next Obligation. by intros s. Qed.
Next Obligation. intros s. unfold wp. simpl. by destruct (sd_row s) eqn:E. Qed.
Next Obligation. by intros d s. Qed.
Next Obligation. by intros d s. Qed.
Next Obligation. by intros s. Qed.
Next Obligation. by intros s. Qed.
Next Obligation. by intros d s. Qed.

(** ** Single calls *)

Definition kept_rows (s s' : Sdb) : Prop := same_server s s' /\ rows_kept s s'.

#[export] Instance kept_rows_trans : Transitive kept_rows.
Proof. intros s1 s2 s3 [? ?] [? ?]. split; by etrans. Qed.

Lemma kept_set n t t' s :
  sd_tables s !! n = Some t -> Forall2 (row_kept (defaults_of n)) (t_rows t) (t_rows t') ->
  kept_rows s (set_tables (<[n := t']> (sd_tables s)) s).
Proof.
  intros Hn Hr. split; [done|]. intros m u Hu. simpl. destruct (decide (m = n)) as [->|Hne].
  - rewrite lookup_insert_eq. exists t'. split; [done|]. by simplify_eq.
  - rewrite lookup_insert_ne by done. exists u. split; [done|reflexivity].
Qed.

Lemma kept_new n t s : sd_tables s !! n = None -> kept_rows s (set_tables (<[n := t]> (sd_tables s)) s).
Proof.
  intros Hn. split; [done|]. intros m u Hu. simpl. rewrite lookup_insert_ne by congruence.
  exists u. split; [done|reflexivity].
Qed.

Section Calls.
Implicit Types (s : Sdb) (Q : unit -> Sdb -> Prop) (X : option error -> Sdb -> Prop).

(** A statement on one table. *)
Lemma wp_on_table n q f t t' s Q X :
  sd_tables s !! n = Some t -> f t = Some t' -> Forall2 (row_kept (defaults_of n)) (t_rows t) (t_rows t') ->
  (forall s', kept_rows s s' -> sd_tables s' = <[n := t']> (sd_tables s) -> Q tt s') ->
  wp (on_table n q f) s Q X.
Proof. intros Hn Hf Hr HQ. unfold wp, on_table. rewrite Hn, Hf. apply HQ; [by eapply kept_set|done]. Qed.

Lemma wp_exec q st s Q X : parse_stmt q = Some st -> wp (run_stmt q st) s Q X -> wp (mig_ExecWithError q) s Q X.
Proof. intros Hq H. unfold wp in *. simpl. unfold sql_exec. by rewrite Hq. Qed.

(** The statement for the dialect at hand. *)
Lemma wp_exec_by_dialect a b st s Q X :
  parse_stmt (if is_mysql s then a else b) = Some st ->
  wp (run_stmt (if is_mysql s then a else b) st) s Q X -> wp (exec_by_dialect a b) s Q X.
Proof. intros Hq H. apply wp_bind. by eapply wp_exec. Qed.

(** Dropping an index: on MySQL in the named table, on PostgreSQL by name; a
    failure is ignored. *)
Definition dropped (n name : string) (s s' : Sdb) : Prop :=
  forall x, sd_tables s' !! x =
    if is_mysql s && negb (bool_decide (x = name)) then sd_tables s !! x else drop_index n <$> sd_tables s !! x.

Lemma drop_absent n t : t_idx t !! n = None -> drop_index n t = t.
Proof. intros H. unfold drop_index. rewrite delete_id by done. by destruct t. Qed.

Lemma wp_dropIndex n name s Q X :
  parse_stmt ("DROP INDEX " +:+ n +:+ " ON " +:+ name) = Some (DropIndexOn n name) ->
  parse_stmt ("DROP INDEX IF EXISTS " +:+ n) = Some (DropIndexIfExists n) ->
  (forall s', kept_rows s s' -> dropped n name s s' -> Q tt s') -> wp (dropIndex n name) s Q X.
Proof.
  intros P1 P2 HQ. apply wp_bind, wp_try. destruct (is_mysql s) eqn:My.
  - eapply wp_exec_by_dialect; rewrite My; [exact P1|]. unfold wp, run_stmt, on_table. rewrite My.
    assert (forall t, sd_tables s !! name = t -> (drop_index n <$> t) = t -> Q tt s) as Hsame.
    { intros t Ht Hd. apply HQ; [split; done|]. intros x. rewrite My. case_bool_decide; [|done]. subst. by rewrite Hd. }
    destruct (sd_tables s !! name) as [t|] eqn:E; [|by apply (Hsame None)]. case_bool_decide as Hi.
    + apply HQ; [eapply kept_set; [exact E|reflexivity]|]. intros x. rewrite My. simpl.
      destruct (decide (x = name)) as [->|Hne].
      * by rewrite lookup_insert_eq, bool_decide_eq_true_2, E.
      * by rewrite lookup_insert_ne, bool_decide_eq_false_2 by done.
    + apply (Hsame (Some t)); [done|]. simpl. f_equal. apply drop_absent. by apply eq_None_not_Some.
  - eapply wp_exec_by_dialect; rewrite My; [exact P2|]. unfold wp, run_stmt. rewrite My. apply HQ.
    + split; [done|]. intros x t Ht. simpl. rewrite lookup_fmap, Ht. eexists. split; [done|]. reflexivity.
    + intros x. rewrite My. simpl. by rewrite lookup_fmap.
Qed.

(** After the drop a name is free. *)
Definition free (n : string) (s : Sdb) : Prop :=
  is_mysql s = true \/ forall x t, sd_tables s !! x = Some t -> t_idx t !! n = None.

Lemma free_not_taken n s : free n s -> index_taken s n = false.
Proof.
  unfold index_taken. intros [->|Hf]; [done|]. apply andb_false_iff. right. apply bool_decide_eq_false.
  intros (x & t & Ht & Hi). rewrite (Hf x t Ht) in Hi. by destruct Hi.
Qed.

Lemma dropped_free n name s s' : same_server s s' -> dropped n name s s' -> free n s'.
Proof.
  intros Hs Hd. unfold free. rewrite (same_server_mysql _ _ Hs). destruct (is_mysql s) eqn:My; [by left|right].
  intros x t Ht. rewrite (Hd x), My in Ht. simpl in Ht. destruct (sd_tables s !! x) as [t0|]; [|done].
  injection Ht as <-. apply lookup_delete_eq.
Qed.

Lemma free_insert n x t s s' :
  same_server s s' -> sd_tables s' = <[x := t]> (sd_tables s) -> t_idx t !! n = None -> free n s -> free n s'.
Proof.
  intros Hs Ht Hi [My|Hf]; [left; by rewrite (same_server_mysql _ _ Hs)|right]. intros y u. rewrite Ht.
  rewrite lookup_insert_Some. intros [[<- <-]|[_ Hu]]; [done|by eapply Hf].
Qed.

Lemma wp_auto_one n t s Q X :
  sd_tables s !! n = Some t -> alterable (is_mysql s) (model_of n) t = true ->
  (forall s', kept_rows s s' -> sd_tables s' = <[n := migrate_table (model_of n) t]> (sd_tables s) -> Q tt s') ->
  wp (auto_migrate n) s Q X.
Proof.
  intros Hn Ha HQ. unfold wp, auto_migrate. rewrite Hn, Ha. apply HQ; [|done].
  eapply kept_set; [exact Hn|]. apply migrate_rows_kept.
Qed.

Lemma wp_auto_new n s Q X :
  sd_tables s !! n = None ->
  (forall s', kept_rows s s' -> sd_tables s' = <[n := new_table (model_of n)]> (sd_tables s) -> Q tt s') ->
  wp (auto_migrate n) s Q X.
Proof. intros Hn HQ. unfold wp, auto_migrate. rewrite Hn. apply HQ; [by apply kept_new|done]. Qed.
End Calls.

(** ** The migrations *)

Definition takes (lo : Z) (m : Migration Sdb) : Prop :=
  forall v s, lo <= v < Version m -> schema_at v s ->
    wp (Run m) s (fun _ s' => migrated (Version m) s s') (fun _ _ => False).

(** No TLS port is NULL. *)
Definition tls_set (s : Sdb) : Prop :=
  forall t, sd_tables s !! "tcp_routes" = Some t -> Forall (fun r => col "host_tls_port" r <> VNull) (t_rows t).

(** The same, with what V8 does to the TLS ports. *)
Definition takes_tls (lo : Z) (m : Migration Sdb) : Prop :=
  forall v s, lo <= v < Version m -> schema_at v s ->
    wp (Run m) s (fun _ s' => migrated (Version m) s s' /\ (Version m = 8 -> tls_set s')) (fun _ _ => False).

Lemma takes_other lo m : Version m <> 8 -> takes lo m -> takes_tls lo m.
Proof. intros Hm Ht v s Hv Hok. eapply wp_mono; [by apply (Ht v)| |done]. intros [] s' Hs'. by split. Qed.

Lemma tls_set_kept s s' : is_Some (sd_tables s !! "tcp_routes") -> rows_kept s s' -> tls_set s -> tls_set s'.
Proof.
  intros [t Ht] Hk Hs t' Ht'. destruct (Hk _ t Ht) as (t2 & Ht2 & Hr). simplify_eq. specialize (Hs t Ht).
  induction Hr as [|r r' rows rows' [Hold _] _ IH]; [constructor|]. apply Forall_cons in Hs as [Hr Hs].
  constructor; [|by apply IH]. unfold col in *. destruct (r !! "host_tls_port") as [x|] eqn:E; [|done].
  destruct (Hold _ _ E) as [->|(_ & -> & _)]; [done|by destruct Hr].
Qed.

(** The two tables that most migrations leave alone. *)
Definition others_ok (v : Z) (s : Sdb) : Prop :=
  table_ok (groups_ok (is_mysql s) (sd_text s)) v (sd_tables s !! "router_groups") /\
  table_ok (routes_ok (is_mysql s)) v (sd_tables s !! "routes").

Lemma schema_parts v s : 0 <= v -> schema_at v s ->
  (exists t, sd_tables s !! "tcp_routes" = Some t /\ tcp_ok (is_mysql s) (sd_text s) v t) /\ others_ok v s.
Proof.
  intros Hv [H1 H2 H3]. split; [|done]. destruct (sd_tables s !! "tcp_routes") as [t|]; [by exists t|].
  unfold table_ok in H1. lia.
Qed.

Lemma others_bump v v' s : 2 <= v <= v' -> others_ok v s -> others_ok v' s.
Proof.
  intros Hv [H1 H2]. unfold others_ok, table_ok in *. split.
  - destruct (sd_tables s !! "router_groups"); [|lia]. eapply groups_ok_bump; [|exact H1]. lia.
  - destruct (sd_tables s !! "routes"); [|lia]. eapply routes_ok_bump; [|exact H2]. lia.
Qed.

Lemma others_same v s s' : same_server s s' ->
  (forall x, x <> "tcp_routes" -> sd_tables s' !! x = sd_tables s !! x) -> others_ok v s -> others_ok v s'.
Proof.
  intros Hs Hx [H1 H2]. unfold others_ok. rewrite (same_server_mysql _ _ Hs), (proj2 Hs), !Hx by done. done.
Qed.

Lemma others_dropped v s s' : same_server s s' -> dropped "idx_tcp_route" "tcp_routes" s s' ->
  others_ok v s -> others_ok v s'.
Proof.
  intros Hs Hd [H1 H2]. unfold others_ok. rewrite (same_server_mysql _ _ Hs), (proj2 Hs), !Hd. simpl.
  rewrite andb_true_r. destruct (is_mysql s); [done|]. unfold table_ok in *. split.
  - destruct (sd_tables s !! "router_groups"); [|done]. by apply groups_ok_drop.
  - destruct (sd_tables s !! "routes"); [|done]. by apply routes_ok_drop.
Qed.

(** Putting a database back together after the table tcp_routes changed. *)
Lemma migrated_intro v v' t s0 s s' :
  kept_rows s0 s -> kept_rows s s' -> 2 <= v <= v' -> others_ok v s ->
  sd_tables s' = <["tcp_routes" := t]> (sd_tables s) -> tcp_ok (is_mysql s) (sd_text s) v' t -> migrated v' s0 s'.
Proof.
  intros H0 Hk Hv Ho Ht Hok. assert (kept_rows s0 s') as [? ?] by by etrans. split; [|done].
  assert (others_ok v' s') as [Hg Hr].
  { eapply others_same; [apply Hk| |by eapply others_bump]. intros x Hx. by rewrite Ht, lookup_insert_ne. }
  unfold schema_at. split; [|exact Hg|exact Hr]. destruct Hk as [Hs _].
  rewrite Ht, lookup_insert_eq, (same_server_mysql _ _ Hs), (proj2 Hs). exact Hok.
Qed.

Lemma wp_drop_tcp s (Q : unit -> Sdb -> Prop) X v t :
  sd_tables s !! "tcp_routes" = Some t -> others_ok v s ->
  (forall s', kept_rows s s' -> free "idx_tcp_route" s' -> others_ok v s' ->
     sd_tables s' !! "tcp_routes" = Some (drop_index "idx_tcp_route" t) -> Q tt s') ->
  wp (dropIndex "idx_tcp_route" "tcp_routes") s Q X.
Proof.
  intros Ht Ho HQ. apply wp_dropIndex; [vm_compute; reflexivity..|]. intros s' [Hs Hk] Hd. apply HQ; [done| | |].
  - by eapply dropped_free.
  - by eapply others_dropped.
  - by rewrite Hd, Ht, bool_decide_eq_true_2, andb_false_r.
Qed.

Lemma wp_create_tcp a b v t s (Q : unit -> Sdb -> Prop) X :
  parse_stmt ("CREATE UNIQUE INDEX idx_tcp_route ON tcp_routes (" +:+ a +:+ ")") =
    Some (CreateUniqueIndex "idx_tcp_route" "tcp_routes" (tcp_index true v)) ->
  parse_stmt ("CREATE UNIQUE INDEX idx_tcp_route ON tcp_routes (" +:+ b +:+ ")") =
    Some (CreateUniqueIndex "idx_tcp_route" "tcp_routes" (tcp_index false v)) ->
  sd_tables s !! "tcp_routes" = Some (drop_index "idx_tcp_route" t) -> free "idx_tcp_route" s ->
  tcp_ok (is_mysql s) (sd_text s) v (reindex (is_mysql s) v t) -> 0 <= v ->
  (forall s', kept_rows s s' -> sd_tables s' = <["tcp_routes" := reindex (is_mysql s) v t]> (sd_tables s) -> Q tt s') ->
  wp (create_tcp_index a b) s Q X.
Proof.
  intros Ha Hb Ht Hf Hok Hv HQ.
  eapply (wp_exec_by_dialect _ _ (CreateUniqueIndex "idx_tcp_route" "tcp_routes" (tcp_index (is_mysql s) v)));
    [by destruct (is_mysql s)|].
  unfold run_stmt. unfold wp. rewrite (free_not_taken _ _ Hf).
  refine (wp_on_table _ _ _ _ _ _ _ _ Ht _ _ HQ); [|reflexivity].
  apply create_reindex; [by apply (to_indexable _ _ _ _ Hok)|apply (to_unique _ _ _ _ Hok)].
Qed.

Lemma model_of_tcp : model_of "tcp_routes" = Columns Tcp_fields.
Proof. reflexivity. Qed.

(** AutoMigrate of tcp_routes alone. *)
Lemma wp_auto_tcp t s (Q : unit -> Sdb -> Prop) X :
  sd_tables s !! "tcp_routes" = Some t -> alterable (is_mysql s) (Columns Tcp_fields) t = true ->
  (forall s', kept_rows s s' ->
     sd_tables s' = <["tcp_routes" := migrate_table (Columns Tcp_fields) t]> (sd_tables s) -> Q tt s') ->
  wp (mig_AutoMigrate ["tcp_routes"]) s Q X.
Proof.
  intros Ht Ha HQ. change (mig_AutoMigrate ["tcp_routes"]) with (for_each ["tcp_routes"] auto_migrate).
  unfold for_each. apply wp_bind. eapply (wp_auto_one _ t); [done|by rewrite model_of_tcp|].
  intros s' Hk Hs. apply wp_ret. rewrite model_of_tcp in Hs. by apply HQ.
Qed.

(** V5, V6, V9, V10 and V11. *)
Lemma rebuild_takes a b lo v' :
  parse_stmt ("CREATE UNIQUE INDEX idx_tcp_route ON tcp_routes (" +:+ a +:+ ")") =
    Some (CreateUniqueIndex "idx_tcp_route" "tcp_routes" (tcp_index true v')) ->
  parse_stmt ("CREATE UNIQUE INDEX idx_tcp_route ON tcp_routes (" +:+ b +:+ ")") =
    Some (CreateUniqueIndex "idx_tcp_route" "tcp_routes" (tcp_index false v')) ->
  4 <= lo -> 5 <= v' <= 11 -> takes lo (mkMigration v' (rebuild_tcp_index a b)).
Proof.
  intros Ha Hb Hlo Hv' v s Hv Hok. simpl in Hv |- *.
  destruct (schema_parts v s ltac:(lia) Hok) as [(t & Ht & Htcp) Ho].
  apply wp_bind. eapply wp_drop_tcp; [done..|]. intros s1 Hk1 Hf1 Ho1 Ht1.
  pose proof (same_server_mysql _ _ (proj1 Hk1)) as My1.
  apply wp_bind. eapply (wp_auto_tcp _ s1); [exact Ht1|rewrite My1; apply (to_alterable _ _ _ _ Htcp)|].
  intros s2 Hk2 Ht2. pose proof (same_server_mysql _ _ (proj1 Hk2)) as My2.
  assert (tcp_ok (is_mysql s2) (sd_text s2) v' (reindex (is_mysql s2) v' (migrate_table (Columns Tcp_fields) t))) as Hok2.
  { rewrite My2, My1, (proj2 (proj1 Hk2)), (proj2 (proj1 Hk1)). eapply tcp_ok_rebuild; [| | |exact Htcp]; lia. }
  eapply (wp_create_tcp a b v' (migrate_table (Columns Tcp_fields) t)); [done|done| | |done|lia|].
  - by rewrite Ht2, lookup_insert_eq.
  - eapply free_insert; [apply Hk2|exact Ht2| |done]. apply lookup_delete_eq.
  - intros s3 Hk3 Ht3.
    assert (others_ok v s2) as Ho2.
    { eapply others_same; [apply Hk2| |exact Ho1]. intros x Hx. by rewrite Ht2, lookup_insert_ne. }
    eapply (migrated_intro v v' _ s s2 s3); [by etrans|done|lia|exact Ho2|exact Ht3|exact Hok2].
Qed.

Ltac by_parsing := vm_compute; reflexivity.

Lemma V5_takes : takes 4 V5SniHostnameMigration.
Proof. apply rebuild_takes; [by_parsing..|lia|lia]. Qed.
Lemma V6_takes : takes 5 V6TCPTLSRoutes.
Proof. apply rebuild_takes; [by_parsing..|lia|lia]. Qed.
Lemma V9_takes : takes 8 V9TerminateFrontendTLS.
Proof. apply rebuild_takes; [by_parsing..|lia|lia]. Qed.
Lemma V10_takes : takes 9 V10SniRewriteHostname.
Proof. apply rebuild_takes; [by_parsing..|lia|lia]. Qed.
Lemma V11_takes : takes 10 V11EnableBackendMTLS.
Proof. apply rebuild_takes; [by_parsing..|lia|lia]. Qed.

(** The end of V4 and V7: a new index on a table that is in order. *)
Lemma wp_reindex a b v v' t s0 s :
  parse_stmt ("CREATE UNIQUE INDEX idx_tcp_route ON tcp_routes (" +:+ a +:+ ")") =
    Some (CreateUniqueIndex "idx_tcp_route" "tcp_routes" (tcp_index true v')) ->
  parse_stmt ("CREATE UNIQUE INDEX idx_tcp_route ON tcp_routes (" +:+ b +:+ ")") =
    Some (CreateUniqueIndex "idx_tcp_route" "tcp_routes" (tcp_index false v')) ->
  kept_rows s0 s -> others_ok v s -> sd_tables s !! "tcp_routes" = Some t -> 2 <= v <= v' -> 3 <= v' < 11 ->
  key_cols v' = key_cols v -> (forall c, c ∈ names (model_at v') -> c ∈ names (model_at v)) ->
  tcp_ok (is_mysql s) (sd_text s) v t ->
  wp (_ ← dropIndex "idx_tcp_route" "tcp_routes"; create_tcp_index a b) s
    (fun _ s' => migrated v' s0 s') (fun _ _ => False).
Proof.
  intros Ha Hb H0 Ho Ht Hv Hv' Hkey Hnames Htcp. apply wp_bind. eapply wp_drop_tcp; [done..|].
  intros s1 Hk1 Hf1 Ho1 Ht1. pose proof (same_server_mysql _ _ (proj1 Hk1)) as My1.
  assert (tcp_ok (is_mysql s1) (sd_text s1) v' (reindex (is_mysql s1) v' t)) as Hok1.
  { rewrite My1, (proj2 (proj1 Hk1)). eapply tcp_ok_reindex; [|exact Hv'|done|done|exact Htcp]; lia. }
  eapply (wp_create_tcp a b v' t); [done|done|exact Ht1|done|done|lia|]. intros s2 Hk2 Ht2.
  eapply (migrated_intro v v' _ s0 s1 s2); [by etrans|done|lia|exact Ho1|exact Ht2|exact Hok1].
Qed.

Lemma names_included fs fs' : bool_decide (Forall (fun c => c ∈ names fs') (names fs)) = true ->
  forall c, c ∈ names fs -> c ∈ names fs'.
Proof. intros H%bool_decide_eq_true c Hc. by apply (proj1 (Forall_forall _ _) H). Qed.

Lemma V4_takes : takes 3 V4AddRgUniqIdxTCPRoute.
Proof.
  intros v s Hv Hok. simpl in Hv |- *. assert (v = 3) as -> by lia.
  destruct (schema_parts 3 s ltac:(lia) Hok) as [(t & Ht & Htcp) Ho].
  eapply (wp_reindex _ _ 3 4 t); [by_parsing|by_parsing|split; done|done|done|lia|lia|done| |done].
  by apply names_included.
Qed.

Lemma V3_takes : takes 2 V3UpdateTcpRouteMigration.
Proof.
  intros v s Hv Hok. simpl in Hv |- *. assert (v = 2) as -> by lia.
  destruct (schema_parts 2 s ltac:(lia) Hok) as [(t & Ht & Htcp) Ho].
  eapply (wp_auto_tcp t); [done|apply (to_alterable_early _ _ _ _ Htcp); lia|]. intros s' Hk Hs.
  eapply (migrated_intro 2 3 _ s s s'); [split; done|done|lia|exact Ho|exact Hs|].
  eapply tcp_ok_migrate; [| |exact Htcp]; lia.
Qed.

(** A new default: MODIFY COLUMN on MySQL, SET DEFAULT on PostgreSQL. *)
Lemma wp_set_default a b c ty v t s (Q : unit -> Sdb -> Prop) X :
  parse_stmt a = Some (ModifyColumn "tcp_routes" c ty v) -> parse_stmt b = Some (SetDefault "tcp_routes" c v) ->
  sd_tables s !! "tcp_routes" = Some t -> is_Some (t_cols t !! c) -> ty <> "longtext" ->
  (forall d s', (cd_longtext d = true -> keep_type c VNull t = mkColDef VNull true) -> kept_rows s s' ->
     sd_tables s' = <["tcp_routes" := mkTable (<[c := d]> (t_cols t)) (t_rows t) (t_idx t)]> (sd_tables s) -> Q tt s') ->
  wp (exec_by_dialect a b) s Q X.
Proof.
  intros Ha Hb Ht [d0 Hc] Hty HQ. destruct (is_mysql s) eqn:My.
  - eapply (wp_exec_by_dialect _ _ (ModifyColumn "tcp_routes" c ty v)); rewrite My; [done|]. unfold run_stmt, wp. rewrite My.
    refine (wp_on_table _ _ _ _ _ _ _ _ Ht _ _ (fun s' => HQ (mkColDef v false) s' _)); [|reflexivity|done].
    unfold set_default. by rewrite Hc, bool_decide_eq_false_2.
  - eapply (wp_exec_by_dialect _ _ (SetDefault "tcp_routes" c v)); rewrite My; [done|]. unfold run_stmt, wp.
    refine (wp_on_table _ _ _ _ _ _ _ _ Ht _ _ (fun s' => HQ (keep_type c v t) s' _)); [|reflexivity|].
    + unfold set_default. by rewrite Hc.
    + unfold keep_type. simpl. by intros ->.
Qed.

Lemma V7_takes : takes 6 V7TCPTLSRoutes.
Proof.
  intros v s Hv Hok. simpl in Hv |- *. assert (v = 6) as -> by lia.
  destruct (schema_parts 6 s ltac:(lia) Hok) as [(t & Ht & Htcp) Ho].
  assert (is_Some (t_cols t !! "instance_id")) as Hc.
  { apply (proj1 (Forall_forall _ _) (to_columns _ _ _ _ Htcp ltac:(lia))). by_evaluation. }
  apply wp_bind. eapply (wp_set_default _ _ "instance_id" "varchar(255)" VNull t); [by_parsing|by_parsing|done|done|done|].
  intros d s1 _ Hk1 Ht1. destruct Hk1 as [Hs1 Hr1].
  eapply (wp_reindex _ _ 6 7 _ s s1); [by_parsing|by_parsing|done| |by rewrite Ht1, lookup_insert_eq|lia|lia|done| |].
  - eapply others_same; [done| |exact Ho]. intros x Hx. by rewrite Ht1, lookup_insert_ne.
  - by apply names_included.
  - rewrite (same_server_mysql _ _ Hs1), (proj2 Hs1). apply tcp_ok_default; [lia|done| |done].
    intros _. left. by_evaluation.
Qed.

Lemma zero_tls_kept d r : row_kept d r (zero_tls r).
Proof.
  split; intros c x Hc; (destruct (decide (c = "host_tls_port")) as [->|Hne]; [|rewrite zero_tls_ne by done; (by left) || congruence]).
  - unfold zero_tls. case_bool_decide as Hn; [right|by left]. unfold col in Hn. rewrite Hc in Hn. simpl in Hn.
    split_and!; [done|done|apply lookup_insert_eq].
  - unfold zero_tls. case_bool_decide as Hn; [|congruence]. rewrite lookup_insert_eq. intros [= <-]. by right.
Qed.

Lemma zero_tls_set r : col "host_tls_port" (zero_tls r) <> VNull.
Proof. unfold zero_tls. case_bool_decide; [|done]. unfold col. by rewrite lookup_insert_eq. Qed.

Lemma V8_takes : takes_tls 7 V8HostTLSPortTCPDefaultZero.
Proof.
  intros v s Hv Hok. simpl in Hv |- *. assert (v = 7) as -> by lia.
  destruct (schema_parts 7 s ltac:(lia) Hok) as [(t & Ht & Htcp) Ho].
  assert (is_Some (t_cols t !! "host_tls_port")) as [d0 Hc].
  { apply (proj1 (Forall_forall _ _) (to_columns _ _ _ _ Htcp ltac:(lia))). by_evaluation. }
  apply wp_bind. eapply (wp_exec _ (UpdateNulls "tcp_routes" "host_tls_port" (VInt 0))); [by_parsing|].
  eapply (wp_on_table _ _ _ t (mkTable (t_cols t) (zero_tls <$> t_rows t) (t_idx t))); [done| | |].
  { unfold update_nulls. by rewrite Hc. }
  { apply Forall2_fmap_r, Forall_Forall2_diag, Forall_true. apply zero_tls_kept. }
  intros s1 Hk1 Ht1. apply wp_bind. eapply (wp_drop_tcp s1 _ _ 7); [by rewrite Ht1, lookup_insert_eq| |].
  { eapply others_same; [apply Hk1| |exact Ho]. intros x Hx. by rewrite Ht1, lookup_insert_ne. }
  intros s2 Hk2 _ Ho2 Ht2.
  eapply (wp_set_default _ _ "host_tls_port" "int" (VInt 0)); [by_parsing|by_parsing|exact Ht2|by exists d0|done|].
  intros d s3 Hd Hk3 Ht3. split; [|intros _ t3; rewrite Ht3, lookup_insert_eq; intros [= <-]; simpl;
    apply Forall_fmap, Forall_true; exact zero_tls_set].
  eapply (migrated_intro 7 8 _ s s2 s3); [by etrans|done|lia|done|exact Ht3|].
  rewrite (same_server_mysql _ _ (proj1 Hk2)), (same_server_mysql _ _ (proj1 Hk1)), (proj2 (proj1 Hk2)), (proj2 (proj1 Hk1)).
  apply (tcp_ok_default _ _ 8 _ _ (mkTable (t_cols t) (zero_tls <$> t_rows t) (delete "idx_tcp_route" (t_idx t))));
    [lia|by exists d0|intros Hl; right; by apply Hd|].
  by eapply tcp_ok_zero.
Qed.

(** *** V2 *)
Lemma filter_at_most_one {A} (f : A -> string) y (l : list A) :
  NoDup (f <$> l) -> (length (filter (fun x => f x = y) l) <= 1)%nat.
Proof.
  induction l as [|x l IH]; csimpl; [lia|]. intros [Hx Hl]%NoDup_cons. rewrite filter_cons. case_decide as E.
  - simpl. rewrite (proj2 (filter_none _ l)); [done|]. intros z Hz Ez. apply Hx. apply list_elem_of_fmap.
    exists z. split; [congruence|done].
  - by apply IH.
Qed.

Lemma no_duplicate_names rgs all : NoDup (RGDB_Name <$> all) -> duplicate_name rgs all = None.
Proof.
  intros Hnd. induction rgs as [|rg rgs IH]; simpl; [done|].
  pose proof (filter_at_most_one RGDB_Name (RGDB_Name rg) all Hnd). rewrite (proj2 (Z.ltb_ge _ _)) by lia. done.
Qed.

Lemma group_names my text v t : groups_ok my text v t -> NoDup (RGDB_Name <$> (group_of_row <$> t_rows t)).
Proof.
  intros Hok. pose proof (go_names _ _ _ _ Hok) as Hn. pose proof (go_unique _ _ _ _ Hok) as Hu. revert Hn Hu.
  unfold unique. induction (t_rows t) as [|r rows IH]; csimpl; [constructor|].
  intros [[n Hr] Hn]%Forall_cons Hu. rewrite Hr in Hu. csimpl in Hu. apply NoDup_cons in Hu as [Hnot Hu].
  apply NoDup_cons. split; [|by apply IH]. rewrite Hr. simpl. intros Hin. apply Hnot.
  rewrite <- list_fmap_compose in Hin. apply list_elem_of_fmap in Hin as (r' & E & Hr').
  destruct (proj1 (Forall_forall _ _) Hn r' Hr') as [n' Hn']. unfold compose in E. simpl in E. rewrite Hn' in E.
  simpl in E. subst n'. apply list_elem_of_omap. exists r'. split; [done|]. simpl. by rewrite Hn'.
Qed.

Lemma table_ok_drop (P : Z -> Table -> Prop) v n (b : bool) t :
  (forall x, P v x -> P v (drop_index n x)) -> P v t ->
  table_ok P v (if b then Some t else drop_index n <$> Some t).
Proof. intros Hd Ht. destruct b; simpl; auto. Qed.

Lemma V2_takes : takes 0 V2UpdateRgMigration.
Proof.
  intros v s Hv Hok. simpl in Hv |- *.
  destruct (schema_parts v s ltac:(lia) Hok) as [(t & Ht & Htcp) [Hg Hr]].
  unfold table_ok in Hg, Hr.
  destruct (sd_tables s !! "router_groups") as [tg|] eqn:Eg; [|lia].
  destruct (sd_tables s !! "routes") as [tr|] eqn:Er; [|lia].
  apply wp_bind. unfold wp at 1. simpl. rewrite Eg.
  rewrite (no_duplicate_names _ _ (group_names _ _ _ _ Hg)). apply wp_bind, wp_dropIndex; [by_parsing..|].
  intros s1 [Hs1 Hk1] Hd1. pose proof (same_server_mysql _ _ Hs1) as My1.
  destruct (groups_ok_index _ _ v tg ltac:(lia) Hg) as [Hc Hg2].
  eapply (wp_exec_by_dialect _ _ (CreateUniqueIndex "idx_rg_name" "router_groups" (name_index (is_mysql s1))));
    [destruct (is_mysql s1); by_parsing|].
  unfold run_stmt, wp. rewrite (free_not_taken _ s1 (dropped_free _ _ _ _ Hs1 Hd1)).
  refine (wp_on_table "router_groups" _ _ (drop_index "idx_rg_name" tg) _ s1 (fun _ s' => migrated 2 s s') (fun _ _ => False) _ _ _ _);
    [by rewrite Hd1, Eg, bool_decide_eq_true_2, andb_false_r|rewrite My1, (proj2 Hs1); exact Hc|reflexivity|].
  intros s2 Hk2 Ht2. assert (kept_rows s s2) as [Hs Hk] by (etrans; [|exact Hk2]; done). split; [|done].
  unfold schema_at. rewrite (same_server_mysql _ _ Hs), (proj2 Hs), Ht2. split.
  - rewrite lookup_insert_ne by done. rewrite Hd1, Ht. apply (table_ok_drop (tcp_ok (is_mysql s) (sd_text s))).
    + intros x. apply tcp_ok_drop_name.
    + apply (tcp_ok_early _ _ v); [lia|lia|done].
  - rewrite lookup_insert_eq. exact Hg2.
  - rewrite lookup_insert_ne by done. rewrite Hd1, Er. apply (table_ok_drop (routes_ok (is_mysql s))).
    + intros x. apply routes_ok_drop.
    + apply (routes_ok_bump _ v); [lia|done].
Qed.

(** *** V0 *)
Lemma wp_auto_table n (P : Z -> Table -> Prop) v s (Q : unit -> Sdb -> Prop) X :
  P 0 (new_table (model_of n)) ->
  (forall t, P v t -> alterable (is_mysql s) (model_of n) t = true /\ P 0 (migrate_table (model_of n) t)) ->
  table_ok P v (sd_tables s !! n) ->
  (forall t s', P 0 t -> kept_rows s s' -> sd_tables s' = <[n := t]> (sd_tables s) -> Q tt s') ->
  wp (auto_migrate n) s Q X.
Proof.
  intros Hnew Hmig Hok HQ. unfold table_ok in Hok. destruct (sd_tables s !! n) as [t|] eqn:E.
  - destruct (Hmig t Hok) as [Ha Hm]. eapply wp_auto_one; [exact E|exact Ha|]. by eauto.
  - eapply wp_auto_new; [exact E|]. by eauto.
Qed.

Lemma V0_takes : takes (-1) V0InitMigration.
Proof.
  intros v s Hv [H1 H2 H3]. simpl in Hv |- *. 
  apply wp_bind. eapply (wp_auto_table _ (groups_ok (is_mysql s) (sd_text s)) v); [apply new_groups_ok| |exact H2|].
  { intros t Hg. split; [apply (go_alterable _ _ _ _ Hg); lia|]. apply groups_ok_migrate with v; [lia|done]. }
  intros tg s1 Hg Hk1 Ht1. pose proof (same_server_mysql _ _ (proj1 Hk1)) as My1.
  apply wp_bind. eapply (wp_auto_table _ (tcp_ok (is_mysql s) (sd_text s)) v); [apply new_tcp_ok| | |].
  { intros t Htcp. split; [rewrite My1; apply (to_alterable_early _ _ _ _ Htcp); lia|].
    apply tcp_ok_migrate with v; [lia|lia|done]. }
  { by rewrite Ht1, lookup_insert_ne. }
  intros tt_ s2 Ht Hk2 Ht2. pose proof (same_server_mysql _ _ (proj1 Hk2)) as My2.
  apply wp_bind. eapply (wp_auto_table _ (routes_ok (is_mysql s)) v); [apply new_routes_ok| | |].
  { intros t Hr. split; [rewrite My2, My1; apply (ro_alterable _ _ _ Hr); lia|]. by apply routes_ok_migrate with v. }
  { by rewrite Ht2, lookup_insert_ne, Ht1, lookup_insert_ne. }
  intros tr s3 Hr Hk3 Ht3. apply wp_ret.
  assert (kept_rows s s3) as [Hs Hk] by (etrans; [exact Hk1|]; by etrans). split; [|done].
  unfold schema_at. rewrite (same_server_mysql _ _ Hs), (proj2 Hs), Ht3, Ht2, Ht1. split.
  - by rewrite lookup_insert_ne, lookup_insert_eq.
  - do 2 rewrite lookup_insert_ne by done. by rewrite lookup_insert_eq.
  - by rewrite lookup_insert_eq.
Qed.

(** ** The whole run *)
Fixpoint chain (lo : Z) (ms : list (Migration Sdb)) : Prop :=
  match ms with [] => True | m :: ms' => takes_tls lo m /\ chain (Version m) ms' end.

Lemma migrated_server v s s' s'' : sd_tables s'' = sd_tables s' -> same_server s' s'' -> migrated v s s' -> migrated v s s''.
Proof.
  intros Ht Hs (Hok & Hs' & Hk). split_and!.
  - unfold schema_at. by rewrite (same_server_mysql _ _ Hs), (proj2 Hs), Ht.
  - by etrans.
  - intros n t Hn. rewrite Ht. by apply Hk.
Qed.

Lemma migrated_refl v s : schema_at v s -> migrated v s s.
Proof. intros H. split_and!; [done|done|reflexivity]. Qed.

Lemma tcp_there v s : 0 <= v -> schema_at v s -> is_Some (sd_tables s !! "tcp_routes").
Proof. intros Hv Hok. destruct (schema_parts v s Hv Hok) as [(t & -> & _) _]. by eexists. Qed.

Lemma migrate_loop_schema ms existing lo s :
  chain lo ms -> ascending ms -> lo <= CurrentVersion existing -> schema_at (CurrentVersion existing) s ->
  wp (migrate_loop ms existing) s
    (fun _ s' => migrated (foldl Z.max (CurrentVersion existing) (versions ms)) s s' /\
       (CurrentVersion existing < 8 -> 8 ∈ versions ms -> tls_set s')) (fun _ _ => False).
Proof.
  revert existing lo s. induction ms as [|m ms IH]; intros ex lo s; simpl.
  { intros _ _ _ Hok. apply wp_ret. split; [by apply migrated_refl|]. intros _ Hin. by apply elem_of_nil in Hin. }
  intros [Hm Hc] Hasc Hlo Hok. apply Sorted.StronglySorted_inv in Hasc as [Hasc Hall].
  destruct (Z.ltb_spec (CurrentVersion ex) (Version m)).
  - apply wp_bind. eapply wp_mono; [by apply (Hm (CurrentVersion ex))| |done]. intros [] s1 [Hs1 Htls].
    apply wp_bind. unfold wp at 1. simpl. set (s2 := set_version _ _ _).
    assert (migrated (Version m) s s2) as Hs2 by by eapply migrated_server.
    eapply wp_mono; [eapply (IH _ (Version m)); [done|done|simpl; lia|apply Hs2]| |done]. simpl. intros [] s' [Hs' Hz].
    replace (Z.max (CurrentVersion ex) (Version m)) with (Version m) by lia. split; [by eapply migrated_trans|].
    intros H8 [Hv|Hin]%elem_of_cons.
    + eapply tls_set_kept; [eapply (tcp_there 8); [lia|rewrite Hv; apply Hs2]|apply Hs'|]. intros t Ht. by apply (Htls (eq_sym Hv)).
    + apply Hz; [|done]. by apply (proj1 (Forall_forall _ _) Hall 8).
  - eapply wp_mono; [by eapply (IH _ (Version m))| |done]. intros [] s' [Hs' Hz].
    replace (Z.max (CurrentVersion ex) (Version m)) with (CurrentVersion ex) by lia. split; [done|].
    intros H8 [Hv|Hin]%elem_of_cons; [lia|by apply Hz].
Qed.

Lemma InitializeMigrations_chain : chain (-1) InitializeMigrations.
Proof.
  split; [by apply takes_other, V0_takes|]. split; [by apply takes_other, V2_takes|].
  split; [by apply takes_other, V3_takes|]. split; [by apply takes_other, V4_takes|].
  split; [by apply takes_other, V5_takes|]. split; [by apply takes_other, V6_takes|].
  split; [by apply takes_other, V7_takes|]. split; [apply V8_takes|]. split; [by apply takes_other, V9_takes|].
  split; [by apply takes_other, V10_takes|]. split; [by apply takes_other, V11_takes|done].
Qed.

(** AutoMigrate of the table of versions is out of the way of the others. *)
Lemma schema_other_table v n t s s' : n ∉ ["tcp_routes"; "router_groups"; "routes"] ->
  same_server s s' -> sd_tables s' = <[n := t]> (sd_tables s) -> schema_at v s -> schema_at v s'.
Proof.
  intros Hn Hs Ht [H1 H2 H3]. unfold schema_at. rewrite (same_server_mysql _ _ Hs), (proj2 Hs), Ht.
  split; rewrite lookup_insert_ne by set_solver; done.
Qed.

Lemma versions_alterable my t : alterable my (model_of "migration_data") t = true.
Proof.
  unfold alterable. rewrite orb_true_iff, forallb_forall. right. intros [n ix] _. simpl.
  apply negb_true_iff. unfold blocks_longtext. induction ix as [|part ix IH]; [done|]. cbn [existsb].
  rewrite IH, orb_false_r. apply andb_false_iff. right.
  assert (forallb (fun c => negb (is_longtext c)) (model_of "migration_data") = true) as Hs by (vm_compute; reflexivity).
  clear IH. induction (model_of "migration_data") as [|c cs IHc]; [done|]. cbn [forallb existsb] in *.
  apply andb_true_iff in Hs as [Hc Hs]. apply negb_true_iff in Hc. rewrite Hc, andb_false_r. by apply IHc.
Qed.

Lemma wp_auto_versions s (Q : unit -> Sdb -> Prop) X :
  (forall t s', sd_row s' = sd_row s -> kept_rows s s' ->
     sd_tables s' = <["migration_data" := t]> (sd_tables s) -> Q tt s') ->
  wp (mig_AutoMigrate ["migration_data"]) s Q X.
Proof.
  intros HQ. change (mig_AutoMigrate ["migration_data"]) with (for_each ["migration_data"] auto_migrate).
  unfold for_each. apply wp_bind. unfold wp at 1, auto_migrate.
  destruct (sd_tables s !! "migration_data") as [t|] eqn:E.
  - rewrite versions_alterable. apply wp_ret. eapply HQ; [done| |done].
    eapply kept_set; [exact E|apply migrate_rows_kept].
  - apply wp_ret. eapply HQ; [done|by apply kept_new|done].
Qed.

(** The run ends with a database of the last version. *)
Lemma RunMigrations_chain ms m s :
  chain (-1) ms -> ascending ms -> last ms = Some m ->
  -1 <= stored_version s -> schema_at (stored_version s) s ->
  wp (RunMigrations ms) s
    (fun _ s' => migrated (Z.max (stored_version s) (Version m)) s s' /\
       (stored_version s < 8 -> stored_version s < Version m -> 8 ∈ versions ms -> tls_set s')) (fun _ _ => False).
Proof.
  intros Hc Hasc Hlast Hge Hok. unfold RunMigrations. rewrite Hlast. apply wp_bind, wp_auto_versions.
  intros t s1 Hrow Hk Ht. assert (migrated (stored_version s) s s1) as H1.
  { destruct Hk as [Hs Hr]. split_and!; [|done..]. apply (schema_other_table _ "migration_data" t s s1); [by_evaluation|done..]. }
  assert (forall row ex, CurrentVersion ex = stored_version s ->
    wp (migrate_loop ms ex) (set_version row None s1)
      (fun _ s' => migrated (Z.max (stored_version s) (Version m)) s s' /\
         (stored_version s < 8 -> stored_version s < Version m -> 8 ∈ versions ms -> tls_set s')) (fun _ _ => False)) as Hloop.
  { intros row ex Hex. assert (migrated (stored_version s) s (set_version row None s1)) as H2
      by by eapply migrated_server.
    eapply wp_mono; [eapply (migrate_loop_schema _ ex (-1)); [done|done|lia|]| |done].
    - rewrite Hex. apply H2.
    - intros [] s' [Hs' Hz]. rewrite (foldl_max_last _ _ (Version m)), Hex in Hs'; [|done|by apply last_version].
      split; [by eapply migrated_trans|]. rewrite Hex in Hz. auto. }
  unfold stored_version in Hge, Hok, H1, Hloop |- *. change (mig_row s) with (sd_row s) in *.
  unfold wp, mbind, Go_bind, try in Hloop |- *. simpl in Hloop |- *. rewrite Hrow.
  destruct (sd_row s) as [d|] eqn:E; simpl.
  - destruct (Z.leb_spec (Version m) (CurrentVersion d)).
    + rewrite Z.max_l by done. split; [by eapply migrated_server|lia].
    + by apply (Hloop _ (mkMigrationData (MD_Key d) (CurrentVersion d) (Version m))).
  - by apply (Hloop _ (mkMigrationData MigrationKey (-1) (Version m))).
Qed.

Lemma RunMigrations_schema s :
  -1 <= stored_version s -> schema_at (stored_version s) s ->
  wp (RunMigrations InitializeMigrations) s
    (fun _ s' => migrated (Z.max (stored_version s) 11) s s' /\ (stored_version s < 8 -> tls_set s')) (fun _ _ => False).
Proof.
  intros Hv Hok. eapply wp_mono; [apply (RunMigrations_chain _ V11EnableBackendMTLS);
    [apply InitializeMigrations_chain|apply InitializeMigrations_ascending|done|exact Hv|exact Hok]| |done].
  intros [] s' [Hm Hz]. split; [done|]. intros H8. apply Hz; [done|simpl; lia|by_evaluation].
Qed.
