(* ===== verification/SqlRows.v ===== *)
(** SqlRows: the records of models/ as rows of their tables: what gorm's Create
    writes (vendor/gorm.io/gorm/callbacks/create.go), the where clauses of
    db/db_sql.go as the text they are, and which rows they select.  The model of the
    store (SqlDB) has a predicate on records where the code has such a clause; the
    facts at the end show that they are the same. *)
From Stdlib Require Import ZArith Lia Ascii.
From stdpp Require Import base option strings gmap list.
From S2P Require Import Prelude GoStrings RouterGroups Routes Store SqlDB Prune Gorm Migration Schema SchemaFacts.

Local Open Scope string_scope.
Local Open Scope list_scope.
Local Open Scope Z_scope.

(** ** Creating *)

(** The zero value of a Go type. *)
Definition is_zero (v : SqlVal) : bool :=
  bool_decide (v ∈ [VText ""; VInt 0; VBool false; VTime zero_time]).

(** The value of a field and whether it is zero; a pointer is only when nil. *)
Definition plain (v : SqlVal) : SqlVal * bool := (v, is_zero v).
Definition pointer {A} (f : A -> SqlVal) (p : option A) : SqlVal * bool :=
  match p with None => (VNull, true) | Some a => (f a, false) end.

(** A struct that gorm saves: its fields and their values. *)
Class Saved (R : Type) := {
  s_fields : list GoField;
  s_values : R -> list (SqlVal * bool);
  s_length : forall r, length (s_values r) = length s_fields;
  s_names : NoDup (names s_fields)
}.

Definition model_values (m : Model) : list (SqlVal * bool) :=
  [plain (VText (Model_Guid m)); plain (VTime (Model_CreatedAt m)); plain (VTime (Model_UpdatedAt m))].

Definition tag_values (tag : ModificationTag) : list (SqlVal * bool) :=
  [plain (VText (Tag_Guid tag)); plain (VInt (Tag_Index tag))].

Definition tcp_values (m : TcpRouteMapping) : list (SqlVal * bool) :=
  let e := Tcp_Entity m in
  model_values (Tcp_Model m) ++ [plain (VTime (Tcp_ExpiresAt m))] ++
  [plain (VText (TM_RouterGroupGuid e)); plain (VInt (TM_HostPort e)); plain (VInt (TM_HostTLSPort e));
   plain (VText (TM_HostIP e)); pointer VText (TM_SniHostname e); pointer VText (TM_SniRewriteHostname e);
   plain (VText (TM_InstanceId e)); plain (VInt (TM_ExternalPort e))] ++
  tag_values (TM_ModificationTag e) ++
  [pointer VInt (TM_TTL e); plain (VText (TM_IsolationSegment e)); plain (VBool (TM_TerminateFrontendTLS e));
   plain (VText (TM_ALPNs e)); plain (VBool (TM_EnableBackendMTLS e))].

Definition route_values (r : Route) : list (SqlVal * bool) :=
  let e := Route_Entity r in
  model_values (Route_Model r) ++ [plain (VTime (Route_ExpiresAt r))] ++
  [plain (VText (RE_Route e)); plain (VInt (RE_Port e)); plain (VText (RE_IP e)); pointer VInt (RE_TTL e);
   plain (VText (RE_LogGuid e)); plain (VText (RE_RouteServiceUrl e))] ++ tag_values (RE_ModificationTag e).

Definition group_values (g : RouterGroupDB) : list (SqlVal * bool) :=
  model_values (RGDB_Model g) ++
  [plain (VText (RGDB_Name g)); plain (VText (RGDB_Type g)); plain (VText (RGDB_ReservablePorts g))].

#[export] Program Instance Tcp_Saved : Saved TcpRouteMapping := {| s_fields := Tcp_fields; s_values := tcp_values |}.
Next Obligation. done. Qed.
Next Obligation. by_evaluation. Qed.

#[export] Program Instance Route_Saved : Saved Route := {| s_fields := Route_fields; s_values := route_values |}.
Next Obligation. done. Qed.
Next Obligation. by_evaluation. Qed.

#[export] Program Instance Group_Saved : Saved RouterGroupDB := {| s_fields := RouterGroupDB_fields; s_values := group_values |}.
Next Obligation. done. Qed.
Next Obligation. by_evaluation. Qed.

(** One column of [ConvertToCreateValues].  A zero field whose default gorm does
    not know ([FieldsWithDefaultDBValue]) is left out of the INSERT, so that the
    database puts its own default; created_at and updated_at get the current
    time. *)
Definition create_value (now : Z) (t : Table) (c : Column) (v : SqlVal * bool) : SqlVal :=
  let '(v, zero) := v in
  if negb zero then v
  else match C_DefaultValue c with
       | Some d => d
       | None =>
           if C_HasDefault c then default VNull (cd_default <$> t_cols t !! C_Name c)
           else if bool_decide (C_Name c ∈ ["created_at"; "updated_at"]) then VTime now
           else v
       end.

Definition create_row {R} `{!Saved R} (now : Z) (t : Table) (r : R) : SqlRow :=
  list_to_map (zip_with (fun c v => (C_Name c, create_value now t c v)) (Columns s_fields) (s_values r)).

(** An INSERT; a unique index refuses a second row with a key. *)
Definition insert_row (text : option Z -> string -> string) (r : SqlRow) (t : Table) : option Table :=
  if bool_decide (map_Forall (fun _ ix => unique text ix (t_rows t ++ [r])) (t_idx t))
  then Some (mkTable (t_cols t) (t_rows t ++ [r]) (t_idx t)) else None.

(** ** Where clauses *)

Inductive Op := OpEq | OpGt | OpLt | OpNull | OpIn.

(** A list is bound to [(?)]. *)
Inductive Arg := AVal (v : SqlVal) | AList (vs : list SqlVal).

Definition parse_op (op operand : string) : option Op :=
  if bool_decide (operand = "?") then
    if bool_decide (op = "=") then Some OpEq
    else if bool_decide (op = ">") then Some OpGt
    else if bool_decide (op = "<") then Some OpLt else None
  else if bool_decide (op = "in") && bool_decide (operand = "(?)") then Some OpIn
  else if bool_decide (op = "IS") && bool_decide (operand = "NULL") then Some OpNull
  else None.

(** Conditions, column operator operand, joined by [and]. *)
Fixpoint parse_conds (ws : list string) : option (list (string * Op)) :=
  match ws with
  | [c; op; x] => o ← parse_op op x; Some [(c, o)]
  | c :: op :: x :: "and" :: ws' => o ← parse_op op x; ((c, o) ::.) <$> parse_conds ws'
  | _ => None
  end.

Definition parse_where (clause : string) : option (list (string * Op)) := parse_conds (Split " " clause).

Section Select.
Variable text : option Z -> string -> string.

(** SQL's [=]: not true of a NULL. *)
Definition sql_equal (v a : SqlVal) : bool :=
  match v, a with
  | VNull, _ | _, VNull => false
  | _, _ => bool_decide (comparable text None v = comparable text None a)
  end.

(** SQL's [<] on numbers and times; the clauses compare nothing else. *)
Definition sql_less (v a : SqlVal) : bool :=
  match v, a with
  | VInt x, VInt y | VTime x, VTime y => x <? y
  | _, _ => false
  end.

Fixpoint conds_hold (cs : list (string * Op)) (args : list Arg) (r : SqlRow) : bool :=
  match cs, args with
  | [], [] => true
  | (c, OpNull) :: cs', _ => bool_decide (col c r = VNull) && conds_hold cs' args r
  | (c, OpEq) :: cs', AVal a :: args' => sql_equal (col c r) a && conds_hold cs' args' r
  | (c, OpGt) :: cs', AVal a :: args' => sql_less a (col c r) && conds_hold cs' args' r
  | (c, OpLt) :: cs', AVal a :: args' => sql_less (col c r) a && conds_hold cs' args' r
  | (c, OpIn) :: cs', AList vs :: args' => existsb (sql_equal (col c r)) vs && conds_hold cs' args' r
  | _, _ => false
  end.

(** A chain of [Where] calls: each clause with its arguments. *)
Definition selects (q : list (string * list Arg)) (r : SqlRow) : bool :=
  forallb (fun p => match parse_where (fst p) with Some cs => conds_hold cs (snd p) r | None => false end) q.
End Select.

Notation Query := (list (string * list Arg)).

(** ** The queries of db/db_sql.go *)

Definition guid_query (guid : string) : Query := [("guid = ?", [AVal (VText guid)])].
Definition name_query (name : string) : Query := [("name = ?", [AVal (VText name)])].
Definition unexpired_query (now : Z) : Query := [("expires_at > ?", [AVal (VTime now)])].
Definition expired_query (now : Z) : Query := [("expires_at < ?", [AVal (VTime (now + -1 * Second))])].
Definition guids_query (guids : list string) : Query := [("guid in (?)", [AList (VText <$> guids)])].

Definition route_query (route : Route) : Query :=
  let e := Route_Entity route in
  [("route = ? and ip = ? and port = ? and route_service_url = ?",
    [AVal (VText (RE_Route e)); AVal (VText (RE_IP e)); AVal (VInt (RE_Port e)); AVal (VText (RE_RouteServiceUrl e))])].

Definition filtered_query (columnName : string) (values : list string) (now : Z) : Query :=
  (columnName +:+ " in (?)", [AList (VText <$> values)]) :: unexpired_query now.

Definition similar_query (sniHostname : string) (externalPort now : Z) : Query :=
  ("sni_hostname = ? and external_port = ?", [AVal (VText sniHostname); AVal (VInt externalPort)]) ::
  unexpired_query now.

Definition existing_query (m : TcpRouteMapping) : Query :=
  let e := Tcp_Entity m in
  let first := [AVal (VText (TM_RouterGroupGuid e)); AVal (VText (TM_HostIP e)); AVal (VInt (TM_HostPort e));
                AVal (VInt (TM_ExternalPort e)); AVal (VInt (TM_HostTLSPort e))] in
  match TM_SniHostname e with
  | None =>
      [("router_group_guid = ? and host_ip = ? and host_port = ? and external_port = ? and host_tls_port = ? and sni_hostname IS NULL and enable_backend_m_tls = ?",
        first ++ [AVal (VBool (TM_EnableBackendMTLS e))])]
  | Some h =>
      [("router_group_guid = ? and host_ip = ? and host_port = ? and external_port = ? and host_tls_port = ? and sni_hostname = ? and enable_backend_m_tls = ?",
        first ++ [AVal (VText h); AVal (VBool (TM_EnableBackendMTLS e))])]
  end.

Definition existing_rows (text : option Z -> string -> string) (m : TcpRouteMapping) (t : Table) : list SqlRow :=
  filter (fun r => selects text (existing_query m) r = true) (t_rows t).

(** The clauses by table, for any arguments; the handlers filter TCP mappings by
    isolation_segment. *)
Definition clauses_of (table : string) (q : Query) : list (string * string) := (fun p => (table, fst p)) <$> q.

Definition with_sni (sni : option string) : TcpRouteMapping :=
  mkTcpRouteMapping (mkModel "" zero_time zero_time) zero_time
    (mkTcpMappingEntity "" 0 0 "" sni None "" 0 zero_Tag None "" false "" false).

Definition where_clauses : list (string * string) :=
  clauses_of "router_groups" (guid_query "") ++ clauses_of "router_groups" (name_query "") ++
  clauses_of "routes" (unexpired_query 0) ++ clauses_of "routes" (route_query zero_Route) ++
  clauses_of "routes" (expired_query 0) ++ clauses_of "routes" (guids_query []) ++
  clauses_of "tcp_routes" (expired_query 0) ++ clauses_of "tcp_routes" (guids_query []) ++
  clauses_of "tcp_routes" (filtered_query "isolation_segment" [] 0) ++ clauses_of "tcp_routes" (similar_query "" 0 0) ++
  clauses_of "tcp_routes" (existing_query (with_sni None)) ++ clauses_of "tcp_routes" (existing_query (with_sni (Some ""))).

Definition clause_columns (clause : string) : option (list string) := (fun cs => cs.*1) <$> parse_where clause.

(** ** Rows and records *)

(** What gorm makes of a column when it reads a row: NULL is the zero value, or
    nil in a pointer. *)
Definition int_of (v : SqlVal) : Z := match v with VInt z => z | _ => 0 end.
Definition bool_of (v : SqlVal) : bool := match v with VBool b => b | _ => false end.
Definition time_of (v : SqlVal) : Z := match v with VTime t => t | _ => zero_time end.
Definition text_ptr (v : SqlVal) : option string := match v with VText s => Some s | _ => None end.
Definition int_ptr (v : SqlVal) : option Z := match v with VInt z => Some z | _ => None end.

Definition scan_Model (row : SqlRow) : Model :=
  mkModel (text_of (col "guid" row)) (time_of (col "created_at" row)) (time_of (col "updated_at" row)).

Definition scan_Tag (row : SqlRow) : ModificationTag :=
  mkTag (text_of (col "modification_guid" row)) (int_of (col "modification_index" row)).

Definition scan_group (row : SqlRow) : RouterGroupDB :=
  mkRouterGroupDB (scan_Model row) (text_of (col "name" row)) (text_of (col "type" row))
    (text_of (col "reservable_ports" row)).

Definition scan_route (row : SqlRow) : Route :=
  mkRoute (scan_Model row) (time_of (col "expires_at" row))
    (mkRouteEntity (text_of (col "route" row)) (int_of (col "port" row)) (text_of (col "ip" row)) (int_ptr (col "ttl" row))
       (text_of (col "log_guid" row)) (text_of (col "route_service_url" row)) (scan_Tag row)).

Definition scan_tcp (row : SqlRow) : TcpRouteMapping :=
  mkTcpRouteMapping (scan_Model row) (time_of (col "expires_at" row))
    (mkTcpMappingEntity (text_of (col "router_group_guid" row)) (int_of (col "host_port" row))
       (int_of (col "host_tls_port" row)) (text_of (col "host_ip" row)) (text_ptr (col "sni_hostname" row))
       (text_ptr (col "sni_rewrite_hostname" row)) (text_of (col "instance_id" row)) (int_of (col "external_port" row))
       (scan_Tag row) (int_ptr (col "ttl" row)) (text_of (col "isolation_segment" row))
       (bool_of (col "terminate_frontend_tls" row)) (text_of (col "alp_ns" row)) (bool_of (col "enable_backend_m_tls" row))).

(** gorm sets these by itself. *)
Notation times := ["created_at"; "updated_at"].

(** A row shows a record: each column has the field's value, or NULL for a zero
    field when the column may be NULL. *)
Definition strict (c : Column) : bool := C_PrimaryKey c || C_NotNull c.

Definition col_shows (c : Column) (v : SqlVal * bool) (x : SqlVal) : Prop :=
  x = fst v \/ (snd v = true /\ strict c = false /\ x = VNull).

Definition shows {R} `{!Saved R} (r : R) (row : SqlRow) : Prop :=
  forall i c v, Columns s_fields !! i = Some c -> s_values r !! i = Some v -> C_Name c ∉ times ->
    col_shows c v (col (C_Name c) row).

(** Column [n] is the [i]th; whether it can be NULL. *)
Definition column_at (fields : list GoField) (n : string) (i : nat) : option bool :=
  match Columns fields !! i with
  | Some c => if bool_decide (C_Name c = n) && bool_decide (n ∉ times) then Some (strict c) else None
  | None => None
  end.

Section Shows.
Context {R : Type} `{!Saved R}.
Implicit Types (r : R).

Lemma shows_at r row n i s v b :
  shows r row -> column_at s_fields n i = Some s -> s_values r !! i = Some (v, b) ->
  col n row = v \/ (b = true /\ s = false /\ col n row = VNull).
Proof.
  unfold column_at. intros Hr. destruct (Columns s_fields !! i) as [c|] eqn:Hc; [|done].
  destruct (bool_decide (C_Name c = n)) eqn:Hn; [apply bool_decide_eq_true in Hn as <-|done].
  destruct (bool_decide (_ ∉ _)) eqn:Ht; [apply bool_decide_eq_true in Ht|done]. intros [= <-] Hv.
  exact (Hr i c (v, b) Hc Hv Ht).
Qed.

Lemma shows_strict r row n i v b :
  shows r row -> column_at s_fields n i = Some true -> s_values r !! i = Some (v, b) -> col n row = v.
Proof. intros Hr Hc Hv. by destruct (shows_at _ _ _ _ _ _ _ Hr Hc Hv) as [?|(_ & ? & _)]. Qed.

Lemma shows_filled r row n i s v b :
  shows r row -> column_at s_fields n i = Some s -> s_values r !! i = Some (v, b) -> col n row <> VNull -> col n row = v.
Proof. intros Hr Hc Hv Hn. by destruct (shows_at _ _ _ _ _ _ _ Hr Hc Hv) as [?|(_ & _ & ?)]. Qed.

(** A value read back: NULL stands for the zero value. *)
Lemma shows_scan {A} (f : SqlVal -> A) r row n i s v b :
  shows r row -> column_at s_fields n i = Some s -> s_values r !! i = Some (v, b) ->
  (b = true -> f VNull = f v) -> f (col n row) = f v.
Proof. intros Hr Hc Hv Hz. destruct (shows_at _ _ _ _ _ _ _ Hr Hc Hv) as [->|(Hb & _ & ->)]; auto. Qed.
End Shows.


Lemma zero_text s : is_zero (VText s) = true -> "" = s.
Proof. unfold is_zero. rewrite bool_decide_eq_true. set_solver. Qed.
Lemma zero_int z : is_zero (VInt z) = true -> 0 = z.
Proof. unfold is_zero. rewrite bool_decide_eq_true. set_solver. Qed.
Lemma zero_bool b : is_zero (VBool b) = true -> false = b.
Proof. by destruct b. Qed.
Lemma zero_time_value t : is_zero (VTime t) = true -> zero_time = t.
Proof. unfold is_zero. rewrite bool_decide_eq_true. set_solver. Qed.

Lemma pointer_pair {A} (f : A -> SqlVal) p : pointer f p = (from_option f VNull p, bool_decide (p = None)).
Proof. by destruct p. Qed.

(** Rewrites one column of a row that shows [H] into its field. *)
Ltac scanned_as H n f i :=
  let E := fresh in
  assert (f (col n _) = _) as E by
    (eapply (shows_scan f _ _ n i _ _ _ H); [vm_compute; reflexivity|reflexivity|
       first [exact (zero_text _)|exact (zero_int _)|exact (zero_bool _)|exact (zero_time_value _)]]);
  rewrite E; clear E.

Ltac scanned_ptr H n f i :=
  let E := fresh in
  assert (f (col n _) = _) as E by
    (eapply (shows_scan f _ _ n i _ _ _ H);
       [vm_compute; reflexivity|cbn; by rewrite pointer_pair|by intros ->%bool_decide_eq_true]);
  rewrite E; clear E.

Lemma shows_group g row : shows g row ->
  Model_Guid (scan_Model row) = Model_Guid (RGDB_Model g) /\ RGDB_Name (scan_group row) = RGDB_Name g /\
  RGDB_Type (scan_group row) = RGDB_Type g /\ RGDB_ReservablePorts (scan_group row) = RGDB_ReservablePorts g.
Proof.
  intros H. cbn [scan_Model scan_group Model_Guid RGDB_Name RGDB_Type RGDB_ReservablePorts].
  scanned_as H "guid" text_of 0%nat. scanned_as H "name" text_of 3%nat. scanned_as H "type" text_of 4%nat.
  scanned_as H "reservable_ports" text_of 5%nat. done.
Qed.

Lemma shows_tag {R} `{!Saved R} (r : R) row i tag :
  shows r row -> column_at s_fields "modification_guid" i = Some false ->
  column_at s_fields "modification_index" (S i) = Some false ->
  s_values r !! i = Some (plain (VText (Tag_Guid tag))) -> s_values r !! S i = Some (plain (VInt (Tag_Index tag))) ->
  scan_Tag row = tag.
Proof.
  intros H Hc1 Hc2 Hv1 Hv2. destruct tag as [g x]. unfold scan_Tag.
  rewrite (shows_scan text_of _ _ _ _ _ _ _ H Hc1 Hv1 (zero_text _)), (shows_scan int_of _ _ _ _ _ _ _ H Hc2 Hv2 (zero_int _)).
  done.
Qed.

Lemma shows_route (r : Route) row : shows r row ->
  Model_Guid (scan_Model row) = Model_Guid (Route_Model r) /\ Route_ExpiresAt (scan_route row) = Route_ExpiresAt r /\
  Route_Entity (scan_route row) = Route_Entity r.
Proof.
  intros H. destruct r as [[g ca ua] x [ro p ip ttl lg su tag]]. cbn [scan_Model scan_route Model_Guid Route_Model Route_ExpiresAt Route_Entity].
  scanned_as H "guid" text_of 0%nat. scanned_as H "expires_at" time_of 3%nat. split_and!; [done..|].
  scanned_as H "route" text_of 4%nat. scanned_as H "port" int_of 5%nat. scanned_as H "ip" text_of 6%nat.
  scanned_ptr H "ttl" int_ptr 7%nat. scanned_as H "log_guid" text_of 8%nat. scanned_as H "route_service_url" text_of 9%nat.
  rewrite (shows_tag _ _ 10%nat tag H) by first [reflexivity|vm_compute; reflexivity]. by destruct ttl.
Qed.

Lemma shows_tcp (m : TcpRouteMapping) row : shows m row ->
  Model_Guid (scan_Model row) = Model_Guid (Tcp_Model m) /\ Tcp_ExpiresAt (scan_tcp row) = Tcp_ExpiresAt m /\
  Tcp_Entity (scan_tcp row) = Tcp_Entity m.
Proof.
  intros H. destruct m as [[g ca ua] x [rg hp tp ip sni rw ins ep tag ttl seg tf al mt]].
  cbn [scan_Model scan_tcp Model_Guid Tcp_Model Tcp_ExpiresAt Tcp_Entity].
  scanned_as H "guid" text_of 0%nat. scanned_as H "expires_at" time_of 3%nat. split_and!; [done..|].
  scanned_as H "router_group_guid" text_of 4%nat. scanned_as H "host_port" int_of 5%nat. scanned_as H "host_tls_port" int_of 6%nat.
  scanned_as H "host_ip" text_of 7%nat. scanned_ptr H "sni_hostname" text_ptr 8%nat.
  scanned_ptr H "sni_rewrite_hostname" text_ptr 9%nat. scanned_as H "instance_id" text_of 10%nat.
  scanned_as H "external_port" int_of 11%nat. rewrite (shows_tag _ _ 12%nat tag H) by first [reflexivity|vm_compute; reflexivity].
  scanned_ptr H "ttl" int_ptr 14%nat. scanned_as H "isolation_segment" text_of 15%nat.
  scanned_as H "terminate_frontend_tls" bool_of 16%nat. scanned_as H "alp_ns" text_of 17%nat.
  scanned_as H "enable_backend_m_tls" bool_of 18%nat. by destruct sni, rw, ttl.
Qed.

(** ** What a created row shows *)
Section Created.
Context (now : Z) (t : Table).

Lemma zip_with_keys {B C} (f : B -> C -> SqlVal) (g : B -> string) (l : list B) (k : list C) :
  length l = length k -> (zip_with (fun b c => (g b, f b c)) l k).*1 = g <$> l.
Proof. revert k. induction l as [|b l IH]; intros [|c k]; try done. intros [= H]. csimpl. by rewrite IH. Qed.

(** A column of a row that is made from all the fields. *)
Lemma zipped_col {R} `{!Saved R} (f : Column -> SqlVal * bool -> SqlVal) (r : R) (rest : SqlRow) i c v :
  Columns s_fields !! i = Some c -> s_values r !! i = Some v ->
  col (C_Name c) (list_to_map (zip_with (fun c v => (C_Name c, f c v)) (Columns s_fields) (s_values r)) ∪ rest) = f c v.
Proof.
  intros Hc Hv. unfold col. erewrite lookup_union_Some_l; [done|]. apply elem_of_list_to_map.
  - rewrite zip_with_keys; [apply s_names|]. unfold Columns. rewrite length_fmap. symmetry. apply s_length.
  - apply list_elem_of_lookup. exists i. rewrite lookup_zip_with, Hc. simpl. by rewrite Hv.
Qed.

Lemma create_col {R} `{!Saved R} (r : R) i c v :
  Columns s_fields !! i = Some c -> s_values r !! i = Some v ->
  col (C_Name c) (create_row now t r) = create_value now t c v.
Proof. intros Hc Hv. unfold create_row. rewrite <- (right_id_L ∅ (∪) (list_to_map _)). by apply (zipped_col (create_value now t) r ∅ i c v). Qed.

Lemma no_default fields i c : Columns fields !! i = Some c -> C_HasDefault c = false -> C_DefaultValue c = None.
Proof.
  unfold Columns. rewrite list_lookup_fmap. destruct (fields !! i) as [f|]; [|done]. intros [= <-]. unfold ParseField. simpl.
  rewrite orb_false_iff, bool_decide_eq_false. intros [_ Hd]. apply eq_None_not_Some in Hd. by rewrite Hd.
Qed.

(** A created row shows its record if the defaults do. *)
Lemma create_shows {R} `{!Saved R} (r : R) :
  (forall i c v, Columns s_fields !! i = Some c -> s_values r !! i = Some (v, true) -> C_HasDefault c = true ->
     col_shows c (v, true) (create_value now t c (v, true))) ->
  shows r (create_row now t r).
Proof.
  intros Hd i c [v b] Hc Hv Hn. rewrite (create_col r i c (v, b)) by done. destruct b; [|by left].
  destruct (C_HasDefault c) eqn:E; [by apply (Hd i)|]. left. simpl.
  by rewrite (no_default s_fields i c Hc E), E, bool_decide_eq_false_2.
Qed.

(** The defaults of tcp_routes that gorm leaves to the database. *)
Definition null_defaults : Prop :=
  Forall (fun n => default VNull (cd_default <$> t_cols t !! n) = VNull) ["sni_hostname"; "sni_rewrite_hostname"; "instance_id"].

Definition tls_default : SqlVal := default VNull (cd_default <$> t_cols t !! "host_tls_port").

Lemma create_tls (m : TcpRouteMapping) :
  col "host_tls_port" (create_row now t m) =
    if bool_decide (TM_HostTLSPort (Tcp_Entity m) = 0) then tls_default else VInt (TM_HostTLSPort (Tcp_Entity m)).
Proof.
  eapply eq_trans; [eapply (create_col m 6%nat (ParseField (mkField "HostTLSPort" KInt "default:null; unique_index:idx_tcp_route; type:int"))); reflexivity|].
  assert (forall z, is_zero (VInt z) = bool_decide (z = 0)) as Hz.
  { intros z. unfold is_zero. apply bool_decide_ext. rewrite !elem_of_cons, elem_of_nil. naive_solver. }
  unfold create_value, plain. rewrite Hz. by case_bool_decide.
Qed.

(** The default of a column in the cases of [create_shows]. *)
Lemma shows_null c (v : SqlVal) d : strict c = false -> d = VNull -> col_shows c (v, true) d.
Proof. intros Hs ->. by right. Qed.

Lemma create_shows_tcp (m : TcpRouteMapping) :
  null_defaults -> tls_default ∈ [VNull; VInt 0] -> shows m (create_row now t m).
Proof.
  intros Hn Ht. unfold null_defaults in Hn. rewrite !Forall_cons in Hn. destruct Hn as (H1 & H2 & H3 & _).
  assert (forall z, is_zero (VInt z) = true -> VInt 0 = VInt z) as Hz by (intros z Hz; f_equal; by apply zero_int).
  assert (forall b, is_zero (VBool b) = true -> VBool false = VBool b) as Hb by (by intros []).
  apply create_shows. intros i c v Hc Hv Hd.
  do 19 (destruct i as [|i];
    [vm_compute in Hc; injection Hc as <-; first
       [discriminate Hd
       |by apply shows_null
       |cbn in Hv; injection Hv as <- Hzero; left; by apply Hb
       |cbn in Hv; injection Hv as <- Hzero; change (col_shows (ParseField (mkField "HostTLSPort" KInt "default:null; unique_index:idx_tcp_route; type:int")) (VInt (TM_HostTLSPort (Tcp_Entity m)), true) tls_default);
        rewrite !elem_of_cons, elem_of_nil in Ht; destruct Ht as [->|[->|[]]]; [by right|left; by apply Hz]]|]).
  done.
Qed.

(** Column [n] is the [i]th and its default, if any, is known to gorm. *)
Definition known_at (fields : list GoField) (n : string) (i : nat) : bool :=
  match Columns fields !! i with
  | Some c => bool_decide (C_Name c = n) && bool_decide (C_DefaultValue c <> Some VNull) &&
              (negb (C_HasDefault c) || bool_decide (is_Some (C_DefaultValue c)))
  | None => false
  end.

Lemma create_filled {R} `{!Saved R} (r : R) n i v b :
  known_at s_fields n i = true -> s_values r !! i = Some (v, b) -> v <> VNull -> col n (create_row now t r) <> VNull.
Proof.
  unfold known_at. destruct (Columns s_fields !! i) as [c|] eqn:Hc; [|done].
  rewrite !andb_true_iff, orb_true_iff, !bool_decide_eq_true, negb_true_iff. intros [[<- Hd1] Hd2] Hv Hz.
  rewrite (create_col r i c (v, b)) by done. unfold create_value. destruct b; [|done].
  simpl. destruct (C_DefaultValue c) as [d|]; [congruence|]. destruct Hd2 as [->|[? [=]]]. by case_bool_decide.
Qed.

(** Without defaults every field is written as it is. *)
Lemma create_shows_plain {R} `{!Saved R} (r : R) :
  forallb (fun c => negb (C_HasDefault c)) (Columns s_fields) = true -> shows r (create_row now t r).
Proof.
  rewrite forallb_forall. intros Hf. apply create_shows. intros i c v Hc _ Hd.
  specialize (Hf c (proj1 (list_elem_of_In _ _) (list_elem_of_lookup_2 _ _ _ Hc))). by rewrite Hd in Hf.
Qed.
End Created.

(** ** What an updated row shows *)

(** The SET clause of gorm's Save: all the fields but the primary key. *)
Definition save_value (now : Z) (c : Column) (v : SqlVal * bool) : SqlVal :=
  if bool_decide (C_Name c = "updated_at") then VTime now else fst v.

Definition update_row {R} `{!Saved R} (now : Z) (r : R) (row : SqlRow) : SqlRow :=
  <["guid" := col "guid" row]>
    (list_to_map (zip_with (fun c v => (C_Name c, save_value now c v)) (Columns s_fields) (s_values r)) ∪ row).

Lemma update_col {R} `{!Saved R} now (r : R) row i c v :
  Columns s_fields !! i = Some c -> s_values r !! i = Some v -> C_Name c <> "guid" ->
  col (C_Name c) (update_row now r row) = save_value now c v.
Proof.
  intros Hc Hv Hg. unfold update_row. unfold col at 1. rewrite lookup_insert_ne by done.
  exact (zipped_col (save_value now) r row i c v Hc Hv).
Qed.

Lemma update_guid {R} `{!Saved R} now (r : R) row : col "guid" (update_row now r row) = col "guid" row.
Proof. unfold update_row. unfold col at 1. by rewrite lookup_insert_eq. Qed.

Lemma update_shows {R} `{!Saved R} now (r : R) row :
  (forall i c v, Columns s_fields !! i = Some c -> s_values r !! i = Some v -> C_Name c = "guid" -> col "guid" row = fst v) ->
  shows r (update_row now r row).
Proof.
  intros Hg i c v Hc Hv Hn. left. destruct (decide (C_Name c = "guid")) as [E|E].
  - rewrite E, update_guid. by apply (Hg i c v).
  - rewrite (update_col now r row i c v) by done. unfold save_value. rewrite bool_decide_eq_false_2; [done|set_solver].
Qed.

(** ** Tables of records *)

(** A model type with its table: how a row is read, and the columns that may be
    NULL but are compared by a query; [suits] says that the table's defaults keep
    these columns of a record from being NULL. *)
Class Tabled (R : Type) `{!Row R, !Saved R} := {
  scan : SqlRow -> R;
  compared : list string;
  scan_shows : forall r row, shows r row -> reads_back (fun t => t) r (scan row);
  shows_reads_back : forall r r' row, reads_back (fun t => t) r r' -> shows r row -> shows r' row;
  suits : Table -> R -> Prop;
  suits_columns : forall t t' r, t_cols t' = t_cols t -> suits t r -> suits t' r;
  guid_at : column_at s_fields "guid" 0 = Some true;
  guid_only : forall i c, Columns s_fields !! i = Some c -> C_Name c = "guid" -> i = 0%nat;
  guid_value : forall r, s_values r !! 0%nat = Some (plain (VText (row_guid r)));
  compared_value : forall r n, n ∈ compared -> exists i s v b,
    column_at s_fields n i = Some s /\ s_values r !! i = Some (v, b) /\ v <> VNull /\ n <> "guid";
  create_holds : forall now t r, suits t r ->
    shows r (create_row now t r) /\ Forall (fun n => col n (create_row now t r) <> VNull) compared
}.

(** Two records that read the same have the same values but for the times. *)
Lemma shows_same_values {R} `{!Saved R} (r r' : R) row :
  (forall i, i <> 1%nat -> i <> 2%nat -> s_values r' !! i = s_values r !! i) ->
  (forall i c, i = 1%nat \/ i = 2%nat -> Columns s_fields !! i = Some c -> C_Name c ∈ times) ->
  shows r row -> shows r' row.
Proof.
  intros Hv Ht Hr i c v Hc Hi Hn. destruct (decide (i = 1 \/ i = 2)%nat) as [Hit|Hit].
  - destruct Hn. by apply (Ht i c).
  - apply (Hr i); [done| |done]. by rewrite <- Hv by tauto.
Qed.

Lemma time_columns fields i c : take 3 fields = Model_fields -> i = 1%nat \/ i = 2%nat ->
  Columns fields !! i = Some c -> C_Name c ∈ times.
Proof.
  intros Hf Hi. rewrite <- (lookup_take_lt (Columns fields) 3 i) by lia. unfold Columns. rewrite <- fmap_take, Hf.
  destruct Hi as [-> | ->]; intros [= <-]; vm_compute; set_solver.
Qed.

Ltac same_values :=
  apply shows_same_values; [intros [|[|[|i]]] ? ?; try done|intros i c; by apply time_columns].

Lemma guid_first fields : C_Name <$> head (Columns fields) = Some "guid" -> NoDup (names fields) ->
  forall i c, Columns fields !! i = Some c -> C_Name c = "guid" -> i = 0%nat.
Proof.
  intros Hh Hn i c Hc Hg. destruct (Columns fields) as [|c0 cs] eqn:E; [done|]. unfold names in Hn. rewrite E in Hn.
  apply (NoDup_lookup _ i 0 "guid" Hn); rewrite list_lookup_fmap; [by rewrite Hc; simpl; rewrite Hg|done].
Qed.

(** A compared column is the [i]th and a plain field. *)
Ltac compared_column i := exists i; do 3 eexists; split_and!; [vm_compute; reflexivity|reflexivity|done|done].

Ltac compared_columns := rewrite ?elem_of_cons, ?elem_of_nil; intros H; repeat destruct H as [->|H]; [..|done].

Ltac guid_column := intros i c; apply guid_first; [vm_compute; reflexivity|by_evaluation].

(** The fields of a created row that are compared. *)
Ltac created_column i := eapply (create_filled _ _ _ _ i); [vm_compute; reflexivity|reflexivity|done].

#[export] Program Instance Tcp_Tabled : Tabled TcpRouteMapping := {|
  scan := scan_tcp;
  compared := ["expires_at"; "host_tls_port"; "isolation_segment"; "enable_backend_m_tls"];
  suits t m := null_defaults t /\ tls_default t ∈ [VNull; VInt 0] /\ (tls_default t = VInt 0 \/ TM_HostTLSPort (Tcp_Entity m) <> 0)
|}.
Next Obligation. intros r row. apply shows_tcp. Qed.
Next Obligation. intros [[? ? ?] ? ?] [[? ? ?] ? ?] row (Hg & Hx & He). simpl in Hg, Hx, He. subst. same_values. Qed.
Next Obligation. intros t t' r E. unfold null_defaults, tls_default. by rewrite E. Qed.
Next Obligation. vm_compute. reflexivity. Qed.
Next Obligation. guid_column. Qed.
Next Obligation. done. Qed.
Next Obligation.
  intros r n. compared_columns; [compared_column 3%nat|compared_column 6%nat|compared_column 15%nat|compared_column 18%nat].
Qed.
Next Obligation.
  intros now t r (Hn & Hd & Ht). split; [by apply create_shows_tcp|]. repeat constructor.
  - created_column 3%nat.
  - rewrite create_tls. case_bool_decide; [|done]. by destruct Ht as [-> | ?].
  - created_column 15%nat.
  - created_column 18%nat.
Qed.

#[export] Program Instance Route_Tabled : Tabled Route := {|
  scan := scan_route; compared := ["expires_at"]; suits _ _ := True
|}.
Next Obligation. intros r row. apply shows_route. Qed.
Next Obligation. intros [[? ? ?] ? ?] [[? ? ?] ? ?] row (Hg & Hx & He). simpl in Hg, Hx, He. subst. same_values. Qed.
Next Obligation. done. Qed.
Next Obligation. vm_compute. reflexivity. Qed.
Next Obligation. guid_column. Qed.
Next Obligation. done. Qed.
Next Obligation. intros r n. compared_columns. compared_column 3%nat. Qed.
Next Obligation.
  intros now t r _. split; [apply create_shows_plain; vm_compute; reflexivity|]. repeat constructor. created_column 3%nat.
Qed.

#[export] Program Instance Group_Tabled : Tabled RouterGroupDB := {|
  scan := scan_group; compared := ["name"]; suits _ _ := True
|}.
Next Obligation. intros r row. apply shows_group. Qed.
Next Obligation.
  intros [[? ? ?] ? ? ?] [[? ? ?] ? ? ?] row (Hg & Hn & Ht & Hp). simpl in Hg, Hn, Ht, Hp. subst. same_values.
Qed.
Next Obligation. done. Qed.
Next Obligation. vm_compute. reflexivity. Qed.
Next Obligation. guid_column. Qed.
Next Obligation. done. Qed.
Next Obligation. intros r n. compared_columns. compared_column 3%nat. Qed.
Next Obligation.
  intros now t r _. split; [apply create_shows_plain; vm_compute; reflexivity|]. repeat constructor. created_column 3%nat.
Qed.

(** A row as the program writes it. *)
Definition holds {R} `{Tabled R} (row : SqlRow) : Prop :=
  shows (scan row) row /\ Forall (fun n => col n row <> VNull) compared.

Lemma shows_holds {R} `{Tabled R} (r : R) row :
  shows r row -> Forall (fun n => col n row <> VNull) compared -> holds row.
Proof. intros Hr Hf. split; [|done]. eapply shows_reads_back; [by apply scan_shows|done]. Qed.

Lemma shows_guid {R} `{Tabled R} (r : R) row : shows r row -> col "guid" row = VText (row_guid r).
Proof. intros Hr. exact (shows_strict _ _ _ _ _ _ Hr guid_at (guid_value r)). Qed.

(** ** What the queries select *)
Section Selected.
Context (text : option Z -> string -> string).

Lemma sql_equal_refl v : v <> VNull -> sql_equal text v v = true.
Proof. destruct v; simpl; try done; intros _; by apply bool_decide_eq_true_2. Qed.

Lemma sql_equal_int x y : sql_equal text (VInt x) (VInt y) = (x =? y).
Proof. simpl. apply eq_true_iff_eq. rewrite bool_decide_eq_true, Z.eqb_eq. split; congruence. Qed.

Lemma sql_equal_bool x y : sql_equal text (VBool x) (VBool y) = Bool.eqb x y.
Proof. simpl. apply eq_true_iff_eq. rewrite bool_decide_eq_true, eqb_true_iff. split; congruence. Qed.

(** One column of a row that shows a record. *)
Ltac shown_strict H i := refine (shows_strict _ _ _ i _ _ H _ _); [vm_compute; reflexivity|reflexivity].
Ltac shown_filled H i := refine (shows_filled _ _ _ i _ _ _ H _ _ _); [vm_compute; reflexivity|reflexivity|].

Lemma shown_sni (m : TcpRouteMapping) row : shows m row ->
  col "sni_hostname" row = from_option VText VNull (TM_SniHostname (Tcp_Entity m)).
Proof.
  intros H. destruct (shows_at _ _ "sni_hostname" 8%nat false (from_option VText VNull (TM_SniHostname (Tcp_Entity m)))
    (bool_decide (TM_SniHostname (Tcp_Entity m) = None)) H) as [Hc|(Hb & _ & Hc)].
  - vm_compute. reflexivity.
  - cbn. by rewrite pointer_pair.
  - done.
  - apply bool_decide_eq_true in Hb as ->. done.
Qed.

Ltac where_parsed :=
  unfold selects, filtered_query, similar_query, guid_query, name_query, unexpired_query, expired_query, guids_query, route_query;
  cbn [forallb fst snd];
  repeat match goal with |- context [parse_where ?c] =>
    let x := eval vm_compute in (parse_where c) in change (parse_where c) with x end;
  cbn [conds_hold app]; rewrite ?andb_true_r.

(** The conditions of the lookup of a mapping, one by one. *)
Lemma existing_selects (m r : TcpRouteMapping) row :
  shows r row -> col "enable_backend_m_tls" row <> VNull ->
  selects text (existing_query m) row =
    (let e := Tcp_Entity m in let f := Tcp_Entity r in
     sql_equal text (VText (TM_RouterGroupGuid f)) (VText (TM_RouterGroupGuid e)) &&
     sql_equal text (VText (TM_HostIP f)) (VText (TM_HostIP e)) &&
     (TM_HostPort f =? TM_HostPort e) && (TM_ExternalPort f =? TM_ExternalPort e) &&
     sql_equal text (col "host_tls_port" row) (VInt (TM_HostTLSPort e)) &&
     match TM_SniHostname e with
     | None => bool_decide (TM_SniHostname f = None)
     | Some h => match TM_SniHostname f with
                 | None => false
                 | Some h' => sql_equal text (VText h') (VText h)
                 end
     end &&
     Bool.eqb (TM_EnableBackendMTLS f) (TM_EnableBackendMTLS e)).
Proof.
  intros H Hn. pose proof (shown_sni _ _ H) as Hsni.
  assert (col "router_group_guid" row = VText (TM_RouterGroupGuid (Tcp_Entity r))) as H1 by shown_strict H 4%nat.
  assert (col "host_port" row = VInt (TM_HostPort (Tcp_Entity r))) as H2 by shown_strict H 5%nat.
  assert (col "host_ip" row = VText (TM_HostIP (Tcp_Entity r))) as H3 by shown_strict H 7%nat.
  assert (col "external_port" row = VInt (TM_ExternalPort (Tcp_Entity r))) as H4 by shown_strict H 11%nat.
  assert (col "enable_backend_m_tls" row = VBool (TM_EnableBackendMTLS (Tcp_Entity r))) as H5
    by (shown_filled H 18%nat; exact Hn).
  unfold existing_query. cbv zeta. destruct (TM_SniHostname (Tcp_Entity m)) as [h|] eqn:Em; where_parsed.
  all: rewrite H1, H2, H3, H4, H5, Hsni, !sql_equal_int, sql_equal_bool.
  all: destruct (TM_SniHostname (Tcp_Entity r)); rewrite ?andb_true_r, !andb_assoc; cbn [from_option]; try done.
  by rewrite (bool_decide_eq_true_2 (VNull = VNull)), andb_true_r by done.
Qed.

(** The lookup finds the row of a mapping unless its TLS port is NULL. *)
Lemma existing_found (m : TcpRouteMapping) row : shows m row -> col "enable_backend_m_tls" row <> VNull ->
  selects text (existing_query m) row = true <-> col "host_tls_port" row <> VNull.
Proof.
  intros H Hn. rewrite (existing_selects m m) by done. cbv zeta.
  rewrite !sql_equal_refl, !Z.eqb_refl, eqb_reflx, andb_true_r, !andb_true_l by done.
  transitivity (sql_equal text (col "host_tls_port" row) (VInt (TM_HostTLSPort (Tcp_Entity m))) = true).
  { destruct (TM_SniHostname (Tcp_Entity m)); rewrite ?sql_equal_refl, ?bool_decide_eq_true_2, ?andb_true_r by done; done. }
  split; [intros Ht E; by rewrite E in Ht|]. intros Ht. assert (col "host_tls_port" row = VInt (TM_HostTLSPort (Tcp_Entity m))) as ->
    by (shown_filled H 6%nat; exact Ht). by apply sql_equal_refl.
Qed.

(** *** When texts are compared as they are *)
Context (Hinj : forall a b, text None a = text None b -> a = b).

Lemma sql_equal_text a b : sql_equal text (VText a) (VText b) = bool_decide (a = b).
Proof. simpl. apply bool_decide_ext. split; [intros [= ?]; by apply Hinj|by intros ->]. Qed.

Lemma sql_in_text a vs : existsb (sql_equal text (VText a)) (VText <$> vs) = bool_decide (a ∈ vs).
Proof.
  induction vs as [|v vs IH]; [done|]. cbn [existsb fmap list_fmap]. rewrite sql_equal_text, IH.
  apply eq_true_iff_eq. rewrite orb_true_iff, !bool_decide_eq_true, elem_of_cons. done.
Qed.

Lemma guid_selects {R} `{Tabled R} guid (r : R) row : shows r row ->
  selects text (guid_query guid) row = bool_decide (row_guid r = guid).
Proof. intros Hr. where_parsed. rewrite (shows_guid r row Hr). apply sql_equal_text. Qed.

Lemma guids_selects {R} `{Tabled R} guids (r : R) row : shows r row ->
  selects text (guids_query guids) row = bool_decide (row_guid r ∈ guids).
Proof. intros Hr. where_parsed. rewrite (shows_guid r row Hr). apply sql_in_text. Qed.

Lemma name_selects name (g : RouterGroupDB) row : shows g row -> col "name" row <> VNull ->
  selects text (name_query name) row = bool_decide (RGDB_Name g = name).
Proof.
  intros H Hn. where_parsed.
  assert (col "name" row = VText (RGDB_Name g)) as -> by (shown_filled H 3%nat; exact Hn). apply sql_equal_text.
Qed.

Lemma route_selects route (r : Route) row : shows r row -> selects text (route_query route) row = route_matches route r.
Proof.
  intros H. where_parsed.
  assert (col "route" row = VText (RE_Route (Route_Entity r))) as -> by shown_strict H 4%nat.
  assert (col "port" row = VInt (RE_Port (Route_Entity r))) as -> by shown_strict H 5%nat.
  assert (col "ip" row = VText (RE_IP (Route_Entity r))) as -> by shown_strict H 6%nat.
  assert (col "route_service_url" row = VText (RE_RouteServiceUrl (Route_Entity r))) as -> by shown_strict H 9%nat.
  unfold route_matches. by rewrite !sql_equal_text, sql_equal_int, !andb_assoc.
Qed.

(** The column expires_at of either kind of route. *)
Lemma expiry_selects row x at_ : col "expires_at" row = VTime x ->
  selects text (unexpired_query at_) row = (at_ <? x) /\ selects text (expired_query at_) row = (x <? at_ + -1 * Second).
Proof. intros Hx. where_parsed. by rewrite Hx. Qed.

Lemma shown_route_expiry (r : Route) row : shows r row -> col "expires_at" row <> VNull ->
  col "expires_at" row = VTime (Route_ExpiresAt r).
Proof. intros H Hn. shown_filled H 3%nat. exact Hn. Qed.

Lemma shown_tcp_expiry (m : TcpRouteMapping) row : shows m row -> col "expires_at" row <> VNull ->
  col "expires_at" row = VTime (Tcp_ExpiresAt m).
Proof. intros H Hn. shown_filled H 3%nat. exact Hn. Qed.

Lemma filtered_selects values at_ (m : TcpRouteMapping) row :
  shows m row -> col "expires_at" row <> VNull -> col "isolation_segment" row <> VNull ->
  selects text (filtered_query "isolation_segment" values at_) row =
    bool_decide (TM_IsolationSegment (Tcp_Entity m) ∈ values) && (at_ <? Tcp_ExpiresAt m).
Proof.
  intros H Hx Hs. where_parsed. rewrite (shown_tcp_expiry m row H Hx).
  assert (col "isolation_segment" row = VText (TM_IsolationSegment (Tcp_Entity m))) as -> by (shown_filled H 15%nat; exact Hs).
  by rewrite sql_in_text.
Qed.

Lemma similar_selects sni port at_ (m : TcpRouteMapping) row : shows m row -> col "expires_at" row <> VNull ->
  selects text (similar_query sni port at_) row =
    sql_eq (TM_SniHostname (Tcp_Entity m)) sni && (TM_ExternalPort (Tcp_Entity m) =? port) && (at_ <? Tcp_ExpiresAt m).
Proof.
  intros H Hx. where_parsed. rewrite (shown_tcp_expiry m row H Hx), (shown_sni m row H).
  assert (col "external_port" row = VInt (TM_ExternalPort (Tcp_Entity m))) as -> by shown_strict H 11%nat.
  rewrite sql_equal_int. unfold sql_eq. destruct (TM_SniHostname (Tcp_Entity m)); cbn [from_option]; by rewrite ?sql_equal_text.
Qed.

(** The lookup of a mapping selects what the store's predicate says, if [null] tells
    that the row's TLS port is NULL. *)
Lemma existing_matches null m (r : TcpRouteMapping) row : shows r row -> col "enable_backend_m_tls" row <> VNull ->
  (col "host_tls_port" row = VNull <-> tls_null null r = true) ->
  selects text (existing_query m) row = tcp_matches null m r.
Proof.
  intros H Hn Hnull. rewrite (existing_selects m r row H Hn). cbv zeta. unfold tcp_matches, sql_eq. rewrite !sql_equal_text.
  assert (sql_equal text (col "host_tls_port" row) (VInt (TM_HostTLSPort (Tcp_Entity m))) =
    negb (tls_null null r) && (TM_HostTLSPort (Tcp_Entity r) =? TM_HostTLSPort (Tcp_Entity m))) as ->.
  { destruct (tls_null null r).
    - by rewrite (proj2 Hnull).
    - assert (col "host_tls_port" row = VInt (TM_HostTLSPort (Tcp_Entity r))) as ->
        by (shown_filled H 6%nat; intros Ht; by apply Hnull in Ht). by rewrite sql_equal_int. }
  do 2 f_equal.
  destruct (TM_SniHostname (Tcp_Entity m)), (TM_SniHostname (Tcp_Entity r)); by rewrite ?sql_equal_text.
Qed.
End Selected.
