(* ===== verification/TableClient.v ===== *)
(** TableClient: the calls of db/client.go on one table: gorm's Create, Save,
    Delete, Find and First (vendor/gorm.io/gorm/finisher_api.go and callbacks/) as
    statements on its rows, and that they do to the records in the table what the
    laws of the store ([SqlLaws] in Store) say.  Times are stored as they are here;
    the laws allow for an error below one second. *)
From Stdlib Require Import ZArith Lia Ascii.
From stdpp Require Import base option strings gmap list.
From S2P Require Import Prelude GoStrings RouterGroups Routes Store SqlDB Prune Gorm Migration Schema SchemaFacts SqlRows.

Local Open Scope string_scope.
Local Open Scope list_scope.
Local Open Scope Z_scope.

Section Calls.
Context {R : Type} `{Tabled R}.

(** [text] is how the server compares texts, [before] the order of guids. *)
Context (text : option Z -> string -> string) (before : string -> string -> bool).
Implicit Types (r : R) (t : Table) (q : Query) (rows : list SqlRow).

(** ** The calls *)

Definition records t : list R := scan <$> t_rows t.

(** New rows, unless a unique index refuses them. *)
Definition with_rows rows t : option Table :=
  if bool_decide (map_Forall (fun _ ix => unique text ix rows) (t_idx t))
  then Some (mkTable (t_cols t) rows (t_idx t)) else None.

Definition same_guid (guid : string) (row : SqlRow) : bool := sql_equal text (col "guid" row) (VText guid).

(** INSERT; the guid is the primary key. *)
Definition sql_create (now : Z) r t : option Table :=
  if existsb (same_guid (row_guid r)) (t_rows t) then None
  else with_rows (t_rows t ++ [create_row now t r]) t.

(** UPDATE ... WHERE guid = ?, and an INSERT when there is no such row or no
    guid.  (PostgreSQL then refuses a row whose index key is taken, as here; MySQL
    updates the row with that key.) *)
Definition sql_save (now : Z) r t : option Table :=
  if bool_decide (row_guid r = "") then sql_create now r t
  else if existsb (same_guid (row_guid r)) (t_rows t)
  then with_rows (map (fun row => if same_guid (row_guid r) row then update_row now r row else row) (t_rows t)) t
  else sql_create now r t.

(** DELETE ... WHERE, with the number of rows. *)
Definition sql_delete q t : Z * Table :=
  (Z.of_nat (length (filter (fun row => selects text q row = true) (t_rows t))),
   mkTable (t_cols t) (filter (fun row => selects text q row = false) (t_rows t)) (t_idx t)).

(** SELECT ... WHERE. *)
Definition sql_find q t : list R := scan <$> filter (fun row => selects text q row = true) (t_rows t).

(** ... ORDER BY guid LIMIT 1; nothing is gorm's ErrRecordNotFound. *)
Definition sql_first q t : option R :=
  foldr (fun r o => match o with
                    | Some r' => if before (row_guid r') (row_guid r) then Some r' else Some r
                    | None => Some r
                    end) None (sql_find q t).

(** ** What they do to the records *)

(** Every row is one the program writes, under a guid of its own. *)
Definition good t : Prop := Forall (holds (R:=R)) (t_rows t) /\ NoDup (row_guid <$> records t).

(** A call leaves [t'] for [t]. *)
Definition still_good t t' : Prop := good t' /\ forall r, suits t r -> suits t' r.

(** The query [q] has the meaning [p]. *)
Definition denotes q (p : R -> bool) : Prop := forall row, holds (R:=R) row -> selects text q row = p (scan row).

Lemma holds_guid row : holds (R:=R) row -> col "guid" row = VText (row_guid (scan (R:=R) row)).
Proof. intros [Hs _]. by apply shows_guid. Qed.

Lemma with_rows_ok rows t t' : with_rows rows t = Some t' -> t' = mkTable (t_cols t) rows (t_idx t).
Proof. unfold with_rows. case_bool_decide; [|done]. by intros [= <-]. Qed.

Lemma with_rows_taken rows t : map_Forall (fun _ ix => unique text ix rows) (t_idx t) -> is_Some (with_rows rows t).
Proof. intros Hu. unfold with_rows. by rewrite bool_decide_eq_true_2. Qed.

Lemma filter_scan q p (b : bool) rows : denotes q p -> Forall (holds (R:=R)) rows ->
  scan (R:=R) <$> filter (fun row => selects text q row = b) rows = filter (fun r => p r = b) (scan <$> rows).
Proof.
  intros Hq Hr. induction Hr as [|row rows Hrow _ IH]; [done|]. rewrite fmap_cons, !filter_cons, (Hq row Hrow).
  case_decide; rewrite ?fmap_cons; by rewrite IH.
Qed.

Lemma find_records q p t : denotes q p -> good t -> sql_find q t = rows_where p (records t).
Proof. intros Hq [Hr _]. by apply filter_scan. Qed.

Lemma first_records q t :
  match sql_first q t with Some r => r ∈ sql_find q t | None => sql_find q t = [] end.
Proof.
  unfold sql_first. induction (sql_find q t) as [|r l IH]; simpl; [done|].
  destruct (foldr _ None l) as [r'|]; [|subst; set_solver]. destruct (before _ _); set_solver.
Qed.

Lemma rows_where_negb p (l : list R) : filter (fun r => p r = false) l = rows_where (fun r => negb (p r)) l.
Proof. unfold rows_where. apply list_filter_iff. intros r. by rewrite negb_true_iff. Qed.

Lemma fmap_sublist {A B} (f : A -> B) (l k : list A) : sublist l k -> sublist (f <$> l) (f <$> k).
Proof. induction 1; csimpl; by constructor. Qed.

Lemma good_sublist t rows : good t -> sublist rows (t_rows t) -> good (mkTable (t_cols t) rows (t_idx t)).
Proof.
  intros [Hr Hn] Hs. split.
  - apply Forall_forall. intros row Hin. eapply (proj1 (Forall_forall _ _) Hr), elem_of_sublist; eassumption.
  - unfold records in *. simpl. eapply sublist_NoDup; [exact Hn|by apply fmap_sublist, fmap_sublist].
Qed.

Lemma delete_records q p t : denotes q p -> good t ->
  records (snd (sql_delete q t)) = rows_where (fun r => negb (p r)) (records t) /\
  fst (sql_delete q t) = Z.of_nat (length (rows_where p (records t))) /\ good (snd (sql_delete q t)).
Proof.
  intros Hq Hg. split_and!.
  - unfold records, sql_delete. simpl. rewrite (filter_scan q p false) by (done || apply Hg). apply rows_where_negb.
  - simpl. unfold rows_where, records. by rewrite <- (filter_scan q p true), length_fmap by (done || apply Hg).
  - apply good_sublist; [done|]. apply sublist_filter.
Qed.

(** A row that shows a record under its guid is kept among the others. *)
Lemma holds_new r row : shows r row -> Forall (fun n => col n row <> VNull) (compared (R:=R)) ->
  holds (R:=R) row /\ reads_back (fun x : Z => x) r (scan row).
Proof. intros Hs Hf. split; [by eapply shows_holds|by apply scan_shows]. Qed.

Lemma not_taken guid t : good t -> existsb (same_guid guid) (t_rows t) = false -> guid ∉ (row_guid <$> records t).
Proof.
  intros [Hr _] He Hin. unfold records in Hin. rewrite <- list_fmap_compose in Hin.
  apply list_elem_of_fmap in Hin as (row & -> & Hrow). apply not_true_iff_false in He. apply He, existsb_exists.
  exists row. split; [by apply list_elem_of_In|]. unfold same_guid, compose.
  rewrite (holds_guid row) by by eapply Forall_forall. by apply sql_equal_refl.
Qed.

Lemma create_records now r t t' : suits t r -> good t -> sql_create now r t = Some t' ->
  row_guid r ∉ (row_guid <$> records t) /\
  (exists r', reads_back (fun x : Z => x) r r' /\ records t' = records t ++ [r']) /\ good t'.
Proof.
  intros Hs Hg. unfold sql_create. destruct (existsb _ _) eqn:He; [done|]. intros ->%with_rows_ok.
  pose proof (not_taken _ _ Hg He) as Hnot. destruct (create_holds now t r Hs) as [Hsh Hf].
  destruct (holds_new r _ Hsh Hf) as [Hh Hrb]. split; [done|]. assert (records (mkTable (t_cols t) (t_rows t ++ [create_row now t r]) (t_idx t)) = records t ++ [scan (create_row now t r)]) as E
    by (unfold records; simpl; by rewrite fmap_app).
  split; [by eexists|]. split.
  - simpl. apply Forall_app. split; [apply Hg|]. by constructor.
  - rewrite E, fmap_app. apply NoDup_app. split; [apply Hg|]. split; [|apply NoDup_singleton]. intros x Hx Hin.
    apply list_elem_of_singleton in Hin as ->. apply Hnot. by rewrite <- (reads_back_guid _ _ _ Hrb).
Qed.

(** The calls leave the columns of the table alone. *)
Lemma with_rows_columns rows t t' : with_rows rows t = Some t' -> t_cols t' = t_cols t.
Proof. by intros ->%with_rows_ok. Qed.

Lemma create_columns now r t t' : sql_create now r t = Some t' -> t_cols t' = t_cols t.
Proof. unfold sql_create. destruct (existsb _ _); [done|]. apply with_rows_columns. Qed.

Lemma save_columns now r t t' : sql_save now r t = Some t' -> t_cols t' = t_cols t.
Proof.
  unfold sql_save. case_bool_decide; [apply create_columns|]. destruct (existsb _ _); [apply with_rows_columns|apply create_columns].
Qed.

Lemma still_goodI t t' : good t' -> t_cols t' = t_cols t -> still_good t t'.
Proof. intros Hg Hc. split; [done|]. intros r. by apply suits_columns. Qed.

Section Exact.
Context (Hinj : forall a b, text None a = text None b -> a = b).

Lemma same_guid_exact guid row : holds (R:=R) row -> same_guid guid row = bool_decide (row_guid (scan (R:=R) row) = guid).
Proof. intros Hh. unfold same_guid. rewrite (holds_guid row Hh). by apply sql_equal_text. Qed.

Lemma update_holds now r row : holds (R:=R) row -> row_guid (scan row) = row_guid r ->
  holds (R:=R) (update_row now r row) /\ reads_back (fun x : Z => x) r (scan (update_row now r row)).
Proof.
  intros Hh Hg. apply holds_new.
  - apply update_shows. intros i c v Hc Hv Hn. rewrite (guid_only i c Hc Hn), guid_value in Hv. injection Hv as <-.
    rewrite (holds_guid row Hh), Hg. done.
  - apply Forall_forall. intros n Hn. destruct (compared_value r n Hn) as (i & b0 & v & b & Hc & Hv & Hnz & Hng).
    unfold column_at in Hc. destruct (Columns s_fields !! i) as [c|] eqn:E; [|done].
    destruct (bool_decide (C_Name c = n)) eqn:En; [apply bool_decide_eq_true in En as <-|done].
    rewrite (update_col now r row i c (v, b)) by done. unfold save_value. destruct (bool_decide (C_Name c = "updated_at")); [done|exact Hnz].
Qed.

(** An INSERT is refused for its guid or by an index only. *)
Lemma create_taken now r t : good t -> row_guid r ∉ (row_guid <$> records t) ->
  map_Forall (fun _ ix => unique text ix (t_rows t ++ [create_row now t r])) (t_idx t) -> is_Some (sql_create now r t).
Proof.
  intros [Hr _] Hg Hu. unfold sql_create. destruct (existsb _ _) eqn:E; [|by apply with_rows_taken]. destruct Hg.
  apply existsb_exists in E as (row & Hin%list_elem_of_In & Hs). rewrite same_guid_exact in Hs by by eapply Forall_forall.
  apply bool_decide_eq_true in Hs as <-. unfold records. by do 2 apply list_elem_of_fmap_2.
Qed.

Lemma save_taken now r t : good t -> t_idx t = ∅ -> row_guid r <> "" -> is_Some (sql_save now r t).
Proof.
  intros Hg Hi Hne. unfold sql_save. rewrite bool_decide_eq_false_2 by done.
  destruct (existsb _ _) eqn:E; [apply with_rows_taken; rewrite Hi; apply map_Forall_empty|].
  apply create_taken; [done|by apply not_taken|rewrite Hi; apply map_Forall_empty].
Qed.

Definition updated now r row : SqlRow := if same_guid (row_guid r) row then update_row now r row else row.

Lemma updated_exact now r row : holds (R:=R) row ->
  updated now r row = if bool_decide (row_guid (scan (R:=R) row) = row_guid r) then update_row now r row else row.
Proof. intros Hh. unfold updated. by rewrite same_guid_exact. Qed.

Lemma update_others now r rows : Forall (holds (R:=R)) rows -> row_guid r ∉ (row_guid <$> (scan (R:=R) <$> rows)) ->
  updated now r <$> rows = rows /\
  rows_where (fun x => negb (bool_decide (row_guid x = row_guid r))) (scan (R:=R) <$> rows) = (scan (R:=R) <$> rows).
Proof.
  induction 1 as [|row rows Hrow _ IH]; [done|]. rewrite !fmap_cons, not_elem_of_cons. intros [Hne Hni]. destruct (IH Hni) as [E1 E2].
  rewrite updated_exact, E1 by done. unfold rows_where in *. rewrite filter_cons, E2.
  by rewrite !(bool_decide_eq_false_2 (row_guid (scan row) = _)) by congruence.
Qed.

Lemma update_records now r rows :
  Forall (holds (R:=R)) rows -> NoDup (row_guid <$> (scan (R:=R) <$> rows)) -> existsb (same_guid (row_guid r)) rows = true ->
  Forall (holds (R:=R)) (updated now r <$> rows) /\
  row_guid <$> (scan (R:=R) <$> (updated now r <$> rows)) = row_guid <$> (scan (R:=R) <$> rows) /\
  exists r', reads_back (fun x : Z => x) r r' /\
    scan <$> (updated now r <$> rows) ≡ₚ r' :: rows_where (fun x => negb (bool_decide (row_guid x = row_guid r))) (scan <$> rows).
Proof.
  intros Hr. induction Hr as [|row rows Hrow Hrows IH]; [done|]. rewrite !fmap_cons, NoDup_cons. intros [Hni Hnd] Hex.
  cbn [existsb] in Hex. rewrite (same_guid_exact _ row Hrow) in Hex. rewrite (updated_exact now r row Hrow). unfold rows_where. rewrite filter_cons.
  case_bool_decide as Hg; cbn [negb].
  - destruct (update_others now r rows Hrows) as [E1 E2]; [by rewrite <- Hg|]. rewrite E1. unfold rows_where in E2. rewrite E2.
    destruct (update_holds now r row Hrow Hg) as [Hh Hrb]. split_and!; [by constructor| |].
    + by rewrite (reads_back_guid _ _ _ Hrb), Hg.
    + by eexists.
  - destruct (IH Hnd Hex) as (H1 & H2 & r' & Hrb & Hp). split_and!; [by constructor|by rewrite H2|].
    exists r'. split; [done|]. rewrite Hp. by constructor.
Qed.

Lemma save_records now r t t' : suits t r -> good t -> row_guid r <> "" -> sql_save now r t = Some t' ->
  (exists r', reads_back (fun x : Z => x) r r' /\
     records t' ≡ₚ r' :: rows_where (fun x => negb (bool_decide (row_guid x = row_guid r))) (records t)) /\ good t'.
Proof.
  intros Hs Hg Hne. unfold sql_save. rewrite bool_decide_eq_false_2 by done. destruct (existsb _ _) eqn:He.
  - intros ->%with_rows_ok. destruct (update_records now r (t_rows t) (proj1 Hg) (proj2 Hg) He) as (H1 & H2 & H3).
    split; [exact H3|]. split; [exact H1|]. unfold records. simpl. change (map _ (t_rows t)) with (updated now r <$> t_rows t). rewrite H2. apply Hg.
  - intros Hc. destruct (create_records now r t t' Hs Hg Hc) as (Hni & (r' & Hrb & E) & Hg'). split; [|done].
    exists r'. split; [done|]. rewrite E, Permutation_app_comm. simpl. unfold records at 2.
    by rewrite (proj2 (update_others now r (t_rows t) (proj1 Hg) Hni)).
Qed.
End Exact.
End Calls.
