(* ===== verification/Historical.v ===== *)
(** Historical: what the models under migration/v6 and migration/v7 do: the TCP
    mapping of v7 (tcp_route.go; that of v6 differs in one tag only) with its rows, and
    the validation of reservable ports of v6 (router_groups.go).  The other functions
    of these packages are the ones of models/. *)
From Stdlib Require Import ZArith Lia Ascii.
From stdpp Require Import base option strings gmap list.
From S2P Require Import Prelude GoStrings RouterGroups Routes Store Gorm Migration Schema SchemaFacts SqlRows.

Local Open Scope string_scope.
Local Open Scope list_scope.
Local Open Scope Z_scope.

(** ** migration/v7/tcp_route.go *)
Module V7Model.
Record TcpMappingEntity := mkTcpMappingEntity {
  RouterGroupGuid : string;
  HostPort : Z;
  HostTLSPort : Z;
  HostIP : string;
  SniHostname : option string;
  InstanceId : string;
  ExternalPort : Z;
  Tag : ModificationTag;
  TTL : option Z;
  IsolationSegment : string
}.

Record TcpRouteMapping := mkTcpRouteMapping { BaseModel : Model; ExpiresAt : Z; Entity : TcpMappingEntity }.

Definition NewTcpRouteMappingWithModel {S} `{Env S} (tcpMapping : TcpRouteMapping) : Go S TcpRouteMapping :=
  guid ← new_uuid;
  t ← now;
  ttl ← deref (TTL (Entity tcpMapping));
  mret (mkTcpRouteMapping (mkModel guid zero_time zero_time) (t + ttl_duration ttl) (Entity tcpMapping)).

Definition NewTcpRouteMapping (routerGroupGuid : string) (externalPort : Z) (hostIP : string) (hostPort hostTlsPort : Z)
    (instanceId : string) (sniHostname : option string) (ttl : Z) (modTag : ModificationTag) : TcpRouteMapping :=
  mkTcpRouteMapping zero_Model zero_time
    (mkTcpMappingEntity routerGroupGuid hostPort hostTlsPort hostIP sniHostname instanceId externalPort modTag (Some ttl) "").

Definition Tcp_String (m : TcpRouteMapping) : string :=
  let e := Entity m in
  RouterGroupGuid e +:+ ":" +:+ Itoa (ExternalPort e) +:+ "<->" +:+ HostIP e +:+ ":" +:+ Itoa (HostPort e).

Definition Matches (m other : TcpRouteMapping) : bool :=
  let a := Entity m in
  let b := Entity other in
  let sameRouterGroupGuid := bool_decide (RouterGroupGuid a = RouterGroupGuid b) in
  let sameExternalPort := ExternalPort a =? ExternalPort b in
  let sameHostIP := bool_decide (HostIP a = HostIP b) in
  let sameHostPort := HostPort a =? HostPort b in
  let sameInstanceId := bool_decide (InstanceId a = InstanceId b) in
  let sameHostTLSPort := HostTLSPort a =? HostTLSPort b in
  let sameTTL := same_ptr_value (TTL a) (TTL b) in
  let sameSniHostname := same_ptr_value (SniHostname a) (SniHostname b) in
  sameRouterGroupGuid && sameExternalPort && sameHostIP && sameHostPort && sameInstanceId &&
  sameTTL && sameHostTLSPort && sameSniHostname.

Definition SetDefaults (maxTTL : Z) (t : TcpRouteMapping) : TcpRouteMapping :=
  let e := Entity t in
  match TTL e with
  | None => mkTcpRouteMapping (BaseModel t) (ExpiresAt t)
              (mkTcpMappingEntity (RouterGroupGuid e) (HostPort e) (HostTLSPort e) (HostIP e) (SniHostname e)
                 (InstanceId e) (ExternalPort e) (Tag e) (Some maxTTL) (IsolationSegment e))
  | Some _ => t
  end.

Definition tcp_values (m : TcpRouteMapping) : list (SqlVal * bool) :=
  let e := Entity m in
  model_values (BaseModel m) ++ [plain (VTime (ExpiresAt m))] ++
  [plain (VText (RouterGroupGuid e)); plain (VInt (HostPort e)); plain (VInt (HostTLSPort e)); plain (VText (HostIP e));
   pointer VText (SniHostname e); plain (VText (InstanceId e)); plain (VInt (ExternalPort e))] ++
  tag_values (Tag e) ++ [pointer VInt (TTL e); plain (VText (IsolationSegment e))].

#[global] Program Instance Tcp_Saved : Saved TcpRouteMapping := {| s_fields := V7.Tcp_fields; s_values := tcp_values |}.
Next Obligation. done. Qed.
Next Obligation. by_evaluation. Qed.
End V7Model.

(** What the current program makes of such a mapping: the fields that are new have
    their zero values. *)
Definition upgrade (m : V7Model.TcpRouteMapping) : TcpRouteMapping :=
  let e := V7Model.Entity m in
  mkTcpRouteMapping (V7Model.BaseModel m) (V7Model.ExpiresAt m)
    (mkTcpMappingEntity (V7Model.RouterGroupGuid e) (V7Model.HostPort e) (V7Model.HostTLSPort e) (V7Model.HostIP e)
       (V7Model.SniHostname e) None (V7Model.InstanceId e) (V7Model.ExternalPort e) (V7Model.Tag e) (V7Model.TTL e)
       (V7Model.IsolationSegment e) false "" false).

Lemma upgrade_Matches m o : Matches (upgrade m) (upgrade o) = V7Model.Matches m o.
Proof. done. Qed.

Lemma upgrade_SetDefaults ttl m : upgrade (V7Model.SetDefaults ttl m) = Tcp_SetDefaults ttl (upgrade m).
Proof. unfold V7Model.SetDefaults, Tcp_SetDefaults. simpl. by destruct (V7Model.TTL (V7Model.Entity m)). Qed.

(** ** Its row after the migrations *)

(** Where the columns of v7 are among those of today; the others are new. *)
Definition old_index (i : nat) : option nat :=
  match i with
  | 0 => Some 0 | 1 => Some 1 | 2 => Some 2 | 3 => Some 3 | 4 => Some 4 | 5 => Some 5 | 6 => Some 6 | 7 => Some 7
  | 8 => Some 8 | 10 => Some 9 | 11 => Some 10 | 12 => Some 11 | 13 => Some 12 | 14 => Some 13 | 15 => Some 14
  | _ => None
  end%nat.

Lemma old_column m i j c v : old_index i = Some j -> Columns Tcp_fields !! i = Some c -> tcp_values (upgrade m) !! i = Some v ->
  exists c', Columns V7.Tcp_fields !! j = Some c' /\ V7Model.tcp_values m !! j = Some v /\ C_Name c' = C_Name c /\ strict c' = strict c.
Proof.
  do 16 (destruct i as [|i]; [first [by intros [=]|intros [= <-] [= <-] [= <-]; eexists; split_and!; [reflexivity|reflexivity|vm_compute; reflexivity..]]|]).
  done.
Qed.

(** A column that is new holds the default of the model. *)
Lemma new_column m i c v x : old_index i = None -> Columns Tcp_fields !! i = Some c -> tcp_values (upgrade m) !! i = Some v ->
  C_Name c ∉ names V7.Tcp_fields /\ (defaults_of "tcp_routes" !! C_Name c = Some x -> col_shows c v x) /\ C_Name c <> "host_tls_port".
Proof.
  do 19 (destruct i as [|i]; [first [intros [=]; fail|intros _ Hc Hv; vm_compute in Hc; injection Hc as <-; cbn in Hv; injection Hv as <-;
    split_and!; [by_evaluation|intros Hd; vm_compute in Hd; injection Hd as <-; (by left) || by right|done]]|]).
  done.
Qed.

Lemma tls_column i c : Columns Tcp_fields !! i = Some c -> C_Name c = "host_tls_port" -> i = 6%nat.
Proof.
  intros Hc Hn. apply (NoDup_lookup (names Tcp_fields) i 6 "host_tls_port"); [by_evaluation| |vm_compute; reflexivity].
  unfold names. rewrite list_lookup_fmap, Hc. simpl. by rewrite Hn.
Qed.

(** A row that the program of version 7 wrote. *)
Record old_row (m : V7Model.TcpRouteMapping) (row : SqlRow) : Prop := {
  or_shows : shows m row;
  or_columns : forall c, is_Some (row !! c) <-> c ∈ names V7.Tcp_fields;
  or_filled : col "expires_at" row <> VNull /\ col "isolation_segment" row <> VNull
}.

Section Upgraded.
Context (m : V7Model.TcpRouteMapping) (row row' : SqlRow).
Hypotheses (Hold : old_row m row) (Hkept : row_kept (defaults_of "tcp_routes") row row')
  (Htls : col "host_tls_port" row' <> VNull) (Hfull : forall c, c ∈ names Tcp_fields -> is_Some (row' !! c)).

(** A value of the old row, NULL or not. *)
Lemma kept_col c : c ∈ names V7.Tcp_fields ->
  col c row' = col c row \/ (c = "host_tls_port" /\ col c row = VNull /\ col c row' = VInt 0).
Proof.
  intros Hc. apply (or_columns _ _ Hold) in Hc as [x Hx]. unfold col. rewrite Hx.
  destruct (rk_old _ _ _ Hkept c x Hx) as [-> |(-> & -> & ->)]; [by left|by right].
Qed.

Lemma upgraded_shows : shows (upgrade m) row'.
Proof.
  intros i c v Hc Hv Hn. destruct (old_index i) as [j|] eqn:Ei.
  - destruct (old_column m i j c v Ei Hc Hv) as (c' & Hc' & Hv' & Hname & Hstrict).
    assert (C_Name c ∈ names V7.Tcp_fields) as Hin.
    { rewrite <- Hname. unfold names. apply list_elem_of_fmap. exists c'. split; [done|]. by eapply list_elem_of_lookup_2. }
    pose proof (or_shows _ _ Hold j c' v Hc' Hv') as Hs. rewrite Hname in Hs. specialize (Hs Hn).
    unfold col_shows in *. rewrite Hstrict in Hs. destruct (kept_col _ Hin) as [-> |(E & E1 & E2)]; [done|]. left.
    rewrite E2. rewrite E1 in Hs. rewrite (tls_column i c Hc E) in Hv. injection Hv as <-.
    destruct Hs as [[=]|(Hz & _)]. cbn [plain fst]. f_equal. by apply zero_int.
  - assert (C_Name c ∈ names Tcp_fields) as Hin.
    { unfold names. apply list_elem_of_fmap. exists c. split; [done|]. by eapply list_elem_of_lookup_2. }
    destruct (Hfull _ Hin) as [x Hx]. destruct (new_column m i c v x Ei Hc Hv) as (Hnew & Hd & Hne).
    unfold col. rewrite Hx. simpl. apply Hd. assert (row !! C_Name c = None) as Hnone.
    { apply eq_None_not_Some. intros Hs. by apply Hnew, (or_columns _ _ Hold). }
    by destruct (rk_new _ _ _ Hkept _ _ Hnone Hx) as [?|[? _]].
Qed.

Lemma upgraded_holds : holds (R:=TcpRouteMapping) row' /\ reads_back (fun t => t) (upgrade m) (scan_tcp row').
Proof.
  split; [|exact (scan_shows (upgrade m) row' upgraded_shows)]. apply (shows_holds (upgrade m)); [apply upgraded_shows|].
  destruct (or_filled _ _ Hold) as [Hx Hi]. repeat constructor.
  - destruct (kept_col "expires_at") as [-> |([=] & _)]; [by_evaluation|done].
  - exact Htls.
  - destruct (kept_col "isolation_segment") as [-> |([=] & _)]; [by_evaluation|done].
  - assert (col "enable_backend_m_tls" row' = VBool false) as ->; [|done].
    destruct (Hfull "enable_backend_m_tls" ltac:(by_evaluation)) as [x Hx'].
    assert (row !! "enable_backend_m_tls" = None) as Hnone.
    { apply eq_None_not_Some. intros Hs%(or_columns _ _ Hold). revert Hs. by_evaluation. }
    unfold col. rewrite Hx'. simpl. destruct (rk_new _ _ _ Hkept _ _ Hnone Hx') as [Hd|[[=] _]].
    vm_compute in Hd. by injection Hd.
Qed.
End Upgraded.

(** What version 7 created. *)
Lemma create_old_row now t m :
  Forall (fun n => default VNull (cd_default <$> t_cols t !! n) = VNull) ["sni_hostname"; "instance_id"; "host_tls_port"] ->
  old_row m (create_row now t m).
Proof.
  intros Hd. rewrite !Forall_cons in Hd. destruct Hd as (H1 & H2 & H3 & _). split.
  - apply create_shows. intros i c v Hc Hv Hd. do 15 (destruct i as [|i];
      [vm_compute in Hc; injection Hc as <-; first [discriminate Hd|by apply shows_null]|]). done.
  - intros c. unfold create_row. rewrite <- elem_of_dom, dom_list_to_map, elem_of_list_to_set, zip_with_keys by done. done.
  - split; [created_column 3%nat|created_column 14%nat].
Qed.

(** ** migration/v6/router_groups.go *)
Module V6Model.
Fixpoint overlap_inner (i j : nat) (r1 : Range) (rs : list Range) : option error :=
  match rs with
  | [] => None
  | r2 :: rs' =>
      if bool_decide (i = j) then overlap_inner i (S j) r1 rs'
      else if v6_Overlaps r1 r2 then Some (overlap_error r1 r2)
      else overlap_inner i (S j) r1 rs'
  end.

Fixpoint overlap_outer (i : nat) (rs all : list Range) : option error :=
  match rs with
  | [] => None
  | r1 :: rs' =>
      match overlap_inner i 0 r1 all with
      | Some err => Some err
      | None => overlap_outer (S i) rs' all
      end
  end.

Definition ReservablePorts_Validate (g : Globals) (p : string) : option error :=
  match Parse p with
  | inl err => Some err
  | inr portRanges =>
      match overlap_outer 0 portRanges portRanges with
      | Some err => Some err
      | None =>
          if FailOnRouterPortConflicts g
          then reserved_outer portRanges (ReservedSystemComponentPorts g)
          else None
      end
  end.
End V6Model.

(** What the wrapped comparison finds does overlap; it misses an overlap only when
    the two ranges have more than 65535 ports between them. *)
Lemma v6_Overlaps_sound r1 r2 : v6_Overlaps r1 r2 = true -> Overlaps r1 r2 = true.
Proof.
  unfold v6_Overlaps, Overlaps. rewrite !Z.leb_le. intros H. etrans; [exact H|].
  apply Z.mod_le; [|lia]. unfold u16. pose proof (Z.mod_pos_bound (end_ r1 - start r1) 65536 ltac:(lia)).
  pose proof (Z.mod_pos_bound (end_ r2 - start r2) 65536 ltac:(lia)). lia.
Qed.

Lemma v6_Overlaps_same r1 r2 : wf_Range r1 -> wf_Range r2 -> (end_ r1 - start r1) + (end_ r2 - start r2) < 65536 ->
  v6_Overlaps r1 r2 = Overlaps r1 r2.
Proof.
  intros H1 H2 Hs. unfold v6_Overlaps, Overlaps. unfold wf_Range in H1, H2.
  rewrite !(u16_id (end_ _ - start _)), (u16_id (_ + _)) by (unfold is_u16; lia). done.
Qed.

(** So v6 accepted every list of ports that is accepted today. *)
Lemma v6_inner_None i j r1 rs : overlap_inner i j r1 rs = None -> V6Model.overlap_inner i j r1 rs = None.
Proof.
  revert j. induction rs as [|r2 rs IH]; intros j; simpl; [done|]. case_bool_decide; [by apply IH|].
  destruct (Overlaps r1 r2) eqn:E; [done|]. destruct (v6_Overlaps r1 r2) eqn:E6; [|by apply IH].
  apply v6_Overlaps_sound in E6. congruence.
Qed.

Lemma v6_outer_None i rs all : overlap_outer i rs all = None -> V6Model.overlap_outer i rs all = None.
Proof.
  revert i. induction rs as [|r1 rs IH]; intros i; simpl; [done|]. destruct (overlap_inner i 0 r1 all) eqn:E; [done|].
  rewrite (v6_inner_None _ _ _ _ E). apply IH.
Qed.

Lemma v6_Validate_weaker g p : ReservablePorts_Validate g p = None -> V6Model.ReservablePorts_Validate g p = None.
Proof.
  unfold ReservablePorts_Validate, V6Model.ReservablePorts_Validate. destruct (Parse p) as [|rs]; [done|].
  destruct (overlap_outer 0 rs rs) eqn:E; [done|]. by rewrite (v6_outer_None _ _ _ E).
Qed.

(** Two ranges that overlap, with 65536 ports and more between them. *)
Example v6_accepts_overlap g : FailOnRouterPortConflicts g = false ->
  V6Model.ReservablePorts_Validate g "1024-40000,1100-60000" = None /\ ReservablePorts_Validate g "1024-40000,1100-60000" <> None.
Proof.
  intros Hg. unfold V6Model.ReservablePorts_Validate, ReservablePorts_Validate. rewrite Hg. split; vm_compute; [reflexivity|discriminate].
Qed.
