(* ===== verification/Startup.v ===== *)
(** Startup: what happens before the server runs.  uaaclient/api.go and the
    constructors of the token validator and fetcher, [NewConfigFromFile], the
    configuration validator command, and [main] of cmd/routing-api/main.go up to
    and including the run of the process group.  A call of [os.Exit(1)] is a
    failure with the error that was logged; [logger.Fatal] panics. *)
From Stdlib Require Import ZArith Lia.
From stdpp Require Import base option strings gmap list.
From S2P Require Import Prelude GoStrings RouterGroups Routes EventHub SqlDB Contract Validator Http Handlers Api.
From S2P Require Import Routing Main Config Connect Uaa Migration.

Local Open Scope string_scope.
Local Open Scope list_scope.
Local Open Scope Z_scope.

(** ** The UAA client *)
Record UaaConfig := mkUaaConfig {
  UC_Port : Z;
  UC_Protocol : string;
  UC_SkipSSLValidation : bool;
  UC_ClientName : string;
  UC_ClientSecret : string;
  UC_CACerts : string;
  UC_TokenEndpoint : string;
  UC_RequestTimeout : Z
}.

(** What [uaa.New] is given: the URL, the client credentials or none, and the HTTP
    client's roots, timeout and certificate checking. *)
Record UaaOptions := mkUaaOptions {
  uo_tokenURL : string;
  uo_credentials : option (string * string);
  uo_rootCAs : option string;
  uo_timeout : option Z;
  uo_skipVerify : bool
}.

(** The rest of the process's world: files, and the libraries it starts. *)
Class StartEnv (W U : Type) := {
  os_ReadFile : string -> W -> (error + string) * W;
  AppendCertsFromPEM : string -> bool;
  uaa_New : UaaOptions -> W -> (error + U) * W;
  uaa_Issuer : U -> (error + string) * U;
  dropsonde_Initialize : string -> string -> W -> (error + unit) * W;
  debugserver_Run : string -> W -> (error + unit) * W;
  statsd_NewBufferedClient : string -> string -> Z -> W -> (error + unit) * W;
  locket_NewClient : string -> W -> (error + unit) * W;
  tls_Server : string -> string -> string -> W -> (error + unit) * W
}.

Section Uaa.
Context {W U : Type} `{!StartEnv W U, !UaaServer U, !Jwt}.

Definition NewAPI (cfg : UaaConfig) : Go W U :=
  if UC_Port cfg =? 0 then fail (errors_New "tls-not-enabled: UAA client requires TLS enabled")
  else
    rootCAs ← (if bool_decide (UC_CACerts cfg <> "") then
                 r ← try (call (os_ReadFile (UC_CACerts cfg)));
                 match r with
                 | inl err => fail (errors_New ("failed to read ca cert file: " +:+ Error_string err))
                 | inr certBytes =>
                     if AppendCertsFromPEM certBytes then mret (Some certBytes)
                     else fail (errors_New "unable to load caCert")
                 end
               else mret None);
    let protocol := if bool_decide (UC_Protocol cfg = "") then "https" else UC_Protocol cfg in
    let timeout := if 0 <? UC_RequestTimeout cfg then Some (UC_RequestTimeout cfg) else None in
    let tokenURL := protocol +:+ "://" +:+ UC_TokenEndpoint cfg +:+ ":" +:+ Itoa (UC_Port cfg) in
    let credentials :=
      if bool_decide (UC_ClientName cfg <> "") && bool_decide (UC_ClientSecret cfg <> "")
      then Some (UC_ClientName cfg, UC_ClientSecret cfg) else None in
    call (uaa_New (mkUaaOptions tokenURL credentials rootCAs timeout (UC_SkipSSLValidation cfg))).

(** [None]: the no-op validator; otherwise the issuer and the validator. *)
Definition NewTokenValidator (devMode : bool) (cfg : UaaConfig) : Go W (option (string * tokenValidator (U:=U))) :=
  if devMode then mret None
  else
    api ← NewAPI cfg;
    match uaa_Issuer api with
    | (inl err, _) => fail err
    | (inr issuer, api) =>
        match uaa_TokenKey api with
        | (inl err, _) => fail err
        | (inr key, api) =>
            match checkPublicKey key with
            | Some err => fail err
            | None => mret (Some (issuer, mkTV api key))
            end
        end
    end.

(** [None]: the no-op fetcher. *)
Definition NewTokenFetcher (devMode : bool) (cfg : UaaConfig) : Go W (option (tokenFetcher (U:=U))) :=
  if devMode then mret None else api ← NewAPI cfg; mret (Some (mkTF api None zero_time)).

(** [FetchKey] and the methods of [noOpTokenFetcher]. *)
Definition FetchKey (f : tokenFetcher (U:=U)) : (error + string) * tokenFetcher :=
  let '(r, u) := uaa_TokenKey (tf_api f) in (r, mkTF u (cachedToken f) (refetchTokenTime f)).

Definition noOp_FetchKey : error + string := inr "".
Definition noOp_FetchToken : option OauthToken * option error := (Some (mkOauthToken "" zero_time), None).
End Uaa.

(** ** The configuration file *)
Section ConfigFile.
Context {W U : Type} `{!StartEnv W U}.
(** [yaml.Unmarshal] into a zero [Config], and [time.ParseDuration]. *)
Context (yaml_Unmarshal : string -> error + Config) (ParseDuration : string -> error + Z).

(** The process: its world and the package variables of models. *)
Record Process := mkProcess { pr_env : W; pr_globals : Globals }.

Definition env {A} (m : Go W A) : Go Process A := zoom pr_env (fun w p => mkProcess w (pr_globals p)) m.

Definition NewConfigFromFile (configFile : string) (authDisabled : bool) : Go Process Config :=
  c ← env (call (os_ReadFile configFile));
  zoom pr_globals (fun gl p => mkProcess (pr_env p) gl)
    (NewConfigFromBytes ParseDuration (yaml_Unmarshal c) authDisabled).

(** cmd/config-validator/main.go: [log.Fatal] exits with status 1. *)
Definition config_validator (configFile : string) (devMode : bool) : Go Process string :=
  r ← try (NewConfigFromFile configFile devMode);
  match r with
  | inl err => fail (errors_New ("failed-to-load-config: " +:+ Error_string err))
  | inr _ => mret "config-loaded-successfully"
  end.
End ConfigFile.
Arguments Process : clear implicits.
Arguments mkProcess {_} _ _.
Arguments pr_env {_} _.
Arguments pr_globals {_} _.

(** ** main *)
Section Main.
Context {W S U : Type} `{!StartEnv W U, !OpenEnv W S, !UaaServer U, !Jwt}.
Context (yaml_Unmarshal : string -> error + Config) (ParseDuration : string -> error + Z).

Definition buildDatabase (cfg : Config) : Go W (SqlDB S) := NewSqlDB (Some (C_SqlDB cfg)).

Definition router_error (routes : list rata_Route) (handlers : list string) : option error :=
  match NewRouter routes handlers with inl err => Some err | inr _ => None end.

(** The error of [NewServer]; listening is the business of its runner.  Neither
    router depends on the order of its routes. *)
Definition admin_NewServer : option error := router_error AdminRoutesMap admin_actions.

(** [apiHandler] exits when the router cannot be built. *)
Definition api_router : option error := router_error RoutesMap api_actions.

Definition check {W A} (e : option error) (k : Go W A) : Go W A :=
  match e with Some err => fail err | None => k end.

(** [logger.Fatal] logs and panics. *)
Definition or_Fatal {A} (action : string) (m : Go W A) : Go W A :=
  r ← try m;
  match r with inl _ => panic action | inr a => mret a end.

Definition uaa_config (cfg : Config) : UaaConfig :=
  let o := C_OAuth cfg in
  mkUaaConfig (OA_Port o) "" (OA_SkipSSLValidation o) (OA_ClientName o) (OA_ClientSecret o) (OA_CACerts o)
    (OA_TokenEndpoint o) 0.

(** What is put together before the processes start. *)
Record Assembled := mkAssembled {
  as_config : Config;
  as_db : SqlDB S;
  as_auth : option (string * tokenValidator (U:=U));
  as_register : option (Route * Z);
  as_members : list string
}.

Definition api_server (cfg : Config) (ip : string) : Go W (option (Route * Z)) :=
  if API_HTTPEnabled (C_API cfg) then
    check api_router (
      register ← constructRouteRegister (API_ListenPort (C_API cfg)) ip (C_LogGuid cfg) (C_SystemDomain cfg) (C_MaxTTL cfg);
      mret (Some register))
  else mret None.

(** Up to the admin server: dropsonde, the debug server, whose failure is only
    logged, the database and statsd. *)
Definition open_parts (cfg : Config) : Go W (SqlDB S) :=
  _ ← call (dropsonde_Initialize (C_MetronAddress cfg +:+ ":" +:+ C_MetronPort cfg) (C_LogGuid cfg));
  _ ← (if bool_decide (C_DebugAddress cfg <> "")
       then (_ ← try (call (debugserver_Run (C_DebugAddress cfg))); mret tt) else mret tt);
  database ← buildDatabase cfg;
  _ ← call (statsd_NewBufferedClient (C_StatsdEndpoint cfg) "routing_api" (C_StatsdClientFlushInterval cfg));
  check admin_NewServer (mret database).

Definition new_Ticker (interval : Z) : Go W unit :=
  if interval <=? 0 then panic "non-positive interval for NewTicker" else mret tt.

(** The TLS files of the server. *)
Definition tls_files (cfg : Config) : W -> (error + unit) * W :=
  tls_Server (API_MTLSServerCertPath (C_API cfg)) (API_MTLSServerKeyPath (C_API cfg)) (API_MTLSClientCAPath (C_API cfg)).

Definition assemble (cfg : Config) (devMode : bool) (ip : string) : Go W Assembled :=
  database ← open_parts cfg;
  _ ← new_Ticker (C_MetricsReportingInterval cfg);
  _ ← or_Fatal "failed-to-create-locket-client" (call (locket_NewClient (C_LocketAddress cfg)));
  uaaClient ← NewTokenValidator devMode (uaa_config cfg);
  register ← api_server cfg ip;
  _ ← or_Fatal "mtls-mis-configured" (call (tls_files cfg));
  check api_router (
    let d := C_SqlDB cfg in
    mret (mkAssembled cfg database uaaClient register
            (members (API_HTTPEnabled (C_API cfg)) (isSql (SC_Host d) (SC_Port d) (SC_Schema d))))).

Definition setup (configPath ip : string) (devMode : bool) : Go (Process W) Assembled :=
  check (checkFlags configPath ip) (
    cfg ← NewConfigFromFile yaml_Unmarshal ParseDuration configPath devMode;
    env (assemble cfg devMode ip)).

(** [run_group] is the run of the process group until it ends. *)
Definition main (run_group : Assembled -> W -> (error + unit) * W) (configPath ip : string) (devMode : bool)
    : Go (Process W) unit :=
  a ← setup configPath ip devMode;
  env (call (run_group a)).
End Main.
Arguments mkAssembled {_ _} _ _ _ _ _.
Arguments as_config {_ _} _.
Arguments as_db {_ _} _.
Arguments as_auth {_ _} _.
Arguments as_register {_ _} _.
Arguments as_members {_ _} _.

(** ** Facts *)

(** Every route of the two tables has a handler and a known verb. *)
Lemma api_router_builds : api_router = None.
Proof. unfold api_router, router_error. by rewrite (NewRouter_perm _ _ _ (reflexivity _) api_table_proper). Qed.

Lemma admin_router_builds : admin_NewServer = None.
Proof. unfold admin_NewServer, router_error. by rewrite (NewRouter_perm _ _ _ (reflexivity _) admin_table_proper). Qed.

Section Facts.
Context {W S U : Type} `{!StartEnv W U, !OpenEnv W S, !UaaServer U, !Jwt}.
Context (yaml_Unmarshal : string -> error + Config) (ParseDuration : string -> error + Z).

(** [NewAPI] and the constructor of the validator never panic. *)
Lemma NewAPI_total cfg (w : W) : wp (NewAPI cfg) w (fun _ _ => UC_Port cfg <> 0) (fun e _ => e <> None).
Proof.
  unfold NewAPI. destruct (Z.eqb_spec (UC_Port cfg) 0); [done|]. apply wp_bind.
  eapply (wp_mono _ _ (fun _ _ => True) _ (fun e _ => e <> None)).
  - unfold wp, mbind, Go_bind, try, call. repeat case_match; simplify_eq; done.
  - intros r w1 _. cbv zeta. unfold wp, call. by destruct (uaa_New _ w1) as [[]].
  - done.
Qed.

(** Authentication is off in development mode and only then; otherwise the key in
    use is PEM encoded. *)
Definition auth_ok (devMode : bool) (auth : option (string * tokenValidator (U:=U))) : Prop :=
  (auth = None <-> devMode = true) /\
  forall issuer tv, auth = Some (issuer, tv) -> pem_Decode (uaaPublicKey tv) = true.

Lemma NewTokenValidator_auth devMode cfg (w : W) :
  wp (NewTokenValidator devMode cfg) w (fun auth _ => auth_ok devMode auth) (fun e _ => e <> None).
Proof.
  unfold NewTokenValidator. destruct devMode; [by apply wp_ret|]. apply wp_bind.
  eapply wp_mono; [apply NewAPI_total| |done]. intros api w1 _.
  destruct (uaa_Issuer api) as [[err|issuer] api1]; [done|].
  destruct (uaa_TokenKey api1) as [[err|key] api2]; [done|].
  unfold checkPublicKey. destruct (pem_Decode key) eqn:E; [|done]. apply wp_ret. split; [done|]. by intros i tv [= <- <-].
Qed.

(** The server's own route is registered again before half its lifetime is
    over. *)
Definition register_ok (cfg : Config) (register : option (Route * Z)) : Prop :=
  match register with
  | None => API_HTTPEnabled (C_API cfg) = false
  | Some (route, interval) => API_HTTPEnabled (C_API cfg) = true /\ 0 < interval /\
      RE_TTL (Route_Entity route) = Some (int_Seconds (C_MaxTTL cfg)) /\
      (is_i64 (C_MaxTTL cfg) -> 2 * interval <= int_Seconds (C_MaxTTL cfg) * Second)
  end.

(** The interval at which the server's own route would be registered again. *)
Definition register_period (cfg : Config) : Z := i64 (Z.quot (int_Seconds (C_MaxTTL cfg)) 2 * Second).

(** How assembling the parts from the world [w] panics: the message, and the world
    at that point.  Every call named is one that this run makes, in the world
    that the calls before it left. *)
Inductive start_panic (cfg : Config) (devMode : bool) (ip : string) (w : W) : string -> W -> Prop :=
| panic_metrics db w1 :
    open_parts (S:=S) cfg w = Ok db w1 -> C_MetricsReportingInterval cfg <= 0 ->
    start_panic cfg devMode ip w "non-positive interval for NewTicker" w1
| panic_locket db w1 err w2 :
    open_parts (S:=S) cfg w = Ok db w1 -> 0 < C_MetricsReportingInterval cfg ->
    locket_NewClient (C_LocketAddress cfg) w1 = (inl err, w2) ->
    start_panic cfg devMode ip w "failed-to-create-locket-client" w2
| panic_register db w1 w2 auth w3 :
    open_parts (S:=S) cfg w = Ok db w1 -> 0 < C_MetricsReportingInterval cfg ->
    locket_NewClient (C_LocketAddress cfg) w1 = (inr tt, w2) ->
    NewTokenValidator devMode (uaa_config cfg) w2 = Ok auth w3 ->
    API_HTTPEnabled (C_API cfg) = true -> register_period cfg <= 0 ->
    start_panic cfg devMode ip w "non-positive interval for NewTicker" w3
| panic_tls db w1 w2 auth w3 err w4 :
    open_parts (S:=S) cfg w = Ok db w1 -> 0 < C_MetricsReportingInterval cfg ->
    locket_NewClient (C_LocketAddress cfg) w1 = (inr tt, w2) ->
    NewTokenValidator devMode (uaa_config cfg) w2 = Ok auth w3 ->
    (API_HTTPEnabled (C_API cfg) = true -> 0 < register_period cfg) ->
    tls_files cfg w3 = (inl err, w4) ->
    start_panic cfg devMode ip w "mtls-mis-configured" w4.

Lemma register_interval ttl :
  is_i64 ttl -> 0 < i64 (Z.quot (int_Seconds ttl) 2 * Second) ->
  2 * i64 (Z.quot (int_Seconds ttl) 2 * Second) <= int_Seconds ttl * Second.
Proof.
  unfold int_Seconds. intros Hi. destruct (Z.le_gt_cases 0 ttl) as [Hp|Hn].
  - assert (0 <= Z.quot ttl Second * Second <= ttl) as Hs.
    { rewrite Z.quot_div_nonneg by (unfold Second; lia). pose proof (Z.mul_div_le ttl Second ltac:(unfold Second; lia)).
      pose proof (Z.div_pos ttl Second ltac:(lia) ltac:(unfold Second; lia)). unfold Second in *. lia. }
    set (n := Z.quot ttl Second) in *. assert (0 <= n) as Hn by (unfold Second in *; lia).
    rewrite (Z.quot_div_nonneg n 2) by lia. pose proof (Z.mul_div_le n 2 ltac:(lia)).
    pose proof (Z.div_pos n 2 ltac:(lia) ltac:(lia)).
    rewrite i64_id by (unfold is_i64, Second in *; lia). unfold Second in *. lia.
  - assert (Z.quot ttl Second <= 0) as Hq.
    { rewrite <- (Z.opp_involutive ttl), Z.quot_opp_l by (unfold Second; lia).
      pose proof (Z.quot_pos (-ttl) Second ltac:(lia) ltac:(unfold Second; lia)). lia. }
    assert (- ttl >= - Z.quot ttl Second * Second) as Hs.
    { rewrite <- Z.quot_opp_l by (unfold Second; lia). rewrite Z.quot_div_nonneg by (unfold Second; lia).
      pose proof (Z.mul_div_le (-ttl) Second ltac:(unfold Second; lia)). lia. }
    set (n := Z.quot ttl Second) in *.
    assert (Z.quot n 2 <= 0 /\ n <= 2 * Z.quot n 2) as [H1 H2].
    { rewrite <- (Z.opp_involutive n), Z.quot_opp_l by lia. rewrite Z.quot_div_nonneg by lia.
      pose proof (Z.mul_div_le (-n) 2 ltac:(lia)). pose proof (Z.div_pos (-n) 2 ltac:(lia) ltac:(lia)). lia. }
    rewrite i64_id by (unfold is_i64, Second in *; lia). unfold Second in *. lia.
Qed.

(** What start-up guarantees of the parts it hands to the process group. *)
Definition assembled_ok (devMode : bool) (cfg : Config) (a : Assembled (S:=S) (U:=U)) : Prop :=
  as_config a = cfg /\ opened_db (C_SqlDB cfg) (as_db a) /\ auth_ok devMode (as_auth a) /\
  register_ok cfg (as_register a) /\
  as_members a = members (API_HTTPEnabled (C_API cfg))
                   (isSql (SC_Host (C_SqlDB cfg)) (SC_Port (C_SqlDB cfg)) (SC_Schema (C_SqlDB cfg))).

(** A call whose error ends start-up. *)
Lemma wp_call {A B} (f : W -> (error + A) * W) (k : A -> Go W B) (w : W) Q (X : option error -> W -> Prop) :
  (forall a w1, wp (k a) w1 Q X) -> (forall e w1, X (Some e) w1) -> wp (call f ≫= k) w Q X.
Proof. intros Hk HX. unfold wp, mbind, Go_bind, call. destruct (f w) as [[e|a] w1]; [apply HX|apply Hk]. Qed.

Lemma or_Fatal_run {A} action (f : W -> (error + A) * W) (w : W) :
  or_Fatal action (call f) w = match f w with (inl _, w1) => Panic action w1 | (inr a, w1) => Ok a w1 end.
Proof. unfold or_Fatal, mbind, Go_bind, try, call. by destruct (f w) as [[]]. Qed.

(** Opening the parts never panics. *)
Lemma open_parts_wp cfg (w : W) :
  wp (open_parts cfg) w (fun db _ => opened_db (S:=S) (C_SqlDB cfg) db) (fun e _ => e <> None).
Proof.
  unfold open_parts. apply wp_call; [|done]. intros _ w1. apply wp_bind.
  eapply (wp_mono _ _ (fun _ _ => True) _ (fun e _ => e <> None)); [|intros [] w2 _|done].
  { unfold wp, mbind, Go_bind, try, call. repeat case_match; simplify_eq; done. }
  apply wp_bind. eapply wp_mono; [apply NewSqlDB_opens| |done]. intros db w3 Hdb.
  apply wp_call; [|done]. intros _ w4. unfold check. rewrite admin_router_builds. by apply wp_ret.
Qed.

(** The API over HTTP: off, or its route's interval decides. *)
Lemma api_server_outcome cfg ip (w : W) :
  if decide (API_HTTPEnabled (C_API cfg) = true /\ register_period cfg <= 0)
  then api_server cfg ip w = Panic "non-positive interval for NewTicker" w
  else exists register, api_server cfg ip w = Ok register w /\ register_ok cfg register.
Proof.
  unfold api_server, register_period. destruct (API_HTTPEnabled (C_API cfg)) eqn:Eh.
  2:{ rewrite decide_False by naive_solver. by exists None. }
  unfold check. rewrite api_router_builds. unfold constructRouteRegister, mbind, Go_bind. cbv zeta.
  destruct (Z.leb_spec (i64 (Z.quot (int_Seconds (C_MaxTTL cfg)) 2 * Second)) 0) as [Hle|Hgt].
  - by rewrite decide_True.
  - rewrite decide_False by lia. eexists. split; [reflexivity|]. split_and!; [done|done|done|].
    intros Hi. by apply register_interval.
Qed.

(** Every run of [assemble]: the parts as promised, or an error, or one of the
    panics. *)
Lemma assemble_outcome cfg devMode ip (w : W) :
  match assemble cfg devMode ip w with
  | Ok a _ => assembled_ok devMode cfg a
  | Fail _ _ => True
  | Panic msg w' => start_panic cfg devMode ip w msg w'
  end.
Proof.
  unfold assemble, new_Ticker, mbind, Go_bind. pose proof (open_parts_wp cfg w) as Ho. unfold wp in Ho.
  destruct (open_parts cfg w) as [db w1|err w1|x w1] eqn:Eo; [|done|done].
  destruct (Z.leb_spec (C_MetricsReportingInterval cfg) 0); [by econstructor|]. cbn beta iota delta [mret Go_ret].
  rewrite or_Fatal_run. destruct (locket_NewClient (C_LocketAddress cfg) w1) as [[err|[]] w2] eqn:El; [by econstructor|].
  pose proof (NewTokenValidator_auth devMode (uaa_config cfg) w2) as Ha. unfold wp in Ha.
  destruct (NewTokenValidator _ _ w2) as [auth w3|err w3|x w3] eqn:Ev; [|done|done].
  pose proof (api_server_outcome cfg ip w3) as Hr. case_decide as Hd.
  { rewrite Hr. destruct Hd. by eapply panic_register. }
  destruct Hr as (register & -> & Hreg). rewrite or_Fatal_run. destruct (tls_files cfg w3) as [[err|[]] w4] eqn:Et.
  - eapply panic_tls; try done. intros HE. destruct (Z.le_gt_cases (register_period cfg) 0); [naive_solver|lia].
  - unfold check. rewrite api_router_builds. done.
Qed.

(** Each of the panics is one of the run's. *)
Lemma start_panic_runs cfg devMode ip (w : W) msg w' :
  start_panic cfg devMode ip w msg w' -> assemble (S:=S) cfg devMode ip w = Panic msg w'.
Proof.
  intros Hp. unfold assemble, new_Ticker, mbind, Go_bind.
  destruct Hp as [db w1 Ho Hi|db w1 err w2 Ho Hi Hl|db w1 w2 auth w3 Ho Hi Hl Ha HE Hr|db w1 w2 auth w3 err w4 Ho Hi Hl Ha HE Ht];
    rewrite Ho; [by rewrite (proj2 (Z.leb_le _ _))|..]; rewrite (proj2 (Z.leb_gt _ _)) by done;
    cbn beta iota delta [mret Go_ret]; rewrite or_Fatal_run, Hl; [done|..];
    rewrite Ha; pose proof (api_server_outcome cfg ip w3) as Ho3.
  - rewrite decide_True in Ho3 by done. by rewrite Ho3.
  - rewrite decide_False in Ho3 by (intros [H1 H2]; specialize (HE H1); lia).
    destruct Ho3 as (register & -> & _). by rewrite or_Fatal_run, Ht.
Qed.

(** Loading the configuration never panics and touches the files only. *)
Lemma NewConfigFromFile_wp configFile authDisabled (p : Process W) :
  wp (NewConfigFromFile yaml_Unmarshal ParseDuration configFile authDisabled) p
    (fun cfg p' => good_config authDisabled (pr_globals p') cfg) (fun e _ => e <> None).
Proof.
  unfold NewConfigFromFile, env, zoom, wp, mbind, Go_bind, call.
  destruct (os_ReadFile configFile (pr_env p)) as [[err|c] w1]; [done|]. cbn [pr_globals pr_env].
  destruct (yaml_Unmarshal c) as [err|cfg]; [done|].
  pose proof (NewConfigFromBytes_spec ParseDuration cfg authDisabled (pr_globals p)) as Hc.
  destruct (NewConfigFromBytes _ _ _ _) as [cfg' gl|err gl|x gl]; [|done|done]. by destruct Hc.
Qed.

(** A panic of start-up: the flags and the configuration were good, and the
    assembly of this process panicked. *)
Definition setup_panic (configPath ip : string) (devMode : bool) (p : Process W) (msg : string) (p' : Process W) : Prop :=
  exists cfg p1, checkFlags configPath ip = None /\
    NewConfigFromFile yaml_Unmarshal ParseDuration configPath devMode p = Ok cfg p1 /\
    good_config devMode (pr_globals p1) cfg /\ pr_globals p' = pr_globals p1 /\
    start_panic cfg devMode ip (pr_env p1) msg (pr_env p').

(** Start-up as a whole. *)
Lemma setup_outcome configPath ip devMode (p : Process W) :
  match setup yaml_Unmarshal ParseDuration configPath ip devMode p with
  | Ok a p' => good_config devMode (pr_globals p') (as_config a) /\ assembled_ok devMode (as_config a) a
  | Fail _ _ => True
  | Panic msg p' => setup_panic configPath ip devMode p msg p'
  end.
Proof.
  unfold setup, check, setup_panic. destruct (checkFlags configPath ip) as [err|]; [done|]. unfold mbind, Go_bind.
  pose proof (NewConfigFromFile_wp configPath devMode p) as Hc. unfold wp in Hc.
  destruct (NewConfigFromFile _ _ _ _ p) as [cfg p1|err p1|x p1]; [|done|done]. unfold env, zoom.
  pose proof (assemble_outcome cfg devMode ip (pr_env p1)) as Ha.
  destruct (assemble cfg devMode ip (pr_env p1)) as [a w2|err w2|x w2]; [|done|by eauto 10].
  pose proof Ha as [-> _]. done.
Qed.

Lemma setup_panic_runs configPath ip devMode (p : Process W) msg p' :
  setup_panic configPath ip devMode p msg p' ->
  setup (S:=S) yaml_Unmarshal ParseDuration configPath ip devMode p = Panic msg p'.
Proof.
  intros (cfg & p1 & Hf & Hc & _ & Hg & Hp). unfold setup, check, mbind, Go_bind. rewrite Hf, Hc. unfold env, zoom.
  rewrite (start_panic_runs _ _ _ _ _ _ Hp). rewrite <- Hg. by destruct p'.
Qed.

(** The validator command accepts exactly the files with which start-up gets past
    loading the configuration. *)
Lemma config_validator_agrees configFile devMode (p : Process W) :
  match NewConfigFromFile yaml_Unmarshal ParseDuration configFile devMode p with
  | Ok _ p' => config_validator yaml_Unmarshal ParseDuration configFile devMode p = Ok "config-loaded-successfully" p'
  | Fail err p' => config_validator yaml_Unmarshal ParseDuration configFile devMode p =
      Fail (errors_New ("failed-to-load-config: " +:+ Error_string err)) p'
  | Panic _ _ => False
  end.
Proof.
  unfold config_validator, try, mbind, Go_bind.
  destruct (NewConfigFromFile _ _ _ _ _) as [cfg p'|err p'|x p'] eqn:E; [done|done|].
  unfold NewConfigFromFile, env, zoom, mbind, Go_bind, call in E.
  destruct (os_ReadFile configFile (pr_env p)) as [[err|c] w1]; [done|]. cbn [pr_globals pr_env] in E.
  destruct (yaml_Unmarshal c) as [err|cfg]; [done|].
  pose proof (NewConfigFromBytes_spec ParseDuration cfg devMode (pr_globals p)) as Hc.
  destruct (NewConfigFromBytes _ _ _ _); by inversion E.
Qed.
End Facts.
