(* ===== verification/Shutdown.v ===== *)
(** Shutdown: what the runners of cmd/routing-api/main.go do to the database when
    the server stops, and that the event streams then end: the stopper closes the
    hubs, and every open stream delivers what is buffered and returns. *)
From Stdlib Require Import ZArith Lia.
From stdpp Require Import base option strings gmap list relations.
From S2P Require Import Prelude GoStrings RouterGroups Routes Json EventHub Store SqlDB Contract Watch Main Migration.

Local Open Scope string_scope.
Local Open Scope list_scope.
Local Open Scope Z_scope.

(** ** The runners

    [run_start] is what [Run] does until it closes [ready], [run_stop] what it does
    after the signal. *)
Record Runner (D : Type) := mkRunner { run_start : Go D unit; run_stop : Go D unit }.
Arguments mkRunner {_} _ _.
Arguments run_start {_} _.
Arguments run_stop {_} _.

Section Runners.
Context {S : Type} `{!Env S, !SqlClient S, !MigClient S}.

Definition constructStopper : Runner (SqlDB S) := mkRunner (mret tt) CancelWatches.

Definition RunAllMigration : Go S unit := RunMigrations InitializeMigrations.

Definition runMigration : Runner (SqlDB S) := mkRunner (client RunAllMigration) (mret tt).
End Runners.

Definition seeder {D} `{!DB D, !Env D} (configured : list RouterGroup) : Runner D :=
  mkRunner (seedRouterGroups configured) (mret tt).

(** ** Draining *)

(** The handler takes any event but the zero event. *)
Definition real_event (e : Event) : Prop := Event_Type e <> InvalidEvent.

Lemma closed_sources {E} (h : hub E) sub s :
  wf_hub h -> hub_closed h = true -> hub_sources h !! sub = Some s -> src_closed s = true.
Proof.
  intros (_ & _ & _ & Hopen & Hcl) Hc Hs. destruct (src_closed s) eqn:E0; [done|].
  specialize (Hopen sub s Hs E0). rewrite Hcl in Hopen by done. set_solver.
Qed.

(** A source that is closed and empty stays so. *)
Lemma closed_source_op k (o : obs Event) op s :
  wf_hub (o_hub o) -> hub_sources (o_hub o) !! k = Some s -> src_closed s = true -> src_events s = [] ->
  hub_sources (o_hub (obs_step k o op)) !! k = Some s.
Proof.
  intros (Hnd & Hlt & _) Hs Hc He. destruct op as [e|id|id| |]; simpl.
  - unfold hub_Emit. pose proof (emit_loop_spec e _ _ Hnd Hlt) as Hspec. destruct (emit_loop _ _ _) as [rem heap].
    destruct Hspec as (_ & _ & _ & Hheap). simpl. rewrite Hheap, Hs. case_bool_decide; [|done]. simpl.
    unfold source_send. by rewrite Hc.
  - unfold sub_Next. destruct (hub_sources (o_hub o) !! id) as [t|] eqn:Ht; [|done].
    destruct (decide (id = k)) as [->|Hne].
    + rewrite Hs in Ht. injection Ht as <-. unfold source_Next. rewrite He, Hc. simpl. by rewrite list_insert_id.
    + destruct (source_Next t) as [r t1]. simpl. by rewrite list_lookup_insert_ne.
  - unfold sub_Close. destruct (hub_sources (o_hub o) !! id) as [t|] eqn:Ht; [|done]. simpl.
    destruct (decide (id = k)) as [->|Hne]; [|by rewrite list_lookup_insert_ne].
    rewrite Hs in Ht. injection Ht as <-. unfold source_Close. rewrite Hc. simpl. by rewrite list_insert_id.
  - unfold hub_Subscribe. destruct (hub_closed (o_hub o)); [done|]. simpl. by apply lookup_app_l_Some.
  - unfold hub_Close. destruct (hub_closed (o_hub o)); [done|]. simpl.
    destruct (closeSubscribers_spec (hub_subscribers (o_hub o)) (hub_sources (o_hub o)) k) as (f & Hf & Hev & Hcl & _).
    rewrite Hf, Hs. simpl. f_equal. destruct (Hev s) as [E1 E2]. destruct (Hcl s) as [->|E3]; [done|].
    destruct s, (f _); simpl in *; congruence.
Qed.

(** A dispatcher that has returned has read its source to the end, and there is never
    an error to report. *)
Definition term_inv (sub : nat) (y : system) : Prop :=
  w_errs (sy_watch y) = [] /\
  (w_disp (sy_watch y) = DDone ->
   exists src, hub_sources (sy_hub y) !! sub = Some src /\ src_closed src = true /\ src_events src = []).

Lemma term_inv_op sub o w st op :
  wf_hub (o_hub o) -> term_inv sub (mkSystem o w st) -> term_inv sub (mkSystem (obs_step sub o op) w st).
Proof.
  intros Hwf [He Hd]. split; [done|]. intros Hw. destruct (Hd Hw) as (src & Hs & Hc & Hev). exists src.
  split; [by apply closed_source_op|done].
Qed.

Lemma next_drained sub (h : hub Event) err h' :
  sub_Next sub h = (NextErr err, h') ->
  err = ErrReadFromClosedSource /\
  exists src, hub_sources h' !! sub = Some src /\ src_closed src = true /\ src_events src = [].
Proof.
  unfold sub_Next. destruct (hub_sources h !! sub) as [src|] eqn:Hs; [|done]. unfold source_Next.
  destruct (src_events src) as [|e es] eqn:He; [|done]. destruct (src_closed src) eqn:Hc; [|done]. intros [= <- <-].
  split; [done|]. exists src. simpl. rewrite list_insert_id by done. done.
Qed.

Lemma term_inv_dispatch sub o w st w' h' :
  w_sub w = Some sub -> w_errs w = [] -> dispatchWatchEvents (o_hub o) w = Some (w', h') ->
  term_inv sub (mkSystem (obs_step sub o (OpNext sub)) w' st).
Proof.
  intros Hsub He Hd. destruct (dispatch_cases sub o w w' h' Hsub Hd) as (Hn & _ & Hh & _). unfold dispatchWatchEvents in Hd.
  rewrite Hn, Hsub in Hd. unfold term_inv, sy_hub. cbn [sy_watch sy_obs]. rewrite Hh.
  destruct (sub_Next sub (o_hub o)) as [[e|err|] h1] eqn:E; [|destruct (next_drained _ _ _ _ E) as [-> Hsrc]|done]; injection Hd as <- <-.
  - by split.
  - by split.
Qed.

Lemma term_inv_step sub y y' : sys_inv sub y -> term_inv sub y -> sys_step sub y y' -> term_inv sub y'.
Proof.
  intros (Hsub & Hwf & _) Ht Hs.
  destruct Hs as [o w st e|o w st|o w st|o w st w' h' Hd|o w st wr w' st' Hnd Hr|o w st w' st' Hnd Hr|o w st Hnd];
    cbn [sy_watch sy_obs sy_stream] in *.
  1-3: by apply term_inv_op.
  - eapply term_inv_dispatch; [done|apply Ht|done].
  - destruct Ht as [He Hd]. unfold recv_event in Hr. destruct (w_disp w) eqn:Ed; [done|..]; injection Hr as <- _;
      [by split|split; [done|]; intros _; by apply Hd].
  - destruct Ht as [He Hd]. unfold recv_err in Hr. simpl in He. rewrite He in Hr. destruct (w_disp w) eqn:Ed; try done.
    injection Hr as <- _. split; [done|]. intros _. by apply Hd.
  - by apply (term_inv_op sub o w st (OpSubClose sub)).
Qed.

Lemma term_inv_reach sub y y' : sys_inv sub y -> term_inv sub y -> rtc (sys_step sub) y y' -> term_inv sub y'.
Proof. intros Hi Ht Hr. induction Hr; eauto using term_inv_step, sys_inv_step. Qed.

(** The steps of the stream itself, while its client stays connected. *)
Inductive run_step (sub : nat) : system -> system -> Prop :=
| run_dispatch o w st w' h' :
    dispatchWatchEvents (o_hub o) w = Some (w', h') ->
    run_step sub (mkSystem o w st) (mkSystem (obs_step sub o (OpNext sub)) w' st)
| run_recv o w st wrote w' st' :
    st_done st = false -> recv_event wrote w st = Some (w', st') ->
    run_step sub (mkSystem o w st) (mkSystem o w' st')
| run_err o w st w' st' :
    st_done st = false -> recv_err w st = Some (w', st') ->
    run_step sub (mkSystem o w st) (mkSystem o w' st').

Lemma run_step_sys sub y y' : run_step sub y y' -> sys_step sub y y'.
Proof. destruct 1; [by eapply sys_dispatch|by eapply sys_recv|by eapply sys_err]. Qed.

(** How much a stream on a closed source still has to do. *)
Definition disp_work (d : disp) : nat := match d with DNext => 1 | DSend _ => 2 | DDone => 0 end.

Definition work (src : source Event) (w : watch) (st : stream) : nat :=
  2 * length (src_events src) + disp_work (w_disp w) + (if st_done st then 0 else 1).

(** What happens to the stream of a closed source: [todo] is what it has received and
    what is still on its way. *)
Record draining (sub : nat) (todo : list Event) (n : nat) (y : system) : Prop := {
  dr_sub : w_sub (sy_watch y) = Some sub;
  dr_term : term_inv sub y;
  dr_done : st_done (sy_stream y) = true -> w_disp (sy_watch y) = DDone;
  dr_src : exists src, hub_sources (sy_hub y) !! sub = Some src /\ src_closed src = true /\
    received (sy_stream y) ++ in_flight (w_disp (sy_watch y)) ++ src_events src = todo /\
    Forall real_event (in_flight (w_disp (sy_watch y)) ++ src_events src) /\
    work src (sy_watch y) (sy_stream y) = n
}.

Lemma received_event wrote e st : real_event e ->
  received (on_event wrote e st) = received st ++ [e] /\ st_done (on_event wrote e st) = false.
Proof.
  intros He. unfold on_event. rewrite bool_decide_eq_false_2 by done. unfold received.
  destruct wrote; simpl; by rewrite fmap_app.
Qed.

Lemma draining_step sub todo n y y' :
  st_done (sy_stream y) = false \/ w_disp (sy_watch y) = DDone ->
  draining sub todo n y -> run_step sub y y' -> exists n', (n' < n)%nat /\ draining sub todo n' y'.
Proof.
  intros Hor [Hsub Ht Hdone (src & Hs & Hc & Htodo & Hreal & Hn)] Hstep.
  destruct Hstep as [o w st w' h' Hd|o w st wr w' st' Hnd Hr|o w st w' st' Hnd Hr]; simpl in *; unfold sy_hub in *; simpl in *.
  - destruct (dispatch_cases sub o w w' h' Hsub Hd) as (Hdn & Hsub' & Hh & _).
    pose proof (term_inv_dispatch sub o w st w' h' Hsub (proj1 Ht) Hd) as Ht'.
    destruct Hor as [Hnd|E]; [|congruence]. unfold dispatchWatchEvents in Hd. rewrite Hdn, Hsub in Hd.
    rewrite Hdn in Htodo, Hreal. unfold work in Hn. rewrite Hdn in Hn. simpl in *.
    unfold sub_Next in Hd. rewrite Hs in Hd. unfold source_Next in Hd. destruct (src_events src) as [|e es] eqn:He.
    + rewrite Hc in Hd. injection Hd as <- <-. eexists. split; [|split; [done|exact Ht'|done|]]; cycle 1.
      { exists src. unfold sy_hub. cbn [sy_obs sy_watch sy_stream w_disp in_flight]. rewrite Hh. simpl.
        rewrite list_insert_id by done. split_and!; [done|done|by rewrite He|by rewrite He|reflexivity]. }
      unfold work. simpl. rewrite He, Hnd in *. simpl in *. lia.
    + injection Hd as <- <-. eexists. split; [|split; [done|exact Ht'|intros E; simpl in E; congruence|]]; cycle 1.
      { exists (mkSource es (src_cap src) (src_closed src)). unfold sy_hub. cbn [sy_obs sy_watch sy_stream w_disp in_flight]. rewrite Hh. simpl.
        rewrite list_lookup_insert_eq by (by eapply lookup_lt_Some). split_and!; [done..|reflexivity]. }
      unfold work. rewrite Hnd in *. simpl in *. lia.
  - unfold recv_event in Hr. unfold work in Hn. rewrite Hnd in Hn. destruct (w_disp w) as [|e|] eqn:Ed; [done| |]; injection Hr as <- <-; simpl in *.
    + apply Forall_cons in Hreal as [He Hreal]. destruct (received_event wr e st He) as [Hrec Hnd'].
      eexists. split; [|split; [done|by split; [apply Ht|]|intros E; simpl in E; congruence|exists src]]; cycle 1.
      { simpl. split_and!; [done..|by rewrite Hrec, <- (assoc_L (++))|done|reflexivity]. }
      unfold work. rewrite Hnd'. simpl in *. lia.
    + exists (work src w (on_event wr zero_Event st)). split; [unfold work; rewrite Ed; simpl in *; lia|].
      split; [done|exact Ht|by simpl; rewrite Ed|exists src]. simpl. rewrite Ed. done.
  - unfold recv_err in Hr. pose proof (proj1 Ht) as He. simpl in He. rewrite He in Hr. unfold work in Hn. rewrite Hnd in Hn.
    destruct (w_disp w) eqn:Ed; try done. injection Hr as <- <-.
    eexists. split; [|split; [done|exact Ht|done|exists src]]; cycle 1.
    { simpl. rewrite Ed. split_and!; [done..|reflexivity]. }
    unfold work. rewrite Ed. simpl in *. lia.
Qed.

Lemma draining_alive sub todo n y : draining sub todo n y -> st_done (sy_stream y) = false \/ w_disp (sy_watch y) = DDone.
Proof. intros [_ _ Hd _]. destruct (st_done (sy_stream y)); auto. Qed.

(** It goes on until it has ended, at most [n] steps, having received everything. *)
Lemma draining_runs sub todo n y k y' :
  draining sub todo n y -> nsteps (run_step sub) k y y' -> exists n', (n' + k <= n)%nat /\ draining sub todo n' y'.
Proof.
  intros Hd Hr. revert n Hd. induction Hr as [y|k y1 y2 y3 Hs _ IH]; intros n Hd; [exists n; split; [lia|done]|].
  destruct (draining_step sub todo n y1 y2 (draining_alive _ _ _ _ Hd) Hd Hs) as (n2 & Hn2 & Hd2).
  destruct (IH n2 Hd2) as (n3 & Hn3 & Hd3). exists n3. split; [lia|done].
Qed.

Lemma draining_ends sub todo n y : draining sub todo n y ->
  (exists y', run_step sub y y') \/
  (st_done (sy_stream y) = true /\ w_disp (sy_watch y) = DDone /\ received (sy_stream y) = todo).
Proof.
  intros [Hsub Ht Hdone (src & Hs & Hc & Htodo & _)]. destruct y as [o w st]. unfold sy_hub in *. simpl in *.
  destruct (st_done st) eqn:Ed.
  - right. split_and!; [done|by apply Hdone|]. destruct (proj2 Ht (Hdone eq_refl)) as (src' & Hs' & _ & He).
    unfold sy_hub in Hs'. simpl in Hs'. rewrite Hs in Hs'. injection Hs' as <-. rewrite He, (Hdone eq_refl) in Htodo. simpl in Htodo.
    by rewrite app_nil_r in Htodo.
  - left. destruct (w_disp w) as [|e|] eqn:Ew.
    + destruct (sub_Next sub (o_hub o)) as [r h1] eqn:En. unfold sub_Next in En. rewrite Hs in En. unfold source_Next in En.
      destruct (src_events src) as [|e es] eqn:He; [rewrite Hc in En|]; injection En as <- <-;
        eexists; eapply run_dispatch; unfold dispatchWatchEvents, sub_Next, source_Next; rewrite Ew, Hsub, Hs, He, ?Hc; reflexivity.
    + eexists. eapply (run_recv sub _ _ _ true); [done|]. unfold recv_event. by rewrite Ew.
    + eexists. eapply (run_recv sub _ _ _ true); [done|]. unfold recv_event. by rewrite Ew.
Qed.

(** A stream on a closed hub drains. *)
Lemma closed_hub_draining sub y src :
  sys_inv sub y -> term_inv sub y -> hub_closed (sy_hub y) = true -> st_done (sy_stream y) = false ->
  Forall real_event (o_emitted (sy_obs y)) -> hub_sources (sy_hub y) !! sub = Some src ->
  draining sub (received (sy_stream y) ++ in_flight (w_disp (sy_watch y)) ++ src_events src)
    (work src (sy_watch y) (sy_stream y)) y.
Proof.
  intros (Hsub & Hwf & (s & Hs & Hpre & _) & sk & Hrec & Hsk) Ht Hcl Hnd Hreal Hsrc. unfold sy_hub in *.
  assert (s = src) as -> by congruence. pose proof (closed_sources _ _ _ Hwf Hcl Hsrc) as Hc.
  split; [done|done|by rewrite Hnd|]. exists src. split_and!; [done..| |done].
  rewrite Hrec, (Hsk Hnd) in Hpre. simpl in Hpre. destruct Hpre as [k Hk]. rewrite Hk in Hreal. rewrite !Forall_app in *. naive_solver.
Qed.

(** What others do to a closed hub changes nothing in it. *)
Lemma closed_hub_still sub (o : obs Event) op :
  wf_hub (o_hub o) -> hub_closed (o_hub o) = true -> (exists e, op = OpEmit e) \/ op = OpSubscribe \/ op = OpHubClose ->
  o_hub (obs_step sub o op) = o_hub o.
Proof.
  intros (_ & _ & _ & _ & Hnil) Hc [[e ->]|[->| ->]]; simpl.
  - unfold hub_Emit. rewrite (Hnil Hc). simpl. pose proof (Hnil Hc) as Hn. destruct (o_hub o); simpl in *. by subst.
  - unfold hub_Subscribe. by rewrite Hc.
  - unfold hub_Close. by rewrite Hc.
Qed.

(** ** Closing *)

(** A closed hub, with every subscriber's buffer as it was. *)
Definition hub_stopped (h h' : hub Event) : Prop :=
  hub_closed h' = true /\ hub_Subscribe h' = (inl ErrSubscribedToClosedHub, h') /\
  forall sub src, hub_sources h !! sub = Some src ->
    hub_sources h' !! sub = Some (mkSource (src_events src) (src_cap src) true).

Lemma hub_Close_stops h : wf_hub h -> hub_stopped h (snd (hub_Close h)).
Proof.
  intros Hwf. pose proof (wf_hub_Close h Hwf) as Hwf'.
  assert (hub_closed (snd (hub_Close h)) = true) as Hc by (unfold hub_Close; by destruct (hub_closed h) eqn:E).
  split; [done|]. split; [unfold hub_Subscribe; by rewrite Hc|]. intros sub src Hs.
  assert (exists src', hub_sources (snd (hub_Close h)) !! sub = Some src' /\ src_events src' = src_events src /\ src_cap src' = src_cap src)
    as (src' & Hs' & He & Hcap).
  { unfold hub_Close. destruct (hub_closed h); [by eexists|]. simpl.
    destruct (closeSubscribers_spec (hub_subscribers h) (hub_sources h) sub) as (f & Hf & Hev & _).
    rewrite Hf, Hs. eexists. split; [done|]. apply Hev. }
  rewrite Hs'. f_equal. pose proof (closed_sources _ _ _ Hwf' Hc Hs') as Hcl. destruct src'; simpl in *. by subst.
Qed.
