(* ===== verification/Samples.v ===== *)
(** Samples: a concrete server on the in-memory database, on which the
    theorems are evaluated. *)
From Stdlib Require Import ZArith Lia.
From stdpp Require Import base option strings gmap list.
From S2P Require Import Prelude GoStrings RouterGroups Routes Json EventHub Store Keyed SqlDB.

Local Open Scope string_scope.
Local Open Scope list_scope.
Local Open Scope Z_scope.

(** 2023-11-14 22:13:20 UTC, in nanoseconds. *)
Definition sample_now : Z := 1700000000 * Second.

Definition sample_uuids : list (error + string) := [inr "uuid-1"; inr "uuid-2"; inr "uuid-3"; inr "uuid-4"].

Definition sample_model (guid : string) : Model := mkModel guid zero_time zero_time.

Definition sample_route (host guid : string) (expires : Z) : Route :=
  mkRoute (sample_model guid) expires
    (mkRouteEntity host 8080 "10.0.0.1" (Some 120) "log" "" (mkTag "tag" 3)).

Definition route_request (host : string) : Route := NewRoute host 8080 "10.0.0.1" "" "" 60.

Definition sample_tcp (port : Z) (guid : string) (expires : Z) : TcpRouteMapping :=
  mkTcpRouteMapping (sample_model guid) expires
    (mkTcpMappingEntity "rg-1" 6060 6061 "10.0.0.2" (Some "sni.example.com") None "inst" port (mkTag "tag" 7)
       (Some 120) "" false "" false).

Definition tcp_request (port : Z) : TcpRouteMapping :=
  mkTcpRouteMapping zero_Model zero_time
    (mkTcpMappingEntity "rg-1" 6060 6061 "10.0.0.2" (Some "sni.example.com") None "inst" port zero_Tag
       (Some 60) "seg" false "" false).

Definition sample_group : RouterGroupDB := mkRouterGroupDB (sample_model "rg-1") "default-tcp" "tcp" "1024-1123".

Definition sample_tables : Tables :=
  mkTables
    [sample_route "live.example.com" "r-1" (sample_now + 60 * Second);
     sample_route "stale.example.com" "r-2" (sample_now - 60 * Second)]
    [sample_tcp 1030 "t-1" (sample_now + 60 * Second); sample_tcp 1031 "t-2" (sample_now - 60 * Second)]
    [sample_group].

Definition sample_mem : Mem := mkMem sample_tables sample_now sample_uuids [].

(** A database with one subscriber on each hub. *)
Definition sample_db : SqlDB Mem :=
  mkSqlDB sample_mem (snd (hub_Subscribe (NewNonBlocking 1024))) (snd (hub_Subscribe (NewNonBlocking 1024)))
    (mkLocker 0 0).
