(* ===== verification/StoreClaims.v ===== *)
(** StoreClaims: the properties of the persistence layer. *)
From Stdlib Require Import ZArith Lia.
From stdpp Require Import base option strings gmap list relations.
From S2P Require Import Prelude GoStrings RouterGroups Routes Json EventHub Store Keyed SqlDB SqlDBFacts.
From S2P Require Import SqlTcpFacts SqlGroupFacts Prune Samples.

Local Open Scope string_scope.
Local Open Scope list_scope.
Local Open Scope Z_scope.

Section Refinement.
Context {S : Type} `{!Env S, !SqlClient S, !SqlLaws S}.
Implicit Types (s : SqlDB S).

(** C1. Saving and deleting routes are an upsert and a removal on the map of
    routes.  A save gives the request's key the merge of the stored and the
    requested route with a fresh or incremented modification tag and a new expiry,
    a delete removes exactly that key and reports a missing route exactly when the
    map has none; each emits one event to the HTTP hub, and nothing else changes.
    When one fails (or a save panics, which needs a missing TTL) everything is as
    before. *)
Theorem route_writes_refine route s :
  route_inv s ->
  wp (SaveRoute route) s (fun _ s' => saved_route route s s')
    (fun e s' => unchanged s s' /\ (e = None -> RE_TTL (Route_Entity route) = None)) /\
  wp (DeleteRoute route) s (fun _ s' => deleted_route route s s')
    (fun e s' => unchanged s s' /\ e <> None /\
       (forall d, e = Some (db_error d) ->
          db_error d = DeleteRouteError /\ route_map s !! route_key route = None)).
Proof. intros Hi. split; [by apply SaveRoute_wp|by apply DeleteRoute_wp]. Qed.

(** C2. Saving and deleting TCP mappings are an upsert and a removal on the
    map of TCP mappings, for every mapping with a TLS port: an existing mapping keeps
    everything but its TTL, isolation segment, SNI rewrite host name and tag; each
    emits one event to the TCP hub; a failure changes nothing.  A mapping without a TLS
    port whose row has NULL in host_tls_port, as rows have that are created after the
    migrations, is found by no lookup: saving such a mapping updates one that can be
    found, or else adds a row next to those there are, and deleting reports a missing
    mapping exactly when the map has none that can be found. *)
Theorem tcp_writes_refine m s :
  tcp_inv s ->
  wp (SaveTcpRouteMapping m) s (fun _ s' => saved_tcp m s s')
    (fun e s' => unchanged s s' /\ (e = None -> TM_TTL (Tcp_Entity m) = None)) /\
  (forall k, TM_HostTLSPort (Tcp_Entity m) <> 0 -> stored_under m (tcp_map s) k -> k = (tcp_key m, None)) /\
  (forall k guid, is_Some (tcp_map s !! (k, Some guid)) -> key_tls k = 0 /\ null_tls (S:=S) guid = true) /\
  wp (DeleteTcpRouteMapping m) s (fun _ s' => deleted_tcp m s s')
    (fun e s' => unchanged s s' /\ e <> None /\
       (forall d, e = Some (db_error d) -> db_error d = DeleteRouteError /\ tcp_map s !! (tcp_key m, None) = None)).
Proof.
  intros Hi. split_and!; [by apply SaveTcpRouteMapping_wp| |by intros k guid; apply tcp_map_hidden|by apply DeleteTcpRouteMapping_wp].
  intros k Htls [->|[? _]]; done.
Qed.

(** C3. Saving and deleting router groups happens only while neither lock is
    held.  An existing group keeps its name and type when the request leaves them
    empty; deleting removes one group and reports a missing one exactly when
    there is none; a failure changes nothing. *)
Theorem group_writes_refine g guid s :
  group_inv s -> RG_Guid g <> "" ->
  Model_Guid (RG_Model g) = "" \/ Model_Guid (RG_Model g) = RG_Guid g ->
  wp (SaveRouterGroup g) s
    (fun _ s' => isReadLocked (locker s) = false /\ isWriteLocked (locker s) = false /\
       groups_become (<[RG_Guid g := upsert_group (group_map s !! RG_Guid g) g]> (group_map s)) s s')
    (fun e s' => unchanged s s' /\ e <> None) /\
  wp (DeleteRouterGroup guid) s
    (fun _ s' => isReadLocked (locker s) = false /\ isWriteLocked (locker s) = false /\
       is_Some (group_map s !! guid) /\ groups_become (delete guid (group_map s)) s s')
    (fun e s' => unchanged s s' /\ e <> None /\
       (forall d, e = Some (db_error d) -> db_error d = DeleteRouterGroupError /\ group_map s !! guid = None)).
Proof. intros Hi Hg Hm. split; [by apply SaveRouterGroup_wp|by apply DeleteRouterGroup_wp]. Qed.

(** C11. A pruning pass over the HTTP routes does nothing if one of its two
    statements fails, the SELECT of the expired routes at the clock's reading or the
    DELETE by their guids; otherwise it removes exactly the routes that had expired a
    second before one reading of the clock and emits one expire event for each.  It
    never fails or panics. *)
Theorem prune_http_exact s :
  route_inv s ->
  wp prune_http_routes s
    (fun _ s' => (prune_failed (R:=Route) s -> unchanged s s') /\ (~ prune_failed (R:=Route) s -> pruned (R:=Route) s s'))
    (fun _ _ => False).
Proof.
  intros Hi. eapply wp_mono; [exact (prune_pass_wp (R:=Route) route_key s Hi)| |done].
  intros [] s' [[H1 H2]|[H1 H2]]; by split.
Qed.

(** The second of slack covers the rounding of the timestamp column: a
    route saved with expiry [e] that the pruner selects at time [t] really
    had expired. *)
Theorem pruned_only_expired t (r : Route) e :
  Route_ExpiresAt r = store_time e -> expired_at t r = true -> e < t.
Proof. intros H1 H2. exact (expired_really (R:=Route) t r e H1 H2). Qed.

(** C34. Whatever the requests and however the goroutines interleave, there
    is at most one pruning goroutine per table, and the in-flight flags say
    which are running. *)
Theorem one_pruner_per_table (other : SqlDB S -> SqlDB S -> Prop) s c :
  rtc (cl_step other) (cl_init s) c ->
  (length (tcp_go c) <= 1)%nat /\ (length (http_go c) <= 1)%nat /\
  (tcpInFlight c = 0 <-> tcp_go c = []) /\ (httpInFlight c = 0 <-> http_go c = []).
Proof.
  intros [Ht Hh]%cl_inv_reach.
  assert (forall R flag (gos : list (phase R)), flag_inv flag gos -> (length gos <= 1)%nat /\ (flag = 0 <-> gos = [])) as Hf.
  { intros R flag gos [[-> ->]|[-> Hl]]; [simpl; split; [lia|done]|]. split; [lia|]. by destruct gos. }
  destruct (Hf _ _ _ Ht), (Hf _ _ _ Hh). done.
Qed.
End Refinement.

(** ** Evaluated on the sample database *)

Lemma sample_invs : route_inv sample_db /\ tcp_inv sample_db /\ group_inv sample_db.
Proof. unfold route_inv, tcp_inv, group_inv, keyed_inv. by_evaluation. Qed.

(** The update and the removal of a stored route. *)
Lemma route_writes_refine_witness :
  let route := route_request "live.example.com" in
  (exists u, SaveRoute route sample_db = Ok u (final (SaveRoute route sample_db)) /\
    saved_route route sample_db (final (SaveRoute route sample_db))) /\
  exists u, DeleteRoute route sample_db = Ok u (final (DeleteRoute route sample_db)) /\
    deleted_route route sample_db (final (DeleteRoute route sample_db)).
Proof.
  destruct (route_writes_refine (route_request "live.example.com") sample_db (proj1 sample_invs)) as [Hs Hd].
  split; [refine (wp_returns _ _ _ _ _ Hs)|refine (wp_returns _ _ _ _ _ Hd)]; vm_compute; reflexivity.
Defined.

(** Saved twice, a mapping without a TLS port is in the table twice, and deleting it
    reports that there is none. *)
Definition no_tls (m : TcpRouteMapping) : TcpRouteMapping :=
  let e := Tcp_Entity m in
  mkTcpRouteMapping (Tcp_Model m) (Tcp_ExpiresAt m)
    (mkTcpMappingEntity (TM_RouterGroupGuid e) (TM_HostPort e) 0 (TM_HostIP e) (TM_SniHostname e)
       (TM_SniRewriteHostname e) (TM_InstanceId e) (TM_ExternalPort e) (TM_ModificationTag e) (TM_TTL e)
       (TM_IsolationSegment e) (TM_TerminateFrontendTLS e) (TM_ALPNs e) (TM_EnableBackendMTLS e)).

Example no_tls_saved_twice :
  let m := no_tls (tcp_request 1040) in
  let once := final (SaveTcpRouteMapping m sample_db) in
  let twice := final (SaveTcpRouteMapping m once) in
  returns (SaveTcpRouteMapping m) sample_db = true /\ returns (SaveTcpRouteMapping m) once = true /\
  length (filter (fun r => tcp_key r = tcp_key m) (tb_tcp (tabs twice))) = 2%nat /\
  exists s', DeleteTcpRouteMapping m twice = Fail DeleteRouteError s'.
Proof. cbv zeta. split_and!; [vm_compute; reflexivity..|]. eexists. vm_compute. reflexivity. Qed.

(** The creation of a new mapping and the removal of a stored one. *)
Lemma tcp_writes_refine_witness :
  (exists u, SaveTcpRouteMapping (tcp_request 1040) sample_db = Ok u (final (SaveTcpRouteMapping (tcp_request 1040) sample_db)) /\
    saved_tcp (tcp_request 1040) sample_db (final (SaveTcpRouteMapping (tcp_request 1040) sample_db))) /\
  exists u, DeleteTcpRouteMapping (tcp_request 1030) sample_db = Ok u (final (DeleteTcpRouteMapping (tcp_request 1030) sample_db)) /\
    deleted_tcp (tcp_request 1030) sample_db (final (DeleteTcpRouteMapping (tcp_request 1030) sample_db)).
Proof.
  split.
  - refine (wp_returns _ _ _ _ _ (proj1 (tcp_writes_refine (tcp_request 1040) sample_db (proj1 (proj2 sample_invs))))).
    vm_compute. reflexivity.
  - refine (wp_returns _ _ _ _ _ (proj2 (proj2 (proj2 (tcp_writes_refine (tcp_request 1030) sample_db (proj1 (proj2 sample_invs))))))).
    vm_compute. reflexivity.
Defined.

Definition group_request : RouterGroup := mkRouterGroup zero_Model "rg-1" "" "" "2000-2100".

Lemma group_writes_refine_witness :
  (exists u, SaveRouterGroup group_request sample_db = Ok u (final (SaveRouterGroup group_request sample_db)) /\
    isReadLocked (locker sample_db) = false /\ isWriteLocked (locker sample_db) = false /\
    groups_become (<["rg-1" := upsert_group (group_map sample_db !! "rg-1") group_request]> (group_map sample_db))
      sample_db (final (SaveRouterGroup group_request sample_db))) /\
  exists u, DeleteRouterGroup "rg-1" sample_db = Ok u (final (DeleteRouterGroup "rg-1" sample_db)) /\
    isReadLocked (locker sample_db) = false /\ isWriteLocked (locker sample_db) = false /\
    is_Some (group_map sample_db !! "rg-1") /\
    groups_become (delete "rg-1" (group_map sample_db)) sample_db (final (DeleteRouterGroup "rg-1" sample_db)).
Proof.
  destruct (group_writes_refine group_request "rg-1" sample_db (proj2 (proj2 sample_invs))) as [Hs Hd];
    [discriminate|left; reflexivity|].
  split; [refine (wp_returns _ _ _ _ _ Hs)|refine (wp_returns _ _ _ _ _ Hd)]; vm_compute; reflexivity.
Defined.

(** The stale route of the sample is pruned, the live one stays. *)
Lemma prune_http_exact_witness :
  pruned (R:=Route) sample_db (final (prune_http_routes sample_db)) /\
  (row_guid <$> tb_routes (tabs (final (prune_http_routes sample_db)))) = ["r-1"].
Proof.
  split; [|vm_compute; reflexivity].
  assert (returns prune_http_routes sample_db = true) as Hret by (vm_compute; reflexivity).
  destruct (wp_returns _ _ _ _ Hret (prune_http_exact sample_db (proj1 sample_invs))) as (u & _ & _ & Hp).
  apply Hp. vm_compute. intros (e & c & He). discriminate He.
Defined.

Definition stored_stale : Route := sample_route "stale.example.com" "r-2" (trunc_second (sample_now - 60 * Second)).

Lemma pruned_only_expired_witness : sample_now - 60 * Second < sample_now.
Proof.
  apply (pruned_only_expired (S:=Mem) sample_now stored_stale (sample_now - 60 * Second)).
  - vm_compute. reflexivity.
  - vm_compute. reflexivity.
Defined.

(** Two ticks while the first goroutines have not moved. *)
Definition after_ticks : Cleaner (S:=Mem) := mkCleaner sample_db 1 1 [PhFind _] [PhFind _].

Lemma one_pruner_per_table_witness :
  rtc (cl_step (fun _ _ => False)) (cl_init sample_db) after_ticks /\ (length (tcp_go after_ticks) <= 1)%nat.
Proof.
  assert (rtc (cl_step (fun _ _ => False)) (cl_init sample_db) after_ticks) as Hr.
  { eapply rtc_l; [by apply (cl_tick _ sample_db 0 0 [] [] 1 [PhFind _] 1 [PhFind _])|].
    eapply rtc_l; [by apply (cl_tick _ sample_db 1 1 [PhFind _] [PhFind _] 1 [PhFind _] 1 [PhFind _])|].
    apply rtc_refl. }
  split; [exact Hr|]. apply (one_pruner_per_table (fun _ _ => False) sample_db after_ticks Hr).
Defined.

(** ** Interleavings *)

(** The route found by a step, when it returned one. *)
Definition result_or {W A} (o : outcome W A) (d : A) : A := match o with Ok a _ => a | _ => d end.

(** The pruner's find and delete are separate statements: a route that is
    refreshed between them, and so is live again, is deleted all the same. *)
Definition refreshed_route_dropped (s : SqlDB Mem) (route : Route) : Prop :=
    let found := FindExpiredRoutes (R:=Route) s in
    let refreshed := SaveRoute route (final found) in
    let pruned := delete_expired (result_or found []) (final refreshed) in
    route_inv s /\ returns (FindExpiredRoutes (R:=Route)) s = true /\ returns (SaveRoute route) (final found) = true /\
    (exists e exp, route_map (final refreshed) !! route_key route = Some (e, exp) /\ sample_now + 58 * Second < exp) /\
    panics pruned = false /\ route_map (final pruned) !! route_key route = None.

Lemma prune_drops_refreshed_route : refreshed_route_dropped sample_db (route_request "stale.example.com").
Proof.
  unfold refreshed_route_dropped. cbv zeta.
  split; [exact (proj1 sample_invs)|]. split; [vm_compute; reflexivity|]. split; [vm_compute; reflexivity|].
  split; [|split; vm_compute; reflexivity].
  eexists _, _. split; [vm_compute; reflexivity|]. vm_compute. reflexivity.
Qed.

(** [SaveRoute] looks the route up and creates it in two statements: two requests
    that both look first create two rows, after which neither saving nor deleting
    that route works any more. *)
Definition saves_duplicate (s : SqlDB Mem) (route : Route) : Prop :=
    let look1 := readRoute route s in
    let look2 := readRoute route (final look1) in
    let save1 := saveRoute_found route (result_or look1 route) (final look2) in
    let save2 := saveRoute_found route (result_or look2 route) (final save1) in
    route_inv s /\
    (exists s1, save1 = Ok tt s1) /\ (exists s2, save2 = Ok tt s2) /\
    ~ route_inv (final save2) /\
    (exists s3, SaveRoute route (final save2) = Fail (errors_New "have duplicate routes") s3) /\
    (exists s4, DeleteRoute route (final save2) = Fail (errors_New "have duplicate routes") s4).

Lemma concurrent_saves_duplicate : saves_duplicate sample_db (route_request "new.example.com").
Proof.
  unfold saves_duplicate. cbv zeta.
  split; [exact (proj1 sample_invs)|].
  split; [eexists; vm_compute; reflexivity|]. split; [eexists; vm_compute; reflexivity|].
  split; [|split; eexists; vm_compute; reflexivity].
  intros (Hk & _). revert Hk. by_evaluation.
Qed.

(** C35. Two interleavings break the store's promises, since lookups and
    writes are separate statements without a transaction: a route that is
    refreshed while the pruner runs is deleted although it is live, and two
    concurrent first saves of a route leave two rows, after which the route can be
    neither saved nor deleted. *)
Theorem unguarded_interleavings :
  (exists s route, refreshed_route_dropped s route) /\ (exists s route, saves_duplicate s route).
Proof.
  split; [exists sample_db, (route_request "stale.example.com"); exact prune_drops_refreshed_route|].
  exists sample_db, (route_request "new.example.com"). exact concurrent_saves_duplicate.
Qed.

(** A mapping without SNI host name is not similar to any stored one: the
    query compares the NULL column with the empty string. *)
Lemma similar_ignores_missing_sni (rows : list TcpRouteMapping) port t :
  Forall (fun r => TM_SniHostname (Tcp_Entity r) = None) rows ->
  rows_where (fun r => sql_eq (TM_SniHostname (Tcp_Entity r)) "" &&
                       (TM_ExternalPort (Tcp_Entity r) =? port) && (t <? Tcp_ExpiresAt r)) rows = [].
Proof.
  intros Hn. apply filter_none. intros r Hr. rewrite (proj1 (Forall_forall _ _) Hn r Hr). done.
Qed.
