(* ===== verification/ModelClaims.v ===== *)
(** ModelClaims: the properties of the data model and its JSON text, the request
    validation and the event hub. *)
From Stdlib Require Import ZArith Lia.
From stdpp Require Import base option strings gmap list.
From S2P Require Import Prelude GoStrings Utf8 RouterGroups Routes Json JsonText JsonTextFacts Wire Decoded.
From S2P Require Import EventHub Validator Http Historical Samples.

Local Open Scope string_scope.
Local Open Scope list_scope.
Local Open Scope Z_scope.

(** C18. [ReservablePorts.Validate] accepts exactly the port lists that parse,
    whose ranges share no port, and (when conflicts are to fail) contain no
    reserved system port.  Whatever parses is a non-empty list of ranges between
    1024 and 65535, and the text of such a list parses to it.  The program of
    version 6 accepted all of these, and ranges that overlap as well, where its 16-bit
    comparison wraps around. *)
Theorem ReservablePorts_Validate_exact gl p :
  (ReservablePorts_Validate gl p = None <->
   exists rs, Parse p = inr rs /\ disjoint_ranges rs /\
     (FailOnRouterPortConflicts gl = true ->
      forall r q, r ∈ rs -> q ∈ ReservedSystemComponentPorts gl -> ~ in_range q r)) /\
  (forall rs, Parse p = inr rs -> rs <> [] /\ Forall wf_Range rs) /\
  (forall rs, rs <> [] -> Forall wf_Range rs -> Parse (print_ranges rs) = inr rs) /\
  (ReservablePorts_Validate gl p = None -> V6Model.ReservablePorts_Validate gl p = None) /\
  (FailOnRouterPortConflicts gl = false ->
     exists p', V6Model.ReservablePorts_Validate gl p' = None /\ ReservablePorts_Validate gl p' <> None).
Proof.
  split_and!.
  - apply ReservablePorts_Validate_spec.
  - intros rs HP. split; [by eapply Parse_nonempty|by eapply Parse_wf].
  - intros rs. apply Parse_print.
  - apply v6_Validate_weaker.
  - intros Hg. eexists. by apply v6_accepts_overlap.
Qed.

Lemma ReservablePorts_Validate_exact_witness :
  Parse "1024-1100,2000" = inr [mkRange 1024 1100; mkRange 2000 2000].
Proof.
  apply (proj1 (proj2 (proj2 (ReservablePorts_Validate_exact (mkGlobals [] false) ""))) [mkRange 1024 1100; mkRange 2000 2000]);
    [discriminate|by_evaluation].
Defined.

(** [RouterGroups.Validate] accepts exactly the lists of groups that each
    have a name and a type, ports if of type tcp and none if of type http,
    and valid ports where given. *)
Theorem RouterGroups_Validate_exact gl gs :
  RouterGroups_Validate gl gs = None <->
  Forall (fun g => RG_Name g <> "" /\ RG_Type g <> "" /\
    (RG_Type g = RouterGroup_HTTP -> RG_ReservablePorts g = "") /\
    (RG_Type g = RouterGroup_TCP -> RG_ReservablePorts g <> "") /\
    (RG_ReservablePorts g <> "" -> ReservablePorts_Validate gl (RG_ReservablePorts g) = None)) gs.
Proof.
  rewrite RouterGroups_Validate_spec, !Forall_forall. unfold valid_group.
  by setoid_rewrite ReservablePorts_Validate_spec.
Qed.

(** C23. Once the TTLs are set, [ValidateCreate] returns without touching any
    state, and accepts exactly the batches in which every route has a clean
    URL, a port, an IP, an https or empty route service URL, and a TTL
    between 1 and the maximum.  The maximum itself is accepted; the API
    documentation (docs/02-api-docs.md, line 556) asks for less. *)
Theorem ValidateCreate_exact `{!NetUrl} {W} routes maxTTL (w : W) :
  Forall (fun r => RE_TTL (Route_Entity r) <> None) routes ->
  exists res, ValidateCreate routes maxTTL w = Ok res w /\
    (res = None <->
     Forall (fun r => valid_route_request r /\ valid_ttl maxTTL (RE_TTL (Route_Entity r))) routes).
Proof. apply ValidateCreate_spec. Qed.

(** A URL parser that keeps every text: good enough for clean URLs. *)
Definition text_url : NetUrl := fun s => inr s.

Lemma ValidateCreate_exact_witness :
  exists res, ValidateCreate (H:=text_url) [route_request "a.example.com"] 120 tt = Ok res tt /\
    (res = None <->
     Forall (fun r => valid_route_request (H:=text_url) r /\ valid_ttl 120 (RE_TTL (Route_Entity r)))
       [route_request "a.example.com"]).
Proof. apply (ValidateCreate_exact (H:=text_url)). by_evaluation. Defined.



(** C31. What a subscriber has read and still has buffered is a gap-free
    prefix of what was emitted since it subscribed, and all of it while its
    source is open, under any sequence of hub operations. *)
Theorem hub_delivers_in_order {E} (h : hub E) k h' (ops : list (hub_op E)) :
  wf_hub h -> hub_Subscribe h = (inr k, h') ->
  let o := obs_run k (mkObs h' [] []) ops in
  exists s, hub_sources (o_hub o) !! k = Some s /\
    o_received o ++ src_events s `prefix_of` o_emitted o /\
    (src_closed s = false -> o_received o ++ src_events s = o_emitted o).
Proof.
  intros Hwf Hs. apply delivered_run; [|by eapply delivered_Subscribe].
  pose proof (wf_Subscribe h Hwf) as Hw. by rewrite Hs in Hw.
Qed.

Lemma hub_delivers_in_order_witness :
  let o := obs_run 0 (mkObs (snd (hub_Subscribe (NewNonBlocking 2))) [] [])
             [OpEmit 1; OpEmit 2; OpNext 0; OpEmit 3; OpEmit 4] in
  exists s, hub_sources (o_hub o) !! 0%nat = Some s /\
    o_received o ++ src_events s `prefix_of` o_emitted o /\
    (src_closed s = false -> o_received o ++ src_events s = o_emitted o).
Proof.
  apply (hub_delivers_in_order (NewNonBlocking 2)); [apply wf_NewNonBlocking|reflexivity].
Defined.

(** Every hub reachable from an empty one is well formed: subscribers
    are distinct and live, no buffer exceeds its size, an open source is
    subscribed, and a closed hub has no subscriber. *)
Theorem hub_reachable_wf {E} n k (ops : list (hub_op E)) :
  wf_hub (o_hub (obs_run k (mkObs (NewNonBlocking n) [] []) ops)).
Proof.
  assert (forall ops (o : obs E), wf_hub (o_hub o) -> wf_hub (o_hub (obs_run k o ops))) as Hrun.
  { clear ops. intros ops. induction ops as [|op ops IH]; intros o Hwf; [done|]. apply IH.
    destruct op as [e|id|id| |]; simpl.
    - by apply wf_Emit.
    - pose proof (wf_sub_Next id _ Hwf) as Hn. by destruct (sub_Next id (o_hub o)).
    - by apply wf_sub_Close.
    - by apply wf_Subscribe.
    - by apply wf_hub_Close. }
  apply Hrun, wf_NewNonBlocking.
Qed.

Definition sample_doc : json :=
  JArr [JObj [("port", JInt 8080); ("ip", JStr "10.0.0.1"); ("x", JFrac "1.5e3")]; JNull; JBool true; JStr "a<b>"].

(** C17. The records of the API survive the wire: the text of a list of
    routes, of TCP mappings or of router groups, or of one router group, decodes
    to the same list, every field the API exposes included, and every API error that
    the server writes is read by the client.  More generally, whatever JSON document is
    written (with 64-bit integers and number literals, nested less than 10000 deep),
    reading the text gives it back, with the bytes of strings that are not UTF-8
    replaced, and stops where the document ends; a document in valid UTF-8 comes back
    unchanged. *)
Theorem records_round_trip routes ms gs rest v :
  Forall text_Route routes -> Forall text_Tcp ms -> Forall text_RouterGroup gs -> ends_number rest = true ->
  then_decode (dec_slice Unmarshal_Route) (Decode_text (json_text (JArr (json_of_Route <$> routes)) +:+ rest)) =
    inr (wire_Route <$> routes) /\
  then_decode (dec_slice Unmarshal_Tcp) (Decode_text (json_text (JArr (json_of_Tcp <$> ms)) +:+ rest)) =
    inr (wire_Tcp <$> ms) /\
  then_decode (dec_slice Unmarshal_RouterGroup) (Decode_text (json_text (JArr (json_of_RouterGroup <$> gs)) +:+ rest)) =
    inr gs /\
  (forall g, g ∈ gs -> then_decode Unmarshal_RouterGroup (Decode_text (json_text (json_of_RouterGroup g) +:+ rest)) = inr g) /\
  (forall e, then_decode Unmarshal_ApiError (Unmarshal_text (marshalRoutingApiError e)) = inr (coerce_error e)) /\
  (json_ok maxNestingDepth v = true ->
     Decode_text (json_text v +:+ rest) = inr (coerce_json v) /\
     (skip_ws rest = "" -> Unmarshal_text (json_text v +:+ rest) = inr (coerce_json v)) /\
     (json_utf8 v = true -> coerce_json v = v)).
Proof.
  intros Hr Hm Hg Hrest. split_and!; [by apply text_routes_roundtrip|by apply text_tcp_roundtrip|by apply text_groups_roundtrip| | |].
  - intros g Hin. apply text_group_roundtrip; [|done]. by eapply Forall_forall.
  - apply text_error_roundtrip.
  - intros Hok. split_and!; [by apply Decode_json_text|by apply Unmarshal_json_text|apply coerce_json_utf8].
Qed.

Lemma records_round_trip_witness :
  then_decode (dec_slice Unmarshal_Route)
    (Decode_text (json_text (JArr (json_of_Route <$> [route_request "a"])) +:+ newline)) = inr (wire_Route <$> [route_request "a"]) /\
  Decode_text (json_text sample_doc +:+ newline) = inr (coerce_json sample_doc).
Proof.
  destruct (records_round_trip [route_request "a"] [tcp_request 1030]
    [mkRouterGroup zero_Model "g" "default-tcp" "tcp" "1024-1123"] newline sample_doc) as (Hr & _ & _ & _ & _ & Hd).
  - by_evaluation.
  - by_evaluation.
  - by_evaluation.
  - vm_compute. reflexivity.
  - split; [exact Hr|]. refine (proj1 (Hd _)). vm_compute. reflexivity.
Defined.

(** C16. Whatever bytes a client sends, what the handlers decode from them
    fits the Go types: ports and tag indices are in their 16 and 32 bits, the TTL
    in its int, and all text is UTF-8, so it can be stored, listed and read back
    without loss. *)
Theorem decoded_bodies_fit body :
  (forall rs, then_decode (dec_slice Unmarshal_Route) (Decode_text body) = inr rs -> Forall text_Route rs) /\
  (forall ms, then_decode (dec_slice Unmarshal_Tcp) (Decode_text body) = inr ms -> Forall text_Tcp ms) /\
  (forall g, then_decode Unmarshal_RouterGroup (Decode_text body) = inr g -> text_RouterGroup g).
Proof.
  split_and!; intros x; [apply decoded_routes_text|apply decoded_tcp_text|apply decoded_group_text].
Qed.

(** A body with an escaped character and a broken UTF-8 sequence. *)
Definition sample_body : string :=
  json_text (json_of_RouterGroup (mkRouterGroup zero_Model "" (String (Ascii.ascii_of_nat 200) "g") "tcp" "1024-1123")).

Lemma decoded_bodies_fit_witness :
  exists g, then_decode Unmarshal_RouterGroup (Decode_text sample_body) = inr g /\ text_RouterGroup g.
Proof.
  eexists. split; [vm_compute; reflexivity|].
  apply (proj2 (proj2 (decoded_bodies_fit sample_body))). vm_compute. reflexivity.
Defined.

(** C33. An incremented modification tag supersedes the tag it came from,
    except when its 32-bit index wraps around. *)
Theorem Increment_supersedes t :
  Tag_Guid t <> "" -> is_u32 (Tag_Index t) ->
  SucceededBy (Some t) (Increment t) = true <-> Tag_Index t <> 4294967295.
Proof.
  intros Hg Hu. rewrite SucceededBy_guid by done. cbn [Increment Tag_Guid Tag_Index]. unfold is_u32, u32 in *.
  split.
  - intros [?|Hlt] Heq; [done|]. rewrite Heq in Hlt. by vm_compute in Hlt.
  - intros Hne. right. rewrite Z.mod_small; lia.
Qed.

Lemma Increment_supersedes_witness :
  SucceededBy (Some (mkTag "tag" 3)) (Increment (mkTag "tag" 3)) = true <-> 3 <> 4294967295.
Proof. apply (Increment_supersedes (mkTag "tag" 3)); [discriminate|by_evaluation]. Defined.

(** The range check of migration/v6 computes one past the smaller end in 16
    bits: two ranges that both reach 65535 count as disjoint. *)
Lemma v6_Overlaps_misses :
  exists r1 r2, wf_Range r1 /\ wf_Range r2 /\ (exists p, in_range p r1 /\ in_range p r2) /\
    Overlaps r1 r2 = true /\ v6_Overlaps r1 r2 = false.
Proof.
  exists (mkRange 1024 65535), (mkRange 2000 65535). unfold wf_Range, in_range. simpl.
  split_and!; try lia; [exists 3000; lia|reflexivity..].
Qed.
