(* ===== verification/ApiClaims.v ===== *)
(** ApiClaims: the properties of the HTTP API and of the event streams. *)
From Stdlib Require Import ZArith Lia.
From stdpp Require Import base option strings gmap list relations.
From S2P Require Import JsonText.
From S2P Require Import Prelude GoStrings RouterGroups Routes Json EventHub Store Keyed SqlDB SqlDBFacts.
From S2P Require Import SqlTcpFacts SqlGroupFacts Contract Validator Http Handlers HandlerFacts GroupApi.
From S2P Require Import Watch Api Uaa Shutdown Samples.

Local Open Scope string_scope.
Local Open Scope list_scope.
Local Open Scope Z_scope.

Section Requests.
Context {D U : Type} `{!DB D, !Env D, !DBContract D, !TokenValidator U, !NetUrl}.
Context (gl : Globals) (maxTTL : Z).
Implicit Types (s : Server D U).

(** C5. An upsert of routes answers 401 or 400 and changes nothing, or has
    a valid batch and answers 201 with every route stored in order, or 503
    with a proper prefix stored; after a 201 every requested route is
    present, and no other route, TCP mapping, group or lock has changed. *)
Theorem Routes_Upsert_answers req s :
  fresh s -> db_inv (sv_db s) ->
  wp (Routes_Upsert maxTTL req) s
    (responds (fun code v' =>
       upsert_answer maxTTL req (view (sv_db s)) code v' /\
       (code = StatusCreated -> forall rs, requested_routes maxTTL req = Some rs ->
          (forall r, r ∈ rs -> is_Some (v_routes v' !! route_key r)) /\
          only_routes (route_key <$> rs) (view (sv_db s)) v'))) (aborts s).
Proof.
  intros Hf Hi. eapply responds_mono; [by apply Routes_Upsert_wp|]. intros code v' Ha. split; [done|].
  intros -> rs Hrs.
  destruct Ha as [[? _]|[[? _]|(rs' & Hrs' & _ & [[_ Hs]|[? _]])]]; try done.
  rewrite Hrs in Hrs'. injection Hrs' as <-. split; [|by apply stored_only_routes].
  intros r. by eapply stored_present.
Qed.

(** C6. A delete of routes is idempotent: after a 204 none of the requested
    routes is present, whether it was before or not, and no other route,
    TCP mapping, group or lock has changed. *)
Theorem Routes_Delete_answers req s :
  fresh s -> db_inv (sv_db s) ->
  wp (Routes_Delete req) s
    (responds (fun code v' =>
       delete_answer req (view (sv_db s)) code v' /\
       (code = StatusNoContent -> forall rs, Decode (dec_slice Unmarshal_Route) req = inr rs ->
          (forall r, r ∈ rs -> v_routes v' !! route_key r = None) /\
          only_routes (route_key <$> rs) (view (sv_db s)) v'))) (aborts s).
Proof.
  intros Hf Hi. eapply responds_mono; [by apply Routes_Delete_wp|]. intros code v' Ha. split; [done|].
  intros -> rs Hrs.
  destruct Ha as [[? _]|[[? _]|(rs' & Hrs' & _ & [[_ Hs]|[? _]])]]; try done.
  rewrite Hrs in Hrs'. injection Hrs' as <-. split; [|by apply removed_only_routes].
  intros r. by eapply removed_absent.
Qed.

(** C7. An upsert of TCP mappings stores nothing unless every mapping of
    the batch is well formed and names an existing router group; after a
    201 every requested mapping is present, under the key by which it is found again if
    it has a TLS port, and nothing else has changed. *)
Theorem Tcp_Upsert_answers req s :
  fresh s -> db_inv (sv_db s) ->
  wp (Tcp_Upsert maxTTL req) s
    (responds (fun code v' =>
       tcp_upsert_answer maxTTL req (view (sv_db s)) code v' /\
       (code = StatusCreated -> forall ms, requested_tcp maxTTL req = Some ms ->
          (forall m, m ∈ ms -> tcp_present m v') /\
          only_tcp (tcp_key <$> ms) (view (sv_db s)) v'))) (aborts s).
Proof.
  intros Hf Hi. eapply responds_mono; [by apply Tcp_Upsert_wp|]. intros code v' Ha. split; [done|].
  intros -> ms Hms. destruct Ha as [[_ Hin]|(ms' & Hms' & _ & [[_ Hs]|[? _]])]; [|  |done].
  - exfalso. revert Hin. by_evaluation.
  - rewrite Hms in Hms'. injection Hms' as <-. split; [|by apply stored_only_tcp].
    intros m. by eapply tcp_stored_present.
Qed.

(** C8. No request, whatever it is and however it ends, breaks the store:
    stored router groups stay valid and identified by name and type, the
    locks stay as they are, no group changes while the write lock is held,
    and an answer of 400, 401 or 404 means that nothing changed. *)
Theorem every_request_keeps_store a req s :
  fresh s -> db_inv (sv_db s) ->
  wp (apiHandler gl maxTTL a req) s
    (responds (fun code v' =>
       (groups_ok gl (view (sv_db s)) -> groups_ok gl v') /\ v_locks v' = v_locks (view (sv_db s)) /\
       (isWriteLocked (v_locks (view (sv_db s))) = true -> v_groups v' = v_groups (view (sv_db s))) /\
       (code ∈ [StatusUnauthorized; StatusBadRequest; StatusNotFound] -> v' = view (sv_db s)))) (aborts s).
Proof. apply apiHandler_wp. Qed.

(** C9. A request whose token the validator refuses is answered with 401
    and the (redacted) error, is counted, and never reaches the database. *)
Theorem refused_token_stops_request a req s err u :
  fresh s ->
  uaa_ValidateToken (token_of req) [scope_of a] (sv_uaa s) = Fail err u ->
  exists s', apiHandler gl maxTTL a req s = Ok tt s' /\ sv_db s' = sv_db s /\
    totalTokenErrors s' = i64 (totalTokenErrors s + 1) /\
    rw_status (sv_w s') = Some StatusUnauthorized /\ rw_body (sv_w s') = [unauthorized_body err].
Proof.
  intros Hf Hu. exists (rejected err u s). split; [by apply apiHandler_rejected|].
  unfold fresh in Hf. unfold rejected, rw_status. cbn [sv_db sv_w totalTokenErrors]. rewrite Hf. done.
Qed.

(** C10. Router group requests.  Creating adds one valid group whose name and
    type were not in use, while writes are unlocked, and when they are in use
    answers 200 and leaves the store as it is.  Updating changes the reservable
    ports of a group and nothing else: not its name, not its type, and no other
    group.  Deleting removes the group of the request, or answers 404 when there
    is none. *)
Theorem router_group_answers req s :
  fresh s -> db_inv (sv_db s) ->
  wp (CreateRouterGroup gl req) s (responds (create_answer gl req (view (sv_db s)))) (aborts s) /\
  wp (UpdateRouterGroup gl req) s (responds (update_answer gl req (view (sv_db s)))) (aborts s) /\
  wp (DeleteRouterGroup_handler req) s (responds (group_delete_answer req (view (sv_db s)))) (aborts s).
Proof.
  intros Hf Hi. split_and!;
    [by apply CreateRouterGroup_wp|by apply UpdateRouterGroup_wp|by apply DeleteRouterGroup_handler_wp].
Qed.
End Requests.

(** The body of a 401 for a missing scope is the same whatever scopes were
    asked for. *)
Lemma unauthorized_body_hides_scopes (desired : list string) :
  unauthorized_body (scope_error desired) =
  json_text (json_of_ApiError (NewError UnauthorizedError "You are not authorized to perform the requested action")).
Proof. apply (unauthorized_body_hides (Join "', '" desired)). Qed.

(** ** The streams *)

Section Streams.
Context {S : Type}.
Implicit Types (s : SqlDB S).

Lemma watch_reachable ty s w s' sub y :
  wf_hub (hub_for ty s) -> WatchChanges ty s = (w, s') -> w_sub w = Some sub ->
  rtc (sys_step sub) (mkSystem (mkObs (hub_for ty s') [] []) w init_stream) y ->
  sys_inv sub y /\ out_inv (sy_stream y) /\ term_inv sub y.
Proof.
  intros Hwf Hw Hsub Hr. assert (exists h', hub_Subscribe (hub_for ty s) = (inr sub, h') /\ hub_for ty s' = h' /\
    w = mkWatch (Some sub) DNext []) as (h' & Hs & Hh & ->).
  { unfold WatchChanges, hub_for, watch_of in *. case_bool_decide as Ht; [|case_bool_decide; [|by injection Hw as <- <-]];
      injection Hw as <- <-.
    - destruct (hub_Subscribe (tcpEventHub s)) as [[e|sub'] h']; [done|]. injection Hsub as ->. by eexists.
    - destruct (hub_Subscribe (httpEventHub s)) as [[e|sub'] h']; [done|]. injection Hsub as ->. by eexists. }
  rewrite Hh in Hr. pose proof (sys_inv_init _ _ _ Hwf Hs) as Hi. split_and!.
  - by eapply sys_inv_reach.
  - by eapply out_inv_reach; [|exact Hr].
  - by eapply term_inv_reach; [exact Hi|by split|exact Hr].
Qed.

(** C14. An event stream, of routes or of TCP mappings, writes every change it
    receives, numbered from 0: what is written to the response are the events received
    whose write succeeded, in order.  What it has received is a gap-free prefix of the
    changes since it was opened, and so is what it has written as long as no write has
    failed; while the handler runs and the subscription is open, what it has received,
    what the dispatcher holds and what is buffered is all of them. *)
Theorem stream_shows_every_change ty s w s' sub y :
  wf_hub (hub_for ty s) -> WatchChanges ty s = (w, s') -> w_sub w = Some sub ->
  rtc (sys_step sub) (mkSystem (mkObs (hub_for ty s') [] []) w init_stream) y ->
  let st := sy_stream y in
  st_out st = numbered 0 (written st) /\
  received st `prefix_of` o_emitted (sy_obs y) /\
  (all_written st -> st_out st = numbered 0 (received st)) /\
  exists src, hub_sources (sy_hub y) !! sub = Some src /\
    (src_closed src = false -> st_done st = false ->
     received st ++ in_flight (w_disp (sy_watch y)) ++ src_events src = o_emitted (sy_obs y)).
Proof.
  intros Hwf Hw Hsub Hr st. destruct (watch_reachable _ _ _ _ _ _ Hwf Hw Hsub Hr) as (Hi & [Ho _] & _).
  split_and!; [done|by eapply sys_inv_prefix|intros Ha; by rewrite <- (written_all st Ha)|].
  destruct Hi as (_ & _ & (src & Hsrc & _ & Hall) & sk & Hrec & Hsk).
  exists src. split; [done|]. intros Hc Hd. rewrite <- (Hall Hc), Hrec, (Hsk Hd). simpl. by rewrite <- (assoc_L (++)).
Qed.

(** Whatever state the stream was in, the next event after its cancel function
    drops the subscription from the hub. *)
Lemma cancel_frees_subscription ty s w s' sub y e :
  wf_hub (hub_for ty s) -> WatchChanges ty s = (w, s') -> w_sub w = Some sub ->
  rtc (sys_step sub) (mkSystem (mkObs (hub_for ty s') [] []) w init_stream) y ->
  sub ∉ hub_subscribers (hub_Emit e (cancel (sy_watch y) (sy_hub y))).
Proof.
  intros Hwf Hw Hsub Hr. destruct (watch_reachable _ _ _ _ _ _ Hwf Hw Hsub Hr) as [(Hws & Hwf' & Hd & _) _].
  unfold cancel. rewrite Hws. by apply disconnect_unsubscribes.
Qed.

(** C29. Shutting down ends the streams.  The stopper closes both hubs: they
    take no new subscriber, and every subscriber keeps what is buffered for it.  A stream
    on a closed hub whose handler still runs and whose client stays connected ends,
    however its handler and its dispatcher take turns: it can make a bounded number of
    steps only, it goes on until both have returned, and by then it has received the
    event on its way and all that was buffered, and written those whose write succeeded.
    Nothing that others do to the closed hub changes it.  The events emitted so far must
    have one of the event types, as all those of the database have: an event without
    one would end the stream by itself. *)
Theorem shutdown_ends_streams ty (d : SqlDB S) s w s' sub y :
  wf_hub (httpEventHub d) -> wf_hub (tcpEventHub d) ->
  wf_hub (hub_for ty s) -> WatchChanges ty s = (w, s') -> w_sub w = Some sub ->
  rtc (sys_step sub) (mkSystem (mkObs (hub_for ty s') [] []) w init_stream) y ->
  Forall real_event (o_emitted (sy_obs y)) ->
  (hub_stopped (httpEventHub d) (httpEventHub (final (run_stop constructStopper d))) /\
   hub_stopped (tcpEventHub d) (tcpEventHub (final (run_stop constructStopper d)))) /\
  (hub_closed (sy_hub y) = true -> st_done (sy_stream y) = false ->
   (forall op, (exists e, op = OpEmit e) \/ op = OpSubscribe \/ op = OpHubClose -> o_hub (obs_step sub (sy_obs y) op) = sy_hub y) /\
   exists src, hub_sources (sy_hub y) !! sub = Some src /\
     let todo := received (sy_stream y) ++ in_flight (w_disp (sy_watch y)) ++ src_events src in
     forall k y', nsteps (run_step sub) k y y' ->
       (k <= 2 * length (src_events src) + 3)%nat /\
       ((exists y'', run_step sub y' y'') \/
        (st_done (sy_stream y') = true /\ w_disp (sy_watch y') = DDone /\ received (sy_stream y') = todo /\
         st_out (sy_stream y') = numbered 0 (written (sy_stream y')) /\
         (all_written (sy_stream y') -> st_out (sy_stream y') = numbered 0 todo)))).
Proof.
  intros Hh Ht Hwf Hw Hsub Hr Hreal. destruct (watch_reachable _ _ _ _ _ _ Hwf Hw Hsub Hr) as (Hi & _ & Hterm).
  split; [split; by apply hub_Close_stops|]. intros Hc Hnd.
  split; [intros op; apply closed_hub_still; [apply Hi|done]|]. pose proof Hi as (_ & _ & (src & Hsrc & _) & _).
  exists src. split; [done|]. intros todo k y' Hk. pose proof (closed_hub_draining sub y src Hi Hterm Hc Hnd Hreal Hsrc) as Hd.
  destruct (draining_runs _ _ _ _ _ _ Hd Hk) as (n' & Hn & Hd'). split.
  - unfold work in Hn. rewrite Hnd in Hn. destruct (w_disp (sy_watch y)); simpl in Hn; lia.
  - destruct (draining_ends _ _ _ _ Hd') as [?|(H1 & H2 & H3)]; [by left|]. right.
    assert (rtc (sys_step sub) (mkSystem (mkObs (hub_for ty s') [] []) w init_stream) y') as Hr'.
    { etrans; [exact Hr|]. apply (rtc_subrel (run_step sub)); [intros y1 y2; apply run_step_sys|by eapply rtc_nsteps_2]. }
    destruct (watch_reachable _ _ _ _ _ _ Hwf Hw Hsub Hr') as (_ & [Ho _] & _).
    split_and!; [done..|]. intros Ha. unfold todo. rewrite <- H3. by rewrite <- (written_all _ Ha).
Qed.
End Streams.

(** ** Evaluated on the sample server *)

Instance text_url_instance : NetUrl := fun u => inr u.

(** A validator that refuses every token for lack of the scope. *)
Definition deny_all : TokenValidator unit := {| uaa_ValidateToken _ scopes := fail (scope_error scopes) |}.

Definition sample_server : Server (SqlDB Mem) unit := mkServer sample_db tt 0 new_ResponseWriter.

Definition sample_globals : Globals := mkGlobals [7070] true.

Definition post (body : json) : Request := mkRequest ∅ (inr body) ∅ {["guid" := "rg-1"]}.

Definition sample_upsert : Request := post (JArr [json_of_Route (route_request "new.example.com")]).

Lemma sample_ok : fresh sample_server /\ db_inv (sv_db sample_server).
Proof. split; [reflexivity|]. unfold db_inv; simpl. unfold sql_inv, route_inv, tcp_inv, group_inv, keyed_inv. by_evaluation. Qed.

Lemma Routes_Upsert_answers_witness :
  exists u, Routes_Upsert 120 sample_upsert sample_server = Ok u (final (Routes_Upsert 120 sample_upsert sample_server)) /\
    responds (fun code v' =>
      upsert_answer 120 sample_upsert (view (sv_db sample_server)) code v' /\
      (code = StatusCreated -> forall rs, requested_routes 120 sample_upsert = Some rs ->
         (forall r, r ∈ rs -> is_Some (v_routes v' !! route_key r)) /\
         only_routes (route_key <$> rs) (view (sv_db sample_server)) v'))
      u (final (Routes_Upsert 120 sample_upsert sample_server)).
Proof.
  refine (wp_returns _ _ _ _ _ (Routes_Upsert_answers 120 sample_upsert sample_server (proj1 sample_ok) (proj2 sample_ok))).
  vm_compute. reflexivity.
Defined.

Definition sample_delete : Request :=
  post (JArr [json_of_Route (route_request "live.example.com"); json_of_Route (route_request "gone.example.com")]).

Lemma Routes_Delete_answers_witness :
  exists u, Routes_Delete sample_delete sample_server = Ok u (final (Routes_Delete sample_delete sample_server)) /\
    responds (fun code v' =>
      delete_answer sample_delete (view (sv_db sample_server)) code v' /\
      (code = StatusNoContent -> forall rs, Decode (dec_slice Unmarshal_Route) sample_delete = inr rs ->
         (forall r, r ∈ rs -> v_routes v' !! route_key r = None) /\
         only_routes (route_key <$> rs) (view (sv_db sample_server)) v'))
      u (final (Routes_Delete sample_delete sample_server)).
Proof.
  refine (wp_returns _ _ _ _ _ (Routes_Delete_answers sample_delete sample_server (proj1 sample_ok) (proj2 sample_ok))).
  vm_compute. reflexivity.
Defined.

Definition sample_tcp_upsert : Request := post (JArr [json_of_Tcp (tcp_request 1040); json_of_Tcp (tcp_request 1030)]).

Lemma Tcp_Upsert_answers_witness :
  exists u, Tcp_Upsert 120 sample_tcp_upsert sample_server = Ok u (final (Tcp_Upsert 120 sample_tcp_upsert sample_server)) /\
    responds (fun code v' =>
      tcp_upsert_answer 120 sample_tcp_upsert (view (sv_db sample_server)) code v' /\
      (code = StatusCreated -> forall ms, requested_tcp 120 sample_tcp_upsert = Some ms ->
         (forall m, m ∈ ms -> tcp_present m v') /\
         only_tcp (tcp_key <$> ms) (view (sv_db sample_server)) v'))
      u (final (Tcp_Upsert 120 sample_tcp_upsert sample_server)).
Proof.
  refine (wp_returns _ _ _ _ _ (Tcp_Upsert_answers 120 sample_tcp_upsert sample_server (proj1 sample_ok) (proj2 sample_ok))).
  vm_compute. reflexivity.
Defined.

Definition sample_create : Request :=
  post (json_of_RouterGroup (mkRouterGroup zero_Model "" "second-tcp" "tcp" "3000-3100")).

Lemma every_request_keeps_store_witness :
  exists u, apiHandler sample_globals 120 ACreateRouterGroup sample_create sample_server =
      Ok u (final (apiHandler sample_globals 120 ACreateRouterGroup sample_create sample_server)) /\
    responds (fun code v' =>
      (groups_ok sample_globals (view (sv_db sample_server)) -> groups_ok sample_globals v') /\
      v_locks v' = v_locks (view (sv_db sample_server)) /\
      (isWriteLocked (v_locks (view (sv_db sample_server))) = true -> v_groups v' = v_groups (view (sv_db sample_server))) /\
      (code ∈ [StatusUnauthorized; StatusBadRequest; StatusNotFound] -> v' = view (sv_db sample_server)))
      u (final (apiHandler sample_globals 120 ACreateRouterGroup sample_create sample_server)).
Proof.
  refine (wp_returns _ _ _ _ _ (every_request_keeps_store sample_globals 120 ACreateRouterGroup sample_create
    sample_server (proj1 sample_ok) (proj2 sample_ok))).
  vm_compute. reflexivity.
Defined.

Lemma refused_token_stops_request_witness :
  exists s', apiHandler (TokenValidator0:=deny_all) sample_globals 120 ACreateRouterGroup sample_create sample_server = Ok tt s' /\
    sv_db s' = sample_db /\ totalTokenErrors s' = 1 /\
    rw_status (sv_w s') = Some 401 /\ rw_body (sv_w s') = [unauthorized_body (scope_error [RouterGroupsWriteScope])].
Proof.
  apply (refused_token_stops_request (TokenValidator0:=deny_all) sample_globals 120 ACreateRouterGroup sample_create
    sample_server (scope_error [RouterGroupsWriteScope]) tt); reflexivity.
Defined.

Definition sample_update : Request :=
  post (json_of_RouterGroup (mkRouterGroup zero_Model "" "renamed" "http" "2000-2100")).

Lemma router_group_answers_witness :
  (exists u, CreateRouterGroup sample_globals sample_create sample_server =
      Ok u (final (CreateRouterGroup sample_globals sample_create sample_server)) /\
    responds (create_answer sample_globals sample_create (view (sv_db sample_server)))
      u (final (CreateRouterGroup sample_globals sample_create sample_server))) /\
  exists u, UpdateRouterGroup sample_globals sample_update sample_server =
      Ok u (final (UpdateRouterGroup sample_globals sample_update sample_server)) /\
    responds (update_answer sample_globals sample_update (view (sv_db sample_server)))
      u (final (UpdateRouterGroup sample_globals sample_update sample_server)).
Proof.
  split.
  - refine (wp_returns _ _ _ _ _ (proj1 (router_group_answers sample_globals sample_create sample_server
      (proj1 sample_ok) (proj2 sample_ok)))). vm_compute. reflexivity.
  - refine (wp_returns _ _ _ _ _ (proj1 (proj2 (router_group_answers sample_globals sample_update sample_server
      (proj1 sample_ok) (proj2 sample_ok))))). vm_compute. reflexivity.
Defined.

(** *** A stream on the sample database *)

Definition sample_watch : watch * SqlDB Mem := WatchChanges HTTP_WATCH sample_db.

Definition ev (host : string) : Event := route_event CreateEvent (Route_Entity (route_request host)).

Definition opened : system := mkSystem (mkObs (httpEventHub (snd sample_watch)) [] []) (fst sample_watch) init_stream.

(** One event emitted, dispatched and written. *)
Definition emitted : system :=
  mkSystem (obs_step 1 (sy_obs opened) (OpEmit (ev "a"))) (sy_watch opened) init_stream.
Definition dispatched : system :=
  mkSystem (obs_step 1 (sy_obs emitted) (OpNext 1)) (mkWatch (Some 1%nat) (DSend (ev "a")) []) init_stream.
Definition shown : system :=
  mkSystem (sy_obs dispatched) (mkWatch (Some 1%nat) DNext []) (on_event true (ev "a") init_stream).

Lemma dispatched_reachable : rtc (sys_step 1) opened dispatched.
Proof.
  eapply rtc_l; [apply (sys_emit 1 (sy_obs opened) (sy_watch opened) init_stream (ev "a"))|].
  eapply rtc_l; [|apply rtc_refl].
  eapply (sys_dispatch 1 (sy_obs emitted) (sy_watch opened) init_stream). vm_compute. reflexivity.
Qed.

Lemma shown_reachable : rtc (sys_step 1) opened shown.
Proof.
  eapply rtc_r; [apply dispatched_reachable|].
  eapply (sys_recv 1 _ _ _ true); [reflexivity|]. vm_compute. reflexivity.
Qed.

Lemma sample_hub_wf : wf_hub (httpEventHub sample_db).
Proof. apply wf_Subscribe, wf_NewNonBlocking. Qed.

Lemma stream_shows_every_change_witness :
  st_out (sy_stream shown) = numbered 0 [ev "a"] /\ received (sy_stream shown) `prefix_of` o_emitted (sy_obs shown).
Proof.
  destruct (stream_shows_every_change HTTP_WATCH sample_db (fst sample_watch) (snd sample_watch) 1 shown sample_hub_wf
    eq_refl eq_refl shown_reachable) as (_ & Hp & Ha & _).
  split; [|exact Hp]. refine (Ha _). repeat constructor.
Defined.

(** The event is dispatched, then the hub is closed. *)
Definition stopped : system := mkSystem (obs_step 1 (sy_obs dispatched) OpHubClose) (sy_watch dispatched) init_stream.

Lemma stopped_reachable : rtc (sys_step 1) opened stopped.
Proof. eapply rtc_r; [apply dispatched_reachable|]. apply sys_CancelWatches. Qed.

(** Received and written, then the end of the source, and the handler returns. *)
Definition drained : system :=
  let w := mkWatch (Some 1%nat) DDone [] in
  let st := on_event true (ev "a") init_stream in
  mkSystem (obs_step 1 (sy_obs stopped) (OpNext 1)) w (on_event true zero_Event st).

Lemma drained_run : nsteps (run_step 1) 3 stopped drained.
Proof.
  eapply nsteps_l; [eapply (run_recv 1 _ _ _ true); vm_compute; reflexivity|].
  eapply nsteps_l; [eapply (run_dispatch 1); vm_compute; reflexivity|].
  eapply nsteps_l; [eapply (run_recv 1 _ _ _ true); vm_compute; reflexivity|]. apply nsteps_O.
Qed.

Lemma shutdown_ends_streams_witness :
  (exists y'', run_step 1 drained y'') \/ st_out (sy_stream drained) = numbered 0 [ev "a"].
Proof.
  destruct (proj2 (shutdown_ends_streams HTTP_WATCH sample_db sample_db (fst sample_watch) (snd sample_watch) 1 stopped
    sample_hub_wf sample_hub_wf sample_hub_wf eq_refl eq_refl stopped_reachable ltac:(by_evaluation)) eq_refl eq_refl)
    as (_ & src & Hsrc & Hall).
  destruct (Hall 3%nat drained drained_run) as (_ & [Hgo|(_ & _ & _ & _ & Hout)]); [left; exact Hgo|right].
  rewrite Hout by (repeat constructor). vm_compute in Hsrc. injection Hsrc as <-. reflexivity.
Defined.

(** C32. A client that disconnects is forgotten: whatever state the stream was
    in, the next event after its cancel function drops the subscription from the
    hub.  But the dispatcher has no way out of a send: when the client disconnects
    while an event is on its way, the handler returns, and the dispatcher's
    goroutine can stay blocked on [events] for ever. *)
Theorem disconnect_effects {S} ty (s : SqlDB S) w s' sub y e :
  wf_hub (hub_for ty s) -> WatchChanges ty s = (w, s') -> w_sub w = Some sub ->
  rtc (sys_step sub) (mkSystem (mkObs (hub_for ty s') [] []) w init_stream) y ->
  sub ∉ hub_subscribers (hub_Emit e (cancel (sy_watch y) (sy_hub y))) /\
  exists y1 e1, rtc (sys_step 1) opened y1 /\ st_done (sy_stream y1) = true /\
    forall y2, rtc (sys_step 1) y1 y2 -> w_disp (sy_watch y2) = DSend e1.
Proof.
  intros Hwf Hw Hsub Hr. split; [by eapply cancel_frees_subscription|].
  exists (mkSystem (obs_step 1 (sy_obs dispatched) (OpSubClose 1)) (sy_watch dispatched) (on_close init_stream)), (ev "a").
  split; [|split; [done|]].
  - eapply rtc_r; [apply dispatched_reachable|]. by apply sys_disconnect.
  - intros y2. by apply blocked_forever.
Qed.

Lemma disconnect_effects_witness :
  1%nat ∉ hub_subscribers (hub_Emit (ev "b") (cancel (sy_watch shown) (sy_hub shown))).
Proof.
  apply (proj1 (disconnect_effects HTTP_WATCH sample_db (fst sample_watch) (snd sample_watch) 1 shown (ev "b") sample_hub_wf
    eq_refl eq_refl shown_reachable)).
Defined.
