(* ===== verification/ClientClaims.v ===== *)
(** ClientClaims: the properties of the Go client talking to the server: writes,
    reads, errors, reservations, subscriptions. *)
From Stdlib Require Import ZArith Lia.
From stdpp Require Import base option strings gmap list relations.
From S2P Require Import Prelude GoStrings Utf8 RouterGroups Routes Json JsonText Wire EventHub Store SqlDB SqlDBFacts.
From S2P Require Import SqlTcpFacts SqlGroupFacts Contract Validator Http Sse Handlers HandlerFacts GroupApi.
From S2P Require Import Watch Api Routing ApiClient Subscribe StreamClient EndToEnd ReadBack ErrorFlow Uaa Samples ApiClaims.

Local Open Scope string_scope.
Local Open Scope list_scope.
Local Open Scope Z_scope.

(** ** Requests *)
Section EndToEnd.
Context {D U : Type} `{!DB D, !Env D, !DBContract D, !TokenValidator U, !NetUrl}.
Context (gl : Globals) (maxTTL : Z).

#[local] Instance transport : HttpClient (Server D U) := loopback gl maxTTL.

(** C4. When a client's [UpsertRoutes] or [UpsertTcpRouteMappings] returns
    without an error, everything it was given is in the server's store; when
    [DeleteRoutes] or [DeleteTcpRouteMappings] does, no request finds any of it, and
    all of it is gone but for mappings without a TLS port: those whose TLS port is NULL
    in the database stay where they are.  With or without an error nothing else has
    changed, and the store keeps its invariant.  What is sent must fit its types and
    be valid UTF-8; other bytes would be replaced on the way. *)
Theorem client_writes_reach_store token routes ms (s : Server D U) :
  db_inv (sv_db s) -> Forall text_Route routes -> Forall text_Tcp ms ->
  let v := view (sv_db s) in
  wp (client_UpsertRoutes token routes) s
    (fun _ s' => db_inv (sv_db s') /\ all_present routes (view (sv_db s')) /\
                 only_routes (route_key <$> routes) v (view (sv_db s')))
    (fun e s' => e <> None /\ db_inv (sv_db s') /\ only_routes (route_key <$> routes) v (view (sv_db s'))) /\
  wp (client_DeleteRoutes token routes) s
    (fun _ s' => db_inv (sv_db s') /\ all_absent routes (view (sv_db s')) /\
                 only_routes (route_key <$> routes) v (view (sv_db s')))
    (fun e s' => e <> None /\ db_inv (sv_db s') /\ only_routes (route_key <$> routes) v (view (sv_db s'))) /\
  wp (client_UpsertTcpRouteMappings token ms) s
    (fun _ s' => db_inv (sv_db s') /\ all_tcp_present ms (view (sv_db s')) /\
                 only_tcp (tcp_key <$> ms) v (view (sv_db s')))
    (fun e s' => e <> None /\ db_inv (sv_db s') /\ only_tcp (tcp_key <$> ms) v (view (sv_db s'))) /\
  wp (client_DeleteTcpRouteMappings token ms) s
    (fun _ s' => db_inv (sv_db s') /\ all_tcp_absent ms v (view (sv_db s')) /\
                 only_tcp (tcp_key <$> ms) v (view (sv_db s')))
    (fun e s' => e <> None /\ db_inv (sv_db s') /\ only_tcp (tcp_key <$> ms) v (view (sv_db s'))).
Proof.
  intros Hi Hr Hm v. split_and!; [by apply client_UpsertRoutes_wp|by apply client_DeleteRoutes_wp
    |by apply client_UpsertTcp_wp|by apply client_DeleteTcp_wp].
Qed.

(** C12. The client's reads show the store and leave it alone: every route
    and TCP mapping listed is stored under its key with that content, a filtered
    listing has only mappings of the segments asked for, and the router groups
    listed are exactly those stored. *)
Theorem client_reads_show_store token segments (s : Server D U) :
  db_inv (sv_db s) -> utf8_view (view (sv_db s)) ->
  let v := view (sv_db s) in
  let kept (s' : Server D U) := db_inv (sv_db s') /\ view (sv_db s') = v in
  wp (client_Routes token) s
    (fun rs s' => (forall r, r ∈ rs -> exists exp, v_routes v !! route_key r = Some (Route_Entity r, exp)) /\ kept s')
    (fun e s' => e <> None /\ kept s') /\
  wp (client_FilteredTcpRouteMappings token segments) s
    (fun ms s' => (forall m, m ∈ ms -> (exists exp hidden, v_tcp v !! (tcp_key m, hidden) = Some (Tcp_Entity m, exp)) /\
                     (segments <> [] -> TM_IsolationSegment (Tcp_Entity m) ∈ segments)) /\ kept s')
    (fun e s' => e <> None /\ kept s') /\
  wp (client_RouterGroups token) s (fun gs s' => shows_groups gs v /\ kept s') (fun e s' => e <> None /\ kept s').
Proof.
  intros Hi Hu v kept. split_and!; [by apply client_Routes_wp|by apply client_Filtered_wp|by apply client_RouterGroups_wp].
Qed.

(** C15. Every error of the API reaches the caller of the client: a request
    answered below 300 succeeds, any other fails, and the client's error is the
    JSON error of the body (with bytes that are not UTF-8 replaced).  Two answers
    are not read: a 401 gives the error "unauthorized", and the 404 of deleting a
    router group has no body and gives an error without a message. *)
Theorem server_errors_reach_client cr a (s s' : Server D U) :
  action_of (cr_name cr) = Some a -> apiHandler gl maxTTL a (wire_request cr) (new_request s) = Ok tt s' ->
  let code := default StatusOK (rw_status (sv_w s')) in
  if code <=? 299 then do_ cr s = Ok tt s'
  else exists err, do_ cr s = Fail err s' /\ client_error a code (rw_body (sv_w s')) err.
Proof. apply do_outcome. Qed.

(** C36. [ReservePort], for a group name that is not empty and is UTF-8, against
    a server whose stored text is UTF-8.  With 65536 rounds for each port loop it
    has ended, unless a stored router group holds port 65535.  When it returns a
    port, the range given is a single one, that port is the lowest of it that no
    stored group holds, and the group of that name now has it as its ports (or was
    created with it, or exists and was left alone when its lookup failed).  When
    it returns an error, the store is as before.  But when any group, in any of
    its ranges, holds 65535, and the ports of all the groups parse, it never
    returns a port: the 16-bit counter wraps to 0, and no number of rounds is
    enough, unless an error stops it before. *)
Theorem ReservePort_reserves_lowest token name portRange (s : Server D U) :
  db_inv (sv_db s) -> utf8_view (view (sv_db s)) -> name <> "" -> valid_utf8 name = true ->
  let v := view (sv_db s) in
  (forall fuel, (port_fuel <= fuel)%nat ->
     wp (ReservePort token fuel name portRange) s
       (fun res s' => match res with
          | Some p => exists r, Parse portRange = inr [r] /\ in_range p r /\ ~ holds v p /\
              (forall q, in_range q r -> q < p -> holds v q) /\
              db_inv (sv_db s') /\ reserved name (Itoa p) v (view (sv_db s'))
          | None => holds v 65535 /\ view (sv_db s') = v
          end)
       (fun e s' => e <> None /\ view (sv_db s') = v)) /\
  (all_parse v -> holds v 65535 -> forall fuel,
     wp (ReservePort token fuel name portRange) s (fun res s' => res = None /\ view (sv_db s') = v)
       (fun e s' => e <> None /\ view (sv_db s') = v)).
Proof.
  intros H1 H2 H3 H4 v. split; [intros fuel Hf; by apply client_ReservePort_wp|].
  intros Hp Hh fuel. by apply client_ReservePort_endless.
Qed.
End EndToEnd.

(** *** Evaluated on the sample server *)

(** One new route and one that is stored, over the wire. *)
Definition sample_routes : list Route := [route_request "new.example.com"; route_request "live.example.com"].

Definition sample_mappings : list TcpRouteMapping := [tcp_request 1040; tcp_request 1030].

Definition sample_transport : HttpClient (Server (SqlDB Mem) unit) := transport sample_globals 120.

Lemma client_writes_reach_store_witness :
  let m := client_UpsertRoutes (HttpClient0:=sample_transport) "token" sample_routes in
  exists u, m sample_server = Ok u (final (m sample_server)) /\
    db_inv (sv_db (final (m sample_server))) /\ all_present sample_routes (view (sv_db (final (m sample_server)))) /\
    only_routes (route_key <$> sample_routes) (view (sv_db sample_server)) (view (sv_db (final (m sample_server)))).
Proof.
  refine (wp_returns _ _ _ _ _ (proj1 (client_writes_reach_store sample_globals 120 "token" sample_routes sample_mappings
    sample_server (proj2 sample_ok) _ _))); [vm_compute; reflexivity|by_evaluation..].
Defined.

(** What the sample database holds can cross the wire. *)
Lemma sample_utf8 : utf8_view (view (sv_db sample_server)).
Proof. split_and!; intros k x Hk; revert k x Hk; apply map_Forall_lookup; by_evaluation. Qed.

Lemma client_reads_show_store_witness :
  let m := client_RouterGroups (HttpClient0:=sample_transport) "token" in
  exists gs, m sample_server = Ok gs (final (m sample_server)) /\
    shows_groups gs (view (sv_db sample_server)) /\ db_inv (sv_db (final (m sample_server))) /\
    view (sv_db (final (m sample_server))) = view (sv_db sample_server).
Proof.
  refine (wp_returns _ _ _ _ _ (proj2 (proj2 (client_reads_show_store sample_globals 120 "token" ["a"]
    sample_server (proj2 sample_ok) sample_utf8)))). vm_compute. reflexivity.
Defined.

(** A group without a type is refused. *)
Definition sample_refused : ClientRequest :=
  createRequest "token" "CreateRouterGroup" [] [] (Some (json_of_RouterGroup (mkRouterGroup zero_Model "" "g" "" "3000"))).

Definition refused_server : Server (SqlDB Mem) unit :=
  final (apiHandler sample_globals 120 ACreateRouterGroup (wire_request sample_refused) (new_request sample_server)).

Lemma server_errors_reach_client_witness :
  rw_status (sv_w refused_server) = Some StatusBadRequest /\
  exists err, do_ (HttpClient0:=sample_transport) sample_refused sample_server = Fail err refused_server /\
    client_error ACreateRouterGroup StatusBadRequest (rw_body (sv_w refused_server)) err.
Proof.
  split; [vm_compute; reflexivity|].
  apply (server_errors_reach_client sample_globals 120 sample_refused ACreateRouterGroup sample_server refused_server);
    vm_compute; reflexivity.
Defined.

Lemma ReservePort_reserves_lowest_witness :
  let m := ReservePort (HttpClient0:=sample_transport) "token" port_fuel "default-tcp" "1100-1200" in
  let v := view (sv_db sample_server) in
  m sample_server = Ok (Some 1124) (final (m sample_server)) /\
  exists r, Parse "1100-1200" = inr [r] /\ in_range 1124 r /\ ~ holds v 1124 /\
    (forall q, in_range q r -> q < 1124 -> holds v q) /\
    db_inv (sv_db (final (m sample_server))) /\
    reserved "default-tcp" "1124" v (view (sv_db (final (m sample_server)))).
Proof.
  cbv zeta. pose proof (proj1 (ReservePort_reserves_lowest sample_globals 120 "token" "default-tcp" "1100-1200"
    sample_server (proj2 sample_ok) sample_utf8 ltac:(discriminate) ltac:(vm_compute; reflexivity))
    port_fuel ltac:(reflexivity)) as H.
  assert (ReservePort (HttpClient0:=sample_transport) "token" port_fuel "default-tcp" "1100-1200" sample_server =
    Ok (Some 1124) (final (ReservePort (HttpClient0:=sample_transport) "token" port_fuel "default-tcp" "1100-1200" sample_server)))
    as E by (vm_compute; reflexivity).
  split; [exact E|]. unfold wp in H. unfold sample_transport in *. rewrite E in H. exact H.
Defined.

(** ** Routing *)

(** C25. Whatever the order in which the routes are registered (it is the
    order of a Go map), the path that the client builds for a route reaches the
    handler of that route and no other, and the guid in the path arrives
    unchanged. *)
Theorem requests_reach_their_handler {UrlText0 : UrlText} {UrlLaws0 : UrlLaws} routes r guid :
  routes ≡ₚ RoutesMap -> r ∈ RoutesMap -> plain guid = true -> guid <> "" ->
  exists mux path params, NewRouter routes api_actions = inr mux /\ CreatePath r [("guid", guid)] = inr path /\
    ServeHTTP mux (Route_Method r) path = Handle (ph_of r) params /\
    (Route_Name r = "UpdateRouterGroup" \/ Route_Name r = "DeleteRouterGroup" -> rata_Param params "guid" = guid).
Proof.
  intros Hp Hr Hg Hne. destruct (route_reached routes r guid Hp Hr Hg Hne) as (mux & path & H1 & H2 & H3).
  exists mux, path, (route_params r guid). split_and!; [done..|]. intros [Hn|Hn]; unfold route_params; by rewrite Hn.
Qed.

Definition text_url : UrlText := inr.

Lemma text_url_laws : UrlLaws (UrlText0:=text_url).
Proof. by split. Qed.

Lemma requests_reach_their_handler_witness :
  exists mux path params, NewRouter (rev RoutesMap) api_actions = inr mux /\
    CreatePath (UrlText0:=text_url) (mkRataRoute "DeleteRouterGroup" "DELETE" "/routing/v1/router_groups/:guid") [("guid", "rg-1")] = inr path /\
    ServeHTTP mux "DELETE" path = Handle (mkPatHandler "DELETE" "/routing/v1/router_groups/:guid" "DeleteRouterGroup" false) params /\
    ("DeleteRouterGroup" = "UpdateRouterGroup" \/ "DeleteRouterGroup" = "DeleteRouterGroup" -> rata_Param params "guid" = "rg-1").
Proof.
  apply (requests_reach_their_handler (UrlText0:=text_url) (UrlLaws0:=text_url_laws) (rev RoutesMap)
    (mkRataRoute "DeleteRouterGroup" "DELETE" "/routing/v1/router_groups/:guid") "rg-1");
    [symmetry; apply Permutation.Permutation_rev|apply list_elem_of_In; vm_compute; tauto|vm_compute; reflexivity|discriminate].
Defined.

(** ** Subscriptions *)
Section Subscriber.
Context {S : Type}.

(** An event whose value is a route that can cross the wire. *)
Definition carries_route (e : Event) : Prop := exists r, Event_Value e = json_of_Route r /\ text_Route r.

Lemma carried_routes es : Forall carries_route es -> exists rs, route_events es rs.
Proof.
  induction 1 as [|e es [r Hr] _ [rs IH]]; [exists []; constructor|]. exists (r :: rs). by constructor.
Qed.

(** An event whose value is a TCP mapping that can cross the wire. *)
Definition carries_tcp (e : Event) : Prop := exists m, Event_Value e = json_of_Tcp m /\ text_Tcp m.

Lemma carried_tcp es : Forall carries_tcp es -> exists ms, tcp_events es ms.
Proof.
  induction 1 as [|e es [m Hm] _ [ms IH]]; [exists []; constructor|]. exists (m :: ms). by constructor.
Qed.

Lemma Forall_sublist (P : Event -> Prop) (es es' : list Event) : es `sublist_of` es' -> Forall P es' -> Forall P es.
Proof. intros Hs. rewrite !Forall_forall. intros H e He. apply H. by eapply elem_of_sublist. Qed.

(** What reading the text of a response gives. *)
Definition reads_as {A} (next : source_next -> option A) (out : list sse_event) (shown : list A) : Prop :=
  forall {W} `{!StreamEnv W} name authorization fuel en retries (net : W),
    next <$> fst (fst (source_NextN name authorization (Datatypes.S fuel) (length out) (connected out en retries) net)) =
    Some <$> shown.

(** C13. A subscriber sees the changes: the events a stream has written are,
    in order, events emitted since it was opened, numbered from 0 without gaps,
    and a client that reads the text of the response gets from each call of
    [Next] the route and the action of the next one, or on a TCP stream the
    mapping and the action. *)
Theorem subscriber_sees_stream ty (s : SqlDB S) w s' sub y :
  wf_hub (hub_for ty s) -> WatchChanges ty s = (w, s') -> w_sub w = Some sub ->
  rtc (sys_step sub) (mkSystem (mkObs (hub_for ty s') [] []) w init_stream) y ->
  exists written, written `sublist_of` o_emitted (sy_obs y) /\ st_out (sy_stream y) = numbered 0 written /\
    (Forall carries_route (o_emitted (sy_obs y)) -> exists routes, route_events written routes /\
       reads_as client_Next (st_out (sy_stream y)) (zip_with seen_by_client written routes)) /\
    (Forall carries_tcp (o_emitted (sy_obs y)) -> exists mappings, tcp_events written mappings /\
       reads_as client_TcpNext (st_out (sy_stream y)) (zip_with seen_by_tcp_client written mappings)).
Proof.
  intros Hwf Hw Hsub Hr. destruct (watch_reachable _ _ _ _ _ _ Hwf Hw Hsub Hr) as (Hi & [Ho _] & _).
  set (ws := Watch.written (sy_stream y)) in *. assert (ws `sublist_of` o_emitted (sy_obs y)) as Hsl.
  { destruct (sys_inv_prefix _ _ Hi) as [k ->]. apply sublist_inserts_r, written_received. }
  exists ws. split_and!; [done..| |]; intros Hc.
  - destruct (carried_routes ws) as [rs Hrs]; [by eapply Forall_sublist|]. exists rs. split; [done|].
    intros W ? name auth fuel en retries net. rewrite Ho, source_reads_numbered by (by eapply route_events_readable).
    by apply client_sees_routes.
  - destruct (carried_tcp ws) as [ms Hms]; [by eapply Forall_sublist|]. exists ms. split; [done|].
    intros W ? name auth fuel en retries net. rewrite Ho, source_reads_numbered by (by eapply tcp_events_readable).
    by apply client_sees_tcp.
Qed.
End Subscriber.

Lemma sample_carried : Forall carries_route (o_emitted (sy_obs shown)).
Proof. repeat constructor. exists (route_request "a"). split; [reflexivity|by_evaluation]. Qed.

Lemma subscriber_sees_stream_witness :
  exists written routes, st_out (sy_stream shown) = numbered 0 written /\ route_events written routes /\
    reads_as client_Next (st_out (sy_stream shown)) (zip_with seen_by_client written routes).
Proof.
  destruct (subscriber_sees_stream HTTP_WATCH sample_db (fst sample_watch) (snd sample_watch) 1 shown sample_hub_wf
    eq_refl eq_refl shown_reachable) as (written & _ & Ho & Hroutes & _).
  destruct (Hroutes sample_carried) as (routes & Hr & Hread).
  exists written, routes. exact (conj Ho (conj Hr Hread)).
Defined.

Section Retrying.
Context {W : Type} `{!StreamEnv W}.

(** What the caller gets from a connection that is still trying, or given up. *)
Lemma doSubscribe_trying token routeName retries fuel w :
  let req := mkStreamRequest routeName ("bearer " +:+ token) None in
  still_trying req Second fuel w
    (establishConnection routeName ("bearer " +:+ token) fuel 0 (createEventSource Second retries) w) ->
  doSubscribe token fuel routeName retries w = (None, retry_rounds req Second fuel w).
Proof.
  intros req. unfold still_trying, doSubscribe, Connect. cbv zeta.
  destruct (establishConnection _ _ _ _ _ _) as [[r es] w']. simpl. by intros [-> ->].
Qed.

Lemma doSubscribe_given_up token routeName retries fuel n w :
  let req := mkStreamRequest routeName ("bearer " +:+ token) None in
  given_up req Second n w
    (establishConnection routeName ("bearer " +:+ token) fuel 0 (createEventSource Second retries) w) ->
  exists err w', stream_Do req (retry_rounds req Second n w) = (inl err, w') /\
    doSubscribe token fuel routeName retries w = (Some (inl (StreamErr err)), w').
Proof.
  intros req. unfold given_up, doSubscribe, Connect. cbv zeta.
  destruct (establishConnection _ _ _ _ _ _) as [[r es] w']. simpl. intros (err & -> & Hd). by exists err, w'.
Qed.

(** C37. How long a subscription tries.  When the server cannot be reached, the
    same request is sent once and then exactly the number of times asked for, each
    after a wait of a second, and the error of the last attempt is returned with
    nothing sent after it; for 0 and 65535 retries the requests and waits go on
    for ever.  When the server answers 500, 502, 503 or 504 they go on for ever
    whatever the number. *)
Theorem subscription_retries token routeName retries fuel (I J : W -> Prop) (w1 w2 : W) :
  let req := mkStreamRequest routeName ("bearer " +:+ token) None in
  is_u16 retries ->
  adverse I unreachable -> I w1 -> adverse J unavailable -> J w2 ->
  (if decide (retries <> 0 /\ retries <> 65535 /\ (Z.to_nat retries < fuel)%nat)
   then exists err w', stream_Do req (retry_rounds req Second (Z.to_nat retries) w1) = (inl err, w') /\
          doSubscribe token fuel routeName retries w1 = (Some (inl (StreamErr err)), w')
   else doSubscribe token fuel routeName retries w1 = (None, retry_rounds req Second fuel w1)) /\
  doSubscribe token fuel routeName retries w2 = (None, retry_rounds req Second fuel w2).
Proof.
  intros req Hu HI Hw1 HJ Hw2. unfold is_u16 in Hu. set (auth := "bearer " +:+ token) in *.
  split; [|by apply doSubscribe_trying, (establish_unavailable routeName auth J)].
  destruct (decide (retries = 0 \/ retries = 65535)) as [Hr|Hr].
  - rewrite decide_False by lia. by apply doSubscribe_trying, (establish_unreachable_forever routeName auth I).
  - pose proof (establish_unreachable routeName auth I fuel 0 (createEventSource Second retries) w1 HI Hw1 eq_refl
      ltac:(simpl; lia) ltac:(simpl; lia)) as H.
    cbn [maxRetries createEventSource] in H. rewrite Z.sub_0_r in H. case_decide.
    + rewrite decide_True by lia. by apply doSubscribe_given_up.
    + rewrite decide_False by lia. by apply doSubscribe_trying.
Qed.
End Retrying.

(** A network that is down, or a server that is: the world says which, and counts
    the requests and the waits. *)
Definition failing_net : StreamEnv (bool * (nat * nat)) := {|
  stream_Do := fun _ (w : bool * (nat * nat)) =>
    (if fst w then inl (ext_error "connection refused") else inr (mkStreamResponse 503 "" None),
     (fst w, (S (fst (snd w)), snd (snd w))));
  stream_wait := fun _ (w : bool * (nat * nat)) => (false, (fst w, (fst (snd w), S (snd (snd w)))))
|}.

(** Three retries: four requests and three waits. *)
Lemma subscription_retries_witness :
  (exists err, doSubscribe (StreamEnv0:=failing_net) "token" 5 "EventStream" 3 (true, (0, 0)%nat) =
    (Some (inl (StreamErr err)), (true, (4, 3)%nat))) /\
  doSubscribe (StreamEnv0:=failing_net) "token" 5 "EventStream" 3 (false, (0, 0)%nat) = (None, (false, (5, 5)%nat)).
Proof.
  destruct (subscription_retries (StreamEnv0:=failing_net) "token" "EventStream" 3 5 (fun w => fst w = true)
    (fun w => fst w = false) (true, (0, 0)%nat) (false, (0, 0)%nat)) as [H1 H2]; [by_evaluation| |reflexivity| |reflexivity|].
  1,2: split; [intros req [b [m n]] E|intros d [b [m n]] E]; simpl in E; subst b; simpl; split; eauto;
    eexists; split; reflexivity.
  split; [|exact H2]. rewrite decide_True in H1 by (vm_compute; split_and!; done || lia).
  destruct H1 as (err & w' & E & H). exists err. vm_compute in E. injection E as _ <-. exact H.
Defined.
