(* ===== verification/ServerClaims.v ===== *)
(** ServerClaims: the properties of the metrics, the migrations, the token
    validator, the search for a free port, the configuration, the process group
    with its lock, and the trace output. *)
From Stdlib Require Import ZArith Lia.
From stdpp Require Import base option strings gmap list relations.
From S2P Require Import Prelude GoStrings RouterGroups Routes Json EventHub Store Keyed SqlDB SqlDBFacts.
From S2P Require Import SqlTcpFacts Prune Contract Http Sse ApiClient Metrics Config Uaa Migration Samples.
From S2P Require Import JsonText Main Process Lock Trace TraceFacts Connect Startup.

Local Open Scope string_scope.
Local Open Scope list_scope.
Local Open Scope Z_scope.

(** ** Metrics *)
Section Gauges.
Context {S : Type} `{!Env S, !SqlClient S, !SqlLaws S} {D : Type} `{!DB D}.

(** C38. The reporter keeps the route gauge true between two ticks: after
    any sequence of saves, deletes and pruning passes, some of which may
    fail, the events that reached the HTTP hub, counted the way the reporter
    does, carry a gauge that held the number of rows before to the number of
    rows after. *)
Theorem route_gauge_follows_table (ops : list route_op) (s : SqlDB S) (r : Reporter D) v :
  route_inv s -> Forall route_op_ok ops ->
  gauge_value TotalHttpRoutes (rp_sent r) v = http_count s ->
  wp (for_each ops (fun o => _ ← run_route_op o; mret tt)) s
    (fun _ s' => exists evs, httpEventHub s' = emits evs (httpEventHub s) /\
       gauge_value TotalHttpRoutes (rp_sent (final (reporter_loop (OnHttpEvent <$> evs) r))) v = http_count s')
    (fun _ _ => False).
Proof.
  intros Hi Hok Hv. eapply wp_mono; [by apply (run_all_tracked _ _ _ _ _ _ _ run_route_op_tracked)| |done].
  intros [] s' (_ & evs & Hh & Hc). exists evs. split; [done|]. by rewrite reporter_http_gauge, Hv.
Qed.

Lemma tcp_gauge_follows_table (ops : list tcp_op) (s : SqlDB S) (r : Reporter D) v :
  tcp_inv s -> Forall tcp_op_ok ops ->
  gauge_value TotalTcpRoutes (rp_sent r) v = tcp_count s ->
  wp (for_each ops (fun o => _ ← run_tcp_op o; mret tt)) s
    (fun _ s' => exists evs, tcpEventHub s' = emits evs (tcpEventHub s) /\
       gauge_value TotalTcpRoutes (rp_sent (final (reporter_loop (OnTcpEvent <$> evs) r))) v = tcp_count s')
    (fun _ _ => False).
Proof.
  intros Hi Hok Hv. eapply wp_mono; [by apply (run_all_tracked _ _ _ _ _ _ _ run_tcp_op_tracked)| |done].
  intros [] s' (_ & evs & Hh & Hc). exists evs. split; [done|]. by rewrite reporter_tcp_gauge, Hv.
Qed.
End Gauges.

(** A save, a failing delete, a pruning pass and a delete on the sample
    database, which has two routes. *)
Definition sample_ops : list route_op :=
  [RSave (route_request "new.example.com"); RDelete (route_request "absent.example.com"); RPrune;
   RDelete (route_request "live.example.com")].

Definition sample_reporter : Reporter (SqlDB Mem) := mkReporter sample_db 0 0 [Gauge TotalHttpRoutes 2].

Lemma route_gauge_follows_table_witness :
  let m := for_each sample_ops (fun o => _ ← run_route_op o; mret tt) in
  exists u, m sample_db = Ok u (final (m sample_db)) /\
    exists evs, httpEventHub (final (m sample_db)) = emits evs (httpEventHub sample_db) /\
      gauge_value TotalHttpRoutes (rp_sent (final (reporter_loop (OnHttpEvent <$> evs) sample_reporter))) 0 =
      http_count (final (m sample_db)).
Proof.
  refine (wp_returns _ _ _ _ _ (route_gauge_follows_table sample_ops sample_db sample_reporter 0 _ _ _)).
  - vm_compute. reflexivity.
  - unfold route_inv, keyed_inv. by_evaluation.
  - repeat constructor. simpl. discriminate.
  - vm_compute. reflexivity.
Defined.

Lemma sample_ops_leave_one : http_count (final (for_each sample_ops (fun o => _ ← run_route_op o; mret tt) sample_db)) = 1.
Proof. vm_compute. reflexivity. Qed.

(** ** Migrations *)
Section Migrations.
Context {S : Type} `{!MigClient S, !MigLaws S}.

(** Whatever the client: running the migrations ends at version 11, or at
    the version the database already had if that is higher.  When a step
    fails, the error is reported and the recorded version never goes back: it
    is the one before the run or that of one of the migrations. *)
Lemma RunMigrations_reaches_latest (s : S) :
  wp (RunMigrations InitializeMigrations) s
    (fun _ s' => stored_version s' = Z.max (stored_version s) 11)
    (fun e s' => e <> None /\ stored_version s <= stored_version s' /\
       (stored_version s' = stored_version s \/ stored_version s' ∈ [0; 2; 3; 4; 5; 6; 7; 8; 9; 10; 11])).
Proof.
  apply (RunMigrations_wp InitializeMigrations V11EnableBackendMTLS s InitializeMigrations_ascending
           quiet_InitializeMigrations); simpl; [done|lia].
Qed.

(** At the latest version nothing is migrated: the run does the same
    whatever the migrations are, as long as the last one has that version. *)
Theorem latest_version_runs_nothing (ms : list (Migration S)) m (s : S) :
  last ms = Some m -> Version m = 11 -> 11 <= stored_version s ->
  RunMigrations InitializeMigrations s = RunMigrations ms s.
Proof.
  intros Hl Hv Hs. by apply (RunMigrations_latest _ _ V11EnableBackendMTLS m).
Qed.
End Migrations.

Definition sample_mig (dialect : string) (version : option Z) (failing : list string) : MemMig :=
  mkMemMig dialect ((fun v => mkMigrationData MigrationKey v 11) <$> version) None [] [] failing.

(** From nothing on MySQL. *)
Lemma RunMigrations_reaches_latest_witness :
  let m := RunMigrations InitializeMigrations in
  exists u, m (sample_mig "mysql" None []) = Ok u (final (m (sample_mig "mysql" None []))) /\
    stored_version (final (m (sample_mig "mysql" None []))) = Z.max (stored_version (sample_mig "mysql" None [])) 11.
Proof.
  refine (wp_returns _ _ _ _ _ (RunMigrations_reaches_latest (sample_mig "mysql" None []))).
  vm_compute. reflexivity.
Defined.

(** From version 3 on PostgreSQL, with V5 failing. *)
Lemma migrations_stop_at_failure :
  stored_version (final (RunMigrations InitializeMigrations
    (sample_mig "postgres" (Some 3)
       ["CREATE UNIQUE INDEX idx_tcp_route ON tcp_routes (router_group_guid, host_port, host_ip, external_port, sni_hostname)"]))) = 4.
Proof. vm_compute. reflexivity. Qed.

Lemma latest_version_runs_nothing_witness :
  RunMigrations InitializeMigrations (sample_mig "mysql" (Some 11) []) =
  RunMigrations [mkMigration 11 (panic "never run")] (sample_mig "mysql" (Some 11) []).
Proof.
  apply (latest_version_runs_nothing [mkMigration 11 (panic "never run")] (mkMigration 11 (panic "never run"))
           (sample_mig "mysql" (Some 11) [])); vm_compute; congruence.
Defined.

(** ** Token validation *)
Section Tokens.
Context {U : Type} `{!UaaServer U, !Jwt, !JwtLaws} (issuer : string).

(** C26. A token is accepted only if the header is of the form
    "bearer <jwt>", the JWT was signed with RS256, RS384 or RS512 for the
    configured issuer, the JWT library accepted it under the key now cached
    (or complained about its issue time and not its signature), and it
    holds one of the desired scopes. *)
Theorem ValidateToken_accepts_only uaaToken desired (v v' : tokenValidator (U:=U)) :
  ValidateToken_ issuer uaaToken desired v = Ok tt v' ->
  exists jwtToken header token scopes,
    checkTokenFormat uaaToken = inr jwtToken /\
    jwt_header jwtToken = Some header /\ th_alg header ∈ ["RS256"; "RS384"; "RS512"] /\
    th_iss header = Some issuer /\
    accepted_by issuer jwtToken (uaaPublicKey v') token /\
    tok_scopes token = Some scopes /\ exists p, p ∈ scopes /\ p ∈ desired.
Proof.
  intros (jwtToken & token & scopes & Hf & Ha & Hs & Hp)%ValidateToken_sound.
  destruct (accepted_header _ _ _ _ Ha) as (h & Hh & Hm & Hi).
  exists jwtToken, h, token, scopes. split_and!; try done.
  - by apply bool_decide_eq_true in Hm.
  - by apply bool_decide_eq_true in Hi.
Qed.
End Tokens.

(** A JWT library that knows one token, and a UAA with one key. *)
Definition toy_header (t : string) : option TokenHeader :=
  if bool_decide (t = "jwt") then Some (mkHeader "RS256" (Some "https://uaa")) else None.

#[export] Instance toy_Jwt : Jwt := {|
  jwt_Parse t kf :=
    match toy_header t with
    | None => (mkToken None, Some (validation_error 1 "token is malformed"))
    | Some h =>
        match kf h with
        | inl e => (mkToken None, Some (validation_error 2 (Error_string e)))
        | inr key =>
            if bool_decide (key = "PEM new") then (mkToken (Some ["routing.routes.read"]), None)
            else (mkToken None, Some (validation_error 4 "crypto/rsa: verification error"))
        end
    end;
  jwt_ParseRSAPublicKeyFromPEM _ := None;
  pem_Decode key := bool_decide (key <> "")
|}.

#[export] Program Instance toy_JwtLaws : JwtLaws := {| jwt_header := toy_header |}.
Next Obligation. intros t kf H. exists "token is malformed". simpl. by rewrite H. Qed.
Next Obligation. intros t kf h e H1 H2. exists (Error_string e). simpl. by rewrite H1, H2. Qed.

#[export] Instance toy_UaaServer : UaaServer unit := {| uaa_TokenKey u := (inr "PEM new", u) |}.

(** The cached key is stale; the second round fetches the new one. *)
Lemma ValidateToken_accepts_only_witness :
  exists jwtToken header token scopes,
    checkTokenFormat "Bearer jwt" = inr jwtToken /\
    jwt_header jwtToken = Some header /\ th_alg header ∈ ["RS256"; "RS384"; "RS512"] /\
    th_iss header = Some "https://uaa" /\
    accepted_by "https://uaa" jwtToken "PEM new" token /\
    tok_scopes token = Some scopes /\ exists p, p ∈ scopes /\ p ∈ ["routing.routes.read"; "routing.routes.write"].
Proof.
  apply (ValidateToken_accepts_only "https://uaa" "Bearer jwt" ["routing.routes.read"; "routing.routes.write"]
           (mkTV tt "PEM old") (mkTV tt "PEM new")).
  vm_compute. reflexivity.
Defined.

(** ** Reserving a port *)

Definition tcp_group (ports : string) : RouterGroup := mkRouterGroup zero_Model "rg" "tcp" "tcp" ports.

Lemma getNextAvailablePort_sample :
  getNextAvailablePort 8 [tcp_group "1024-1026"] (mkRange 1024 1030) = Some (inr "1027").
Proof. vm_compute. reflexivity. Qed.

(** A range up to 65535 makes the search run for ever, also as the second range
    of the second group. *)
Lemma getNextAvailablePort_wraps fuel :
  getNextAvailablePort fuel [tcp_group "1024"; tcp_group "2000-2001,64000-65535"] (mkRange 1024 1030) = None.
Proof.
  apply getNextAvailablePort_diverges.
  - repeat constructor; eexists; vm_compute; reflexivity.
  - exists (tcp_group "2000-2001,64000-65535"), [mkRange 2000 2001; mkRange 64000 65535], (mkRange 64000 65535).
    split_and!; [set_solver|vm_compute; reflexivity|set_solver|unfold in_range; simpl; lia].
Qed.

(** ** Configuration *)

(** C39. Loading a configuration succeeds exactly for the acceptable ones
    (required fields, ports of at least 1, valid router groups, durations that
    parse), never panics, and gives a configuration in which every default is
    filled in and the package variables of models agree with it. *)
Theorem NewConfigFromBytes_exact ParseDuration (c : Config) authDisabled gl :
  match NewConfigFromBytes ParseDuration (inr c) authDisabled gl with
  | Ok cfg gl' => acceptable ParseDuration authDisabled c /\ good_config authDisabled gl' cfg
  | Fail _ _ => ~ acceptable ParseDuration authDisabled c
  | Panic _ _ => False
  end.
Proof. apply NewConfigFromBytes_spec. Qed.

Definition sample_config : Config :=
  mkConfig (mkAPIConfig 3000 true 3001 "ca.pem" "cert.pem" "key.pem") 9999 "" "guid" "localhost" "3457" 0 "example.com"
    "30s" 0 "localhost:8125" "10ms" 0
    (mkOAuth "uaa.example.com" 8443 false "client" "secret" "")
    [tcp_group "1024-1123"] [8080] true
    (mkSqlConfig "db" 3306 "routing_api" "mysql" "root" "pw" "" false false 10 200 3600)
    "localhost:8891" "uuid" false 0 0 "".

Lemma sample_config_loads :
  let r := NewConfigFromBytes (fun _ => inr Second) (inr sample_config) false (mkGlobals [] false) in
  panics r = false /\ exists cfg, r = Ok cfg (mkGlobals [8080] true) /\ C_MaxTTL cfg = 120 * Second.
Proof. split; [vm_compute; reflexivity|]. eexists. split; vm_compute; reflexivity. Qed.

(** ** Start-up *)
Section Startup.
Context {W S U : Type} `{!StartEnv W U, !OpenEnv W S, !UaaServer U, !Jwt}.
Context (yaml_Unmarshal : string -> error + Config) (ParseDuration : string -> error + Z).

(** C27. When start-up gets as far as running the processes, the configuration
    is a valid one with its defaults, the database is a new MySQL or PostgreSQL
    one with two new, open hubs of 1024 slots and its locks free, authentication is
    off exactly in development mode and otherwise has a PEM key, and the server's
    own route is registered again before half its lifetime is over.  Start-up
    panics exactly when the configuration was loaded and, in this order and in
    the worlds this very run goes through: the metrics interval is not positive;
    or locket refuses its client; or the API over HTTP is on and half the maximum
    TTL is not a positive number of seconds; or the server's TLS files cannot be
    loaded.  Every other failure is an error and exit status 1. *)
Theorem startup_guarantees configPath ip devMode (p : Process W) :
  let run := setup (S:=S) yaml_Unmarshal ParseDuration configPath ip devMode p in
  (forall a p', run = Ok a p' ->
     good_config devMode (pr_globals p') (as_config a) /\ assembled_ok devMode (as_config a) a) /\
  (forall msg p', run = Panic msg p' <-> setup_panic (S:=S) yaml_Unmarshal ParseDuration configPath ip devMode p msg p').
Proof.
  intros run. pose proof (setup_outcome (S:=S) yaml_Unmarshal ParseDuration configPath ip devMode p) as Hrun.
  fold run in Hrun. split; [intros a p' E; by rewrite E in Hrun|].
  intros msg p'. split; [intros E; by rewrite E in Hrun|]. apply setup_panic_runs.
Qed.
End Startup.

(** A world in which locket refuses its second client: it counts the calls. *)
Definition one_locket : StartEnv nat unit := {|
  os_ReadFile _ w := (inr "config", w);
  AppendCertsFromPEM _ := true;
  uaa_New _ w := (inr tt, w);
  uaa_Issuer u := (inr "https://uaa", u);
  dropsonde_Initialize _ _ w := (inr tt, w);
  debugserver_Run _ w := (inr tt, w);
  statsd_NewBufferedClient _ _ _ w := (inr tt, w);
  locket_NewClient _ w := (if bool_decide (w = 0%nat) then inr tt else inl (ext_error "locket"), Datatypes.S w);
  tls_Server _ _ _ w := (inr tt, w)
|}.

Definition nat_OpenEnv : OpenEnv nat unit := {|
  RegisterTLSConfig _ _ w := (inr tt, w);
  os_MkdirTemp w := (inr "/tmp/x", w);
  os_WriteFile _ _ w := (inr tt, w);
  gorm_Open _ _ w := (inr tt, w);
  gorm_DB _ w := (inr tt, w);
  set_pool _ _ _ w := w
|}.

(** The process starts when locket takes its client, and panics when it does not. *)
Lemma startup_guarantees_witness :
  let run n := setup (W:=nat) (S:=unit) (U:=unit) (StartEnv0:=one_locket) (OpenEnv0:=nat_OpenEnv) (fun _ => inr sample_config)
    (fun _ => inr Second) "config.yml" "10.0.0.1" false (mkProcess n (mkGlobals [] false)) in
  (exists a, run 0%nat = Ok a (mkProcess 1%nat (mkGlobals [8080] true)) /\
    good_config false (mkGlobals [8080] true) (as_config a) /\ assembled_ok false (as_config a) a) /\
  setup_panic (S:=unit) (StartEnv0:=one_locket) (OpenEnv0:=nat_OpenEnv) (fun _ => inr sample_config) (fun _ => inr Second)
    "config.yml" "10.0.0.1" false (mkProcess 1%nat (mkGlobals [] false)) "failed-to-create-locket-client"
    (mkProcess 2%nat (mkGlobals [8080] true)).
Proof.
  pose proof (startup_guarantees (W:=nat) (S:=unit) (U:=unit) (StartEnv0:=one_locket) (OpenEnv0:=nat_OpenEnv)
    (fun _ => inr sample_config) (fun _ => inr Second) "config.yml" "10.0.0.1" false) as H.
  split.
  - eexists. split; [|apply (proj1 (H (mkProcess 0%nat (mkGlobals [] false))) _ (mkProcess 1%nat (mkGlobals [8080] true)))];
      vm_compute; reflexivity.
  - apply (proj2 (H (mkProcess 1%nat (mkGlobals [] false)))). vm_compute. reflexivity.
Defined.

(** ** Processes *)

(** C28. The server's processes start and stop in order: a process is started
    only when every one listed before it is ready; one is signalled only when
    every started one listed after it has exited; and once the group is stopping
    and its processes have exited, it finishes. *)
Theorem processes_ordered httpEnabled sql g :
  let ms := members httpEnabled sql in
  rtc (group_step (length ms)) orderedGroup g ->
  (forall x y, before x y ms = true -> started_member ms g y -> ready_member ms g x) /\
  (forall x y, before x y ms = true -> signalled_member ms g x -> started_member ms g y -> exited_member ms g y) /\
  (forall k sig ex f sent, g_phase g = Stopping k sig ex f sent -> (forall j, (j < length (g_pool g))%nat -> exited (g_pool g) j) ->
     exists f' pool', rtc (group_step (length ms)) g (mkGroup (Finished f') pool') /\ (f = true -> f' = true)).
Proof.
  intros ms Hr. assert (group_inv (length ms) g) as Hi.
  { eapply group_inv_reach; [|exact Hr]. destruct httpEnabled, sql; vm_compute; lia. }
  pose proof (members_distinct httpEnabled sql) as Hnd. split_and!.
  - intros x y. by apply member_started_ready.
  - intros x y. by apply member_signalled_exited.
  - intros k sig ex f sent Hph Hex. destruct g as [ph pool]. simpl in Hph, Hex. subst ph. destruct Hi as [_ Hi].
    simpl in Hi. destruct Hi as (H1 & _ & _ & Hs). apply stop_finishes; [done| |done]. intros ->. apply Hs.
Qed.

(** The first process is ready, the second was started, then a signal comes. *)
Definition stopping_group : group :=
  mkGroup (Stopping 2 Terminate [] false false) [set_ready new_proc; new_proc].

Lemma stopping_reachable : rtc (group_step (length (members true true))) orderedGroup stopping_group.
Proof.
  eapply rtc_l; [apply (member_ready _ (Starting 0) [new_proc] 0 new_proc); reflexivity|].
  eapply rtc_l; [apply (start_next _ [set_ready new_proc] 0 (set_ready new_proc)); [reflexivity|reflexivity|vm_compute; lia]|].
  eapply rtc_l; [apply (start_signal _ _ 1 Terminate)|apply rtc_refl].
Qed.

Lemma processes_ordered_witness : ready_member (members true true) stopping_group "lock-acquirer".
Proof.
  apply (proj1 (processes_ordered true true stopping_group stopping_reachable) "lock-acquirer" "migration");
    [vm_compute; reflexivity|]. exists 1%nat. split; [reflexivity|vm_compute; lia].
Defined.

(** C30. Releasing the lock: with one signal and a lock that is not lost, every
    run ends after at most six steps with the releaser returned.  A second signal
    while the lock's error is on its way, or a signal after the lock was lost,
    can leave the releaser and the lock each waiting for the other to receive. *)
Theorem lock_release retryInterval sig :
  (forall n h, nsteps (hand_step retryInterval false) n (started [sig]) h ->
     (n <= 6)%nat /\ ((exists err, h_releaser h = RelReturned err) \/ exists h', hand_step retryInterval false h h')) /\
  (exists h, rtc (hand_step retryInterval false) (started [Interrupt; Terminate]) h /\ deadlocked retryInterval false h) /\
  (exists h, rtc (hand_step retryInterval true) (started [Interrupt]) h /\ deadlocked retryInterval true h).
Proof.
  split_and!; [intros n h; apply one_signal_releases|apply second_signal_deadlocks|].
  exact (lost_lock_deadlocks retryInterval None).
Qed.

(** ** Trace output *)

(** C40. What is printed of a request does not depend on the value of its
    Authorization header: neither the dump of the client, wherever the header
    is among the lines, nor the request log of the server.  What is printed of a JSON
    object is the object in which every string under the names access_token,
    refresh_token, token, password and oldPassword, at any depth, is replaced by the
    placeholder and nothing else is changed, provided that no string in it contains a
    quote. *)
Theorem token_never_printed logger now pre tok tok' rest method url req req' res :
  line_start pre -> string_mem LF tok = false -> string_mem LF tok' = false ->
  rest = "" \/ (exists r, rest = String LF r) ->
  delete "Authorization" req = delete "Authorization" req' ->
  DumpRequest logger now (inr (pre +:+ "Authorization: " +:+ tok +:+ rest)) =
    DumpRequest logger now (inr (pre +:+ "Authorization: " +:+ tok' +:+ rest)) /\
  LogWrap method url req res = LogWrap method url req' res /\
  (forall label ms, unquoted (JObj ms) = true ->
     DumpJSON logger label now (JObj ms) =
       Printf logger (newline +:+ (label +:+ ":") +:+ " [" +:+ now +:+ "]" +:+ newline +:+
                      json_text (hide_json secret_names (JObj ms)) +:+ newline)).
Proof.
  intros Hp H1 H2 Hr Hd. split_and!; [|by apply LogWrap_hides|].
  - unfold DumpRequest, dump. by rewrite (Sanitize_hides pre tok tok' rest).
  - intros label ms Hm. unfold DumpJSON, dump. by rewrite Sanitize_json.
Qed.

Definition sample_token_response : list (string * json) :=
  [("access_token", JStr "secret"); ("expires_in", JInt 43199); ("extra", JObj [("password", JStr "a&b")])].

Lemma token_never_printed_witness :
  let text tok := "GET /v1/routes" +:+ newline +:+ "Authorization: " +:+ tok +:+ newline +:+ "Host: a" in
  DumpRequest true "now" (inr (text "bearer secret")) = DumpRequest true "now" (inr (text "")) /\
  LogWrap "GET" "/v1/routes" {["Authorization" := ["bearer secret"]]} ∅ = LogWrap "GET" "/v1/routes" ∅ ∅ /\
  DumpJSON true "TOKEN" "now" (JObj sample_token_response) =
    Printf true (newline +:+ ("TOKEN" +:+ ":") +:+ " [" +:+ "now" +:+ "]" +:+ newline +:+
      json_text (JObj [("access_token", JStr PRIVATE_DATA_PLACEHOLDER); ("expires_in", JInt 43199);
                       ("extra", JObj [("password", JStr PRIVATE_DATA_PLACEHOLDER)])]) +:+ newline).
Proof.
  destruct (token_never_printed true "now" ("GET /v1/routes" +:+ newline) "bearer secret" "" (newline +:+ "Host: a")
    "GET" "/v1/routes" {["Authorization" := ["bearer secret"]]} ∅ ∅) as (H1 & H2 & H3);
    [| | | | |split; [exact H1|]; split; [exact H2|]; rewrite H3; vm_compute; reflexivity].
  - exists ["GET /v1/routes"]. reflexivity.
  - reflexivity.
  - reflexivity.
  - right. by eexists.
  - reflexivity.
Defined.
