(* ===== verification/TableClaims.v ===== *)
(** TableClaims: what the queries of db/db_sql.go and the calls of db/client.go mean
    on the rows of a table. *)
From Stdlib Require Import ZArith Lia Ascii.
From stdpp Require Import base option strings gmap list.
From S2P Require Import Prelude GoStrings RouterGroups Routes Store SqlDB Prune Gorm Migration Schema SchemaFacts SqlRows TableClient.

Local Open Scope string_scope.
Local Open Scope list_scope.
Local Open Scope Z_scope.

(** No row has a NULL TLS port. *)
Definition filled_tls (guid : string) : bool := false.

(** ** What the queries select *)
Section Queries.
Context (text : option Z -> string -> string) (Hinj : forall a b, text None a = text None b -> a = b).

(** A column that a query compares is not NULL. *)
Ltac not_null Hf := match goal with |- col ?c _ <> VNull => by apply (proj1 (Forall_forall _ _) Hf c), (bool_decide_eq_true_1 (c ∈ _)) end.

Lemma guid_denotes {R} `{Tabled R} guid : denotes text (guid_query guid) (fun r : R => bool_decide (row_guid r = guid)).
Proof. intros row [Hs _]. exact (guid_selects text Hinj guid (scan row) row Hs). Qed.

Lemma guids_denotes {R} `{Tabled R} guids : denotes text (guids_query guids) (fun r : R => bool_decide (row_guid r ∈ guids)).
Proof. intros row [Hs _]. exact (guids_selects text Hinj guids (scan row) row Hs). Qed.

Lemma name_denotes name : denotes text (name_query name) (fun g : RouterGroupDB => bool_decide (RGDB_Name g = name)).
Proof. intros row [Hs Hf]. apply name_selects; [done..|not_null Hf]. Qed.

Lemma route_denotes route : denotes text (route_query route) (route_matches route).
Proof. intros row [Hs _]. by apply route_selects. Qed.

Lemma route_expiry_denotes at_ :
  denotes text (unexpired_query at_) (fun r : Route => at_ <? Route_ExpiresAt r) /\
  denotes text (expired_query at_) (fun r : Route => expires_at r <? at_ + -1 * Second).
Proof. split; intros row [Hs Hf]; apply (expiry_selects text row _ at_), shown_route_expiry; (done || not_null Hf). Qed.

Lemma tcp_expiry_denotes at_ :
  denotes text (unexpired_query at_) (fun m : TcpRouteMapping => at_ <? Tcp_ExpiresAt m) /\
  denotes text (expired_query at_) (fun m : TcpRouteMapping => expires_at m <? at_ + -1 * Second).
Proof. split; intros row [Hs Hf]; apply (expiry_selects text row _ at_), shown_tcp_expiry; (done || not_null Hf). Qed.

Lemma filtered_denotes segments at_ :
  denotes text (filtered_query "isolation_segment" segments at_)
    (fun m => bool_decide (TM_IsolationSegment (Tcp_Entity m) ∈ segments) && (at_ <? Tcp_ExpiresAt m)).
Proof. intros row [Hs Hf]. apply filtered_selects; (done || not_null Hf). Qed.

Lemma similar_denotes sni port at_ :
  denotes text (similar_query sni port at_)
    (fun m => sql_eq (TM_SniHostname (Tcp_Entity m)) sni && (TM_ExternalPort (Tcp_Entity m) =? port) && (at_ <? Tcp_ExpiresAt m)).
Proof. intros row [Hs Hf]. apply similar_selects; (done || not_null Hf). Qed.

Lemma existing_denotes mapping : denotes text (existing_query mapping) (tcp_matches filled_tls mapping).
Proof.
  intros row [Hs Hf]. apply existing_matches; [done..|not_null Hf|]. unfold tls_null, filled_tls. rewrite andb_false_r.
  split; [|done]. intros Hn. exfalso. revert Hn. change (col "host_tls_port" row <> VNull). not_null Hf.
Qed.
End Queries.

(** C19. The where clauses of db/db_sql.go are the predicates of the store.  On a
    database that compares texts as they are, a query selects a row that the program
    has written (by an INSERT or an UPDATE, or before the migrations) exactly when the
    predicate by which the store is modelled holds of the record that gorm reads from
    the row: for router groups by guid and name; for routes by key, by expiry, by the
    pruner's expiry and by guids; for TCP mappings the same, the filter by isolation
    segment, the search for similar mappings, and the lookup of a mapping.  A column
    that is NULL is equal to nothing, so the columns that a query compares must not be
    NULL: host_tls_port is not on a table where it has the default 0.  For rows in which
    it is NULL, the lookup of a mapping is the store's predicate that knows which
    ones. *)
Theorem where_clauses_denote (text : option Z -> string -> string) :
  (forall a b, text None a = text None b -> a = b) ->
  (forall guid name,
     denotes text (guid_query guid) (fun g : RouterGroupDB => bool_decide (row_guid g = guid)) /\
     denotes text (name_query name) (fun g => bool_decide (RGDB_Name g = name))) /\
  (forall route at_ guids,
     denotes text (route_query route) (route_matches route) /\
     denotes text (unexpired_query at_) (fun r : Route => at_ <? Route_ExpiresAt r) /\
     denotes text (expired_query at_) (fun r : Route => expires_at r <? at_ + -1 * Second) /\
     denotes text (guids_query guids) (fun r : Route => bool_decide (row_guid r ∈ guids))) /\
  (forall mapping at_ guids segments sni port,
     denotes text (existing_query mapping) (tcp_matches filled_tls mapping) /\
     (forall null (m : TcpRouteMapping) row, shows m row -> col "enable_backend_m_tls" row <> VNull ->
        (col "host_tls_port" row = VNull <-> tls_null null m = true) ->
        selects text (existing_query mapping) row = tcp_matches null mapping m) /\
     denotes text (unexpired_query at_) (fun m : TcpRouteMapping => at_ <? Tcp_ExpiresAt m) /\
     denotes text (expired_query at_) (fun m : TcpRouteMapping => expires_at m <? at_ + -1 * Second) /\
     denotes text (guids_query guids) (fun m : TcpRouteMapping => bool_decide (row_guid m ∈ guids)) /\
     denotes text (filtered_query "isolation_segment" segments at_)
       (fun m => bool_decide (TM_IsolationSegment (Tcp_Entity m) ∈ segments) && (at_ <? Tcp_ExpiresAt m)) /\
     denotes text (similar_query sni port at_)
       (fun m => sql_eq (TM_SniHostname (Tcp_Entity m)) sni && (TM_ExternalPort (Tcp_Entity m) =? port) &&
                 (at_ <? Tcp_ExpiresAt m))).
Proof.
  intros Hinj. split_and!.
  - intros guid name. split; [by apply guid_denotes|by apply name_denotes].
  - intros route at_ guids. destruct (route_expiry_denotes text at_) as [H1 H2].
    split_and!; [by apply route_denotes|done..|by apply guids_denotes].
  - intros mapping at_ guids segments sni port. destruct (tcp_expiry_denotes text at_) as [H1 H2].
    split_and!; [by apply existing_denotes|intros null m row; by apply existing_matches|done..|by apply guids_denotes|
      by apply filtered_denotes|by apply similar_denotes].
Qed.

(** ** What the calls do *)

(** C20. The calls of db/client.go on a table do to its records what the laws of the
    store say, on a table whose rows the program wrote under distinct guids, on a server
    that compares texts as they are, for a record that the defaults of the table suit
    (every one, but for a mapping without a TLS port on a table that puts NULL for
    it).  Find returns the records of which the meaning of the query holds,
    First one of them, or nothing when there is none, Delete leaves the others and
    counts those it deleted.  Create adds the record as it will be read back, and is
    refused only when the guid is taken or a unique index already has the key; Save puts
    the record in the place of the one with its guid, or adds it.  Each call leaves a
    table for which this holds again. *)
Theorem tables_refine_records {R : Type} `{Tabled R} (text : option Z -> string -> string)
    (before : string -> string -> bool) (now : Z) (r : R) (q : Query) (p : R -> bool) (t : Table) :
  (forall a b, text None a = text None b -> a = b) -> suits t r -> good (R:=R) t -> denotes text q p ->
  sql_find text q t = rows_where p (records t) /\
  match sql_first text before q t with
  | Some r' => r' ∈ rows_where p (records t)
  | None => rows_where p (records t) = []
  end /\
  (forall n t', sql_delete text q t = (n, t') ->
     records t' = rows_where (fun x => negb (p x)) (records t) /\
     n = Z.of_nat (length (rows_where p (records t))) /\ still_good (R:=R) t t') /\
  (forall t', sql_create text now r t = Some t' ->
     row_guid r ∉ (row_guid <$> records (R:=R) t) /\
     (exists r', reads_back (fun x => x) r r' /\ records t' = records t ++ [r']) /\ still_good (R:=R) t t') /\
  (row_guid r ∉ (row_guid <$> records (R:=R) t) ->
     map_Forall (fun _ ix => unique text ix (t_rows t ++ [create_row now t r])) (t_idx t) ->
     is_Some (sql_create text now r t)) /\
  (row_guid r <> "" ->
     (forall t', sql_save text now r t = Some t' ->
        (exists r', reads_back (fun x => x) r r' /\
           records t' ≡ₚ r' :: rows_where (fun x => negb (bool_decide (row_guid x = row_guid r))) (records t)) /\
        still_good (R:=R) t t') /\
     (t_idx t = ∅ -> is_Some (sql_save text now r t))).
Proof.
  intros Hinj Hs Hg Hq. pose proof (first_records text before q t) as Hf. rewrite (find_records text q p t Hq Hg) in Hf.
  split_and!.
  - by apply find_records.
  - exact Hf.
  - intros n t' [= <- <-]. destruct (delete_records text q p t Hq Hg) as (H1 & H2 & H3).
    split_and!; [exact H1|exact H2|by apply still_goodI].
  - intros t' Hc. destruct (create_records text now r t t' Hs Hg Hc) as (H1 & H2 & H3).
    split_and!; [done..|]. apply still_goodI; [done|by eapply create_columns].
  - by apply create_taken.
  - intros Hne. split; [|intros Hi; by apply save_taken]. intros t' Hc.
    destruct (save_records text Hinj now r t t' Hs Hg Hne Hc) as [H1 H2].
    split; [done|]. apply still_goodI; [done|by eapply save_columns].
Qed.

(** ** Evaluations *)

(** The table as V8 leaves it, and one mapping in it. *)
Definition table_v8 : Table :=
  mkTable (<["host_tls_port" := mkColDef (VInt 0) false]> (model_cols (Columns Tcp_fields))) [] ∅.

Definition sample_mapping (tls : Z) : TcpRouteMapping :=
  mkTcpRouteMapping (mkModel "m-1" zero_time zero_time) 0
    (mkTcpMappingEntity "rg-1" 6060 tls "10.0.0.2" (Some "sni") None "" 1030 zero_Tag (Some 60) "" false "" false).

Definition table_one : Table := mkTable (t_cols table_v8) [create_row 0 table_v8 (sample_mapping 0)] ∅.

Lemma table_v8_suits (m : TcpRouteMapping) : suits table_v8 m.
Proof. split; [repeat constructor|]. split; [by_evaluation|left; vm_compute; reflexivity]. Qed.

Lemma table_one_holds : holds (R:=TcpRouteMapping) (create_row 0 table_v8 (sample_mapping 0)).
Proof. destruct (create_holds 0 table_v8 (sample_mapping 0) (table_v8_suits _)) as [Hs Hf]. by eapply shows_holds. Qed.

Lemma table_one_good : good (R:=TcpRouteMapping) table_one.
Proof. split; [apply Forall_singleton; exact table_one_holds|apply NoDup_singleton]. Qed.

Lemma where_clauses_denote_witness :
  selects (fun _ s => s) (existing_query (sample_mapping 0)) (create_row 0 table_v8 (sample_mapping 0)) = true.
Proof.
  destruct (where_clauses_denote (fun _ s => s)) as (_ & _ & Hq).
  - intros a b Hab. exact Hab.
  - destruct (Hq (sample_mapping 0) 0 [] [] "" 0) as [Hex _].
    transitivity (tcp_matches filled_tls (sample_mapping 0) (scan (create_row 0 table_v8 (sample_mapping 0)))).
    + apply Hex. exact table_one_holds.
    + vm_compute. reflexivity.
Defined.

(** Saving the mapping with a TLS port. *)
Lemma tables_refine_records_witness :
  (exists t' r', sql_save (fun _ s => s) 7 (sample_mapping 443) table_one = Some t' /\ records t' ≡ₚ [r'] /\
     Tcp_Entity r' = Tcp_Entity (sample_mapping 443)) /\
  sql_find (fun _ s => s) (existing_query (sample_mapping 0)) table_one =
    rows_where (tcp_matches filled_tls (sample_mapping 0)) (records table_one).
Proof.
  destruct (tables_refine_records (fun _ s => s) (fun _ _ => true) 7 (sample_mapping 443)
    (existing_query (sample_mapping 0)) (tcp_matches filled_tls (sample_mapping 0)) table_one) as (Hfind & _ & _ & _ & _ & Hsave).
  - intros a b Hab. exact Hab.
  - exact (table_v8_suits _).
  - exact table_one_good.
  - apply existing_denotes. intros a b Hab. exact Hab.
  - split; [|exact Hfind]. destruct Hsave as [Hsave Hsome]; [discriminate|].
    destruct (Hsome eq_refl) as [t' Ht']. destruct (Hsave t' Ht') as ((r' & Hr & Hp) & _).
    exists t', r'. split; [exact Ht'|]. split; [exact Hp|]. exact (proj2 (proj2 Hr)).
Defined.
