(* ===== verification/SchemaClaims.v ===== *)
(** SchemaClaims: the schema that the migrations build and what a TCP mapping
    becomes in it. *)
From Stdlib Require Import ZArith Lia Ascii.
From stdpp Require Import base option strings gmap list.
From S2P Require Import Prelude GoStrings RouterGroups Routes Store SqlDB Prune Gorm Migration Schema SchemaFacts SchemaRun SqlRows TableClient Historical TableClaims.

Local Open Scope string_scope.
Local Open Scope list_scope.
Local Open Scope Z_scope.

(** ** Databases to start from *)

Definition filled (fields : list GoField) (rows : list SqlRow) : list SqlRow :=
  (fun r => r ∪ model_defaults (Columns fields)) <$> rows.

Lemma filled_full fields rows idx : full_rows (mkTable (model_cols (Columns fields)) (filled fields rows) idx).
Proof.
  unfold full_rows, filled. simpl. rewrite Forall_fmap. apply Forall_true. intros r c Hc. simpl.
  apply lookup_union_is_Some. right. by apply model_defaults_cols.
Qed.

(** The tables as the models of version [v] describe them, with the index of that
    version. *)
Definition tcp_table (my : bool) (v : Z) (rows : list SqlRow) : Table :=
  mkTable (model_cols (Columns (model_at v))) (filled (model_at v) rows)
    (if 4 <=? v then {["idx_tcp_route" := tcp_index my v]} else ∅).

Definition groups_table (my : bool) (v : Z) (rows : list SqlRow) : Table :=
  mkTable (model_cols (Columns V0.RouterGroupDB_fields)) (filled V0.RouterGroupDB_fields rows)
    (if 2 <=? v then {["idx_rg_name" := name_index my]} else ∅).

Definition routes_table (rows : list SqlRow) : Table :=
  mkTable (model_cols (Columns V0.Route_fields)) (filled V0.Route_fields rows) ∅.

Definition historical (my : bool) (v : Z) (tcp groups routes : list SqlRow) : gmap string Table :=
  <["tcp_routes" := tcp_table my v tcp]> (<["router_groups" := groups_table my v groups]>
    {["routes" := routes_table routes]}).

Lemma alterable_empty my cs cols rows : alterable my cs (mkTable cols rows ∅) = true.
Proof. unfold alterable. simpl. by rewrite map_to_list_empty, orb_true_r. Qed.

(** They are databases of their version, when the rows are unique. *)
Lemma historical_ok my text v tcp groups routes :
  v ∈ [0; 2; 3; 4; 5; 6; 7] ->
  unique text (tcp_index my v) (zero_tls <$> filled (model_at v) tcp) ->
  Forall (fun r => exists n, col "name" r = VText n) (filled V0.RouterGroupDB_fields groups) ->
  unique text (name_index my) (filled V0.RouterGroupDB_fields groups) ->
  tables_ok my text v (historical my v tcp groups routes).
Proof.
  intros Hv Hu Hn Hg. unfold historical.
  assert (0 <= v <= 7) as Hr by (clear -Hv; set_unfold; lia). split.
  - rewrite lookup_insert_eq. split.
    + intros _. apply Forall_forall. intros c. apply model_cols_names.
    + apply filled_full.
    + intros _. clear -Hv. set_unfold. destruct my; intuition subst; vm_compute; reflexivity.
    + unfold drop_index, tcp_table. cbn [t_cols t_rows t_idx]. destruct (4 <=? v).
      * rewrite delete_singleton_eq. apply alterable_empty.
      * rewrite delete_empty. apply alterable_empty.
    + intros H3. unfold tcp_table. rewrite (proj2 (Z.leb_gt 4 v)) by lia. apply alterable_empty.
    + exact Hu.
    + intros H4 _. unfold tcp_table. rewrite (proj2 (Z.leb_le 4 v)) by lia. apply lookup_singleton_eq.
    + lia.
  - rewrite lookup_insert_ne, lookup_insert_eq by done. split; try lia.
    + intros _. apply Forall_forall. intros c. apply (model_cols_names V0.RouterGroupDB_fields).
    + apply filled_full.
    + intros _. destruct my; vm_compute; reflexivity.
    + exact Hn.
    + exact Hg.
    + intros H2. unfold groups_table. rewrite (proj2 (Z.leb_le 2 v)) by lia. apply lookup_singleton_eq.
  - rewrite !lookup_insert_ne, lookup_singleton_eq by done. split; [|lia]. intros _. apply Forall_forall.
    intros c. apply (model_cols_names V0.Route_fields).
Qed.

(** Nothing yet. *)
Lemma empty_ok my text : tables_ok my text (-1) ∅.
Proof. split; rewrite lookup_empty; simpl; lia. Qed.

(** ** The schema after the migrations *)

Definition clause_ok (s : Sdb) (p : string * string) : Prop :=
  exists t cs, sd_tables s !! fst p = Some t /\ clause_columns (snd p) = Some cs /\ Forall (fun c => is_Some (t_cols t !! c)) cs.

(** Every column of a clause is one of the fields. *)
Definition clause_within (fields : list GoField) (clause : string) : bool :=
  match clause_columns clause with Some cs => bool_decide (Forall (fun c => c ∈ names fields) cs) | None => false end.

Lemma clause_present s table clause fields t :
  sd_tables s !! table = Some t -> has_columns fields t -> clause_within fields clause = true -> clause_ok s (table, clause).
Proof.
  unfold clause_within, clause_ok. cbn [fst snd]. intros Ht Hf Hc. destruct (clause_columns clause) as [cs|]; [|done].
  exists t, cs. split_and!; [done..|]. apply bool_decide_eq_true in Hc. eapply Forall_impl; [exact Hc|].
  intros c Hin. by apply (proj1 (Forall_forall _ _) Hf).
Qed.

Lemma latest_columns my text t : tcp_ok my text 11 t -> has_columns Tcp_fields t.
Proof.
  intros Hok. apply Forall_forall. intros c Hc. destruct (model_cols_names Tcp_fields c Hc) as [d Hd].
  exists d. eapply lookup_weaken; [exact Hd|]. by apply (to_latest _ _ _ _ Hok).
Qed.

Lemma clauses_ok s : schema_at 11 s -> Forall (clause_ok s) where_clauses.
Proof.
  intros [H1 H2 H3]. unfold table_ok in *.
  destruct (sd_tables s !! "tcp_routes") as [t|] eqn:Et; [|lia].
  destruct (sd_tables s !! "router_groups") as [tg|] eqn:Eg; [|lia].
  destruct (sd_tables s !! "routes") as [tr|] eqn:Er; [|lia].
  pose proof (latest_columns _ _ _ H1) as Hc. pose proof (go_columns _ _ _ _ H2 ltac:(lia)) as Hg.
  pose proof (ro_columns _ _ _ H3 ltac:(lia)) as Hr.
  repeat (apply Forall_cons; split; [eapply clause_present; [eassumption..|vm_compute; reflexivity]|]). apply Forall_nil_2.
Qed.

(** What holds of the table tcp_routes in the end. *)
Record latest_tcp (s : Sdb) (t : Table) : Prop := {
  lt_columns : model_cols (Columns Tcp_fields) ⊆ t_cols t;
  lt_index : t_idx t !! "idx_tcp_route" = Some (tcp_index (is_mysql s) 11);
  lt_unique : unique (sd_text s) (tcp_index (is_mysql s) 11) (t_rows t)
}.

Lemma RunMigrations_run s :
  -1 <= stored_version s <= 10 -> schema_at (stored_version s) s ->
  exists s' t, RunMigrations InitializeMigrations s = Ok tt s' /\ migrated 11 s s' /\ (stored_version s < 8 -> tls_set s') /\
    sd_tables s' !! "tcp_routes" = Some t /\ full_rows t /\ latest_tcp s' t.
Proof.
  intros Hv Hok. pose proof (RunMigrations_schema s ltac:(lia) Hok) as H1.
  unfold wp in H1. destruct (RunMigrations InitializeMigrations s) as [[] s'|e s'|x s']; [|done..].
  rewrite Z.max_r in H1 by lia. destruct H1 as [Hm Hz].
  destruct (schema_parts 11 s' ltac:(lia) (proj1 Hm)) as [(t & Ht & Htcp) _]. exists s', t.
  split_and!; [done..|by apply (to_full _ _ _ _ Htcp)|]. split.
  - by apply (to_latest _ _ _ _ Htcp).
  - apply (to_index _ _ _ _ Htcp); lia.
  - apply unique_now, (to_unique _ _ _ _ Htcp).
Qed.

(** A row that version 7 wrote, in the table that the migrations leave. *)
Definition upgraded_row (text : option Z -> string -> string) (t' : Table) (m : V7Model.TcpRouteMapping) : Prop :=
  exists row', row' ∈ t_rows t' /\ holds (R:=TcpRouteMapping) row' /\ reads_back (fun x => x) (upgrade m) (scan row') /\
    selects text (existing_query (upgrade m)) row' = true.

Lemma old_rows_upgraded s s' t t' m row :
  rows_kept s s' -> tls_set s' -> sd_tables s' !! "tcp_routes" = Some t' -> full_rows t' -> latest_tcp s' t' ->
  sd_tables s !! "tcp_routes" = Some t -> row ∈ t_rows t -> old_row m row -> upgraded_row (sd_text s') t' m.
Proof.
  intros Hk Hz Ht' Hfull Hl Ht Hrow Hold. destruct (Hk _ _ Ht) as (t2 & Ht2 & Hf). rewrite Ht' in Ht2. injection Ht2 as <-.
  apply list_elem_of_lookup in Hrow as [i Hi]. destruct (Forall2_lookup_l _ _ _ _ _ Hf Hi) as (row' & Hi' & Hkept).
  apply list_elem_of_lookup_2 in Hi'. assert (col "host_tls_port" row' <> VNull) as Htls by exact (proj1 (Forall_forall _ _) (Hz t' Ht') row' Hi').
  assert (forall c, c ∈ names Tcp_fields -> is_Some (row' !! c)) as Hc.
  { intros c Hc. destruct (model_cols_names Tcp_fields c Hc) as [d Hd]. apply (proj1 (Forall_forall _ _) Hfull row' Hi').
    exists d. eapply lookup_weaken; [exact Hd|apply Hl]. }
  destruct (upgraded_holds m row row' Hold Hkept Htls Hc) as [Hh Hr]. exists row'. split_and!; [done..|].
  apply existing_found; [by eapply upgraded_shows|apply (proj1 (Forall_forall _ _) (proj2 Hh)); by_evaluation|exact Htls].
Qed.

(** C21. Running the migrations of this release ends at version 11, or at the version
    the database already had if that is higher; when a step fails, the error is
    reported and the recorded version never goes back.  They build the schema that
    the program uses: from an empty
    database, or one of an earlier version (with the columns of that version's
    model, its index, and rows that stay distinct once missing TLS ports are zero),
    on MySQL and on PostgreSQL, they succeed: no row is lost
    and no value changed but for missing TLS ports, tcp_routes has the columns and
    defaults of the current model and its unique index, and every column that a
    where clause of the store names exists.  Coming from a version before 8, a mapping
    that the program of version 7 had written is read by the program of today as it
    was, with the new fields zero, and the lookup of the mapping finds it, also when it
    has no TLS port. *)
Theorem migrations_build_schema (s : Sdb) :
  wp (RunMigrations InitializeMigrations) s
    (fun _ s' => stored_version s' = Z.max (stored_version s) 11)
    (fun e s' => e <> None /\ stored_version s <= stored_version s' /\
       (stored_version s' = stored_version s \/ stored_version s' ∈ [0; 2; 3; 4; 5; 6; 7; 8; 9; 10; 11])) /\
  (-1 <= stored_version s <= 10 -> schema_at (stored_version s) s ->
   exists s' t', RunMigrations InitializeMigrations s = Ok tt s' /\ rows_kept s s' /\
     sd_tables s' !! "tcp_routes" = Some t' /\ latest_tcp s' t' /\ Forall (clause_ok s') where_clauses /\
     (stored_version s < 8 -> forall t m row, sd_tables s !! "tcp_routes" = Some t -> row ∈ t_rows t -> old_row m row ->
        upgraded_row (sd_text s') t' m)).
Proof.
  split.
  { apply (RunMigrations_wp InitializeMigrations V11EnableBackendMTLS s InitializeMigrations_ascending
             quiet_InitializeMigrations); simpl; [done|lia]. }
  intros Hv Hok. destruct (RunMigrations_run s Hv Hok) as (s' & t' & Hr & (Hs' & _ & Hk) & Hz & Ht' & Hfull & Hl).
  exists s', t'. split_and!; [done..|by apply clauses_ok|]. intros H8 t m row Ht Hrow Hold.
  by apply (old_rows_upgraded s s' t t' m row); auto.
Qed.

(** ** What becomes of a mapping *)

(** The defaults that the database puts in the end. *)
Lemma latest_defaults s t : latest_tcp s t -> null_defaults t /\ tls_default t = VNull.
Proof.
  intros Hl. assert (forall c, model_cols (Columns Tcp_fields) !! c = Some (mkColDef VNull false) ->
    default VNull (cd_default <$> t_cols t !! c) = VNull) as H.
  { intros c Hc. by rewrite (lookup_weaken _ _ _ _ Hc (lt_columns _ _ Hl)). }
  split; [repeat constructor|]; apply H; vm_compute; reflexivity.
Qed.

(** What the predicate of the lookup loses when every missing TLS port is NULL. *)
Lemma matches_null m' m : tcp_matches (fun _ => true) m' m =
  tcp_matches (fun _ => false) m' m && bool_decide (TM_HostTLSPort (Tcp_Entity m) <> 0).
Proof.
  unfold tcp_matches, tls_null. rewrite andb_true_r, andb_false_r, bool_decide_not.
  replace (bool_decide (TM_HostTLSPort (Tcp_Entity m) = 0)) with (TM_HostTLSPort (Tcp_Entity m) =? 0)
    by (apply eq_true_iff_eq; rewrite Z.eqb_eq, bool_decide_eq_true; done).
  cbn [negb andb]. destruct (TM_HostTLSPort (Tcp_Entity m) =? 0); cbn [negb andb]; by rewrite ?andb_false_r, ?andb_true_r.
Qed.

Lemma keyless_insert text ix rows r : index_key text ix r = None -> unique text ix (rows ++ [r]) <-> unique text ix rows.
Proof. intros Hk. unfold unique. rewrite omap_app. simpl. by rewrite Hk, app_nil_r. Qed.

Lemma null_no_key text ix r c p : (c, p) ∈ ix -> col c r = VNull -> index_key text ix r = None.
Proof.
  intros Hc Hn. destruct (index_key text ix r) as [k|] eqn:E; [|done]. by destruct (key_not_null text ix r k c p E Hc).
Qed.

(** C22. A mapping without a TLS port is not found again.  V8 gives the column
    host_tls_port the default 0, but the AutoMigrate of V9, V10 and V11 puts
    back the model's default null.  After the migrations gorm therefore creates a
    mapping whose TLS port is 0 with a NULL: the lookup of
    FindExistingTcpRouteMapping finds a created mapping exactly
    when its TLS port is not 0 (on a database that compares texts as they are, it
    selects among created rows those that the store's predicate selects, less the ones
    without a TLS port), and the unique index accepts such a mapping again and
    again. *)
Theorem migrations_undo_tls_default (s : Sdb) :
  -1 <= stored_version s <= 10 -> schema_at (stored_version s) s ->
  exists s' t, RunMigrations InitializeMigrations s = Ok tt s' /\ sd_tables s' !! "tcp_routes" = Some t /\
    forall now m, let r := create_row now t m in
      (selects (sd_text s') (existing_query m) r = true <-> TM_HostTLSPort (Tcp_Entity m) <> 0) /\
      ((forall a b, sd_text s' None a = sd_text s' None b -> a = b) -> forall m',
         selects (sd_text s') (existing_query m') r = tcp_matches (fun _ => true) m' m /\
         tcp_matches (fun _ => true) m' m =
           tcp_matches (fun _ => false) m' m && bool_decide (TM_HostTLSPort (Tcp_Entity m) <> 0)) /\
      (TM_HostTLSPort (Tcp_Entity m) = 0 -> forall rows,
         unique (sd_text s') (tcp_index (is_mysql s') 11) rows ->
         unique (sd_text s') (tcp_index (is_mysql s') 11) (rows ++ [r])).
Proof.
  intros Hv Hok. destruct (RunMigrations_run s Hv Hok) as (s' & t & Hr & _ & _ & Ht & _ & Hl).
  exists s', t. split_and!; [done..|]. destruct (latest_defaults s' t Hl) as [Hn Htls].
  intros now m r. assert (shows m r) as Hs by (apply create_shows_tcp; [done|rewrite Htls; set_solver]).
  assert (col "enable_backend_m_tls" r <> VNull) as Hm by created_column 18%nat.
  assert (col "host_tls_port" r <> VNull <-> TM_HostTLSPort (Tcp_Entity m) <> 0) as Hc.
  { unfold r. rewrite create_tls, Htls. by case_bool_decide. }
  split_and!.
  - by rewrite existing_found.
  - intros Hinj m'. split; [|apply matches_null]. apply existing_matches; [done..|]. unfold tls_null.
    rewrite andb_true_r, Z.eqb_eq. clear -Hc. destruct (decide (TM_HostTLSPort (Tcp_Entity m) = 0)), (decide (col "host_tls_port" r = VNull)); tauto.
  - intros H0 rows. apply keyless_insert, (null_no_key _ _ _ "host_tls_port" None).
    + destruct (is_mysql s'); by_evaluation.
    + unfold r. by rewrite create_tls, bool_decide_eq_true_2, Htls.
Qed.

(** ** Evaluations *)

Definition sample_row (guid sni : string) : SqlRow :=
  <["guid" := VText guid]> (<["router_group_guid" := VText "rg-1"]> (<["host_ip" := VText "10.0.0.2"]>
    (<["host_port" := VInt 6060]> (<["external_port" := VInt 1030]> {["sni_hostname" := VText sni]})))).

Definition sample_groups : list SqlRow := [{["name" := VText "default-tcp"]}; {["name" := VText "other"]}].

Definition sample_sdb (dialect : string) (v : Z) (rows : list SqlRow) : Sdb :=
  mkSdb dialect (fun _ s => s) (historical (bool_decide (dialect = "mysql")) v rows sample_groups [])
    (Some (mkMigrationData MigrationKey v v)) None.

Lemma sample_sdb_ok : schema_at 5 (sample_sdb "mysql" 5 [sample_row "a" "one"; sample_row "b" "two"]).
Proof.
  apply historical_ok; [by_evaluation|by_evaluation| |by_evaluation].
  repeat constructor; eexists; vm_compute; reflexivity.
Qed.

(** A mapping that version 7 created, without a TLS port. *)
Definition old_mapping : V7Model.TcpRouteMapping :=
  V7Model.mkTcpRouteMapping (mkModel "m-1" zero_time zero_time) 0
    (V7Model.mkTcpMappingEntity "rg-1" 6060 0 "10.0.0.2" (Some "sni") "" 1030 zero_Tag (Some 60) "").

Definition old_sample : SqlRow := create_row 5 (tcp_table true 7 []) old_mapping.

Lemma old_sample_row : old_row old_mapping old_sample.
Proof. apply create_old_row. repeat constructor; vm_compute; reflexivity. Qed.

Lemma old_sample_there : old_sample ∈ t_rows (tcp_table true 7 [old_sample]).
Proof. by_evaluation. Qed.

Lemma old_sample_ok : schema_at 7 (sample_sdb "mysql" 7 [old_sample]).
Proof.
  apply historical_ok; [by_evaluation|by_evaluation| |by_evaluation].
  repeat constructor; eexists; vm_compute; reflexivity.
Qed.

Lemma migrations_build_schema_witness :
  exists s' t', RunMigrations InitializeMigrations (sample_sdb "mysql" 7 [old_sample]) = Ok tt s' /\
    sd_tables s' !! "tcp_routes" = Some t' /\ Forall (clause_ok s') where_clauses /\ upgraded_row (sd_text s') t' old_mapping.
Proof.
  destruct (migrations_build_schema (sample_sdb "mysql" 7 [old_sample])) as [_ Hs].
  destruct Hs as (s' & t' & Hr & _ & Ht & _ & Hc & Hu).
  - vm_compute. split; discriminate.
  - exact old_sample_ok.
  - exists s', t'. split; [exact Hr|]. split; [exact Ht|]. split; [exact Hc|].
    apply (Hu ltac:(vm_compute; reflexivity) (tcp_table true 7 [old_sample]) old_mapping old_sample).
    + vm_compute. reflexivity.
    + exact old_sample_there.
    + exact old_sample_row.
Defined.

Lemma migrations_undo_tls_default_witness :
  exists s' t, RunMigrations InitializeMigrations (sample_sdb "mysql" 5 [sample_row "a" "one"; sample_row "b" "two"]) = Ok tt s' /\
    sd_tables s' !! "tcp_routes" = Some t /\
    selects (sd_text s') (existing_query (sample_mapping 443)) (create_row 0 t (sample_mapping 443)) = true /\
    (selects (sd_text s') (existing_query (sample_mapping 0)) (create_row 0 t (sample_mapping 0)) = true <-> 0 <> 0).
Proof.
  destruct (migrations_undo_tls_default (sample_sdb "mysql" 5 [sample_row "a" "one"; sample_row "b" "two"]))
    as (s' & t & Hr & Ht & Hm).
  - vm_compute. split; discriminate.
  - exact sample_sdb_ok.
  - exists s', t. split; [exact Hr|]. split; [exact Ht|]. split.
    + apply (proj1 (Hm 0 (sample_mapping 443))). simpl. discriminate.
    + exact (proj1 (Hm 0 (sample_mapping 0))).
Defined.

(** A failure, read off by evaluation. *)
Lemma fails_with (P : Sdb -> Prop) `{!forall s, Decision (P s)} (m : Go Sdb unit) s :
  match m s with Fail _ s' => bool_decide (P s') | _ => false end = true -> exists e s', m s = Fail e s' /\ P s'.
Proof. destruct (m s) as [|e s'|]; try done. intros Hp%bool_decide_eq_true. by exists e, s'. Qed.

(** Two mappings that the index of version 7 tells apart only by their NULL TLS
    ports: V8 makes both zero, V9 cannot create its index, and the table is left
    without one. *)
Lemma upgrade_refused :
  let rows := [sample_row "a" "sni"; sample_row "b" "sni"] in
  let s := sample_sdb "postgres" 7 rows in
  unique (sd_text s) (tcp_index false 7) (filled V7.Tcp_fields rows) /\
  exists e s', RunMigrations InitializeMigrations s = Fail e s' /\ stored_version s' = 8 /\
    t_idx <$> sd_tables s' !! "tcp_routes" = Some ∅.
Proof.
  cbv zeta. split; [by_evaluation|]. apply (fails_with (fun s' => stored_version s' = 8 /\ t_idx <$> sd_tables s' !! "tcp_routes" = Some ∅)). vm_compute. reflexivity.
Qed.

(** A table of version 0 whose text columns are varchar and in an index without
    prefix lengths: V3 does not drop the index first, as V5 and its successors do, and
    MySQL refuses to make a longtext of an indexed varchar. *)
Definition varchar_table : Table :=
  mkTable ((fun d => mkColDef (cd_default d) false) <$> model_cols (Columns V0.Tcp_fields)) []
    {["idx_tcp_route" := [("host_port", None); ("host_ip", None); ("external_port", None)]]}.

Lemma early_upgrade_refused :
  exists e s',
    RunMigrations InitializeMigrations
      (mkSdb "mysql" (fun _ s => s) (<["tcp_routes" := varchar_table]> (historical true 0 [] [] []))
         (Some (mkMigrationData MigrationKey 0 0)) None) = Fail e s' /\ stored_version s' = 2.
Proof. apply (fails_with (fun s' => stored_version s' = 2)). vm_compute. reflexivity. Qed.
